(* ===== verification/_CoqProject ===== *)
-Q . S2P
Prelude.v
Bits.v
TraceDef.v
Trace.v
Stdio.v
TraceFile.v
Sink.v
Guest.v
FileBackend.v
FileMT.v
FileMTProof.v
SmiDef.v
SmiRing.v
SmiRingProof.v
SmiPosix.v
SmiConn.v
SmiHandles.v
SmiConnProof.v
SmiHandshake.v
SmiTrace.v
PrintBackend.v
I386.v
X86Mmu.v
ArmMmu.v
ArmLpae.v
ArmPmsa.v
ArmWalk.v
Arm.v
PpcMmu.v
Ppc.v
Ppc6xx.v
PpcHooks.v
TraceText.v
BinToStr.v
SmiClient.v
ArmPages.v
X86Pages.v
PpcTlb.v
PpcTlbProof.v
CpuTlb.v
CpuTlbProof.v
Coherence.v
SoftMmu.v
PpcFault.v
PpcMiss.v
PpcRun.v
X86Run.v
Timer.v
System.v
