(* ===== verification/Prelude.v ===== *)
(** * QEMTrace: a verification library

    QEMTrace is a patch of QEMU that records every instruction fetch, memory access and
    cache operation of a guest.  The code has four layers, all under [src/]:

    - the trace format: build switches ([QEMTrace/qem_trace_config.h]), the bit fields of
      the flag word of a record ([qem_trace_def.h]), the packed records
      ([qem_trace_engine.h]);
    - the backends, one of which is linked: text on the standard output
      ([qem_trace_print.c]), a file ([qem_trace_file.c]), a file written by a second thread
      ([qem_trace_file_mt_buff.c]), a shared memory stream ([qem_trace_smi.c]) over an
      engine on QEMU's side ([qem_trace_smi_engine.c]) and a library on the consumer's
      side ([SMILib/src/qem_posix_smi.c]);
    - the helpers of the architectures ([QEMTrace/arch/{i386,arm,ppc}]), which translate
      the address, build the flag word and call the backend;
    - the hooks in QEMU's translators ([Qemu/target/{i386,arm,ppc}/translate.c],
      [mem_helper.c], [include/exec/cpu_ldst_template.h]), which call the helpers.

    Beside them are the programs that read traces ([Tests/bin_to_str.cpp] and the
    consumers [Tests/{PPC,i386,ARM,ExecutionTime}/test_smi_client.c]) and the guest kernels
    of the tests ([Tests/{PPC,i386,ARM}/mini_kernel]), whose expected outputs are in the
    repository.

    ** How it is modelled

    C code is a function of the monad [C S A := S -> outcome (A * S)] of this file, over
    the record [S] of the globals it uses; an outcome is [Done], [Exit] (the process ends:
    [exit], [abort], a failed assertion) or [Undefined] (undefined behaviour).  Words are
    [Z] with their wrap-around written out ([u8], [u32], [u64], [i32]).  Code that runs
    concurrently is a table from program points to atomic actions, and a step relation
    interleaves the tables.  Uninitialised variables are arguments, over which theorems
    quantify.  Calls of the C library and of the system take their answers from a list, so
    that a theorem that holds for every list holds whatever calls fail.

    - [Prelude], [Bits]: the monad and its rules ([wp], [bind_step]), machine integers,
      bytes, bit fields, tactics.
    - [TraceDef], [Trace]: configuration, flag words ([encode], [decode]), records and
      headers as bytes ([pack], [unpack]), the record [qem_trace_output] builds
      ([new_trace]).
    - [Stdio]: C library and logger ([qem_trace_logger.h]).  [TraceFile]: trace files.
    - [Sink]: the abstract machine of the tracing API, a list of closed sessions and the
      open one, and the class [TraceSink] every backend implements: a simulation, progress,
      and a way to read the sessions back.
    - [FileBackend] ([qem_trace_file.c]); [FileMT] and [FileMTProof]
      ([qem_trace_file_mt_buff.c]); [PrintBackend] ([qem_trace_print.c]).
    - [SmiDef], [SmiRing], [SmiRingProof]: the ring of blocks between
      [qem_smi_client_send], [qem_smi_client_flush] and [qem_smi_receive];
      [SmiPosix], [SmiConn], [SmiHandles], [SmiConnProof], [SmiHandshake]: setting up,
      connecting and releasing the two ends; [SmiTrace]: the backend [qem_trace_smi.c] and
      the loop of the consumer in [Tests/PPC/test_smi_client.c].
    - [Guest]: a guest as a sequence of events run by the helpers of an architecture on
      any [TraceSink].
    - [I386]; [ArmMmu], [ArmLpae], [ArmPmsa], [ArmWalk], [Arm]; [PpcMmu], [Ppc], [Ppc6xx],
      [PpcHooks]: the helpers and the hooks, with the parts of QEMU's address translation
      they call, or that are the reference for them.  For ARM these are the
      short-descriptor walks, the long-descriptor walk, the protection units and
      [get_phys_addr] over all of them ([target/arm/helper.c]).
    - [X86Mmu]: the handler that translates the accesses of an i386 guest
      ([target/i386/excp_helper.c]), which the tracer does not call and has to agree with.
      [PpcTlb], [PpcTlbProof]: the instructions that manage the BookE 2.06 TLBs
      ([target/ppc/mmu_helper.c]), with the flushes of QEMU's cached translations.
      [PpcFault]: the handler that serves a miss of the software TLB of a PowerPC; [PpcMiss]: the
      registers it leaves to the guest.
    - [CpuTlb], [CpuTlbProof]: QEMU's software TLB ([accel/tcg/cputlb.c]), through which
      every access of a guest goes: tables of one slot per page and mode with a cache of
      victims, large pages, flushes, dirty tracking.  [Coherence]: the class [Mmu] of what
      the MMU model of a target promises, and the processor with its TLB over any instance.
      [SoftMmu]: the loads ([accel/tcg/softmmu_template.h]).  [PpcRun], [X86Run]: the e500 and
      the i386 as instances, with the instructions that change their translations
      ([target/i386/helper.c], [misc_helper.c]), composed with the tracer.
    - [ArmPages], [X86Pages], [PpcTlb]: the page tables and TLB entries the test kernels
      build ([paging_tool.c], [boot_stage1.asm], [tlb.c] and [kernel.c]), and tests of the
      repository with their expected outputs.
    - [TraceText], [BinToStr], [SmiClient]: the text of a record and the programs that
      print it.  [Timer]: the timer instructions of an architecture on any backend.
    - [System]: an architecture on a backend.

    ** What the theorems show

    - Backends keep every record.  [file_backend_lossless], [mt_lossless] (for every
      interleaving), [smi_backend_lossless], [smi_end_to_end] (over the ring, to the
      consumer) and [print_backend_refines]: the sessions read back are those of the
      abstract machine.  [file_backend_fail_stop]: when calls fail the process ends or
      nothing is lost.
    - Concurrency.  [ring_fifo], [ring_safe], [ring_no_deadlock]: what is received is what
      was sent, the two processes never touch the same block or run into undefined
      behaviour, and one of them can always go on.  [mt_mutual_exclusion],
      [mt_no_deadlock]: likewise for the two buffers of the threaded backend, and every
      schedule ends.
    - Connection.  [client_init_all_or_nothing], [handshake_agreement],
      [handshake_starts_ring]: initialisation succeeds or releases everything it got, both
      ends agree, and a handshake leaves the ring in its initial state.
    - Format.  [trace_flags_decode], [trace_roundtrip], [header_size_exact],
      [print_output_faithful], [record_text_determines]: a record, its bytes and its text
      carry the access.  [recorded_types]: every flag word an architecture emits is the
      code of an access, with the fields in their ranges.
    - Reading programs.  [bin_to_str_exact], [bin_to_str_file_backend],
      [consumer_prints], [consumer_stops], [consumer_size_mismatch]: from the calls of the
      tracing API to the text, which determines the records; the programs end or wait on
      every input.  [timer_elapsed]: the time printed is the one between the two
      instructions, whatever was traced in between.
    - Architectures.  [x86_walk_page_debug], [ppc_translation_agrees]: the address that is
      recorded is the one QEMU's own translation gives; [arm_translation_sound]: the
      translation the ARM tracer calls returns and keeps the offset in the page;
      [arm_long_descriptors_mair]: the cacheability recorded with long descriptors;
      [x86_access_recorded], [arm_access_recorded], [ppc_booke206_recorded],
      [ppc_immediate_address], [ppc_multiple_stores]: the flag word decodes to the access
      that was made.
    - Address translation of the guest.  [x86_mmu_translates]: the i386 handler always
      returns, and lets an access through exactly when the tables grant it ([x86_rights]);
      [x86_recorded_translation]: the tracer records the page it entered.
      [tlb_no_stale]: no sequence of TLB instructions of an e500 leaves a stale cached
      translation or an access outside the tables.  [ppc_fault_exact]: the e500 handler enters
      the page that the TLBs grant, or raises the exception of the access with the registers
      that describe it.
    - The software TLB.  [tlb_refines_map]: through any sequence of calls it is a part of a
      map of pages, and a hit gives the address of the byte in the page that was entered;
      [softmmu_load_bytes]: a load returns the bytes that the MMU model gives for its
      addresses, across two pages too.
    - From accesses to records.  [x86_recorded_is_accessed], [ppc_recorded_is_accessed]: after
      any run, the address recorded for a load or store is the one the access went to,
      whether it was served from the TLB or filled it.  For i386 the guest has to invalidate the pages
      whose entries it rewrites; [x86_stale_record] shows what is recorded when it does not.
    - Test kernels.  [arm_kernel_recorded], [x86_kernel_recorded]: the addresses recorded
      on the tables the kernels build; [translated_access_expected],
      [simple_address_expected], [ppc_tests_expected]: the model prints the expected
      outputs of four tests of the repository, character for character.
    - Composition.  [x86_shared_memory_exact], [ppc_threaded_file_exact]: from the events
      of a guest to what the consumer reads.
    - Behaviour that is not the intended one, with the exact conditions:
      [x86_inhibit_is_dirty], [x86_walk_ignores_pae], [arm_nonsecure_aborts],
      [arm_narrow_store_undefined], [arm_short_descriptors_uniform],
      [ppc_6xx_offset_lost], [ppc_traced_address_wrong], [zero_record_ends_session],
      [send_size_overflow], [init_filename_overflow], [failed_init_misuse],
      [ppc_misrecorded_accesses], [wide_letters_narrowed], [bin_to_str_errors],
      [x86_nested_null_prot], [missing_tlb_undefined], [x86_stale_record].

    ** Bounds

    Loops recurse on the number of iterations the code computes (ways, entries, registers,
    bytes), and the loops that wait are steps of the interleaving machines, whose progress
    is proved.  Some loops have fuel, shown to be enough: those of the reading
    programs, whose fuel is the length of the input plus one ([bin_to_str_exact],
    [consumer_stops]); the second-level loop of [paging_tool.c], 256 rounds as its index
    grows ([l2_loop_spec]), and the first-level one, three rounds ([set_l1_terminates]);
    the loops of [boot_stage1.asm], 1024 rounds ([loop_map_run], [loop_dir_run]); the loop over
    the modes to flush, 16 rounds for 16 bits, and the one that widens the region of large
    pages, 32 rounds for 32 bits ([flush_modes_spec], [extend_mask_spec]); the
    calls of a load, 2 deep ([softmmu_load_bytes]).  The file backends
    carry 10^8 sessions ([sink_max]), the number at which the file name no longer fits its
    buffer ([init_filename_overflow]).  A buffer has fewer than 2^32 records.  The
    shared memory carries records that are not all zeros, the end marker.

    ** Not modelled

    - QEMU itself: translation of instructions, devices, firmware.  Guest
      memory is a function, or a partial function where a read can fail.  For the software
      TLB the memory core is the class [MemoryMap]: what section backs a physical address.
      Not modelled of the TLB are the work queued for other processors (the model has one), the
      cache of translated blocks, the atomic accesses and the stores of
      [softmmu_template.h]: a store can change the tables that the next byte is translated
      with, and how the guest keeps its tables is part of the steps of [x86_step].
    - The ARM processor with its TLB: on the 32-bit target the tracer's translation is
      undefined behaviour ([arm_narrow_store_undefined]), so that there is no record to
      compare with the access.
    - i386: system management mode, the A20 gate closed, guests of a virtual machine in a run
      (the handler itself is modelled with nested paging); a change of [EFER.NXE] while
      the extended tables are in use.
    - ARM: the page size and the transaction attributes of a translation, which the tracer
      does not read; the theorems are about AArch32 processors (the definitions also
      cover the AArch64 regimes).  PowerPC: hashed page tables and the radix tree, which the tracer
      does not call (it aborts on these models); the 64-bit target.  The SPE and VSX units,
      and the locked, SSE and x87 accesses of i386, have no hooks.  i386: the 64-bit target.
    - [printf_env], which prints one register.
    - Under [Tests/]: the scripts, the serial drivers, interrupt controllers and messages
      of the kernels, and the tests other than the four whose outputs are computed; each
      of these is a list of instructions for hooks that are modelled.
    - The memory the guest kernels run from is taken as zero where they do not write.
    - Real time: a time-out is one of the possible answers of a wait. *)

From stdpp Require Export base list list_numbers numbers gmap strings pretty relations.
From Stdlib Require Export Ascii.

Declare Scope c_scope.
Delimit Scope c_scope with c.
Open Scope Z_scope.

(** ** Machine integers

    A [w]-bit unsigned C integer is a [Z] in [0, 2^w); every C operation that
    can leave that range is followed by the reduction below. *)

Definition wrap (w z : Z) : Z := z mod 2 ^ w.

Abbreviation u8 := (wrap 8).
Abbreviation u16 := (wrap 16).
Abbreviation u32 := (wrap 32).
Abbreviation u64 := (wrap 64).

(** Conversion of a [w]-bit pattern to the signed C type of that width. *)
Definition swrap (w z : Z) : Z := (z + 2 ^ (w - 1)) mod 2 ^ w - 2 ^ (w - 1).

Abbreviation i32 := (swrap 32).

(** The C tests [x & m] and [(x & m) == v]. *)
Definition bit_any (x m : Z) : bool := negb (Z.land x m =? 0).
Definition bits_eq (x m v : Z) : bool := Z.land x m =? v.

Notation "x '&&?' m" := (bit_any x m) (at level 40) : c_scope.
Notation "x '.|' y" := (Z.lor x y) (at level 50, left associativity) : c_scope.
Notation "x '.&' y" := (Z.land x y) (at level 40, left associativity) : c_scope.

(** The C conditional [b ? x : y] on integers, as used to build flag words. *)
Definition ite (b : bool) (x y : Z) : Z := if b then x else y.

Definition unsigned (w z : Z) : Prop := 0 <= z < 2 ^ w.

Lemma wrap_small w z : 0 <= z < 2 ^ w -> wrap w z = z.
Proof. apply Z.mod_small. Qed.

Lemma wrap_range w z : 0 <= w -> 0 <= wrap w z < 2 ^ w.
Proof. intros. apply Z.mod_pos_bound, Z.pow_pos_nonneg; lia. Qed.

Lemma wrap_wrap w z : wrap w (wrap w z) = wrap w z.
Proof. apply Zmod_mod. Qed.

Lemma wrap_add_l w a b : wrap w (wrap w a + b) = wrap w (a + b).
Proof. apply Zplus_mod_idemp_l. Qed.

Lemma bit_any_pow2 x i : 0 <= i -> bit_any x (Z.shiftl 1 i) = Z.testbit x i.
Proof.
  intros Hi. unfold bit_any. rewrite Z.shiftl_1_l.
  destruct (Z.testbit x i) eqn:E.
  - apply negb_true_iff, Z.eqb_neq. intros H.
    assert (Ht : Z.testbit (Z.land x (2 ^ i)) i = true)
      by (rewrite Z.land_spec, E, Z.pow2_bits_true; [done|lia]).
    by rewrite H, Z.bits_0 in Ht.
  - apply negb_false_iff, Z.eqb_eq, Z.bits_inj'. intros n Hn.
    rewrite Z.land_spec, Z.bits_0, Z.pow2_bits_eqb by lia.
    destruct (Z.eqb_spec i n) as [->|]; [by rewrite E|by rewrite andb_false_r].
Qed.

(** A number is a [w]-bit one exactly when its bits from [w] on are clear. *)
Lemma testbit_above w z i : 0 <= z < 2 ^ w -> 0 <= w <= i -> Z.testbit z i = false.
Proof.
  intros Hz Hi. rewrite <- (Z.mod_small z (2 ^ w)) by done.
  apply Z.mod_pow2_bits_high. lia.
Qed.

Lemma range_of_testbit w z :
  0 <= w -> (forall i, w <= i -> Z.testbit z i = false) -> 0 <= z < 2 ^ w.
Proof.
  intros Hw H. replace z with (z mod 2 ^ w).
  - apply Z.mod_pos_bound, Z.pow_pos_nonneg; lia.
  - apply Z.bits_inj'. intros i Hi. rewrite Z.testbit_mod_pow2 by lia.
    destruct (Z.ltb_spec i w); [done|]. by rewrite H by lia.
Qed.

Lemma lor_range w x y :
  0 <= w -> 0 <= x < 2 ^ w -> 0 <= y < 2 ^ w -> 0 <= Z.lor x y < 2 ^ w.
Proof.
  intros. apply range_of_testbit; [done|]. intros i Hi.
  by rewrite Z.lor_spec, !(testbit_above w) by lia.
Qed.

Lemma land_range w x y : 0 <= w -> 0 <= y < 2 ^ w -> 0 <= Z.land x y < 2 ^ w.
Proof.
  intros. apply range_of_testbit; [done|]. intros i Hi.
  by rewrite Z.land_spec, (testbit_above w y), andb_false_r by lia.
Qed.

(** ** Bytes and little-endian integers

    Memory is a list of bytes, each a [Z] in [0, 256).  [le n z] is what
    [memcpy] sees of an [n]-byte integer on the (x86) host; [le_val] reads it
    back. *)

Abbreviation bytes := (list Z).

Definition byte_ok (b : Z) : Prop := 0 <= b < 2 ^ 8.
Definition bytes_ok (bs : bytes) : Prop := Forall byte_ok bs.

Definition le (n : nat) (z : Z) : bytes := Z_to_little_endian (Z.of_nat n) 8 z.
Definition le_val (bs : bytes) : Z := little_endian_to_Z 8 bs.

Lemma length_le n z : length (le n z) = n.
Proof. pose proof (length_Z_to_little_endian (Z.of_nat n) 8 z). unfold le. lia. Qed.

Lemma le_ok n z : bytes_ok (le n z).
Proof. apply Z_to_little_endian_bound; lia. Qed.

Lemma le_val_le n z : le_val (le n z) = wrap (Z.of_nat n * 8) z.
Proof. apply little_endian_to_Z_to_little_endian; lia. Qed.

Lemma le_val_le_small n z : 0 <= z < 2 ^ (Z.of_nat n * 8) -> le_val (le n z) = z.
Proof. intros. rewrite le_val_le. by apply wrap_small. Qed.

Lemma le_le_val n bs : length bs = n -> bytes_ok bs -> le n (le_val bs) = bs.
Proof. intros <- ?. apply Z_to_little_endian_to_Z; [done|lia|done]. Qed.

Lemma le_wrap n z : le n (wrap (Z.of_nat n * 8) z) = le n z.
Proof.
  rewrite <- (le_le_val n (le n z)) by (apply length_le || apply le_ok).
  by rewrite le_val_le.
Qed.

Lemma le_inj n x y :
  0 <= x < 2 ^ (Z.of_nat n * 8) -> 0 <= y < 2 ^ (Z.of_nat n * 8) ->
  le n x = le n y -> x = y.
Proof.
  intros Hx Hy H. rewrite <- (le_val_le_small n x), <- (le_val_le_small n y) by done.
  by rewrite H.
Qed.

(** ** Memory blocks: slices, stores, and the checked [memcpy]

    [slice] and [splice] are the unchecked read and overwrite; [mem_read] and
    [mem_write] are the C accesses, [None] when the access leaves the object
    (undefined behaviour in C). *)

Definition slice {A} (off n : nat) (m : list A) : list A := take n (drop off m).

Definition splice {A} (off : nat) (bs m : list A) : list A :=
  take off m ++ bs ++ drop (off + length bs) m.

Definition mem_read {A} (off n : nat) (m : list A) : option (list A) :=
  if (off + n <=? length m)%nat then Some (slice off n m) else None.

Definition mem_write {A} (off : nat) (bs m : list A) : option (list A) :=
  if (off + length bs <=? length m)%nat then Some (splice off bs m) else None.

Section memory.
Context {A : Type}.
Implicit Types m bs : list A.

Lemma length_slice off n m :
  (off + n <= length m)%nat -> length (slice off n m) = n.
Proof. intros. unfold slice. rewrite length_take, length_drop. lia. Qed.

Lemma length_splice off bs m :
  (off + length bs <= length m)%nat -> length (splice off bs m) = length m.
Proof.
  intros. unfold splice. rewrite !length_app, length_take, length_drop. lia.
Qed.

Lemma slice_splice_same off bs m :
  (off + length bs <= length m)%nat -> slice off (length bs) (splice off bs m) = bs.
Proof.
  intros. unfold slice, splice.
  rewrite drop_app_length' by (rewrite length_take; lia).
  by rewrite take_app_length.
Qed.

Lemma slice_splice_below off bs m o n :
  (off + length bs <= length m)%nat -> (o + n <= off)%nat ->
  slice o n (splice off bs m) = slice o n m.
Proof.
  intros. unfold slice, splice.
  rewrite drop_app_le by (rewrite length_take; lia).
  rewrite take_app_le by (rewrite length_drop, length_take; lia).
  rewrite !take_drop_commute. by rewrite take_take, Nat.min_l by lia.
Qed.

Lemma slice_splice_above off bs m o n :
  (off + length bs <= length m)%nat -> (off + length bs <= o)%nat ->
  slice o n (splice off bs m) = slice o n m.
Proof.
  intros. unfold slice, splice. f_equal.
  rewrite drop_app_ge by (rewrite length_take; lia).
  rewrite drop_app_ge by (rewrite length_take; lia).
  rewrite drop_drop. f_equal. rewrite length_take. lia.
Qed.

Lemma slice_splice_disjoint off bs m o n :
  (off + length bs <= length m)%nat ->
  (o + n <= off)%nat \/ (off + length bs <= o)%nat ->
  slice o n (splice off bs m) = slice o n m.
Proof. intros ? [?|?]; [by apply slice_splice_below|by apply slice_splice_above]. Qed.

Lemma slice_splice_inside o n bs m :
  (length bs <= n)%nat -> (o + n <= length m)%nat ->
  slice o n (splice o bs m) = bs ++ drop (length bs) (slice o n m).
Proof.
  intros. unfold slice, splice.
  rewrite drop_app_length' by (rewrite length_take; lia).
  rewrite take_app_ge by lia. f_equal. rewrite skipn_firstn_comm. by rewrite drop_drop.
Qed.

Lemma slice_all m n : n = length m -> slice 0 n m = m.
Proof. intros ->. unfold slice. rewrite drop_0. by apply take_ge. Qed.

Lemma take_splice_end off bs m :
  (off + length bs <= length m)%nat ->
  take (off + length bs) (splice off bs m) = take off m ++ bs.
Proof.
  intros. unfold splice. rewrite app_assoc.
  rewrite take_app_length' by (rewrite length_app, length_take; lia). done.
Qed.

Lemma splice_full bs m : length bs = length m -> splice 0 bs m = bs.
Proof. intros H. unfold splice. rewrite drop_ge by lia. by rewrite take_0, app_nil_r. Qed.

Lemma slice_app_start (a b : list A) n : length a = n -> slice 0 n (a ++ b) = a.
Proof. intros <-. unfold slice. by rewrite drop_0, take_app_length. Qed.

Lemma slice_app_l (a b : list A) o n :
  (o + n <= length a)%nat -> slice o n (a ++ b) = slice o n a.
Proof.
  intros. unfold slice. rewrite drop_app_le by lia. rewrite take_app_le; [done|].
  rewrite length_drop. lia.
Qed.

Lemma slice_app_mid (a b c : list A) o n :
  length a = o -> length b = n -> slice o n (a ++ b ++ c) = b.
Proof. intros <- <-. unfold slice. by rewrite drop_app_length, take_app_length. Qed.

Lemma slice_app_end (a b : list A) o n :
  length a = o -> length b = n -> slice o n (a ++ b) = b.
Proof. intros. rewrite <- (app_nil_r b) at 1. by apply slice_app_mid. Qed.

Lemma mem_read_Some off n m :
  (off + n <= length m)%nat -> mem_read off n m = Some (slice off n m).
Proof. intros. unfold mem_read. by rewrite (proj2 (Nat.leb_le _ _)). Qed.

Lemma mem_write_Some off bs m :
  (off + length bs <= length m)%nat -> mem_write off bs m = Some (splice off bs m).
Proof. intros. unfold mem_write. by rewrite (proj2 (Nat.leb_le _ _)). Qed.

Lemma mem_write_inv off bs m m' :
  mem_write off bs m = Some m' ->
  (off + length bs <= length m)%nat /\ m' = splice off bs m.
Proof. unfold mem_write. destruct (Nat.leb_spec (off + length bs) (length m)); naive_solver. Qed.

Lemma mem_read_inv off n m bs :
  mem_read off n m = Some bs -> (off + n <= length m)%nat /\ bs = slice off n m.
Proof. unfold mem_read. destruct (Nat.leb_spec (off + n) (length m)); naive_solver. Qed.

Lemma Forall_slice (P : A -> Prop) off n m : Forall P m -> Forall P (slice off n m).
Proof. intros. unfold slice. by apply Forall_take, Forall_drop. Qed.

Lemma Forall_splice (P : A -> Prop) off bs m :
  Forall P m -> Forall P bs -> Forall P (splice off bs m).
Proof.
  intros. unfold splice. rewrite !Forall_app. eauto using Forall_take, Forall_drop.
Qed.
End memory.

Create HintDb mem.
Create Rewrite HintDb mem_len.
#[export] Hint Resolve Forall_slice Forall_splice le_ok : mem.
#[export] Hint Rewrite @length_le : mem_len.
#[export] Hint Rewrite @length_slice @length_splice using (autorewrite with mem_len; lia) : mem_len.

(** ** Effects of C code

    A piece of C code over a state [S] either returns a value with a new state,
    or ends the process with [exit(code)] (as [QEM_TRACE_ERROR] does), or has
    undefined behaviour: an access outside an object. *)

Inductive outcome (A : Type) : Type :=
  | Done (a : A)
  | Exit (code : Z)
  | Undefined.
Arguments Done {A} a.
Arguments Exit {A} code.
Arguments Undefined {A}.

Definition C (S A : Type) : Type := S -> outcome (A * S).

#[export] Instance C_ret S : MRet (C S) := fun A a s => Done (a, s).
#[export] Instance C_bind S : MBind (C S) := fun A B f m s =>
  match m s with
  | Done (a, s') => f a s'
  | Exit c => Exit c
  | Undefined => Undefined
  end.

Definition gets {S A} (f : S -> A) : C S A := fun s => Done (f s, s).
Definition modify {S} (f : S -> S) : C S () := fun s => Done ((), f s).
Definition exit_ {S A} (code : Z) : C S A := fun _ => Exit code.
(** A checked memory access: undefined behaviour when it fails. *)
Definition access_ {S A} (o : option A) : C S A := fun s =>
  match o with Some a => Done (a, s) | None => Undefined end.
Definition when {S} (b : bool) (m : C S ()) : C S () := if b then m else mret ().

(** Run code on a part of the state. *)
Definition zoom {S W A} (get : S -> W) (set : W -> S -> S) (m : C W A) : C S A := fun s =>
  match m (get s) with
  | Done (a, w) => Done (a, set w s)
  | Exit c => Exit c
  | Undefined => Undefined
  end.

Lemma run_gets {S A B} (f : S -> A) (k : A -> C S B) s : (gets f ≫= k) s = k (f s) s.
Proof. done. Qed.

Section effects.
Context {S : Type}.

Lemma zoom_step {W A} (get : S -> W) set (m : C W A) s a w :
  m (get s) = Done (a, w) -> zoom get set m s = Done (a, set w s).
Proof. intros H. unfold zoom. by rewrite H. Qed.

Lemma zoom_bind {W A B} (get : S -> W) set (m : C W A) (f : A -> C S B) s a w :
  m (get s) = Done (a, w) -> (zoom get set m ≫= f) s = f a (set w s).
Proof. intros H. unfold mbind, C_bind. by rewrite (zoom_step _ _ _ _ a w). Qed.

Lemma bind_Done {A B} (m : C S A) (f : A -> C S B) s b s' :
  (m ≫= f) s = Done (b, s') <-> exists a s1, m s = Done (a, s1) /\ f a s1 = Done (b, s').
Proof. unfold mbind, C_bind. destruct (m s) as [[a s1]| |]; naive_solver. Qed.

Lemma bind_step {A B} (m : C S A) (f : A -> C S B) s a s1 :
  m s = Done (a, s1) -> (m ≫= f) s = f a s1.
Proof. intros H. unfold mbind, C_bind. by rewrite H. Qed.

Lemma bind_congr {A B} (m m' : C S A) (k k' : A -> C S B) s :
  m s = m' s -> (forall a s1, k a s1 = k' a s1) -> (m ≫= k) s = (m' ≫= k') s.
Proof. intros Hm Hk. unfold mbind, C_bind. rewrite Hm. by destruct (m' s) as [[a s1]| |]. Qed.

Lemma bind_Undefined {A B} (m : C S A) (f : A -> C S B) s :
  m s = Undefined -> (m ≫= f) s = Undefined.
Proof. intros H. unfold mbind, C_bind. by rewrite H. Qed.

Lemma bind_Exit {A B} (m : C S A) (f : A -> C S B) s c :
  m s = Exit c -> (m ≫= f) s = Exit c.
Proof. intros H. unfold mbind, C_bind. by rewrite H. Qed.

Lemma gets_bind {A B} (g : S -> A) (f : A -> C S B) s : (gets g ≫= f) s = f (g s) s.
Proof. done. Qed.

Lemma modify_bind {B} (g : S -> S) (f : () -> C S B) s : (modify g ≫= f) s = f () (g s).
Proof. done. Qed.

Lemma ret_bind {A B} (a : A) (f : A -> C S B) s : (mret a ≫= f) s = f a s.
Proof. done. Qed.

Lemma access_bind {A B} (o : option A) a (f : A -> C S B) s :
  o = Some a -> (access_ o ≫= f) s = f a s.
Proof. by intros ->. Qed.

Lemma when_true (m : C S ()) : when true m = m.
Proof. done. Qed.

Lemma when_false (m : C S ()) : when false m = mret ().
Proof. done. Qed.
End effects.

Create Rewrite HintDb c_run.
#[export] Hint Rewrite @gets_bind @modify_bind @ret_bind @when_true @when_false : c_run.

(** ** Weakest preconditions

    [wp E m Q s]: run from [s], [m] does not meet undefined behaviour, leaves the
    process only if [E] holds, and satisfies [Q] when it returns.  [E] is a
    proposition fixed for a whole run, "some call of the environment may fail":
    at [False] a specification excludes the error exits, at [True] it says that
    the code is right or stops. *)

Definition wp {S A} (E : Prop) (m : C S A) (Q : A -> S -> Prop) (s : S) : Prop :=
  match m s with
  | Done (a, s') => Q a s'
  | Exit _ => E
  | Undefined => False
  end.

Arguments wp : simpl never.
Arguments when : simpl never.

Section wp.
Context {S : Type} (E : Prop).

Lemma wp_mono {A} (m : C S A) (Q Q' : A -> S -> Prop) s :
  wp E m Q s -> (forall a s', Q a s' -> Q' a s') -> wp E m Q' s.
Proof. unfold wp. destruct (m s) as [[a s']| |]; auto. Qed.

Lemma wp_bind {A B} (m : C S A) (f : A -> C S B) Q s :
  wp E m (fun a => wp E (f a) Q) s -> wp E (m ≫= f) Q s.
Proof. unfold wp, mbind, C_bind. by destruct (m s) as [[a s']| |]. Qed.

(** Sequencing, with the specification of the first part known. *)
Lemma wp_seq {A B} (m : C S A) (f : A -> C S B) P Q s :
  wp E m P s -> (forall a s', P a s' -> wp E (f a) Q s') -> wp E (m ≫= f) Q s.
Proof. intros. apply wp_bind. by eapply wp_mono. Qed.

Lemma wp_ret {A} (a : A) (Q : A -> S -> Prop) s : Q a s -> wp E (mret a) Q s.
Proof. done. Qed.

Lemma wp_gets {A B} (g : S -> A) (f : A -> C S B) Q s :
  wp E (f (g s)) Q s -> wp E (gets g ≫= f) Q s.
Proof. done. Qed.

Lemma wp_modify (g : S -> S) (Q : () -> S -> Prop) s : Q () (g s) -> wp E (modify g) Q s.
Proof. done. Qed.

Lemma wp_access {A B} (o : option A) a (f : A -> C S B) Q s :
  o = Some a -> wp E (f a) Q s -> wp E (access_ o ≫= f) Q s.
Proof. by intros ->. Qed.

Lemma wp_access_last {A} (o : option A) a (Q : A -> S -> Prop) s :
  o = Some a -> Q a s -> wp E (access_ o) Q s.
Proof. by intros ->. Qed.

Lemma wp_when (b : bool) m (Q : () -> S -> Prop) s :
  (b = true -> wp E m Q s) -> (b = false -> Q () s) -> wp E (when b m) Q s.
Proof. destruct b; [by intros H _; apply H|by intros _ H; apply H]. Qed.

Lemma wp_exit {A} c (Q : A -> S -> Prop) s : E -> wp E (exit_ c) Q s.
Proof. done. Qed.

Lemma wp_zoom {W A} (get : S -> W) set (m : C W A) (Q : A -> S -> Prop) s :
  wp E m (fun a w => Q a (set w s)) (get s) -> wp E (zoom get set m) Q s.
Proof. unfold wp, zoom. by destruct (m (get s)) as [[a w]| |]. Qed.

Lemma wp_Done {A} (m : C S A) Q s a s' : wp E m Q s -> m s = Done (a, s') -> Q a s'.
Proof. unfold wp. intros H He. by rewrite He in H. Qed.

Lemma wp_defined {A} (m : C S A) Q s : wp E m Q s -> m s <> Undefined.
Proof. unfold wp. intros H He. by rewrite He in H. Qed.
End wp.

(** Without faults a specification gives a result. *)
Lemma wp_total {S A} (m : C S A) Q s :
  wp False m Q s -> exists a s', m s = Done (a, s') /\ Q a s'.
Proof. unfold wp. destruct (m s) as [[a s']| |]; [eauto|done..]. Qed.

(** ** Tactics *)

(** Step through the administrative parts of C code under a [wp]. *)
Ltac wp_step :=
  lazymatch goal with
  | |- wp _ (gets _ ≫= _) _ _ => apply wp_gets
  | |- wp _ (modify _ ≫= _) _ _ => apply wp_bind, wp_modify
  | |- wp _ (mret _ ≫= _) _ _ => apply wp_bind, wp_ret
  | |- wp _ (modify _) _ _ => apply wp_modify
  | |- wp _ (mret _) _ _ => apply wp_ret
  end; cbn beta iota zeta.

(** Case analysis on every boolean comparison of the goal. *)
Ltac case_bool :=
  repeat match goal with
  | |- context [Z.eqb ?a ?b] => destruct (Z.eqb_spec a b)
  | |- context [Z.ltb ?a ?b] => destruct (Z.ltb_spec a b)
  | |- context [Z.leb ?a ?b] => destruct (Z.leb_spec a b)
  | |- context [Nat.eqb ?a ?b] => destruct (Nat.eqb_spec a b)
  | |- context [Nat.ltb ?a ?b] => destruct (Nat.ltb_spec a b)
  | |- context [Nat.leb ?a ?b] => destruct (Nat.leb_spec a b)
  end.

(** Run the administrative steps of C code applied to a state. *)
Ltac c_run := autorewrite with c_run; cbn beta iota.

(** Invert a run of sequenced C code that returned. *)
Ltac c_inv H :=
  repeat match type of H with
  | (_ ≫= _) _ = Done (_, _) =>
      let a := fresh "a" in let s := fresh "s" in let H1 := fresh H in
      apply bind_Done in H as (a & s & H1 & H)
  end.

(** Decide a closed proposition by evaluating its [Decision] instance. *)
Ltac decide_now :=
  match goal with |- ?P => apply (bool_decide_unpack P); vm_compute; exact I end.
