(* ===== verification/Bits.v ===== *)
(** * Bit fields

    Address translation cuts words into fields with masks and shifts.  The lemmas
    here relate a mask to the field it selects, and give the tactic [bits], which
    proves an equation between words bit by bit. *)

From S2P Require Import Prelude.

(** The [n] bits of [x] from bit [o] on. *)
Definition field (o n x : Z) : Z := Z.land (Z.shiftr x o) (Z.ones n).

Lemma testbit_shiftl a n i : Z.testbit (Z.shiftl a n) i = (0 <=? i) && Z.testbit a (i - n).
Proof.
  destruct (Z.leb_spec 0 i); [by apply Z.shiftl_spec|]. by apply Z.testbit_neg_r.
Qed.

Lemma testbit_shiftr a n i : Z.testbit (Z.shiftr a n) i = (0 <=? i) && Z.testbit a (i + n).
Proof.
  destruct (Z.leb_spec 0 i); [by apply Z.shiftr_spec|]. by apply Z.testbit_neg_r.
Qed.

Lemma testbit_ones n i : 0 <= n -> Z.testbit (Z.ones n) i = (0 <=? i) && (i <? n).
Proof. apply Z.testbit_ones. Qed.

Lemma testbit_lnot a i : Z.testbit (Z.lnot a) i = (0 <=? i) && negb (Z.testbit a i).
Proof.
  destruct (Z.leb_spec 0 i); [by apply Z.lnot_spec|]. by apply Z.testbit_neg_r.
Qed.

Lemma testbit_wrap w a i : 0 <= w -> Z.testbit (wrap w a) i = (i <? w) && Z.testbit a i.
Proof. intros. unfold wrap. by apply Z.testbit_mod_pow2. Qed.

Create Rewrite HintDb bits.
#[export] Hint Rewrite Z.land_spec Z.lor_spec Z.ldiff_spec testbit_shiftl testbit_shiftr
  testbit_lnot Z.bits_0 : bits.
#[export] Hint Rewrite testbit_ones testbit_wrap using lia : bits.

(** Compare two words bit by bit: the bit index is split at the bounds that
    occur, and a bit above the width of a bounded word is clear. *)
Ltac bit_cases :=
  repeat match goal with
  | |- context [?a <=? ?b] => destruct (Z.leb_spec a b)
  | |- context [?a <? ?b] => destruct (Z.ltb_spec a b)
  end; try (exfalso; lia).

Ltac bit_high :=
  repeat match goal with
  | H : 0 <= ?z < 2 ^ ?w |- context [Z.testbit ?z ?i] =>
      rewrite (testbit_above w z i H) by lia
  end.

Ltac bits :=
  apply Z.bits_inj'; intros ?i ?Hi; autorewrite with bits; bit_cases; bit_high;
  rewrite ?andb_true_l, ?andb_true_r, ?andb_false_l, ?andb_false_r, ?orb_false_l, ?orb_false_r,
    ?andb_true_l, ?andb_true_r;
  try reflexivity; try (f_equal; lia); try (exfalso; lia).

Lemma field_range o n x : 0 <= n -> 0 <= field o n x < 2 ^ n.
Proof. intros. unfold field. rewrite Z.land_ones by done. apply Z.mod_pos_bound. lia. Qed.

Lemma testbit_field o n x i :
  0 <= n -> Z.testbit (field o n x) i = (0 <=? i) && (i <? n) && Z.testbit x (i + o).
Proof.
  intros. unfold field. autorewrite with bits. destruct (0 <=? i), (i <? n); cbn; try done.
  all: by rewrite ?andb_true_r, ?andb_false_r.
Qed.
#[export] Hint Rewrite testbit_field using lia : bits.

(** A contiguous mask selects a field and leaves it in place. *)
Lemma land_mask o n x :
  0 <= o -> 0 <= n -> Z.land x (Z.shiftl (Z.ones n) o) = Z.shiftl (field o n x) o.
Proof. intros. bits. Qed.

Lemma field_wrap o n w x : 0 <= o -> 0 <= n -> o + n <= w -> field o n (wrap w x) = field o n x.
Proof. intros. bits. Qed.

(** A word is its high and low parts. *)
Lemma split_word w o x : 0 <= o -> 0 <= x < 2 ^ w -> o <= w ->
  x = Z.lor (Z.shiftl (field o (w - o) x) o) (field 0 o x).
Proof. intros Ho Hx Hw. bits. Qed.

Lemma lor_add a b : Z.land a b = 0 -> Z.lor a b = a + b.
Proof. intros H. rewrite <- Z.lxor_lor by done. symmetry. by apply Z.add_nocarry_lxor. Qed.

(** A word above [n] bits and one below them do not overlap. *)
Lemma lor_shiftl_add q n x :
  0 <= n -> 0 <= x < 2 ^ n -> Z.lor x (Z.shiftl q n) = x + Z.shiftl q n.
Proof.
  intros Hn Hx. apply lor_add, Z.bits_inj'. intros i Hi. rewrite Z.land_spec, Z.bits_0, Z.shiftl_spec by lia.
  destruct (Z.lt_ge_cases i n); [by rewrite (Z.testbit_neg_r q), andb_false_r by lia|].
  by rewrite (testbit_above n x).
Qed.

Lemma lor_eq_0 a b : (Z.lor a b =? 0) = (a =? 0) && (b =? 0).
Proof.
  destruct (Z.eqb_spec (Z.lor a b) 0) as [E|E].
  - apply Z.lor_eq_0_iff in E as [-> ->]. done.
  - destruct (Z.eqb_spec a 0) as [->|]; [|done]. destruct (Z.eqb_spec b 0) as [->|]; [|done].
    done.
Qed.

(** A protection that grants at most what another one does. *)
Definition prot_le (p q : Z) : Prop := Z.land p q = p.

Lemma prot_le_trans p q r : prot_le p q -> prot_le q r -> prot_le p r.
Proof. unfold prot_le. intros Hp Hq. by rewrite <- Hp, <- Z.land_assoc, Hq. Qed.

Lemma bit_any_sub x y m : prot_le x y -> bit_any x m = true -> bit_any y m = true.
Proof.
  unfold prot_le, bit_any. rewrite !negb_true_iff, !Z.eqb_neq. intros <- Hm Hy. apply Hm.
  by rewrite <- Z.land_assoc, Hy, Z.land_0_r.
Qed.

(** The numbers below a bound, one by one. *)
Lemma below_elem (n : nat) k : 0 <= k < Z.of_nat n -> k ∈ (Z.of_nat <$> seq 0 n).
Proof.
  intros Hk. apply list_elem_of_fmap. exists (Z.to_nat k). rewrite elem_of_seq. lia.
Qed.

Ltac below_cases n H :=
  apply (below_elem n) in H; cbn in H;
  repeat (apply elem_of_cons in H as [->|H]); [..|by apply elem_of_nil in H].
