(* ===== verification/TraceDef.v ===== *)
(** * Build configuration and trace format constants

    [qem_trace_config.h] (the compile-time switches) and [qem_trace_def.h] (the
    bit fields of the flag word of a trace).  Both branches of
    [#if QEM_TRACE_GATHER_META] are kept: a [trace_def] is the table of constants
    one branch defines, and the rest of the development takes the table of the
    configuration it runs under.  The second half states what a flag word means:
    [access] is the decoded form, [encode] and [decode] relate the two. *)

From S2P Require Import Prelude.

(** ** qem_trace_config.h *)

Inductive trace_type := QEM_TRACE_PRINT | QEM_TRACE_FILE | QEM_TRACE_SMI.

Record config := mk_config {
  QEM_TRACE_ENABLED : bool;
  QEM_TRACE_TYPE : trace_type;
  QEM_TRACE_TARGET_64 : bool;
  QEM_TRACE_PHYSICAL_ADDRESS : bool;
  QEM_TRACE_GATHER_META : bool;
  QEM_TRACE_BUFFER_SIZE : nat;
  QEM_TRACE_MT_BUFFER_EN : bool;
  QEM_SMI_BLOCK_COUNT : Z;
  QEM_SMI_BLOCK_SIZE : Z
}.

(** The configuration the repository ships. *)
Definition qem_trace_config : config := {|
  QEM_TRACE_ENABLED := true;
  QEM_TRACE_TYPE := QEM_TRACE_SMI;
  QEM_TRACE_TARGET_64 := false;
  QEM_TRACE_PHYSICAL_ADDRESS := true;
  QEM_TRACE_GATHER_META := true;
  QEM_TRACE_BUFFER_SIZE := Z.to_nat 10000;
  QEM_TRACE_MT_BUFFER_EN := true;
  QEM_SMI_BLOCK_COUNT := 8;
  QEM_SMI_BLOCK_SIZE := 10000000
|}.

(** A configuration with a buffer of two records, for the examples. *)
Definition cfg_small (meta t64 : bool) : config := {|
  QEM_TRACE_ENABLED := true; QEM_TRACE_TYPE := QEM_TRACE_FILE;
  QEM_TRACE_TARGET_64 := t64; QEM_TRACE_PHYSICAL_ADDRESS := true;
  QEM_TRACE_GATHER_META := meta; QEM_TRACE_BUFFER_SIZE := 2;
  QEM_TRACE_MT_BUFFER_EN := false; QEM_SMI_BLOCK_COUNT := 8;
  QEM_SMI_BLOCK_SIZE := 10000000
|}.

(** The instruction words the guest executes to drive the tracer. *)
Definition QEM_TRACE_START_OP := 0xFFFFFFF0.
Definition QEM_TRACE_STOP_OP := 0xFFFFFFF1.
Definition QEM_TRACE_DSTART_OP := 0xFFFFFFF2.
Definition QEM_TRACE_DSTOP_OP := 0xFFFFFFF3.
Definition QEM_TRACE_ISTART_OP := 0xFFFFFFF4.
Definition QEM_TRACE_ISTOP_OP := 0xFFFFFFF5.
Definition QEM_TRACE_START_TIMER_OP := 0xFFFFFFF6.
Definition QEM_TRACE_GET_TIMER_OP := 0xFFFFFFF7.
Definition QEM_TRACE_FLASH_INV_INST_OP := 0xFFFFFFF8.
Definition QEM_TRACE_FLASH_INV_DATA_OP := 0xFFFFFFF9.

(** ** qem_trace_def.h *)

(** [QEM_TRACE_TTYPE_E]: what is traced, a set of two bits. *)
Definition QEM_TRACE_DTRACE := 0x01.
Definition QEM_TRACE_ITRACE := 0x02.
Definition QEM_TRACE_ALLTRACE := 0x03.

Record trace_def := mk_trace_def {
  QEM_TRACE_ACCESS_TYPE_READ : Z;
  QEM_TRACE_ACCESS_TYPE_WRITE : Z;
  QEM_TRACE_ACCESS_TYPE_MASK : Z;
  QEM_TRACE_DATA_TYPE_DATA : Z;
  QEM_TRACE_DATA_TYPE_INST : Z;
  QEM_TRACE_DATA_TYPE_MASK : Z;
  QEM_TRACE_PL_KERNEL : Z;
  QEM_TRACE_PL_USER : Z;
  QEM_TRACE_PL_E_MASK : Z;
  QEM_TRACE_EVENT_ACCESS : Z;
  QEM_TRACE_EVENT_FLUSH : Z;
  QEM_TRACE_EVENT_INVALIDATE : Z;
  QEM_TRACE_EVENT_LOCK : Z;
  QEM_TRACE_EVENT_UNLOCK : Z;
  QEM_TRACE_EVENT_PREFETCH : Z;
  QEM_TRACE_EVENT_DCBZ : Z;
  QEM_TRACE_EVENT_MASK : Z;
  QEM_TRACE_GRANULARITY_LINE : Z;
  QEM_TRACE_GRANULARITY_SET : Z;
  QEM_TRACE_GRANULARITY_WAY : Z;
  QEM_TRACE_GRANULARITY_GLOBAL : Z;
  QEM_TRACE_GRANULARITY_NONE : Z;
  QEM_TRACE_GRANULARITY_MASK : Z;
  QEM_TRACE_DATA_SIZE_8_BITS : Z;
  QEM_TRACE_DATA_SIZE_16_BITS : Z;
  QEM_TRACE_DATA_SIZE_32_BITS : Z;
  QEM_TRACE_DATA_SIZE_64_BITS : Z;
  QEM_TRACE_DATA_SIZE_MASK : Z;
  QEM_TRACE_COHERENCY_NON_REQ : Z;
  QEM_TRACE_COHERENCY_REQ : Z;
  QEM_TRACE_COHERENCY_MASK : Z;
  QEM_TRACE_CACHE_LEVEL_1 : Z;
  QEM_TRACE_CACHE_LEVEL_2 : Z;
  QEM_TRACE_CACHE_LEVEL_3 : Z;
  QEM_TRACE_CACHE_LEVEL_ALL : Z;
  QEM_TRACE_CACHE_LEVEL_MASK : Z;
  QEM_TRACE_CACHE_INHIBIT_OFF : Z;
  QEM_TRACE_CACHE_INHIBIT_ON : Z;
  QEM_TRACE_CACHE_INHIBIT_MASK : Z;
  QEM_TRACE_CACHE_WT_OFF : Z;
  QEM_TRACE_CACHE_WT_ON : Z;
  QEM_TRACE_CACHE_WT_MASK : Z;
  QEM_TRACE_EVENT_NON_EXCLUSIVE : Z;
  QEM_TRACE_EVENT_EXCLUSIVE : Z;
  QEM_TRACE_EVENT_EXCLUSIVE_MASK : Z
}.

(** The constants with [QEM_TRACE_GATHER_META == 1]. *)
Definition qem_trace_def_meta : trace_def := {|
  QEM_TRACE_ACCESS_TYPE_READ := 0x00000000;
  QEM_TRACE_ACCESS_TYPE_WRITE := 0x00000100;
  QEM_TRACE_ACCESS_TYPE_MASK := 0x00000100;
  QEM_TRACE_DATA_TYPE_DATA := 0x00000000;
  QEM_TRACE_DATA_TYPE_INST := 0x00000200;
  QEM_TRACE_DATA_TYPE_MASK := 0x00000200;
  QEM_TRACE_PL_KERNEL := 0x00000000;
  QEM_TRACE_PL_USER := 0x00000400;
  QEM_TRACE_PL_E_MASK := 0x00000400;
  QEM_TRACE_EVENT_ACCESS := 0x00000000;
  QEM_TRACE_EVENT_FLUSH := 0x00000800;
  QEM_TRACE_EVENT_INVALIDATE := 0x00001000;
  QEM_TRACE_EVENT_LOCK := 0x00002000;
  QEM_TRACE_EVENT_UNLOCK := 0x00002800;
  QEM_TRACE_EVENT_PREFETCH := 0x00003000;
  QEM_TRACE_EVENT_DCBZ := 0x00003800;
  QEM_TRACE_EVENT_MASK := 0x00003800;
  QEM_TRACE_GRANULARITY_LINE := 0x00000000;
  QEM_TRACE_GRANULARITY_SET := 0x00004000;
  QEM_TRACE_GRANULARITY_WAY := 0x00008000;
  QEM_TRACE_GRANULARITY_GLOBAL := 0x0000C000;
  QEM_TRACE_GRANULARITY_NONE := 0x00000000;
  QEM_TRACE_GRANULARITY_MASK := 0x0000C000;
  QEM_TRACE_DATA_SIZE_8_BITS := 0x00000000;
  QEM_TRACE_DATA_SIZE_16_BITS := 0x00010000;
  QEM_TRACE_DATA_SIZE_32_BITS := 0x00020000;
  QEM_TRACE_DATA_SIZE_64_BITS := 0x00030000;
  QEM_TRACE_DATA_SIZE_MASK := 0x00030000;
  QEM_TRACE_COHERENCY_NON_REQ := 0x00000000;
  QEM_TRACE_COHERENCY_REQ := 0x00040000;
  QEM_TRACE_COHERENCY_MASK := 0x00040000;
  QEM_TRACE_CACHE_LEVEL_1 := 0x00000000;
  QEM_TRACE_CACHE_LEVEL_2 := 0x00080000;
  QEM_TRACE_CACHE_LEVEL_3 := 0x00100000;
  QEM_TRACE_CACHE_LEVEL_ALL := 0x00180000;
  QEM_TRACE_CACHE_LEVEL_MASK := 0x00180000;
  QEM_TRACE_CACHE_INHIBIT_OFF := 0x00000000;
  QEM_TRACE_CACHE_INHIBIT_ON := 0x00200000;
  QEM_TRACE_CACHE_INHIBIT_MASK := 0x00200000;
  QEM_TRACE_CACHE_WT_OFF := 0x00000000;
  QEM_TRACE_CACHE_WT_ON := 0x00400000;
  QEM_TRACE_CACHE_WT_MASK := 0x00400000;
  QEM_TRACE_EVENT_NON_EXCLUSIVE := 0x00000000;
  QEM_TRACE_EVENT_EXCLUSIVE := 0x00800000;
  QEM_TRACE_EVENT_EXCLUSIVE_MASK := 0x00800000
|}.

(** The constants with [QEM_TRACE_GATHER_META == 0]: five bits are left. *)
Definition qem_trace_def_nometa : trace_def := {|
  QEM_TRACE_ACCESS_TYPE_READ := 0x00000000;
  QEM_TRACE_ACCESS_TYPE_WRITE := 0x00000001;
  QEM_TRACE_ACCESS_TYPE_MASK := 0x00000001;
  QEM_TRACE_DATA_TYPE_DATA := 0x00000000;
  QEM_TRACE_DATA_TYPE_INST := 0x00000002;
  QEM_TRACE_DATA_TYPE_MASK := 0x00000002;
  QEM_TRACE_PL_KERNEL := 0x00000000;
  QEM_TRACE_PL_USER := 0x00000000;
  QEM_TRACE_PL_E_MASK := 0x00000000;
  QEM_TRACE_EVENT_ACCESS := 0x00000000;
  QEM_TRACE_EVENT_FLUSH := 0x00000004;
  QEM_TRACE_EVENT_INVALIDATE := 0x00000008;
  QEM_TRACE_EVENT_LOCK := 0x0000000C;
  QEM_TRACE_EVENT_UNLOCK := 0x00000010;
  QEM_TRACE_EVENT_PREFETCH := 0x00000014;
  QEM_TRACE_EVENT_DCBZ := 0x00000018;
  QEM_TRACE_EVENT_MASK := 0x0000001C;
  QEM_TRACE_GRANULARITY_LINE := 0x00000000;
  QEM_TRACE_GRANULARITY_SET := 0x00000000;
  QEM_TRACE_GRANULARITY_WAY := 0x00000000;
  QEM_TRACE_GRANULARITY_GLOBAL := 0x00000000;
  QEM_TRACE_GRANULARITY_NONE := 0x00000000;
  QEM_TRACE_GRANULARITY_MASK := 0x00000000;
  QEM_TRACE_DATA_SIZE_8_BITS := 0x00000000;
  QEM_TRACE_DATA_SIZE_16_BITS := 0x00000000;
  QEM_TRACE_DATA_SIZE_32_BITS := 0x00000000;
  QEM_TRACE_DATA_SIZE_64_BITS := 0x00000000;
  QEM_TRACE_DATA_SIZE_MASK := 0x00000000;
  QEM_TRACE_COHERENCY_NON_REQ := 0x00000000;
  QEM_TRACE_COHERENCY_REQ := 0x00000000;
  QEM_TRACE_COHERENCY_MASK := 0x00000000;
  QEM_TRACE_CACHE_LEVEL_1 := 0x00000000;
  QEM_TRACE_CACHE_LEVEL_2 := 0x00000000;
  QEM_TRACE_CACHE_LEVEL_3 := 0x00000000;
  QEM_TRACE_CACHE_LEVEL_ALL := 0x00000000;
  QEM_TRACE_CACHE_LEVEL_MASK := 0x00000000;
  QEM_TRACE_CACHE_INHIBIT_OFF := 0x00000000;
  QEM_TRACE_CACHE_INHIBIT_ON := 0x00000000;
  QEM_TRACE_CACHE_INHIBIT_MASK := 0x00000000;
  QEM_TRACE_CACHE_WT_OFF := 0x00000000;
  QEM_TRACE_CACHE_WT_ON := 0x00000000;
  QEM_TRACE_CACHE_WT_MASK := 0x00000000;
  QEM_TRACE_EVENT_NON_EXCLUSIVE := 0x00000000;
  QEM_TRACE_EVENT_EXCLUSIVE := 0x00000000;
  QEM_TRACE_EVENT_EXCLUSIVE_MASK := 0x00000000
|}.

Definition def_of (cfg : config) : trace_def :=
  if QEM_TRACE_GATHER_META cfg then qem_trace_def_meta else qem_trace_def_nometa.

(** ** What a flag word means *)

Inductive event :=
  | EvAccess | EvFlush | EvInvalidate | EvFlushInvalidate
  | EvLock | EvUnlock | EvPrefetch | EvDcbz.

Inductive granularity := GrLine | GrSet | GrWay | GrGlobal.

Inductive data_size := Size8 | Size16 | Size32 | Size64.

Inductive cache_level := Level1 | Level2 | Level3 | LevelAll.

#[export] Instance event_eq_dec : EqDecision event.
Proof. solve_decision. Defined.
#[export] Instance granularity_eq_dec : EqDecision granularity.
Proof. solve_decision. Defined.
#[export] Instance data_size_eq_dec : EqDecision data_size.
Proof. solve_decision. Defined.
#[export] Instance cache_level_eq_dec : EqDecision cache_level.
Proof. solve_decision. Defined.

(** A decoded flag word. *)
Record access := mk_access {
  acc_write : bool;
  acc_inst : bool;
  acc_user : bool;
  acc_event : event;
  acc_granularity : granularity;
  acc_size : data_size;
  acc_coherency : bool;
  acc_level : cache_level;
  acc_inhibit : bool;
  acc_wt : bool;
  acc_exclusive : bool
}.

#[export] Instance access_eq_dec : EqDecision access.
Proof. solve_decision. Defined.

Section encoding.
Context (d : trace_def).

Definition rw_code (b : bool) : Z :=
  ite b d.(QEM_TRACE_ACCESS_TYPE_WRITE) d.(QEM_TRACE_ACCESS_TYPE_READ).
Definition id_code (b : bool) : Z :=
  ite b d.(QEM_TRACE_DATA_TYPE_INST) d.(QEM_TRACE_DATA_TYPE_DATA).
Definition pl_code (b : bool) : Z :=
  ite b d.(QEM_TRACE_PL_USER) d.(QEM_TRACE_PL_KERNEL).
Definition event_code (e : event) : Z :=
  match e with
  | EvAccess => d.(QEM_TRACE_EVENT_ACCESS)
  | EvFlush => d.(QEM_TRACE_EVENT_FLUSH)
  | EvInvalidate => d.(QEM_TRACE_EVENT_INVALIDATE)
  | EvFlushInvalidate =>
      Z.lor d.(QEM_TRACE_EVENT_FLUSH) d.(QEM_TRACE_EVENT_INVALIDATE)
  | EvLock => d.(QEM_TRACE_EVENT_LOCK)
  | EvUnlock => d.(QEM_TRACE_EVENT_UNLOCK)
  | EvPrefetch => d.(QEM_TRACE_EVENT_PREFETCH)
  | EvDcbz => d.(QEM_TRACE_EVENT_DCBZ)
  end.
Definition gran_code (g : granularity) : Z :=
  match g with
  | GrLine => d.(QEM_TRACE_GRANULARITY_LINE)
  | GrSet => d.(QEM_TRACE_GRANULARITY_SET)
  | GrWay => d.(QEM_TRACE_GRANULARITY_WAY)
  | GrGlobal => d.(QEM_TRACE_GRANULARITY_GLOBAL)
  end.
Definition size_code (s : data_size) : Z :=
  match s with
  | Size8 => d.(QEM_TRACE_DATA_SIZE_8_BITS)
  | Size16 => d.(QEM_TRACE_DATA_SIZE_16_BITS)
  | Size32 => d.(QEM_TRACE_DATA_SIZE_32_BITS)
  | Size64 => d.(QEM_TRACE_DATA_SIZE_64_BITS)
  end.
Definition coherency_code (b : bool) : Z :=
  ite b d.(QEM_TRACE_COHERENCY_REQ) d.(QEM_TRACE_COHERENCY_NON_REQ).
Definition level_code (l : cache_level) : Z :=
  match l with
  | Level1 => d.(QEM_TRACE_CACHE_LEVEL_1)
  | Level2 => d.(QEM_TRACE_CACHE_LEVEL_2)
  | Level3 => d.(QEM_TRACE_CACHE_LEVEL_3)
  | LevelAll => d.(QEM_TRACE_CACHE_LEVEL_ALL)
  end.
Definition inhibit_code (b : bool) : Z :=
  ite b d.(QEM_TRACE_CACHE_INHIBIT_ON) d.(QEM_TRACE_CACHE_INHIBIT_OFF).
Definition wt_code (b : bool) : Z :=
  ite b d.(QEM_TRACE_CACHE_WT_ON) d.(QEM_TRACE_CACHE_WT_OFF).
Definition exclusive_code (b : bool) : Z :=
  ite b d.(QEM_TRACE_EVENT_EXCLUSIVE) d.(QEM_TRACE_EVENT_NON_EXCLUSIVE).

(** The flag word of an access: the union of its field codes. *)
Definition encode (a : access) : Z :=
  (rw_code (acc_write a) .| id_code (acc_inst a) .| pl_code (acc_user a)
   .| event_code (acc_event a) .| gran_code (acc_granularity a)
   .| size_code (acc_size a) .| coherency_code (acc_coherency a)
   .| level_code (acc_level a) .| inhibit_code (acc_inhibit a)
   .| wt_code (acc_wt a) .| exclusive_code (acc_exclusive a))%c.

(** Reading each field under its mask, as the trace consumers do. *)
Definition decode_event (w : Z) : event :=
  let m := d.(QEM_TRACE_EVENT_MASK) in
  if bits_eq w m d.(QEM_TRACE_EVENT_DCBZ) then EvDcbz
  else if bits_eq w m d.(QEM_TRACE_EVENT_PREFETCH) then EvPrefetch
  else if bits_eq w m d.(QEM_TRACE_EVENT_UNLOCK) then EvUnlock
  else if bits_eq w m d.(QEM_TRACE_EVENT_LOCK) then EvLock
  else if bits_eq w m (Z.lor d.(QEM_TRACE_EVENT_INVALIDATE) d.(QEM_TRACE_EVENT_FLUSH))
       then EvFlushInvalidate
  else if bits_eq w m d.(QEM_TRACE_EVENT_INVALIDATE) then EvInvalidate
  else if bits_eq w m d.(QEM_TRACE_EVENT_FLUSH) then EvFlush
  else EvAccess.
Definition decode_gran (w : Z) : granularity :=
  let m := d.(QEM_TRACE_GRANULARITY_MASK) in
  if bits_eq w m d.(QEM_TRACE_GRANULARITY_SET) then GrSet
  else if bits_eq w m d.(QEM_TRACE_GRANULARITY_WAY) then GrWay
  else if bits_eq w m d.(QEM_TRACE_GRANULARITY_GLOBAL) then GrGlobal
  else GrLine.
Definition decode_size (w : Z) : data_size :=
  let m := d.(QEM_TRACE_DATA_SIZE_MASK) in
  if bits_eq w m d.(QEM_TRACE_DATA_SIZE_16_BITS) then Size16
  else if bits_eq w m d.(QEM_TRACE_DATA_SIZE_32_BITS) then Size32
  else if bits_eq w m d.(QEM_TRACE_DATA_SIZE_64_BITS) then Size64
  else Size8.
Definition decode_level (w : Z) : cache_level :=
  let m := d.(QEM_TRACE_CACHE_LEVEL_MASK) in
  if bits_eq w m d.(QEM_TRACE_CACHE_LEVEL_ALL) then LevelAll
  else if bits_eq w m d.(QEM_TRACE_CACHE_LEVEL_3) then Level3
  else if bits_eq w m d.(QEM_TRACE_CACHE_LEVEL_2) then Level2
  else Level1.

Definition decode (w : Z) : access := {|
  acc_write := bit_any w d.(QEM_TRACE_ACCESS_TYPE_WRITE);
  acc_inst := bit_any w d.(QEM_TRACE_DATA_TYPE_INST);
  acc_user := bit_any w d.(QEM_TRACE_PL_USER);
  acc_event := decode_event w;
  acc_granularity := decode_gran w;
  acc_size := decode_size w;
  acc_coherency := bit_any w d.(QEM_TRACE_COHERENCY_REQ);
  acc_level := decode_level w;
  acc_inhibit := bit_any w d.(QEM_TRACE_CACHE_INHIBIT_ON);
  acc_wt := bit_any w d.(QEM_TRACE_CACHE_WT_ON);
  acc_exclusive := bit_any w d.(QEM_TRACE_EVENT_EXCLUSIVE)
|}.
End encoding.

(** The zero constants of the layouts. *)
Lemma zero_codes cfg :
  let d := def_of cfg in
  d.(QEM_TRACE_EVENT_ACCESS) = 0 /\ d.(QEM_TRACE_ACCESS_TYPE_READ) = 0 /\
  d.(QEM_TRACE_DATA_TYPE_DATA) = 0 /\ d.(QEM_TRACE_GRANULARITY_NONE) = 0 /\
  d.(QEM_TRACE_GRANULARITY_LINE) = 0 /\ d.(QEM_TRACE_COHERENCY_NON_REQ) = 0 /\
  d.(QEM_TRACE_CACHE_LEVEL_1) = 0 /\ d.(QEM_TRACE_CACHE_WT_OFF) = 0 /\
  d.(QEM_TRACE_EVENT_NON_EXCLUSIVE) = 0.
Proof. unfold def_of. destruct (QEM_TRACE_GATHER_META cfg); by split_and!. Qed.

(** All the bits of the flag word that carry meta-data. *)
Definition field_mask : Z := 0x00FFFF00.

(** Every mask of the meta-data layout lies in [field_mask]. *)
Lemma land_field_mask w m :
  Z.land field_mask m = m -> Z.land (Z.land w field_mask) m = Z.land w m.
Proof. intros H. by rewrite <- Z.land_assoc, H. Qed.

Lemma decode_field_mask w :
  decode qem_trace_def_meta (Z.land w field_mask) = decode qem_trace_def_meta w.
Proof.
  unfold decode, decode_event, decode_gran, decode_size, decode_level, bits_eq, bit_any.
  cbn [qem_trace_def_meta QEM_TRACE_ACCESS_TYPE_WRITE QEM_TRACE_DATA_TYPE_INST
       QEM_TRACE_PL_USER QEM_TRACE_EVENT_MASK QEM_TRACE_GRANULARITY_MASK
       QEM_TRACE_DATA_SIZE_MASK QEM_TRACE_COHERENCY_REQ QEM_TRACE_CACHE_LEVEL_MASK
       QEM_TRACE_CACHE_INHIBIT_ON QEM_TRACE_CACHE_WT_ON QEM_TRACE_EVENT_EXCLUSIVE].
  by rewrite !land_field_mask by reflexivity.
Qed.

(** Under the mask of one field, the code of every other field vanishes. *)
Ltac mask_codes :=
  repeat match goal with
  | |- context [Z.land (?f qem_trace_def_meta ?x) ?m] =>
      first [ replace (Z.land (f qem_trace_def_meta x) m) with 0
                by (destruct x; reflexivity)
            | replace (Z.land (f qem_trace_def_meta x) m) with (f qem_trace_def_meta x)
                by (destruct x; reflexivity) ]
  end.

Lemma decode_encode_meta a : decode qem_trace_def_meta (encode qem_trace_def_meta a) = a.
Proof.
  destruct a as [rw id pl ev gr sz co lv ci wt ex].
  unfold decode, decode_event, decode_gran, decode_size, decode_level, bits_eq, bit_any,
    encode.
  rewrite !Z.land_lor_distr_l. cbn [acc_write acc_inst acc_user acc_event
    acc_granularity acc_size acc_coherency acc_level acc_inhibit acc_wt acc_exclusive].
  f_equal; mask_codes; rewrite ?Z.lor_0_l, ?Z.lor_0_r;
    match goal with |- _ = ?x => destruct x; reflexivity end.
Qed.

Lemma encode_meta_field_mask a :
  Z.land (encode qem_trace_def_meta a) field_mask = encode qem_trace_def_meta a.
Proof.
  destruct a as [rw id pl ev gr sz co lv ci wt ex]. unfold encode.
  rewrite !Z.land_lor_distr_l. by mask_codes.
Qed.

Lemma encode_meta_range a : 0 <= encode qem_trace_def_meta a < 2 ^ 32.
Proof. rewrite <- encode_meta_field_mask. apply land_range; [lia|]. split; by vm_compute. Qed.

Create HintDb flags.
#[export] Hint Resolve decode_encode_meta encode_meta_field_mask decode_field_mask : flags.

(** ** Properties *)

(** Without meta-data a flag word is one byte; the access type, the data type
    and the event survive it, except that a flush-and-invalidate is
    indistinguishable from a lock. *)
Theorem nometa_decode a :
  let a' := decode qem_trace_def_nometa (u8 (encode qem_trace_def_nometa a)) in
  acc_write a' = acc_write a /\ acc_inst a' = acc_inst a /\
  acc_event a' = match acc_event a with EvFlushInvalidate => EvLock | e => e end.
Proof.
  destruct a as [rw id pl ev gr sz co lv ci wt ex].
  unfold encode. cbn [acc_write acc_inst acc_user acc_event
    acc_granularity acc_size acc_coherency acc_level acc_inhibit acc_wt acc_exclusive].
  replace (pl_code _ pl) with 0 by (by destruct pl).
  replace (gran_code _ gr) with 0 by (by destruct gr).
  replace (size_code _ sz) with 0 by (by destruct sz).
  replace (coherency_code _ co) with 0 by (by destruct co).
  replace (level_code _ lv) with 0 by (by destruct lv).
  replace (inhibit_code _ ci) with 0 by (by destruct ci).
  replace (wt_code _ wt) with 0 by (by destruct wt).
  replace (exclusive_code _ ex) with 0 by (by destruct ex).
  destruct rw, id, ev; by vm_compute.
Qed.
