(* ===== verification/Trace.v ===== *)
(** * Trace records and their byte layout

    The packed structures of [qem_trace_engine.h]: [qem_trace_t] (one of four
    layouts, chosen by the configuration) and [qem_trace_header_t]; how
    [qem_trace_output] fills a record; and the reader of a sequence of records,
    as the trace consumers read it. *)

From S2P Require Import Prelude TraceDef.

(** ** qem_trace_t *)

Record qem_trace_t := mk_trace {
  address : Z;
  timestamp : Z;
  flags : Z
}.

#[export] Instance qem_trace_t_eq_dec : EqDecision qem_trace_t.
Proof. solve_decision. Defined.

Section layout.
Context (cfg : config).

Definition addr_size : nat := if QEM_TRACE_TARGET_64 cfg then 8 else 4.

Definition sizeof_qem_trace_t : nat :=
  if QEM_TRACE_GATHER_META cfg then addr_size + 8 + 4 else addr_size + 1.

(** The bytes of a record.  Without meta-data there is no timestamp and the
    flag field is one byte. *)
Definition pack (t : qem_trace_t) : bytes :=
  if QEM_TRACE_GATHER_META cfg
  then le addr_size (address t) ++ le 8 (timestamp t) ++ le 4 (flags t)
  else le addr_size (address t) ++ le 1 (flags t).

Definition unpack (bs : bytes) : qem_trace_t :=
  if QEM_TRACE_GATHER_META cfg
  then {| address := le_val (slice 0 addr_size bs);
          timestamp := le_val (slice addr_size 8 bs);
          flags := le_val (slice (addr_size + 8) 4 bs) |}
  else {| address := le_val (slice 0 addr_size bs);
          timestamp := 0;
          flags := le_val (slice addr_size 1 bs) |}.

(** The values the fields of the structure can hold. *)
Definition trace_ok (t : qem_trace_t) : Prop :=
  0 <= address t < 2 ^ (Z.of_nat addr_size * 8) /\
  if QEM_TRACE_GATHER_META cfg
  then 0 <= timestamp t < 2 ^ 64 /\ 0 <= flags t < 2 ^ 32
  else timestamp t = 0 /\ 0 <= flags t < 2 ^ 8.

(** The initialiser of [new_trace] in [qem_trace_output], after the implicit
    conversions of the parameters ([uint32_t] or [uint64_t] addresses, a
    [uint64_t] time, [uint32_t] core and flags). *)
Definition new_trace (phys_addr core time flg : Z) : qem_trace_t :=
  let phys_addr := wrap (Z.of_nat addr_size * 8) phys_addr in
  let core := u32 core in
  let time := u64 time in
  let flg := u32 flg in
  if QEM_TRACE_GATHER_META cfg
  then {| address := phys_addr;
          timestamp := time;
          flags := ((core .& 0xFF) .| (flg .& 0xFFFFFF00))%c |}
  else {| address := phys_addr; timestamp := 0; flags := u8 flg |}.

(** ** qem_trace_header_t *)

Definition sizeof_qem_trace_header_t : nat := 16.

Definition pack_header (size struct_size version : Z) : bytes :=
  le 8 size ++ le 2 struct_size ++ le 1 version ++ replicate 5 0.

Record header_fields := mk_header {
  h_size : Z;
  h_struct_size : Z;
  h_version : Z
}.

Definition unpack_header (bs : bytes) : header_fields := {|
  h_size := le_val (slice 0 8 bs);
  h_struct_size := le_val (slice 8 2 bs);
  h_version := le_val (slice 10 1 bs)
|}.

(** Reading whole records until fewer than [sizeof_qem_trace_t] bytes are
    left, the loop of a trace consumer; the fuel is the number of bytes. *)
Fixpoint read_traces (fuel : nat) (bs : bytes) : list qem_trace_t :=
  match fuel with
  | O => []
  | S fuel =>
      if (sizeof_qem_trace_t <=? length bs)%nat
      then unpack (take sizeof_qem_trace_t bs)
           :: read_traces fuel (drop sizeof_qem_trace_t bs)
      else []
  end.

(** ** Lemmas *)

Lemma addr_size_pos : (0 < addr_size)%nat.
Proof. unfold addr_size. destruct QEM_TRACE_TARGET_64; lia. Qed.

Lemma sizeof_pos : (0 < sizeof_qem_trace_t)%nat.
Proof. unfold sizeof_qem_trace_t. destruct QEM_TRACE_GATHER_META; lia. Qed.

Lemma sizeof_le : (sizeof_qem_trace_t <= 20)%nat.
Proof.
  unfold sizeof_qem_trace_t, addr_size.
  destruct QEM_TRACE_GATHER_META, QEM_TRACE_TARGET_64; lia.
Qed.

Lemma length_pack t : length (pack t) = sizeof_qem_trace_t.
Proof.
  unfold pack, sizeof_qem_trace_t.
  destruct QEM_TRACE_GATHER_META; rewrite !length_app, !length_le; lia.
Qed.

Lemma pack_ok t : bytes_ok (pack t).
Proof.
  unfold pack, bytes_ok.
  destruct QEM_TRACE_GATHER_META; rewrite !Forall_app; repeat split; apply le_ok.
Qed.

Lemma length_pack_header a b c : length (pack_header a b c) = sizeof_qem_trace_header_t.
Proof. unfold pack_header. rewrite !length_app, !length_le. reflexivity. Qed.

Lemma unpack_pack t : trace_ok t -> unpack (pack t) = t.
Proof.
  unfold trace_ok, unpack, pack. pose proof addr_size_pos.
  destruct t as [a ts f]; cbn. destruct QEM_TRACE_GATHER_META.
  - intros (Ha & Ht & Hf).
    rewrite slice_app_start by (by rewrite length_le).
    rewrite slice_app_mid by (rewrite ?length_le; done).
    rewrite app_assoc, slice_app_end by (rewrite ?length_app, ?length_le; done).
    by rewrite !le_val_le_small by done.
  - intros (Ha & -> & Hf).
    rewrite slice_app_start by (by rewrite length_le).
    rewrite slice_app_end by (rewrite ?length_le; done).
    by rewrite !le_val_le_small by done.
Qed.

Lemma unpack_pack_header size ssize version :
  0 <= size < 2 ^ 64 -> 0 <= ssize < 2 ^ 16 -> 0 <= version < 2 ^ 8 ->
  unpack_header (pack_header size ssize version) = mk_header size ssize version.
Proof.
  intros. unfold unpack_header, pack_header.
  rewrite slice_app_start by (by rewrite length_le).
  rewrite slice_app_mid by (rewrite ?length_le; done).
  rewrite (app_assoc (le 8 size)), slice_app_mid
    by (rewrite ?length_app, ?length_le; done).
  by rewrite !le_val_le_small by done.
Qed.

Lemma new_trace_ok phys core time flg : trace_ok (new_trace phys core time flg).
Proof.
  unfold trace_ok, new_trace.
  destruct QEM_TRACE_GATHER_META; cbn [address timestamp flags].
  - split; [apply wrap_range; lia|]. split; [apply wrap_range; lia|].
    apply lor_range; [lia|apply land_range; lia..].
  - split; [apply wrap_range; lia|]. split; [done|]. apply wrap_range; lia.
Qed.

(** Reading back a concatenation of records gives the records. *)
Lemma read_traces_pack ts rest fuel :
  Forall trace_ok ts -> (length rest < sizeof_qem_trace_t)%nat ->
  (length ts < fuel)%nat ->
  read_traces fuel (concat (map pack ts) ++ rest) = ts.
Proof.
  intros Hok Hrest. revert fuel.
  induction Hok as [|t ts Ht Hok IH]; intros fuel Hf; destruct fuel as [|fuel];
    simpl in Hf; [lia| |lia|].
  - simpl. by rewrite (proj2 (Nat.leb_gt _ _)) by lia.
  - simpl. rewrite <- app_assoc.
    rewrite (proj2 (Nat.leb_le _ _)) by (rewrite length_app, length_pack; lia).
    rewrite take_app_length' by (by rewrite length_pack).
    rewrite drop_app_length' by (by rewrite length_pack).
    rewrite unpack_pack by done. f_equal. apply IH. lia.
Qed.

Lemma length_concat_pack ts :
  length (concat (map pack ts)) = (length ts * sizeof_qem_trace_t)%nat.
Proof.
  induction ts as [|t ts IH]; [done|]. simpl. rewrite length_app, IH, length_pack. lia.
Qed.
End layout.

#[export] Hint Resolve new_trace_ok pack_ok : mem.
#[export] Hint Rewrite @length_pack @length_pack_header @length_concat_pack : mem_len.

(** With meta-data the flag field keeps the access and the core apart. *)
Lemma new_trace_decode cfg phys core time a :
  QEM_TRACE_GATHER_META cfg = true -> 0 <= core < 2 ^ 32 ->
  let t := new_trace cfg phys core time (encode (def_of cfg) a) in
  decode (def_of cfg) (flags t) = a /\ Z.land (flags t) 0xFF = core mod 256.
Proof.
  intros Hm Hc. unfold new_trace, def_of. rewrite Hm. cbn [flags].
  rewrite (wrap_small 32 core), (wrap_small 32 (encode _ _)) by (done || apply encode_meta_range).
  assert (Hhi : Z.land (encode qem_trace_def_meta a) 0xFFFFFF00 = encode qem_trace_def_meta a).
  { by rewrite <- encode_meta_field_mask at 1; rewrite <- Z.land_assoc, encode_meta_field_mask. }
  rewrite Hhi. split.
  - rewrite <- decode_field_mask, Z.land_lor_distr_l, <- Z.land_assoc, encode_meta_field_mask.
    rewrite Z.land_0_r, Z.lor_0_l. apply decode_encode_meta.
  - rewrite Z.land_lor_distr_l, <- Z.land_assoc.
    rewrite <- (encode_meta_field_mask a), <- (Z.land_assoc _ field_mask), Z.land_0_r, Z.lor_0_r.
    apply (Z.land_ones core 8). lia.
Qed.

(** ** Properties *)

(** A record made by [qem_trace_output] is read back from its bytes
    unchanged, in each of the four layouts. *)
Theorem trace_roundtrip cfg phys core time flg :
  length (pack cfg (new_trace cfg phys core time flg)) = sizeof_qem_trace_t cfg /\
  unpack cfg (pack cfg (new_trace cfg phys core time flg)) = new_trace cfg phys core time flg.
Proof. split; [apply length_pack|apply unpack_pack, new_trace_ok]. Qed.

(** C14: with meta-data, the flag field of a record gives back every field of the
    access it was built from, and the number of the core modulo 256: the two do
    not interfere. *)
Theorem trace_flags_decode cfg phys core time a :
  QEM_TRACE_GATHER_META cfg = true -> 0 <= core < 2 ^ 32 ->
  let t := new_trace cfg phys core time (encode (def_of cfg) a) in
  decode (def_of cfg) (flags t) = a /\ Z.land (flags t) 0xFF = core mod 256.
Proof. apply new_trace_decode. Qed.

Lemma trace_flags_decode_witness :
  let a := mk_access true false true EvAccess GrLine Size32 true Level1 false true false in
  let t := new_trace qem_trace_config 4096 259 7 (encode (def_of qem_trace_config) a) in
  decode (def_of qem_trace_config) (flags t) = a /\ Z.land (flags t) 0xFF = 259 mod 256.
Proof. apply (trace_flags_decode qem_trace_config); [reflexivity|lia]. Defined.
