(* ===== verification/Stdio.v ===== *)
(** * The C library, as the tracer uses it, and the logger

    The standard streams and files the trace backends call ([remove], [fopen],
    [fseek], [fwrite], [fclose], [printf], [sprintf]), and the logging macros of
    [qem_trace_logger.h].  A file is the list of its bytes; an open stream is a
    name and a position.  Every call that can fail takes its answer from
    [w_faults], the list of answers the environment will give: 0 (also the answer
    once the list is exhausted) means the call succeeds.  The theorems hold for
    every list of answers unless they say otherwise. *)

From S2P Require Import Prelude.

(** ** Decimal output *)

Definition digit (n : Z) : ascii := ascii_of_nat (Z.to_nat (48 + n)).

(** [%u]: the digits of [n]; twenty digits are enough for 64 bits. *)
Fixpoint dec_digits (fuel : nat) (n : Z) (acc : string) : string :=
  match fuel with
  | O => acc
  | S fuel =>
      let acc := String (digit (n mod 10)) acc in
      if n / 10 =? 0 then acc else dec_digits fuel (n / 10) acc
  end.

Definition fmt_u (n : Z) : string := dec_digits 20 n "".

Fixpoint zeros (n : nat) : string :=
  match n with O => "" | S n => String "0" (zeros n) end.

(** [%d] and [%08d] of an [int]. *)
Definition fmt_d (n : Z) : string :=
  if n <? 0 then ("-" +:+ fmt_u (- n))%string else fmt_u n.
Definition fmt_08d (n : Z) : string :=
  let sign := if n <? 0 then "-"%string else ""%string in
  let ds := fmt_u (Z.abs n) in
  (sign +:+ zeros (8 - String.length sign - String.length ds) +:+ ds)%string.

(** ** Files *)

Record world := mk_world {
  w_fs : gmap string bytes;
  w_out : list string;       (* what was printed, last first *)
  w_faults : list Z          (* answers of the fallible calls to come *)
}.

Record FILE := mk_file { f_name : string; f_pos : nat }.

Definition world0 : world := {| w_fs := ∅; w_out := []; w_faults := [] |}.

(** The answer of the next fallible call. *)
Definition next_answer : C world Z := fun w =>
  match w_faults w with
  | [] => Done (0, w)
  | a :: l => Done (a, {| w_fs := w_fs w; w_out := w_out w; w_faults := l |})
  end.

Definition set_fs (f : gmap string bytes -> gmap string bytes) (w : world) : world :=
  {| w_fs := f (w_fs w); w_out := w_out w; w_faults := w_faults w |}.

Definition print (s : string) : C world () :=
  modify (fun w => {| w_fs := w_fs w; w_out := s :: w_out w; w_faults := w_faults w |}).

(** [sprintf(buf, ...)] into a buffer of [n] bytes: the text and its NUL must
    fit. *)
Definition sprintf (n : nat) (s : string) : C world string :=
  access_ (if (String.length s + 1 <=? n)%nat then Some s else None).

Definition remove (name : string) : C world () := modify (set_fs (delete name)).

(** [fopen(name, "wb+")]: [inl errno] stands for [NULL]. *)
Definition fopen_wb (name : string) : C world (Z + FILE) :=
  a ← next_answer;
  if a =? 0
  then modify (set_fs (<[name := []]>)) ;;
       mret (inr {| f_name := name; f_pos := 0 |})
  else mret (inl a).

(** [fopen(name, "rb")]: [None] stands for [NULL], the answer for a file that does
    not exist. *)
Definition fopen_rb (name : string) : C world (option FILE) :=
  a ← next_answer;
  fs ← gets w_fs;
  mret (if a =? 0 then (fun _ => {| f_name := name; f_pos := 0 |}) <$> fs !! name else None).

(** [fread(ptr, size, 1, fd)]: the bytes of the item, or [None] for the value 0 of
    an item that could not be read whole; the position moves by what was read.
    The answer is the number of bytes the call misses. *)
Definition fread (size : nat) (fd : FILE) : C world (option bytes * FILE) :=
  a ← next_answer;
  fs ← gets w_fs;
  data ← access_ (fs !! f_name fd);
  let bs := take (size - Z.to_nat a) (drop (f_pos fd) data) in
  mret (if (length bs =? size)%nat then Some bs else None,
        {| f_name := f_name fd; f_pos := f_pos fd + length bs |}).

(** [fseek(fd, 0, SEEK_SET)]. *)
Definition fseek_set0 (fd : FILE) : C world (Z * FILE) :=
  a ← next_answer;
  if a =? 0 then mret (0, {| f_name := f_name fd; f_pos := 0 |}) else mret (a, fd).

(** Overwriting the bytes of a file from a position on, extending it if the end
    is reached. *)
Definition file_put (pos : nat) (bs data : bytes) : bytes :=
  take pos data ++ bs ++ drop (pos + length bs) data.

(** [fwrite(ptr, size, n, fd)]: returns the number of items written; the answer
    is the number of items the call misses. *)
Definition fwrite (items : bytes) (size n : nat) (fd : FILE) : C world (Z * FILE) :=
  a ← next_answer;
  let k := (n - Z.to_nat a)%nat in
  let bs := take (size * k) items in
  modify (set_fs (alter (file_put (f_pos fd) bs) (f_name fd))) ;;
  mret (Z.of_nat k, {| f_name := f_name fd; f_pos := f_pos fd + length bs |}).

(** [fclose(fd)]: the value and [errno]. *)
Definition fclose (fd : FILE) : C world (Z * Z) :=
  a ← next_answer;
  if a =? 0 then mret (0, 0) else mret (-1, a).

(** ** qem_trace_logger.h *)

Definition newline : string := String "010" "".

Definition log_line (prefix msg : string) (code : Z) : string :=
  (prefix +:+ msg +:+
   (if negb (code =? 0)%Z then " | Code " +:+ fmt_d code +:+ newline else newline))%string.

Definition QEM_TRACE_INFO (msg : string) (code : Z) : C world () :=
  print (log_line "[QEMINFO] " msg code).

Definition QEM_TRACE_WARNING (msg : string) (code : Z) : C world () :=
  print (log_line "[QEMWARN] " msg code).

Definition QEM_TRACE_ERROR (msg : string) (code critical : Z) : C world () :=
  print (log_line "[QEMERROR] " msg code) ;;
  when (negb (critical =? 0)) (exit_ code).

(** ** Code with a world and an open stream in its state *)

Class HasStdio (S : Type) := {
  io_world : S -> world;
  io_set_world : world -> S -> S;
  io_fd : S -> option FILE;
  io_set_fd : option FILE -> S -> S
}.

Section stdio.
Context {S : Type} `{HasStdio S}.

(** A C library call. *)
Definition libc {A} (m : C world A) : C S A := zoom io_world io_set_world m.

(** A call on the open stream; using a null stream is undefined. *)
Definition on_fd (f : FILE -> C world (Z * FILE)) : C S Z :=
  o ← gets io_fd;
  fd ← access_ o;
  r ← libc (f fd);
  modify (io_set_fd (Some r.2)) ;;
  mret r.1.

Lemma wp_libc {A} E (m : C world A) Q s :
  wp E m (fun a w => Q a (io_set_world w s)) (io_world s) -> wp E (libc m) Q s.
Proof. apply wp_zoom. Qed.

Lemma wp_on_fd E f s fd (Q : Z -> S -> Prop) :
  io_fd s = Some fd ->
  wp E (f fd) (fun r w => Q r.1 (io_set_fd (Some r.2) (io_set_world w s))) (io_world s) ->
  wp E (on_fd f) Q s.
Proof.
  intros Hfd Hf. unfold on_fd. wp_step. rewrite Hfd. eapply wp_access; [done|].
  apply wp_bind, wp_libc. eapply wp_mono; [exact Hf|]. intros r w HQ. by do 2 wp_step.
Qed.
End stdio.

(** ** Lemmas *)

Lemma dec_digits_length_le fuel n acc k :
  0 <= n < 10 ^ Z.of_nat k -> (1 <= k)%nat ->
  (String.length (dec_digits fuel n acc) <= k + String.length acc)%nat.
Proof.
  revert n acc k. induction fuel as [|fuel IH]; intros n acc k Hn Hk; simpl; [lia|].
  destruct (Z.eqb_spec (n / 10) 0) as [|Hne]; [simpl; lia|].
  assert (10 <= n) by (destruct (Z.lt_ge_cases n 10); [|done];
    exfalso; apply Hne, Z.div_small; lia).
  destruct k as [|[|k]]; [lia|change (10 ^ Z.of_nat 1) with 10 in Hn; lia|].
  etrans; [apply (IH _ _ (S k)); [|lia]|simpl; lia].
  rewrite (Nat2Z.inj_succ (S k)), Z.pow_succ_r in Hn by lia.
  split; [apply Z.div_pos; lia|apply Z.div_lt_upper_bound; lia].
Qed.

Lemma dec_digits_length_ge fuel n acc k :
  10 ^ Z.of_nat k <= n -> (k < fuel)%nat ->
  (k + 1 + String.length acc <= String.length (dec_digits fuel n acc))%nat.
Proof.
  revert n acc k. induction fuel as [|fuel IH]; intros n acc k Hn Hk; simpl; [lia|].
  destruct k as [|k].
  - destruct (Z.eqb_spec (n / 10) 0); [simpl; lia|].
    destruct fuel; [simpl; lia|].
    assert (1 <= n / 10).
    { change (10 ^ Z.of_nat 0) with 1 in Hn. pose proof (Z.div_pos n 10). lia. }
    etrans; [|apply (IH (n / 10) _ 0%nat); [done|lia]]. simpl. lia.
  - rewrite Nat2Z.inj_succ, Z.pow_succ_r in Hn by lia.
    assert (10 ^ Z.of_nat k <= n / 10) by (apply Z.div_le_lower_bound; lia).
    assert (0 < 10 ^ Z.of_nat k) by (apply Z.pow_pos_nonneg; lia).
    destruct (Z.eqb_spec (n / 10) 0); [lia|].
    etrans; [|apply (IH (n / 10) _ k); [done|lia]]. simpl. lia.
Qed.

Lemma length_zeros n : String.length (zeros n) = n.
Proof. induction n; simpl; congruence. Qed.

Lemma length_string_app s t :
  String.length (s +:+ t) = (String.length s + String.length t)%nat.
Proof. induction s as [|c s IH]; [done|]. change (S (String.length (s +:+ t)) = S (String.length s + String.length t)). by rewrite IH. Qed.

(** [%08d] is eight characters wide exactly on numbers of at most eight digits. *)
Lemma length_fmt_08d n :
  0 <= n < 2 ^ 31 ->
  String.length (fmt_08d n) = if n <? 10 ^ 8 then 8%nat else String.length (fmt_u n).
Proof.
  intros Hn. unfold fmt_08d. rewrite (proj2 (Z.ltb_ge n 0)), Z.abs_eq by lia.
  rewrite !length_string_app, length_zeros. cbn [String.length].
  destruct (Z.ltb_spec n (10 ^ 8)).
  - pose proof (dec_digits_length_le 20 n "" 8) as H8. cbn [String.length] in H8.
    unfold fmt_u. lia.
  - pose proof (dec_digits_length_ge 20 n "" 8) as H8. cbn [String.length] in H8.
    unfold fmt_u. lia.
Qed.

Lemma file_put_end bs data : file_put (length data) bs data = data ++ bs.
Proof.
  unfold file_put. rewrite take_ge by lia. rewrite drop_ge by lia. by rewrite app_nil_r.
Qed.

Lemma file_put_start hdr hdr' data :
  length hdr' = length hdr -> file_put 0 hdr' (hdr ++ data) = hdr' ++ data.
Proof. intros H. unfold file_put. by rewrite take_0, Nat.add_0_l, H, drop_app_length. Qed.

(** ** Specifications of the calls

    [may_fail E w]: the world has answers other than success to give only if
    [E] holds. *)

Definition may_fail (E : Prop) (w : world) : Prop := w_faults w <> [] -> E.

Section calls.
Context (E : Prop).

Lemma wp_next_answer (Q : Z -> world -> Prop) w :
  may_fail E w ->
  (forall a w', (a <> 0 -> E) -> may_fail E w' -> w_fs w' = w_fs w -> Q a w') ->
  wp E next_answer Q w.
Proof.
  unfold may_fail, wp, next_answer. intros Hw HQ. destruct (w_faults w) as [|a l] eqn:Hf.
  - apply HQ; [done|by rewrite Hf|done].
  - apply HQ; cbn; auto.
Qed.

(** A write is complete, or the environment failed it. *)
Lemma wp_fwrite items size n fd (Q : Z * FILE -> world -> Prop) w :
  may_fail E w -> length items = (size * n)%nat ->
  (forall w', may_fail E w' ->
     w_fs w' = alter (file_put (f_pos fd) items) (f_name fd) (w_fs w) ->
     Q (Z.of_nat n, mk_file (f_name fd) (f_pos fd + length items)) w') ->
  (forall k fd' w', k <> Z.of_nat n -> E -> Q (k, fd') w') ->
  wp E (fwrite items size n fd) Q w.
Proof.
  intros Hw Hl Hok Hfail. unfold fwrite. apply wp_bind, wp_next_answer; [done|].
  intros a w' Ha Hw' Hfs. cbv zeta. apply wp_bind, wp_modify, wp_ret.
  destruct (decide (n - Z.to_nat a = n)%nat) as [Hn|Hn].
  - rewrite Hn, take_ge by lia. apply Hok; [done|]. cbn. by rewrite Hfs.
  - apply Hfail; [lia|]. apply Ha. lia.
Qed.

Lemma wp_fseek fd (Q : Z * FILE -> world -> Prop) w :
  may_fail E w ->
  (forall w', may_fail E w' -> w_fs w' = w_fs w -> Q (0, mk_file (f_name fd) 0) w') ->
  (forall k w', k <> 0 -> E -> Q (k, fd) w') ->
  wp E (fseek_set0 fd) Q w.
Proof.
  intros Hw Hok Hfail. unfold fseek_set0. apply wp_bind, wp_next_answer; [done|].
  intros a w' Ha Hw' Hfs. destruct (Z.eqb_spec a 0); apply wp_ret; auto.
Qed.

Lemma wp_fopen name (Q : Z + FILE -> world -> Prop) w :
  may_fail E w ->
  (forall w', may_fail E w' -> w_fs w' = <[name := []]> (w_fs w) ->
     Q (inr (mk_file name 0)) w') ->
  (forall e w', E -> Q (inl e) w') ->
  wp E (fopen_wb name) Q w.
Proof.
  intros Hw Hok Hfail. unfold fopen_wb. apply wp_bind, wp_next_answer; [done|].
  intros a w' Ha Hw' Hfs. destruct (Z.eqb_spec a 0).
  - apply wp_bind, wp_modify, wp_ret, Hok; [done|]. cbn. by rewrite Hfs.
  - apply wp_ret. auto.
Qed.

Lemma wp_fclose fd (Q : Z * Z -> world -> Prop) w :
  may_fail E w ->
  (forall r w', may_fail E w' -> w_fs w' = w_fs w -> Q r w') ->
  wp E (fclose fd) Q w.
Proof.
  intros Hw HQ. unfold fclose. apply wp_bind, wp_next_answer; [done|].
  intros a w' Ha Hw' Hfs. case_bool; apply wp_ret; auto.
Qed.

Lemma wp_sprintf n s (Q : string -> world -> Prop) w :
  (String.length s + 1 <= n)%nat -> Q s w -> wp E (sprintf n s) Q w.
Proof. intros Hn HQ. unfold sprintf. by rewrite (proj2 (Nat.leb_le _ _) Hn). Qed.

Lemma wp_info msg c (Q : () -> world -> Prop) w :
  may_fail E w ->
  (forall w', may_fail E w' -> w_fs w' = w_fs w -> Q () w') ->
  wp E (QEM_TRACE_INFO msg c) Q w.
Proof. intros Hw HQ. apply wp_modify. by apply HQ. Qed.

(** A critical error leaves the process. *)
Lemma wp_error_critical msg c (Q : () -> world -> Prop) w :
  E -> wp E (QEM_TRACE_ERROR msg c 1) Q w.
Proof. done. Qed.

Lemma wp_error msg c (Q : () -> world -> Prop) w :
  may_fail E w ->
  (forall w', may_fail E w' -> w_fs w' = w_fs w -> Q () w') ->
  wp E (QEM_TRACE_ERROR msg c 0) Q w.
Proof. intros Hw HQ. apply wp_bind, wp_modify. apply wp_ret. by apply HQ. Qed.

(** The check after a call: the expected value, or the process stops. *)
Lemma wp_check {S} `{HasStdio S} msg (e v : Z) (Q : () -> S -> Prop) s :
  (e <> v -> E) -> (e = v -> Q () s) ->
  wp E (when (negb (e =? v)) (libc (QEM_TRACE_ERROR msg e 1))) Q s.
Proof.
  intros HE HQ. destruct (Z.eqb_spec e v) as [->|Hne]; [by apply HQ|].
  by apply wp_libc, wp_error_critical, HE.
Qed.
End calls.

(** Reading digits back: [%08d] is injective on the numbers it can hold. *)
Fixpoint parse_digits (a : Z) (s : string) : Z :=
  match s with
  | EmptyString => a
  | String c s => parse_digits (10 * a + (Z.of_nat (nat_of_ascii c) - 48)) s
  end.

Lemma digit_val n : 0 <= n < 10 -> Z.of_nat (nat_of_ascii (digit n)) - 48 = n.
Proof. intros. unfold digit. rewrite nat_ascii_embedding by lia. lia. Qed.

Lemma parse_dec_digits fuel n acc :
  0 <= n < 10 ^ Z.of_nat fuel ->
  parse_digits 0 (dec_digits fuel n acc) = parse_digits n acc.
Proof.
  revert n acc. induction fuel as [|fuel IH]; intros n acc Hn.
  { change (10 ^ Z.of_nat 0) with 1 in Hn. simpl. by replace n with 0 by lia. }
  rewrite Nat2Z.inj_succ, Z.pow_succ_r in Hn by lia. simpl.
  pose proof (Z.mod_pos_bound n 10 eq_refl). pose proof (Z.div_mod n 10 ltac:(lia)).
  destruct (Z.eqb_spec (n / 10) 0).
  - cbn [parse_digits]. rewrite digit_val by lia. f_equal. lia.
  - rewrite IH.
    + cbn [parse_digits]. rewrite digit_val by lia. f_equal. lia.
    + split; [apply Z.div_pos; lia|apply Z.div_lt_upper_bound; lia].
Qed.

Lemma parse_zeros k s : parse_digits 0 (zeros k +:+ s) = parse_digits 0 s.
Proof. induction k as [|k IH]; [done|]. exact IH. Qed.

Lemma parse_fmt_08d n : 0 <= n < 10 ^ 8 -> parse_digits 0 (fmt_08d n) = n.
Proof.
  intros Hn. unfold fmt_08d. rewrite (proj2 (Z.ltb_ge n 0)), Z.abs_eq by lia.
  change ("" +:+ ?s)%string with s. rewrite parse_zeros. unfold fmt_u.
  rewrite parse_dec_digits; [done|]. change (10 ^ Z.of_nat 20) with (10 ^ 20). lia.
Qed.

Lemma string_app_inj_r s1 s2 t :
  String.length s1 = String.length s2 -> s1 +:+ t = s2 +:+ t -> s1 = s2.
Proof.
  revert s2. induction s1 as [|c s1 IH]; intros [|c2 s2] Hl He; try discriminate; [done|].
  cbn [String.append] in He. injection He as -> He. f_equal. apply IH; [|done].
  cbn in Hl. lia.
Qed.

(** ** Code that keeps a part of the state *)

Definition keeps {S A B} (f : S -> B) (m : C S A) : Prop :=
  forall s a s', m s = Done (a, s') -> f s' = f s.

Create HintDb keeps.

Section keeps.
Context {S B : Type} (f : S -> B).

Lemma keeps_bind {A A'} (m : C S A) (k : A -> C S A') :
  keeps f m -> (forall a, keeps f (k a)) -> keeps f (m ≫= k).
Proof.
  intros Hm Hk s a s' H. apply bind_Done in H as (b & s1 & H1 & H2).
  rewrite (Hk _ _ _ _ H2). by apply Hm in H1.
Qed.

Lemma keeps_ret {A} (a : A) : keeps f (mret a).
Proof. by intros s b s' [= _ <-]. Qed.
Lemma keeps_gets {A} (g : S -> A) : keeps f (gets g).
Proof. by intros s b s' [= _ <-]. Qed.
Lemma keeps_modify (g : S -> S) : (forall s, f (g s) = f s) -> keeps f (modify g).
Proof. intros Hg s b s' He. injection He as _ <-. apply Hg. Qed.
Lemma keeps_access {A} (o : option A) : keeps f (access_ o).
Proof. intros s b s'. unfold access_. destruct o; [|done]. by intros [= _ <-]. Qed.
Lemma keeps_when (b : bool) (m : C S ()) : keeps f m -> keeps f (when b m).
Proof. intros Hm. destruct b; [exact Hm|apply keeps_ret]. Qed.
Lemma keeps_libc `{HasStdio S} {A} (m : C world A) :
  (forall w s, f (io_set_world w s) = f s) -> keeps f (libc m).
Proof.
  intros Hw s a s'. unfold libc, zoom. destruct (m (io_world s)) as [[b w]| |]; try done.
  intros [= _ <-]. apply Hw.
Qed.
End keeps.

Ltac keeps :=
  repeat first
    [ apply keeps_bind; [|intros ?] | apply keeps_ret | apply keeps_gets | apply keeps_access
    | apply keeps_when | by apply keeps_libc | by apply keeps_modify
    | progress (autounfold with keeps) | case_match ].

#[export] Hint Unfold on_fd : keeps.
