(* ===== verification/TraceFile.v ===== *)
(** * Trace files

    The name, contents and reading of a trace file, shared by the two file
    backends ([qem_trace_file.c] and [qem_trace_file_mt_buff.c]): the file
    [qem_trace_%08d.out] holds a header and the packed records. *)

From S2P Require Import Prelude TraceDef Trace Stdio.

Definition trace_filename (index : Z) : string :=
  ("qem_trace_" +:+ fmt_08d (i32 index) +:+ ".out")%string.

Lemma i32_small z : 0 <= z < 2 ^ 31 -> i32 z = z.
Proof. intros. unfold swrap. rewrite Z.mod_small by lia. lia. Qed.

Lemma length_trace_filename i :
  0 <= i < 10 ^ 8 -> String.length (trace_filename i) = 22%nat.
Proof.
  intros. unfold trace_filename. rewrite i32_small by lia.
  rewrite !length_string_app, length_fmt_08d by lia.
  by rewrite (proj2 (Z.ltb_lt _ _)) by lia.
Qed.

Lemma length_trace_filename_ge i :
  10 ^ 8 <= i < 2 ^ 31 -> (23 <= String.length (trace_filename i))%nat.
Proof.
  intros. unfold trace_filename. rewrite i32_small by lia.
  rewrite !length_string_app, length_fmt_08d by lia.
  rewrite (proj2 (Z.ltb_ge _ _)) by lia.
  pose proof (dec_digits_length_ge 20 i "" 8 ltac:(lia) ltac:(lia)) as Hd.
  unfold fmt_u. cbn [String.length] in *. lia.
Qed.

Lemma trace_filename_inj i j :
  0 <= i < 10 ^ 8 -> 0 <= j < 10 ^ 8 -> trace_filename i = trace_filename j -> i = j.
Proof.
  intros Hi Hj. unfold trace_filename. rewrite !i32_small by lia.
  cbn [String.append]. intros He. injection He as He.
  change (fmt_08d i +:+ ".out" = fmt_08d j +:+ ".out") in He.
  apply string_app_inj_r in He.
  - rewrite <- (parse_fmt_08d i), <- (parse_fmt_08d j) by done. by rewrite He.
  - rewrite !length_fmt_08d by lia. by rewrite !(proj2 (Z.ltb_lt _ _)) by lia.
Qed.

Section contents.
Context (cfg : config).
Abbreviation sz := (sizeof_qem_trace_t cfg).
Abbreviation packs ts := (concat (map (pack cfg) ts)).

(** The contents of the file of a closed session. *)
Definition file_bytes (ts : list qem_trace_t) : bytes :=
  pack_header (Z.of_nat sz + Z.of_nat (length ts * sz)) (Z.of_nat sz) 1 ++ packs ts.

(** What a consumer reads in a trace file: the records after the header. *)
Definition read_file (data : bytes) : list qem_trace_t :=
  read_traces cfg (length data) (drop 16 data).

Lemma pack_header_u64 size ssize v :
  pack_header (u64 size) ssize v = pack_header size ssize v.
Proof. unfold pack_header. f_equal. apply le_wrap. Qed.

Lemma read_file_bytes ts : Forall (trace_ok cfg) ts -> read_file (file_bytes ts) = ts.
Proof.
  intros Hok. unfold read_file, file_bytes. rewrite length_app, length_pack_header.
  rewrite drop_app_length' by (by rewrite length_pack_header).
  rewrite <- (app_nil_r (packs ts)) at 2. apply read_traces_pack; [done|apply sizeof_pos|].
  rewrite length_concat_pack. pose proof (sizeof_pos cfg). unfold sizeof_qem_trace_header_t. nia.
Qed.
(** Appending packed records to a file that ends with its last record. *)
Lemma append_packs hdr ts1 ts2 :
  length hdr = 16%nat ->
  file_put (16 + length ts1 * sz) (packs ts2) (hdr ++ packs ts1) = hdr ++ packs (ts1 ++ ts2).
Proof.
  intros Hhdr.
  replace (16 + length ts1 * sz)%nat with (length (hdr ++ packs ts1))
    by (rewrite length_app, length_concat_pack; lia).
  by rewrite file_put_end, map_app, concat_app, app_assoc.
Qed.
End contents.

(** ** Properties *)

(** The [size] field of the header of a closed trace file is the size of the
    file exactly when a record is 16 bytes long, as the header is: the count
    starts at [sizeof(qem_trace_t)], not at the size of the header. *)
Theorem header_size_exact cfg ts :
  Z.of_nat (20 + length ts * sizeof_qem_trace_t cfg) < 2 ^ 64 ->
  h_size (unpack_header (take 16 (file_bytes cfg ts))) = Z.of_nat (length (file_bytes cfg ts)) <->
  sizeof_qem_trace_t cfg = 16%nat.
Proof.
  intros Hlt. pose proof (sizeof_le cfg) as Hle. unfold file_bytes.
  rewrite take_app_length' by (by rewrite length_pack_header).
  rewrite unpack_pack_header, length_app, length_pack_header, length_concat_pack by lia.
  cbn [h_size]. unfold sizeof_qem_trace_header_t. lia.
Qed.

Lemma header_size_exact_witness :
  sizeof_qem_trace_t (cfg_small true false) = 16%nat /\
  h_size (unpack_header (take 16 (file_bytes (cfg_small true true) []))) <>
    Z.of_nat (length (file_bytes (cfg_small true true) [])).
Proof.
  split; [reflexivity|]. intros H. apply header_size_exact in H; [|vm_compute; reflexivity].
  vm_compute in H. discriminate H.
Defined.
