(* ===== verification/Sink.v ===== *)
(** * What a trace backend promises

    The three functions every backend exports ([qem_trace_enable],
    [qem_trace_disable], [qem_trace_output], declared in [qem_trace_engine.h]), an
    abstract machine for them (a sequence of trace sessions), and the interface
    [TraceSink] a backend implements: it simulates the abstract machine, and the
    sessions can be read back from what it wrote.  The architecture code is
    verified against the interface, the backends discharge it. *)

From S2P Require Import Prelude TraceDef Trace.

(** A call of the tracing API. *)
Inductive op :=
  | OpEnable (type : Z)
  | OpDisable (type : Z)
  | OpOutput (virt_addr phys_addr core time flg : Z).

(** The abstract machine: the tracing state, the records of the session that is
    open, and the records of the sessions that were closed, oldest first. *)
Record spec_state := mk_spec {
  sp_tracing : Z;
  sp_open : list qem_trace_t;
  sp_closed : list (list qem_trace_t)
}.

Definition spec_init : spec_state := mk_spec 0 [] [].

Definition spec_enable (type : Z) (sp : spec_state) : spec_state :=
  mk_spec type (if sp_tracing sp =? 0 then [] else sp_open sp) (sp_closed sp).

Definition spec_disable (type : Z) (sp : spec_state) : spec_state :=
  if sp_tracing sp =? 0 then sp
  else
    let st := Z.land (sp_tracing sp) (Z.lnot type) in
    if st =? 0 then mk_spec 0 [] (sp_closed sp ++ [sp_open sp])
    else mk_spec st (sp_open sp) (sp_closed sp).

Definition spec_output (t : qem_trace_t) (sp : spec_state) : spec_state :=
  mk_spec (sp_tracing sp) (sp_open sp ++ [t]) (sp_closed sp).

Definition spec_op (cfg : config) (o : op) (sp : spec_state) : spec_state :=
  match o with
  | OpEnable ty => spec_enable ty sp
  | OpDisable ty => spec_disable ty sp
  | OpOutput _ pa core time flg => spec_output (new_trace cfg pa core time flg) sp
  end.

Definition spec_ops (cfg : config) (os : list op) (sp : spec_state) : spec_state :=
  foldl (fun sp o => spec_op cfg o sp) sp os.

(** The three values of [QEM_TRACE_TTYPE_E]. *)
Definition ttype (z : Z) : Prop :=
  z = QEM_TRACE_DTRACE \/ z = QEM_TRACE_ITRACE \/ z = QEM_TRACE_ALLTRACE.

(** Calls a backend must serve in a state: the types are those of the
    enumeration, a record is output only while tracing is on (the guard of every
    helper), and at most [max] sessions are opened. *)
Definition op_ok (max : Z) (o : op) (sp : spec_state) : Prop :=
  match o with
  | OpEnable ty => ttype ty /\ Z.of_nat (length (sp_closed sp)) < max
  | OpDisable ty => ttype ty
  | OpOutput _ _ _ _ _ => sp_tracing sp <> 0
  end.

Fixpoint ops_ok (cfg : config) (max : Z) (os : list op) (sp : spec_state) : Prop :=
  match os with
  | [] => True
  | o :: os => op_ok max o sp /\ ops_ok cfg max os (spec_op cfg o sp)
  end.

#[export] Instance ttype_dec z : Decision (ttype z).
Proof. unfold ttype. apply _. Defined.
#[export] Instance op_ok_dec max o sp : Decision (op_ok max o sp).
Proof. destruct o; cbn; apply _. Defined.
#[export] Instance ops_ok_dec cfg max os sp : Decision (ops_ok cfg max os sp).
Proof. revert sp. induction os as [|o os IH]; intros sp; cbn; apply _. Defined.

(** The tracing state stays in the enumeration, or zero. *)
Definition tracing_ok (z : Z) : Prop := 0 <= z <= 3.

Lemma ttype_range ty : ttype ty -> 1 <= ty <= 3.
Proof.
  unfold ttype, QEM_TRACE_DTRACE, QEM_TRACE_ITRACE, QEM_TRACE_ALLTRACE. lia.
Qed.

Lemma land_lnot_tracing z ty :
  tracing_ok z -> ttype ty -> 0 <= Z.land z (Z.lnot ty) <= 3.
Proof.
  unfold tracing_ok, ttype, QEM_TRACE_DTRACE, QEM_TRACE_ITRACE, QEM_TRACE_ALLTRACE.
  intros Hz Hty.
  assert (Hc : z = 0 \/ z = 1 \/ z = 2 \/ z = 3) by lia.
  destruct Hc as [-> | [-> | [-> | ->]]], Hty as [-> | [-> | ->]]; split; by vm_compute.
Qed.

(** The records a call outputs. *)
Definition op_carries (cfg : config) (P : qem_trace_t -> Prop) (o : op) : Prop :=
  match o with
  | OpOutput _ pa core time flg => P (new_trace cfg pa core time flg)
  | _ => True
  end.

(** ** The interface *)

Class TraceSink (cfg : config) (S : Type) := {
  (** [sink_run o s s']: the call [o] can take the backend from [s] to [s']. *)
  sink_run : op -> S -> S -> Prop;
  (** Simulation relation with the abstract machine. *)
  sink_rel : spec_state -> S -> Prop;
  (** How many sessions the backend can hold. *)
  sink_max : Z;
  (** The records the backend can carry. *)
  sink_carries : qem_trace_t -> Prop;
  (** The global [qem_tracing_state]. *)
  sink_tracing : S -> Z;
  (** The closed sessions, read back from what the backend wrote. *)
  sink_sessions : S -> list (list qem_trace_t);

  sink_sound sp s o s' :
    sink_rel sp s -> op_ok sink_max o sp -> op_carries cfg sink_carries o -> sink_run o s s' ->
    sink_rel (spec_op cfg o sp) s';
  sink_progress sp s o :
    sink_rel sp s -> op_ok sink_max o sp -> op_carries cfg sink_carries o ->
    exists s', sink_run o s s';
  sink_read_back sp s :
    sink_rel sp s -> sink_sessions s = sp_closed sp;
  sink_tracing_spec sp s :
    sink_rel sp s -> sink_tracing s = sp_tracing sp
}.

Arguments sink_max cfg S {_}.
Arguments sink_carries cfg S {_}.
Arguments sink_tracing cfg {S _}.
Arguments sink_sessions cfg {S _}.

(** A run of a sequence of calls. *)
Inductive sink_runs {cfg S} `{TraceSink cfg S} : list op -> S -> S -> Prop :=
  | runs_nil s : sink_runs [] s s
  | runs_cons o os s s1 s2 : sink_run o s s1 -> sink_runs os s1 s2 -> sink_runs (o :: os) s s2.

Section sink.
Context {cfg : config} {S : Type} `{TraceSink cfg S}.
Abbreviation carried os := (Forall (op_carries cfg (sink_carries cfg S)) os).

Lemma sink_runs_sound os : forall sp s s',
  sink_rel sp s -> ops_ok cfg (sink_max cfg S) os sp -> carried os -> sink_runs os s s' ->
  sink_rel (spec_ops cfg os sp) s'.
Proof.
  induction os as [|o os IH]; intros sp s s' Hrel Hok Hc Hrun; inversion Hrun; subst; [done|].
  destruct Hok as [Ho Hos]. apply Forall_cons in Hc as [Hc Hcs].
  cbn. eapply IH; [|done..]. by eapply sink_sound.
Qed.

Lemma sink_runs_progress os : forall sp s,
  sink_rel sp s -> ops_ok cfg (sink_max cfg S) os sp -> carried os ->
  exists s', sink_runs os s s'.
Proof.
  induction os as [|o os IH]; intros sp s Hrel Hok Hc; [eexists; constructor|].
  destruct Hok as [Ho Hos]. apply Forall_cons in Hc as [Hc Hcs].
  destruct (sink_progress sp s o) as [s1 Hs1]; [done..|].
  destruct (IH (spec_op cfg o sp) s1) as [s2 Hs2]; [by eapply sink_sound|done|done|].
  exists s2. by econstructor.
Qed.

Lemma sink_runs_read_back os sp s s' :
  sink_rel sp s -> ops_ok cfg (sink_max cfg S) os sp -> carried os -> sink_runs os s s' ->
  sink_sessions cfg s' = sp_closed (spec_ops cfg os sp).
Proof. intros. eapply sink_read_back, sink_runs_sound; eauto. Qed.
End sink.

(** ** A small run, for the examples *)

Definition ops_small : list op :=
  [OpEnable 3; OpOutput 0 4096 1 7 0x100; OpOutput 0 4100 1 8 0; OpOutput 0 4104 1 9 0x200;
   OpDisable 1; OpOutput 0 4108 1 10 0; OpDisable 2;
   OpEnable 1; OpOutput 0 8192 0 11 0; OpDisable 3].
