(* ===== verification/Guest.v ===== *)
(** * Tracing a guest

    The helpers of the three architectures are run on events of the guest: an
    instruction is fetched, memory is read or written, a cache is operated on, one
    of the tracing instructions is executed.  A helper reads [qem_tracing_state],
    looks at the state of the guest, and calls the tracing API.  This file composes
    the helpers of an architecture with any backend: what can be read back is the
    trace of the abstract machine run on the same events. *)

From S2P Require Import Prelude Bits TraceDef Trace Sink.
From AAC_tactics Require Import AAC.

(** The helpers put a flag word together in an order of their own: [aac_reflexivity]
    compares two of them. *)
#[export] Instance lor_associative : Associative eq Z.lor := Z.lor_assoc.
#[export] Instance lor_commutative : Commutative eq Z.lor := Z.lor_comm.
#[export] Instance lor_unit : Unit eq Z.lor 0 := Build_Unit eq Z.lor 0 Z.lor_0_l Z.lor_0_r.
#[export] Instance eq_Z_lift : AAC_lift (@eq Z) (@eq Z).
Proof. constructor; [apply _|solve_proper]. Defined.

Create HintDb guest.

Definition is_output (o : op) : Prop :=
  match o with OpOutput _ _ _ _ _ => True | _ => False end.

#[export] Instance is_output_dec o : Decision (is_output o).
Proof. destruct o; apply _. Defined.

(** The flag word of a record is the code of an access. *)
Definition coded (cfg : config) (o : op) : Prop :=
  match o with OpOutput _ _ _ _ flg => exists a, flg = encode (def_of cfg) a | _ => True end.

(** The calls made for one event, when the tracing state is [st]: records, only while
    something is traced, or one change of the state to a type of the enumeration. *)
Definition guarded (st : Z) (ops : list op) : Prop :=
  match ops with
  | [OpEnable ty] | [OpDisable ty] => ttype ty
  | [] => True
  | _ => Forall is_output ops /\ st <> 0
  end.

Lemma guarded_outputs st ops : Forall is_output ops -> st <> 0 -> guarded st ops.
Proof.
  destruct ops as [|[] []]; cbn; rewrite ?Forall_cons; cbn; tauto.
Qed.

Lemma guarded_app st l1 l2 :
  Forall is_output l1 -> Forall is_output l2 -> guarded st l1 -> guarded st l2 -> guarded st (l1 ++ l2).
Proof.
  intros H1 H2 G1 G2. assert (Hst : l1 ++ l2 = [] \/ st <> 0).
  { destruct l1 as [|[] ]; cbn in *; [|inversion H1; done|inversion H1; done|].
    - destruct l2 as [|[] ]; cbn in *; [by left|inversion H2; done|inversion H2; done|].
      destruct l2; cbn in G2; right; tauto.
    - destruct l1; cbn in G1; right; tauto. }
  destruct Hst as [->|Hst]; [done|]. apply guarded_outputs; [|done]. by apply Forall_app.
Qed.

(** The tests of the helpers, [(qem_tracing_state & type) != 0]. *)
Definition when_traced (st type : Z) (ops : list op) : list op :=
  if bit_any st type then ops else [].

Lemma bit_any_nonzero st type : bit_any st type = true -> st <> 0.
Proof. unfold bit_any. intros H ->. by rewrite Z.land_0_l in H. Qed.

Lemma when_traced_guarded st type va pa core time flg :
  guarded st (when_traced st type [OpOutput va pa core time flg]).
Proof.
  unfold when_traced. destruct (bit_any st type) eqn:E; [|done].
  apply guarded_outputs; [by repeat constructor|by eapply bit_any_nonzero].
Qed.
#[export] Hint Resolve when_traced_guarded : guest.

(** The same around code that looks at the guest first. *)
Definition traced {G} (st type : Z) (body : C G (list op)) : C G (list op) :=
  if bit_any st type then body else mret [].

(** Every call of the code has a property; [outputs]: it only makes records. *)
Definition emits {G} (Q : op -> Prop) (m : C G (list op)) : Prop :=
  forall g ops g', m g = Done (ops, g') -> Forall Q ops.
Abbreviation outputs := (emits is_output).

Lemma traced_outputs {G} Q st type (body : C G (list op)) :
  emits Q body -> emits Q (traced st type body).
Proof.
  intros Hb g ops g'. unfold traced. destruct (bit_any st type); [apply Hb|]. by intros [= <- _].
Qed.

Lemma traced_guarded {G} st type (body : C G (list op)) (g g' : G) ops :
  outputs body -> traced st type body g = Done (ops, g') -> guarded st ops.
Proof.
  intros Hb. unfold traced. destruct (bit_any st type) eqn:E.
  - intros H. apply guarded_outputs; [by eapply Hb|by eapply bit_any_nonzero].
  - by intros [= <- _].
Qed.

Lemma outputs_bind {G T} Q (m : C G T) (k : T -> C G (list op)) :
  (forall a, emits Q (k a)) -> emits Q (m ≫= k).
Proof. intros Hk g ops g' H. apply bind_Done in H as (a & s1 & _ & H). by eapply Hk. Qed.

Lemma outputs_ret {G} Q ops : Forall Q ops -> emits Q (mret ops : C G (list op)).
Proof. intros H g ops' g' [= <- _]. done. Qed.

Ltac outputs :=
  repeat first [apply traced_outputs | apply outputs_ret; by repeat constructor
               | apply outputs_bind; intros ? | case_match].

(** Every helper reads the time stamp counter of the host as two halves and puts them
    together; the size of a memory operation is its binary logarithm. *)
Definition rdtsc_time (tsc : Z) : Z :=
  Z.lor (u32 tsc) (Z.shiftl (u32 (Z.shiftr tsc 32)) 32).

Lemma rdtsc_time_id tsc : 0 <= tsc < 2 ^ 64 -> rdtsc_time tsc = tsc.
Proof. intros Ht. unfold rdtsc_time. bits. Qed.

Definition size_of_op (n : Z) : data_size :=
  if n =? 1 then Size16 else if n =? 2 then Size32 else if n =? 3 then Size64 else Size8.

Section guest.
(** [G] is the state of the guest, [code e st] the helper of the event [e]. *)
Context (cfg : config) {G Ev : Type} (code : Ev -> Z -> C G (list op)).

(** The abstract machine run on the events. *)
Fixpoint guest_spec (es : list Ev) (g : G) (sp : spec_state) : outcome (G * spec_state) :=
  match es with
  | [] => Done (g, sp)
  | e :: es =>
      match code e (sp_tracing sp) g with
      | Done (ops, g1) => guest_spec es g1 (spec_ops cfg ops sp)
      | Exit c => Exit c
      | Undefined => Undefined
      end
  end.

(** What an architecture promises. *)
Definition well_guarded : Prop :=
  forall e st g ops g', code e st g = Done (ops, g') -> guarded st ops.

(** The records of the events of a kind. *)
Definition events_carry (kind : Ev -> Prop) (P : qem_trace_t -> Prop) : Prop :=
  forall e st g ops g', kind e -> code e st g = Done (ops, g') -> Forall (op_carries cfg P) ops.

Lemma events_carry_all kind : events_carry kind (fun _ => True).
Proof. intros e st g ops g' _ _. apply Forall_true. by intros []. Qed.

(** A record is of its type: its members have their width, and the flag word is the core
    and one constant of each of the enumerations of the header. *)
Definition typed (t : qem_trace_t) : Prop :=
  trace_ok cfg t /\
  flags t = Z.lor (Z.land (flags t) 0xFF) (encode (def_of cfg) (decode (def_of cfg) (flags t))).

Lemma coded_typed o : QEM_TRACE_GATHER_META cfg = true -> coded cfg o -> op_carries cfg typed o.
Proof.
  intros Hm Ho. destruct o as [| |va pa core time flg]; [done..|]. destruct Ho as [a ->].
  split; [apply new_trace_ok|].
  assert (Hn : new_trace cfg pa core time (encode (def_of cfg) a)
    = new_trace cfg pa (u32 core) time (encode (def_of cfg) a)).
  { unfold new_trace. rewrite Hm. by rewrite wrap_wrap. }
  rewrite Hn. destruct (new_trace_decode cfg pa (u32 core) time a Hm (wrap_range 32 core ltac:(lia))) as [Hd Hc].
  rewrite Hd, Hc. unfold new_trace, def_of. rewrite Hm. cbn [flags].
  rewrite wrap_wrap, (wrap_small 32 (encode _ _)) by apply encode_meta_range.
  change 0xFF with (Z.ones 8). rewrite Z.land_ones by lia. f_equal.
  by rewrite <- encode_meta_field_mask at 1; rewrite <- Z.land_assoc, encode_meta_field_mask.
Qed.

Lemma coded_carry kind :
  QEM_TRACE_GATHER_META cfg = true -> (forall e st, emits (coded cfg) (code e st)) ->
  events_carry kind typed.
Proof.
  intros Hm Hc e st g ops g' _ Hrun. apply (Forall_impl _ _ _ (Hc e st g ops g' Hrun)).
  intros o. by apply coded_typed.
Qed.

(** The state of the abstract machine is of its type: the tracing state is one of the
    values of its enumeration, or none, and the records are. *)
Definition spec_typed (sp : spec_state) : Prop :=
  tracing_ok (sp_tracing sp) /\ Forall typed (sp_open sp) /\ Forall (Forall typed) (sp_closed sp).

Definition op_typed (o : op) : Prop :=
  match o with OpEnable ty | OpDisable ty => ttype ty | OpOutput _ _ _ _ _ => op_carries cfg typed o end.

Lemma spec_op_typed o sp : spec_typed sp -> op_typed o -> spec_typed (spec_op cfg o sp).
Proof.
  intros (Ht & Ho & Hc) Hop. destruct o as [ty|ty|va pa core time flg]; cbn [spec_op op_typed] in *.
  - apply ttype_range in Hop. unfold spec_enable. split_and!; [red; cbn; lia| |done].
    cbn. by case_match.
  - unfold spec_disable. case_match; [by split_and!|]. case_match; split_and!; cbn; try done.
    + apply Forall_app. split; [done|]. by apply Forall_singleton.
    + by apply land_lnot_tracing.
  - split_and!; [done| |done]. cbn. apply Forall_app. split; [done|]. by apply Forall_singleton.
Qed.

Lemma spec_ops_typed ops : forall sp,
  spec_typed sp -> Forall op_typed ops -> spec_typed (spec_ops cfg ops sp).
Proof.
  induction ops as [|o ops IH]; intros sp Hsp Hops; [done|]. inversion Hops; subst.
  apply IH; [by apply spec_op_typed|done].
Qed.

Lemma guarded_typed st ops :
  guarded st ops -> Forall (op_carries cfg typed) ops -> Forall op_typed ops.
Proof.
  intros Hg Hc. destruct (decide (Forall is_output ops)) as [Ho|Hn].
  - apply Forall_forall. intros o Hin. rewrite Forall_forall in Ho, Hc. specialize (Ho o Hin). specialize (Hc o Hin).
    by destruct o.
  - destruct ops as [|[ty|ty|? ? ? ? ?] [|o' ops]]; cbn in Hg; try done; try (by destruct Hg);
      by apply Forall_singleton.
Qed.

Lemma guest_typed :
  well_guarded -> events_carry (fun _ => True) typed -> forall es g sp g' sp',
  spec_typed sp -> guest_spec es g sp = Done (g', sp') -> spec_typed sp'.
Proof.
  intros Hw Hc. induction es as [|e es IH]; intros g sp g' sp' Hsp Hrun; cbn [guest_spec] in Hrun.
  { by injection Hrun as <- <-. }
  destruct (code e (sp_tracing sp) g) as [[ops g1]| |] eqn:E; try done.
  eapply IH; [|exact Hrun]. apply spec_ops_typed; [done|].
  eapply guarded_typed; [by eapply Hw|by eapply Hc].
Qed.

Lemma spec_outputs max ops : forall sp,
  Forall is_output ops -> sp_tracing sp <> 0 ->
  ops_ok cfg max ops sp /\ sp_closed (spec_ops cfg ops sp) = sp_closed sp.
Proof.
  induction ops as [|o ops IH]; intros sp Ho Ht; [done|]. apply Forall_cons in Ho as [Ho Hos].
  destruct o; [done|done|].
  by destruct (IH (spec_output (new_trace cfg phys_addr core time flg) sp) Hos Ht) as [H1 H2].
Qed.

Lemma guarded_ok max ops sp :
  guarded (sp_tracing sp) ops -> Z.of_nat (length (sp_closed sp)) < max ->
  ops_ok cfg max ops sp /\
  (length (sp_closed (spec_ops cfg ops sp)) <= length (sp_closed sp) + 1)%nat.
Proof.
  intros Hg Hmax.
  assert (Hcases : (Forall is_output ops /\ sp_tracing sp <> 0) \/ ops = [] \/
    exists ty, ttype ty /\ (ops = [OpEnable ty] \/ ops = [OpDisable ty]))
    by (destruct ops as [|[] []]; cbn in Hg; naive_solver).
  destruct Hcases as [[Ho Ht]|[->|(ty & Hty & [->| ->])]].
  - destruct (spec_outputs max ops sp Ho Ht) as [H1 H2]. rewrite H2. split; [done|lia].
  - cbn. split; [done|lia].
  - cbn. split; [done|lia].
  - cbn. split; [done|]. unfold spec_disable. repeat case_match; cbn; rewrite ?length_app; cbn; lia.
Qed.

Section backend.
Context {S : Type} `{TraceSink cfg S}.

(** The events on a backend: the helper reads the tracing state and its calls are
    run. *)
Inductive guest_run : list Ev -> G * S -> G * S -> Prop :=
  | guest_nil g s : guest_run [] (g, s) (g, s)
  | guest_cons e es g s ops g1 s1 z :
      code e (sink_tracing cfg s) g = Done (ops, g1) -> sink_runs ops s s1 ->
      guest_run es (g1, s1) z -> guest_run (e :: es) (g, s) z.

Context (Hcode : well_guarded) (kind : Ev -> Prop) (Hcarry : events_carry kind (sink_carries cfg S)).

Lemma guest_refines es : forall g sp s g' sp',
  Forall kind es -> sink_rel sp s -> guest_spec es g sp = Done (g', sp') ->
  Z.of_nat (length (sp_closed sp) + length es) <= sink_max cfg S ->
  (exists s', guest_run es (g, s) (g', s')) /\
  forall z, guest_run es (g, s) z -> z.1 = g' /\ sink_rel sp' z.2.
Proof.
  induction es as [|e es IH]; intros g sp s g' sp' Hes Hrel Hspec Hmax; cbn in Hspec.
  { injection Hspec as -> ->. split; [eexists; constructor|]. intros z Hz. by inversion Hz. }
  destruct (code e (sp_tracing sp) g) as [[ops g1]| |] eqn:He; [|done..].
  apply Forall_cons in Hes as [Hk Hes].
  pose proof (Hcode _ _ _ _ _ He) as Hg. pose proof (Hcarry _ _ _ _ _ Hk He) as Hc.
  pose proof (sink_tracing_spec _ _ Hrel) as Ht. cbn in Hmax.
  destruct (guarded_ok (sink_max cfg S) ops sp Hg) as [Hok Hlen]; [lia|].
  assert (Hnext : forall s1, sink_runs ops s s1 -> sink_rel (spec_ops cfg ops sp) s1)
    by (intros s1; by apply sink_runs_sound).
  split.
  - destruct (sink_runs_progress ops sp s Hrel Hok Hc) as [s1 Hs1].
    destruct (IH g1 _ s1 g' sp' Hes (Hnext _ Hs1) Hspec) as [[s' Hs'] _]; [lia|].
    exists s'. econstructor; [by rewrite Ht|done..].
  - intros z Hz. inversion Hz as [|? ? ? ? ops' g1' s1 ? He' Hs1 Hz']; subst.
    rewrite Ht, He in He'. injection He' as <- <-.
    destruct (IH g1 _ s1 g' sp' Hes (Hnext _ Hs1) Hspec) as [_ Hr]; [lia|]. by apply Hr.
Qed.
End backend.
End guest.

(** The helpers of an architecture whose calls are guarded, on any backend that
    implements the interface, in any number of events the backend has sessions for:
    the events can be run to the end, every run leaves the guest as the abstract run
    does, and the sessions read back are those of the abstract run. *)
Lemma guest_trace_exact cfg {G Ev S} `{TraceSink cfg S} (code : Ev -> Z -> C G (list op))
    kind es g s g' sp' :
  well_guarded code -> events_carry cfg code kind (sink_carries cfg S) -> Forall kind es ->
  sink_rel spec_init s -> guest_spec cfg code es g spec_init = Done (g', sp') ->
  Z.of_nat (length es) <= sink_max cfg S ->
  (exists s', guest_run cfg code es (g, s) (g', s')) /\
  forall z, guest_run cfg code es (g, s) z ->
    z.1 = g' /\ sink_sessions cfg z.2 = sp_closed sp' /\ sink_tracing cfg z.2 = sp_tracing sp'.
Proof.
  intros Hcode Hcarry Hes Hrel Hspec Hmax.
  destruct (guest_refines cfg code Hcode kind Hcarry es _ _ _ _ _ Hes Hrel Hspec Hmax) as [Hex Hall].
  split; [done|]. intros z Hz. destruct (Hall z Hz) as [Hz1 Hz2].
  split; [done|]. split; [by apply sink_read_back|by apply sink_tracing_spec].
Qed.
