(* ===== verification/FileBackend.v ===== *)
(** * The single-threaded file backend

    [qem_trace_file.c]: traces are packed into a buffer of
    [QEM_TRACE_BUFFER_SIZE] records, the buffer is appended to the trace file when
    it is full, and closing the trace flushes the rest and rewrites the header. *)

From S2P Require Import Prelude TraceDef Trace Stdio TraceFile Sink.

Record file_state := mk_file_state {
  qem_tracing_state : Z;
  qem_time_start : Z;
  qem_trace_buffer_size : Z;
  qem_file_size : Z;
  qem_trace_buffer : bytes;
  qem_trace_file_fd : option FILE;
  qem_file_index : Z;
  fs_world : world
}.

Section setters.
Context (s : file_state).
Definition set_tracing (v : Z) : file_state :=
  mk_file_state v (qem_time_start s) (qem_trace_buffer_size s) (qem_file_size s)
    (qem_trace_buffer s) (qem_trace_file_fd s) (qem_file_index s) (fs_world s).
Definition set_time (v : Z) : file_state :=
  mk_file_state (qem_tracing_state s) v (qem_trace_buffer_size s) (qem_file_size s)
    (qem_trace_buffer s) (qem_trace_file_fd s) (qem_file_index s) (fs_world s).
Definition set_count (v : Z) : file_state :=
  mk_file_state (qem_tracing_state s) (qem_time_start s) v (qem_file_size s)
    (qem_trace_buffer s) (qem_trace_file_fd s) (qem_file_index s) (fs_world s).
Definition set_fsize (v : Z) : file_state :=
  mk_file_state (qem_tracing_state s) (qem_time_start s) (qem_trace_buffer_size s) v
    (qem_trace_buffer s) (qem_trace_file_fd s) (qem_file_index s) (fs_world s).
Definition set_buffer (v : bytes) : file_state :=
  mk_file_state (qem_tracing_state s) (qem_time_start s) (qem_trace_buffer_size s)
    (qem_file_size s) v (qem_trace_file_fd s) (qem_file_index s) (fs_world s).
Definition set_fd (v : option FILE) : file_state :=
  mk_file_state (qem_tracing_state s) (qem_time_start s) (qem_trace_buffer_size s)
    (qem_file_size s) (qem_trace_buffer s) v (qem_file_index s) (fs_world s).
Definition set_index (v : Z) : file_state :=
  mk_file_state (qem_tracing_state s) (qem_time_start s) (qem_trace_buffer_size s)
    (qem_file_size s) (qem_trace_buffer s) (qem_trace_file_fd s) v (fs_world s).
Definition set_world (v : world) : file_state :=
  mk_file_state (qem_tracing_state s) (qem_time_start s) (qem_trace_buffer_size s)
    (qem_file_size s) (qem_trace_buffer s) (qem_trace_file_fd s) (qem_file_index s) v.
End setters.

#[export] Instance file_stdio : HasStdio file_state := {|
  io_world := fs_world;
  io_set_world := fun w s => set_world s w;
  io_fd := qem_trace_file_fd;
  io_set_fd := fun fd s => set_fd s fd
|}.

Section code.
Context (cfg : config).

Let sz : nat := sizeof_qem_trace_t cfg.

(** The state before the first call: the static initialisers. *)
Definition file_init (w : world) : file_state := {|
  qem_tracing_state := 0;
  qem_time_start := 0;
  qem_trace_buffer_size := 0;
  qem_file_size := 0;
  qem_trace_buffer := replicate (QEM_TRACE_BUFFER_SIZE cfg * sz) 0;
  qem_trace_file_fd := None;
  qem_file_index := 0;
  fs_world := w
|}.

Definition qem_write_header (size trace_size trace_version : Z) : C file_state () :=
  e ← on_fd fseek_set0;
  when (negb (e =? 0)) (libc (QEM_TRACE_ERROR "Could not set the header marker" e 1)) ;;
  e ← on_fd (fwrite (pack_header size trace_size trace_version)
               sizeof_qem_trace_header_t 1);
  when (negb (e =? 1)) (libc (QEM_TRACE_ERROR "Could not write the header" e 1)) ;;
  modify (fun s => set_count s 0).

Definition qem_init_tracing : C file_state () :=
  index ← gets qem_file_index;
  modify (fun s => set_index s (u32 (index + 1))) ;;
  filename ← libc (sprintf 23 (trace_filename index));
  libc (remove filename) ;;
  r ← libc (fopen_wb filename);
  (match r with
   | inl errno =>
       modify (fun s => set_fd s None) ;;
       libc (QEM_TRACE_ERROR "Could not create or open the trace file" errno 1)
   | inr fd => modify (fun s => set_fd s (Some fd))
   end) ;;
  qem_write_header 0 (Z.of_nat sz) 1 ;;
  modify (fun s => set_fsize s (Z.of_nat sz)) ;;
  libc (QEM_TRACE_INFO "==== Trace file name" 0) ;;
  libc (QEM_TRACE_INFO filename 0).

(** Appending the first [n] records of the buffer to the file. *)
Definition flush_buffer (n : Z) : C file_state () :=
  buf ← gets qem_trace_buffer;
  items ← access_ (mem_read 0 (sz * Z.to_nat n) buf);
  e ← on_fd (fwrite items sz (Z.to_nat n));
  when (negb (e =? n)) (libc (QEM_TRACE_ERROR "Could not flush trace buffer" e 1)) ;;
  modify (fun s => set_fsize s (u64 (qem_file_size s + n * Z.of_nat sz))) ;;
  modify (fun s => set_count s 0).

Definition qem_close_tracing : C file_state () :=
  n ← gets qem_trace_buffer_size;
  when (negb (n =? 0)) (flush_buffer n) ;;
  size ← gets qem_file_size;
  qem_write_header size (Z.of_nat sz) 1 ;;
  o ← gets qem_trace_file_fd;
  fd ← access_ o;
  r ← libc (fclose fd);
  if r.1 <? 0
  then libc (QEM_TRACE_ERROR "Error while closing the trace file" r.2 0)
  else libc (QEM_TRACE_INFO "Trace file saved" 0).

Definition qem_trace_enable (type : Z) : C file_state () :=
  st ← gets qem_tracing_state;
  if st =? type then mret ()
  else
    when (st =? 0) qem_init_tracing ;;
    modify (fun s => set_tracing s (u8 type)).

Definition qem_trace_disable (type : Z) : C file_state () :=
  st ← gets qem_tracing_state;
  if st =? 0 then mret ()
  else
    let st := u8 (Z.land st (Z.lnot type)) in
    modify (fun s => set_tracing s st) ;;
    when (st =? 0) qem_close_tracing.

(** [now] is the value of [qemu_clock_get_ns(QEMU_CLOCK_REALTIME)]. *)
Definition qem_trace_start_timer (now : Z) : C file_state () :=
  modify (fun s => set_time s (u64 now)).

Definition qem_trace_get_timer (now : Z) : C file_state () :=
  start ← gets qem_time_start;
  libc (print ("[QEMU] Elapsed time = " +:+ fmt_u (u64 (u64 now - start)) +:+ newline)%string).

(** Copying a record to the end of the buffer. *)
Definition store_record (t : qem_trace_t) : C file_state () :=
  n ← gets qem_trace_buffer_size;
  buf ← gets qem_trace_buffer;
  let offset := n * Z.of_nat sz in
  buf ← access_ (mem_write (Z.to_nat offset) (pack cfg t) buf);
  modify (fun s => set_buffer s buf) ;;
  modify (fun s => set_count s (u32 (n + 1))).

Definition qem_trace_output (virt_addr phys_addr core time flg : Z) : C file_state () :=
  n ← gets qem_trace_buffer_size;
  when (n =? Z.of_nat (QEM_TRACE_BUFFER_SIZE cfg)) (flush_buffer n) ;;
  store_record (new_trace cfg phys_addr core time flg).
End code.

(** ** The invariant of an open trace

    [file_inv name ts s]: the traces [ts] output so far are, in order, the
    records in the file after the header followed by the records in the buffer. *)

Section proofs.
Context (cfg : config) (E : Prop).
Abbreviation sz := (sizeof_qem_trace_t cfg).
Abbreviation N := (QEM_TRACE_BUFFER_SIZE cfg).
Abbreviation packs ts := (concat (map (pack cfg) ts)).

Definition file_holds (name : string) (ts1 : list qem_trace_t) (s : file_state) : Prop :=
  may_fail E (fs_world s) /\
  qem_trace_file_fd s = Some (mk_file name (16 + length ts1 * sz)) /\
  qem_file_size s = u64 (Z.of_nat sz + Z.of_nat (length ts1 * sz)) /\
  exists hdr, length hdr = 16%nat /\
    w_fs (fs_world s) !! name = Some (hdr ++ packs ts1).

Definition buffer_holds (ts2 : list qem_trace_t) (s : file_state) : Prop :=
  length (qem_trace_buffer s) = (N * sz)%nat /\
  (length ts2 <= N)%nat /\
  qem_trace_buffer_size s = Z.of_nat (length ts2) /\
  slice 0 (length ts2 * sz) (qem_trace_buffer s) = packs ts2.

Definition file_inv (name : string) (ts : list qem_trace_t) (s : file_state) : Prop :=
  exists ts1 ts2, ts = ts1 ++ ts2 /\ file_holds name ts1 s /\ buffer_holds ts2 s.

(** What no operation on the buffer and the file [name] touches. *)
Definition frame (name : string) (s s' : file_state) : Prop :=
  qem_tracing_state s' = qem_tracing_state s /\
  qem_file_index s' = qem_file_index s /\
  forall n, n <> name -> w_fs (fs_world s') !! n = w_fs (fs_world s) !! n.

Lemma frame_trans name s1 s2 s3 : frame name s1 s2 -> frame name s2 s3 -> frame name s1 s3.
Proof.
  intros (? & ? & Ha) (? & ? & Hb). repeat split; [congruence..|].
  intros n Hn. by rewrite Hb, Ha.
Qed.

Lemma flush_buffer_wp name ts1 ts2 s :
  file_holds name ts1 s -> buffer_holds ts2 s ->
  wp E (flush_buffer cfg (Z.of_nat (length ts2)))
    (fun _ s' => file_holds name (ts1 ++ ts2) s' /\ buffer_holds [] s' /\ frame name s s') s.
Proof.
  intros (Hw & Hfd & Hsz & hdr & Hhdr & Hfs) (Hlen & HN & Hcnt & Hbuf).
  unfold flush_buffer. wp_step. rewrite Nat2Z.id.
  apply wp_access with (packs ts2).
  { rewrite mem_read_Some by (rewrite Hlen; nia). f_equal. rewrite <- Hbuf. f_equal. lia. }
  apply wp_bind. eapply wp_on_fd; [done|].
  apply wp_fwrite; [done|rewrite length_concat_pack; lia| |]; cbn [fst snd f_name f_pos]; cycle 1.
  { intros k fd' w' Hk HE. by apply wp_bind, wp_check. }
  intros w' Hw' Hfs'. cbn -[Nat.add] in Hfs'. apply wp_bind, wp_check; [done|]. intros _.
  do 2 wp_step. split; [|split; [repeat split; cbn; [done|lia]|repeat split]].
  - split; [done|]. cbn -[Nat.add]. split; [|split].
    + rewrite length_concat_pack, length_app. do 2 f_equal. lia.
    + rewrite Hsz, wrap_add_l, length_app. f_equal. lia.
    + exists hdr. split; [done|]. rewrite Hfs', lookup_alter_eq, Hfs. cbn -[Nat.add].
      by rewrite append_packs.
  - intros n Hn. cbn. by rewrite Hfs', lookup_alter_ne.
Qed.

Lemma write_header_wp size tsz v s name pos :
  may_fail E (fs_world s) -> qem_trace_file_fd s = Some (mk_file name pos) ->
  wp E (qem_write_header size tsz v) (fun _ s' => exists w',
    s' = set_count (set_fd (set_world s w') (Some (mk_file name 16))) 0 /\
    may_fail E w' /\
    w_fs w' = alter (file_put 0 (pack_header size tsz v)) name (w_fs (fs_world s))) s.
Proof.
  intros Hw Hfd. unfold qem_write_header.
  apply wp_bind. eapply wp_on_fd; [done|]. apply wp_fseek; [done| |]; cbn [fst snd f_name f_pos]; cycle 1.
  { intros k w' Hk HE. by apply wp_bind, wp_check. }
  intros w1 Hw1 Hfs1. apply wp_bind, wp_check; [done|]. intros _.
  apply wp_bind. eapply wp_on_fd; [done|].
  apply wp_fwrite; [done|by rewrite length_pack_header| |]; cbn [fst snd f_name f_pos]; cycle 1.
  { intros k fd' w' Hk HE. by apply wp_bind, wp_check. }
  intros w2 Hw2 Hfs2. apply wp_bind, wp_check; [done|]. intros _.
  wp_step. exists w2. split; [done|]. split; [done|]. cbn in Hfs1, Hfs2. by rewrite Hfs2, Hfs1.
Qed.

Context (HN : (0 < N)%nat) (HN32 : Z.of_nat N < 2 ^ 32).

Lemma store_record_wp name ts1 ts2 t s :
  file_holds name ts1 s -> buffer_holds ts2 s -> (length ts2 < N)%nat ->
  wp E (store_record cfg t) (fun _ s' =>
    file_holds name ts1 s' /\ buffer_holds (ts2 ++ [t]) s' /\ frame name s s') s.
Proof.
  intros Hf (Hlen & Hle & Hcnt & Hbuf) Hlt. unfold store_record.
  do 2 wp_step. rewrite Hcnt.
  replace (Z.to_nat (Z.of_nat (length ts2) * Z.of_nat sz)) with (length ts2 * sz)%nat by lia.
  assert (Hfit : (length ts2 * sz + length (pack cfg t) <= length (qem_trace_buffer s))%nat)
    by (rewrite length_pack, Hlen; nia).
  eapply wp_access; [by apply mem_write_Some|]. do 2 wp_step.
  split; [done|]. split; [|done].
  unfold buffer_holds. cbn. rewrite length_splice, length_app by done. cbn [length].
  split; [done|]. split; [lia|]. split; [rewrite wrap_small by lia; lia|].
  unfold slice in *. rewrite drop_0 in *.
  replace ((length ts2 + 1) * sz)%nat with (length ts2 * sz + length (pack cfg t))%nat
    by (rewrite length_pack; lia).
  rewrite take_splice_end by done.
  rewrite Hbuf, map_app, concat_app. cbn. by rewrite app_nil_r.
Qed.

Lemma output_wp name ts virt phys core time flg s :
  file_inv name ts s ->
  wp E (qem_trace_output cfg virt phys core time flg) (fun _ s' =>
    file_inv name (ts ++ [new_trace cfg phys core time flg]) s' /\ frame name s s') s.
Proof.
  intros (ts1 & ts2 & -> & Hf & Hb). unfold qem_trace_output. wp_step.
  pose proof Hb as (_ & Hle & Hcnt & _). rewrite Hcnt.
  set (t := new_trace cfg phys core time flg).
  apply wp_bind, wp_when; [intros Hfull%Z.eqb_eq|intros Hfull%Z.eqb_neq].
  - eapply wp_mono; [by apply flush_buffer_wp|]. intros _ s1 (Hf1 & Hb1 & Hfr).
    eapply wp_mono; [by apply (store_record_wp name (ts1 ++ ts2) [] t)|].
    intros _ s2 (? & ? & ?). split; [by exists (ts1 ++ ts2), [t]|]. by eapply frame_trans.
  - eapply wp_mono; [apply (store_record_wp name ts1 ts2 t); [done..|lia]|].
    intros _ s2 (? & ? & ?). split; [|done].
    exists ts1, (ts2 ++ [t]). by rewrite app_assoc.
Qed.

(** ** Opening and closing a trace file *)

Lemma init_wp s :
  may_fail E (fs_world s) -> length (qem_trace_buffer s) = (N * sz)%nat ->
  0 <= qem_file_index s < 10 ^ 8 ->
  let name := trace_filename (qem_file_index s) in
  wp E (qem_init_tracing cfg) (fun _ s' =>
    file_holds name [] s' /\ buffer_holds [] s' /\
    qem_tracing_state s' = qem_tracing_state s /\
    qem_file_index s' = qem_file_index s + 1 /\
    forall n, n <> name -> w_fs (fs_world s') !! n = w_fs (fs_world s) !! n) s.
Proof.
  intros Hw Hlen Hidx name. unfold qem_init_tracing. do 2 wp_step.
  apply wp_bind, wp_libc, wp_sprintf; [by rewrite length_trace_filename|].
  apply wp_bind, wp_libc, wp_modify.
  apply wp_bind, wp_libc, wp_fopen; [done| |intros e w' HE; by do 2 apply wp_bind].
  intros w1 Hw1 Hfs1. apply wp_bind. wp_step.
  eapply wp_seq; [by eapply write_header_wp|]. cbn.
  intros _ s1 (w2 & -> & Hw2 & Hfs2). cbn in Hfs1, Hfs2. wp_step.
  apply wp_bind, wp_libc, wp_info; [done|]. intros w3 Hw3 Hfs3.
  apply wp_libc, wp_info; [done|]. intros w4 Hw4 Hfs4. cbn in Hfs3, Hfs4.
  fold name in Hfs1, Hfs2. rewrite Hfs3, Hfs2, Hfs1 in Hfs4.
  split; [|split; [by repeat split; cbn; lia|split; [done|split]]]; cbn.
  - split; [done|]. cbn -[Nat.add]. split; [by rewrite Nat.add_0_r|]. split.
    { by rewrite Z.add_0_r, wrap_small by (pose proof (sizeof_le cfg); lia). }
    exists (pack_header 0 (Z.of_nat sz) 1). split; [by rewrite length_pack_header|].
    by rewrite Hfs4, lookup_alter_eq, lookup_insert_eq.
  - by rewrite wrap_small by lia.
  - intros n Hn. by rewrite Hfs4, lookup_alter_ne, lookup_insert_ne, lookup_delete_ne by done.
Qed.

Lemma init_defined s :
  may_fail E (fs_world s) -> 0 <= qem_file_index s < 10 ^ 8 ->
  wp E (qem_init_tracing cfg) (fun _ _ => True) s.
Proof.
  intros Hw Hidx. unfold qem_init_tracing. do 2 wp_step.
  apply wp_bind, wp_libc, wp_sprintf; [by rewrite length_trace_filename|].
  apply wp_bind, wp_libc, wp_modify.
  apply wp_bind, wp_libc, wp_fopen; [done| |intros e w' HE; by do 2 apply wp_bind].
  intros w1 Hw1 _. apply wp_bind. wp_step.
  eapply wp_seq; [by eapply write_header_wp|]. intros _ s1 _. done.
Qed.

Lemma close_flush_wp name ts1 ts2 s :
  file_holds name ts1 s -> buffer_holds ts2 s ->
  wp E (when (negb (qem_trace_buffer_size s =? 0)) (flush_buffer cfg (qem_trace_buffer_size s)))
    (fun _ s' => file_holds name (ts1 ++ ts2) s' /\ buffer_holds [] s' /\ frame name s s') s.
Proof.
  intros Hf Hb. pose proof Hb as (Hlen & _ & Hcnt & _). rewrite Hcnt. apply wp_when.
  - intros _. by apply flush_buffer_wp.
  - intros H0%negb_false_iff%Z.eqb_eq. destruct ts2; [|done]. by rewrite app_nil_r.
Qed.

Lemma close_wp name ts s :
  file_inv name ts s ->
  wp E (qem_close_tracing cfg) (fun _ s' =>
    w_fs (fs_world s') !! name = Some (file_bytes cfg ts) /\
    may_fail E (fs_world s') /\ length (qem_trace_buffer s') = (N * sz)%nat /\
    frame name s s') s.
Proof.
  intros (ts1 & ts2 & -> & Hf & Hb). unfold qem_close_tracing. wp_step.
  eapply wp_seq; [by eapply close_flush_wp|].
  intros _ s1 ((Hw & Hfd & Hsz & hdr & Hhdr & Hfs) & (Hlen & _) & Hfr).
  wp_step. eapply wp_seq; [by eapply write_header_wp|].
  intros _ s2 (w2 & -> & Hw2 & Hfs2). wp_step. eapply wp_access; [done|].
  apply wp_bind, wp_libc, wp_fclose; [done|]. intros r w3 Hw3 Hfs3. cbn in Hfs3.
  assert (Hend : forall w4, may_fail E w4 -> w_fs w4 = w_fs w3 -> forall s',
    s' = set_world (set_count (set_fd (set_world s1 w2) (Some (mk_file name 16))) 0) w4 ->
    w_fs (fs_world s') !! name = Some (file_bytes cfg (ts1 ++ ts2)) /\
    may_fail E (fs_world s') /\ length (qem_trace_buffer s') = (N * sz)%nat /\
    frame name s s').
  { intros w4 Hw4 Hfs4 s' ->. cbn. rewrite Hfs4, Hfs3, Hfs2, lookup_alter_eq, Hfs.
    split; [|split; [done|split; [done|]]].
    - cbn. f_equal. rewrite file_put_start by (by rewrite length_pack_header).
      unfold file_bytes. by rewrite Hsz, pack_header_u64, length_app.
    - eapply frame_trans; [done|]. repeat split. intros n Hn. cbn.
      by rewrite Hfs4, Hfs3, Hfs2, lookup_alter_ne. }
  destruct (r.1 <? 0); apply wp_libc; [apply wp_error|apply wp_info]; try done;
    intros w4 Hw4 Hfs4; by eapply Hend.
Qed.

(** ** Refinement of the abstract machine *)

(** The calls of the API, as the backend runs them. *)
Definition file_op (o : op) : C file_state () :=
  match o with
  | OpEnable ty => qem_trace_enable cfg ty
  | OpDisable ty => qem_trace_disable cfg ty
  | OpOutput va pa core time flg => qem_trace_output cfg va pa core time flg
  end.

Fixpoint file_ops (os : list op) : C file_state () :=
  match os with
  | [] => mret ()
  | o :: os => file_op o ;; file_ops os
  end.

(** The sessions closed so far, read from the files. *)
Definition file_sessions (s : file_state) : list (list qem_trace_t) :=
  let n := Z.to_nat (qem_file_index s) in
  let n := if qem_tracing_state s =? 0 then n else pred n in
  (fun k => from_option (read_file cfg) [] (w_fs (fs_world s) !! trace_filename (Z.of_nat k)))
    <$> seq 0 n.

Record file_rel (sp : spec_state) (s : file_state) : Prop := {
  fr_tracing : qem_tracing_state s = sp_tracing sp;
  fr_tracing_ok : tracing_ok (sp_tracing sp);
  fr_faults : may_fail E (fs_world s);
  fr_buffer : length (qem_trace_buffer s) = (N * sz)%nat;
  fr_index : qem_file_index s =
    Z.of_nat (length (sp_closed sp)) + (if sp_tracing sp =? 0 then 0 else 1);
  fr_index_max : qem_file_index s <= 10 ^ 8;
  fr_closed : forall k ts, sp_closed sp !! k = Some ts ->
    w_fs (fs_world s) !! trace_filename (Z.of_nat k) = Some (file_bytes cfg ts);
  fr_open : sp_tracing sp <> 0 ->
    file_inv (trace_filename (Z.of_nat (length (sp_closed sp)))) (sp_open sp) s;
  fr_ok : Forall (Forall (trace_ok cfg)) (sp_closed sp) /\ Forall (trace_ok cfg) (sp_open sp)
}.

Lemma file_sessions_closed sp s : file_rel sp s -> file_sessions s = sp_closed sp.
Proof.
  intros H. unfold file_sessions. rewrite (fr_tracing _ _ H).
  replace (if sp_tracing sp =? 0 then _ else _) with (length (sp_closed sp))
    by (rewrite (fr_index _ _ H); case_bool; lia).
  apply list_eq. intros k. rewrite list_lookup_fmap.
  destruct (sp_closed sp !! k) as [ts|] eqn:Hk.
  - rewrite lookup_seq_lt by (by eapply lookup_lt_Some). cbn.
    rewrite (fr_closed _ _ H _ _ Hk). cbn. f_equal. apply read_file_bytes.
    destruct (fr_ok _ _ H) as [Hok _]. by eapply Forall_lookup_1.
  - rewrite lookup_seq_ge; [done|]. by apply lookup_ge_None.
Qed.

(** The name of a closed session is not the name of the current one. *)
Lemma closed_name sp s k ts :
  file_rel sp s -> sp_closed sp !! k = Some ts -> (length (sp_closed sp) < Z.to_nat (10 ^ 8))%nat ->
  trace_filename (Z.of_nat k) <> trace_filename (Z.of_nat (length (sp_closed sp))).
Proof.
  intros H Hk Hmax He. apply lookup_lt_Some in Hk.
  apply trace_filename_inj in He; lia.
Qed.

Lemma enable_refines ty sp s :
  file_rel sp s -> ttype ty -> Z.of_nat (length (sp_closed sp)) < 10 ^ 8 ->
  wp E (qem_trace_enable cfg ty) (fun _ => file_rel (spec_enable ty sp)) s.
Proof.
  intros H Hty Hmax. pose proof (ttype_range _ Hty) as Hr. unfold qem_trace_enable, spec_enable.
  wp_step. rewrite (fr_tracing _ _ H).
  destruct (Z.eqb_spec (sp_tracing sp) ty) as [Heq|Hne].
  { wp_step. subst ty. case_bool; [lia|]. by destruct sp. }
  apply wp_bind, wp_when; [intros H0%Z.eqb_eq|intros H0%Z.eqb_neq].
  - assert (Hidx : qem_file_index s = Z.of_nat (length (sp_closed sp)))
      by (rewrite (fr_index _ _ H), H0; cbn; lia).
    eapply wp_mono; [apply init_wp; [apply (fr_faults _ _ H)|apply (fr_buffer _ _ H)|lia]|].
    intros _ s1 (Hf & Hb & Hst & Hix & Hfr). wp_step. rewrite wrap_small by lia.
    rewrite Hidx in *. pose proof Hf as (? & _). pose proof Hb as (? & _).
    split; cbn; rewrite ?H0; cbn; try done.
    + unfold tracing_ok. lia.
    + rewrite Hix. case_bool; lia.
    + lia.
    + intros k ts Hk. rewrite Hfr by (eapply closed_name; [done..|lia]).
      by apply (fr_closed _ _ H).
    + intros _. by exists [], [].
    + split; [apply (fr_ok _ _ H)|constructor].
  - wp_step. rewrite wrap_small by lia. destruct H. rewrite (proj2 (Z.eqb_neq _ _) H0).
    split; cbn; try done.
    + unfold tracing_ok. lia.
    + revert fr_index0. case_bool; lia.
    + intros _. by apply fr_open0.
Qed.

Lemma disable_refines ty sp s :
  file_rel sp s -> ttype ty ->
  wp E (qem_trace_disable cfg ty) (fun _ => file_rel (spec_disable ty sp)) s.
Proof.
  intros H Hty. unfold qem_trace_disable, spec_disable. wp_step. rewrite (fr_tracing _ _ H).
  destruct (Z.eqb_spec (sp_tracing sp) 0) as [H0|H0]; [by wp_step|].
  pose proof (land_lnot_tracing _ _ (fr_tracing_ok _ _ H) Hty). rewrite wrap_small by lia.
  set (st := Z.land (sp_tracing sp) (Z.lnot ty)) in *. wp_step.
  assert (Hidx := fr_index _ _ H). revert Hidx. rewrite (proj2 (Z.eqb_neq _ _) H0). intros Hidx.
  pose proof (fr_index_max _ _ H).
  apply wp_when; [intros Hst|intros Hst]; rewrite Hst;
    [apply Z.eqb_eq in Hst|apply Z.eqb_neq in Hst].
  - eapply wp_mono; [apply (close_wp _ _ (set_tracing s st) (fr_open _ _ H H0))|].
    intros _ s1 (Hfile & Hw & Hb & Hs1 & Hix & Hfr). cbn in Hs1, Hix, Hfr.
    split; cbn; try done.
    + by rewrite Hs1, Hst.
    + rewrite Hix, length_app. cbn. lia.
    + by rewrite Hix.
    + intros k ts Hk. apply lookup_app_Some in Hk as [Hk|[Hk1 Hk2]].
      * rewrite Hfr by (eapply closed_name; [done..|lia]). by apply (fr_closed _ _ H).
      * apply list_lookup_singleton_Some in Hk2 as [Hk2 <-].
        by replace k with (length (sp_closed sp)) by lia.
    + split; [|constructor]. destruct (fr_ok _ _ H). by rewrite Forall_app, Forall_singleton.
  - destruct H. split; cbn; try done; [case_bool; lia|].
    intros _. by apply fr_open0.
Qed.

Lemma output_refines va pa core time flg sp s :
  file_rel sp s -> sp_tracing sp <> 0 ->
  wp E (qem_trace_output cfg va pa core time flg)
    (fun _ => file_rel (spec_output (new_trace cfg pa core time flg) sp)) s.
Proof.
  intros H H0. assert (Hidx := fr_index _ _ H). revert Hidx. case_bool; [done|]. intros Hidx.
  pose proof (fr_index_max _ _ H).
  eapply wp_mono; [apply (output_wp _ _ va pa core time flg s (fr_open _ _ H H0))|].
  intros _ s1 (Hinv & Hst & Hix & Hfr).
  pose proof Hinv as (ts1 & ts2 & _ & (Hw & _) & (Hb & _)).
  split; cbn; try done.
  - by rewrite Hst, (fr_tracing _ _ H).
  - apply (fr_tracing_ok _ _ H).
  - rewrite Hix. by apply (fr_index _ _ H).
  - by rewrite Hix.
  - intros k ts Hk. rewrite Hfr by (eapply closed_name; [done..|lia]).
    by apply (fr_closed _ _ H).
  - destruct (fr_ok _ _ H). split; [done|]. rewrite Forall_app, Forall_singleton.
    split; [done|apply new_trace_ok].
Qed.

Lemma file_op_refines o sp s :
  file_rel sp s -> op_ok (10 ^ 8) o sp ->
  wp E (file_op o) (fun _ => file_rel (spec_op cfg o sp)) s.
Proof.
  intros H Ho. destruct o; cbn in *.
  - destruct Ho. by apply enable_refines.
  - by apply disable_refines.
  - by apply output_refines.
Qed.

Lemma file_ops_refines os : forall sp s,
  file_rel sp s -> ops_ok cfg (10 ^ 8) os sp ->
  wp E (file_ops os) (fun _ => file_rel (spec_ops cfg os sp)) s.
Proof.
  induction os as [|o os IH]; intros sp s H Hok; cbn; [done|]. destruct Hok as [Ho Hos].
  eapply wp_seq; [by apply file_op_refines|]. intros a s1 H1. by apply IH.
Qed.

Lemma file_init_rel w : may_fail E w -> file_rel spec_init (file_init cfg w).
Proof. intros Hw. split; cbn; try done. by rewrite length_replicate. Qed.
End proofs.

(** The file backend as a trace sink, in an environment without faults. *)
#[export] Program Instance file_sink cfg (HN : (0 < QEM_TRACE_BUFFER_SIZE cfg)%nat)
    (HN32 : Z.of_nat (QEM_TRACE_BUFFER_SIZE cfg) < 2 ^ 32) : TraceSink cfg file_state := {
  sink_run o s s' := file_op cfg o s = Done ((), s');
  sink_rel := file_rel cfg False;
  sink_max := 10 ^ 8;
  sink_carries := fun _ => True;
  sink_tracing := qem_tracing_state;
  sink_sessions := file_sessions cfg
}.
Next Obligation.
  intros cfg HN HN32 sp s o s' H Ho _ Hrun.
  exact (wp_Done _ _ _ _ _ _ (file_op_refines cfg False HN HN32 o sp s H Ho) Hrun).
Qed.
Next Obligation.
  intros cfg HN HN32 sp s o H Ho _.
  destruct (wp_total _ _ _ (file_op_refines cfg False HN HN32 o sp s H Ho)) as ([] & s' & ? & _).
  eauto.
Qed.
Next Obligation. intros cfg HN HN32 sp s H. by apply (file_sessions_closed cfg False). Qed.
Next Obligation. intros cfg HN HN32 sp s H. apply (fr_tracing _ _ _ _ H). Qed.

(** ** Properties *)

(** C4: without faults of the C library, every sequence of API calls returns; the
    tracing state is the one of the abstract machine, the file of each closed
    session holds exactly its header and the records output in it, in order, and
    reading the files back gives the sessions. *)
Theorem file_backend_lossless cfg w os :
  (0 < QEM_TRACE_BUFFER_SIZE cfg)%nat -> Z.of_nat (QEM_TRACE_BUFFER_SIZE cfg) < 2 ^ 32 ->
  w_faults w = [] -> ops_ok cfg (10 ^ 8) os spec_init ->
  let sp := spec_ops cfg os spec_init in
  exists s, file_ops cfg os (file_init cfg w) = Done ((), s) /\
    qem_tracing_state s = sp_tracing sp /\
    (forall k ts, sp_closed sp !! k = Some ts ->
       w_fs (fs_world s) !! trace_filename (Z.of_nat k) = Some (file_bytes cfg ts)) /\
    file_sessions cfg s = sp_closed sp.
Proof.
  intros HN HN32 Hw Hok sp.
  destruct (wp_total _ _ _ (file_ops_refines cfg False HN HN32 os spec_init _
    (file_init_rel cfg False w ltac:(by unfold may_fail)) Hok)) as ([] & s & Hrun & H).
  exists s. split; [done|]. split; [apply (fr_tracing _ _ _ _ H)|].
  split; [exact (fr_closed _ _ _ _ H)|exact (file_sessions_closed _ _ HN _ _ H)].
Qed.

Lemma file_backend_lossless_witness :
  exists s, file_ops (cfg_small true false) ops_small (file_init (cfg_small true false) world0)
    = Done ((), s) /\ length (file_sessions (cfg_small true false) s) = 2%nat.
Proof.
  destruct (file_backend_lossless (cfg_small true false) world0 ops_small) as (s & Hs & _ & _ & Hr).
  - cbn. lia.
  - reflexivity.
  - reflexivity.
  - decide_now.
  - exists s. split; [exact Hs|]. rewrite Hr. reflexivity.
Defined.



(** Opening a trace file overflows the 23-byte [filename] exactly from the
    session of index 10^8 on, whatever the C library answers. *)
Theorem init_filename_overflow cfg s :
  0 <= qem_file_index s < 2 ^ 31 ->
  qem_init_tracing cfg s = Undefined <-> 10 ^ 8 <= qem_file_index s.
Proof.
  intros Hidx. split.
  - intros Hu. destruct (Z.lt_ge_cases (qem_file_index s) (10 ^ 8)) as [Hlt|]; [|done].
    exfalso. revert Hu. eapply (wp_defined True), init_defined; [done|lia].
  - intros Hge. unfold qem_init_tracing. rewrite gets_bind, modify_bind.
    unfold mbind at 1, C_bind at 1, libc at 1, zoom, sprintf.
    by rewrite (proj2 (Nat.leb_gt _ _)) by (pose proof (length_trace_filename_ge _ (conj Hge (proj2 Hidx))); lia).
Qed.

Lemma init_filename_overflow_witness :
  let s := set_index (file_init (cfg_small true false) world0) (10 ^ 8) in
  qem_init_tracing (cfg_small true false) s = Undefined.
Proof.
  intros s. apply (init_filename_overflow (cfg_small true false) s); subst s; cbn; lia.
Defined.
