(* ===== verification/FileMT.v ===== *)
(** * The double-buffered file backend

    [qem_trace_file_mt_buff.c]: the emulator fills one of two buffers while a
    detached thread writes the other to the trace file; a semaphore hands the
    file and the idle buffer over.  The emulator thread and the flush threads are
    interleaved at the granularity of library calls and accesses to the shared
    variables: each function is a table from its program points to the atomic
    action done there and the next program point ([None] once it returned). *)

From S2P Require Import Prelude TraceDef Trace Stdio TraceFile Sink.

(** ** State *)

(** Program points of [qem_trace_flush_routine]. *)
Inductive flush_pc := FWrite | FSize | FReset | FPost.

Record mt_state := mk_mt_state {
  qem_tracing_state : Z;
  qem_time_start : Z;
  qem_trace_current_buffer : nat;
  qem_trace_buffer_sizes : nat -> Z;
  qem_trace_buffer : nat -> bytes;
  qem_file_size : Z;
  qem_trace_file_fd : option FILE;
  qem_trace_buffer_sync : Z;
  qem_trace_buffer_sync_init : Z;
  qem_file_index : Z;
  mt_threads : list (nat * flush_pc);
  mt_world : world
}.

Section setters.
Context (s : mt_state).
Definition set_tracing (v : Z) : mt_state :=
  mk_mt_state v (qem_time_start s) (qem_trace_current_buffer s)
    (qem_trace_buffer_sizes s) (qem_trace_buffer s) (qem_file_size s)
    (qem_trace_file_fd s) (qem_trace_buffer_sync s) (qem_trace_buffer_sync_init s)
    (qem_file_index s) (mt_threads s) (mt_world s).
Definition set_time (v : Z) : mt_state :=
  mk_mt_state (qem_tracing_state s) v (qem_trace_current_buffer s)
    (qem_trace_buffer_sizes s) (qem_trace_buffer s) (qem_file_size s)
    (qem_trace_file_fd s) (qem_trace_buffer_sync s) (qem_trace_buffer_sync_init s)
    (qem_file_index s) (mt_threads s) (mt_world s).
Definition set_current (v : nat) : mt_state :=
  mk_mt_state (qem_tracing_state s) (qem_time_start s) v (qem_trace_buffer_sizes s)
    (qem_trace_buffer s) (qem_file_size s) (qem_trace_file_fd s)
    (qem_trace_buffer_sync s) (qem_trace_buffer_sync_init s) (qem_file_index s)
    (mt_threads s) (mt_world s).
Definition set_sizes (v : nat -> Z) : mt_state :=
  mk_mt_state (qem_tracing_state s) (qem_time_start s) (qem_trace_current_buffer s) v
    (qem_trace_buffer s) (qem_file_size s) (qem_trace_file_fd s)
    (qem_trace_buffer_sync s) (qem_trace_buffer_sync_init s) (qem_file_index s)
    (mt_threads s) (mt_world s).
Definition set_buffers (v : nat -> bytes) : mt_state :=
  mk_mt_state (qem_tracing_state s) (qem_time_start s) (qem_trace_current_buffer s)
    (qem_trace_buffer_sizes s) v (qem_file_size s) (qem_trace_file_fd s)
    (qem_trace_buffer_sync s) (qem_trace_buffer_sync_init s) (qem_file_index s)
    (mt_threads s) (mt_world s).
Definition set_fsize (v : Z) : mt_state :=
  mk_mt_state (qem_tracing_state s) (qem_time_start s) (qem_trace_current_buffer s)
    (qem_trace_buffer_sizes s) (qem_trace_buffer s) v (qem_trace_file_fd s)
    (qem_trace_buffer_sync s) (qem_trace_buffer_sync_init s) (qem_file_index s)
    (mt_threads s) (mt_world s).
Definition set_fd (v : option FILE) : mt_state :=
  mk_mt_state (qem_tracing_state s) (qem_time_start s) (qem_trace_current_buffer s)
    (qem_trace_buffer_sizes s) (qem_trace_buffer s) (qem_file_size s) v
    (qem_trace_buffer_sync s) (qem_trace_buffer_sync_init s) (qem_file_index s)
    (mt_threads s) (mt_world s).
Definition set_sync (v : Z) : mt_state :=
  mk_mt_state (qem_tracing_state s) (qem_time_start s) (qem_trace_current_buffer s)
    (qem_trace_buffer_sizes s) (qem_trace_buffer s) (qem_file_size s)
    (qem_trace_file_fd s) v (qem_trace_buffer_sync_init s) (qem_file_index s)
    (mt_threads s) (mt_world s).
Definition set_sync_init (v : Z) : mt_state :=
  mk_mt_state (qem_tracing_state s) (qem_time_start s) (qem_trace_current_buffer s)
    (qem_trace_buffer_sizes s) (qem_trace_buffer s) (qem_file_size s)
    (qem_trace_file_fd s) (qem_trace_buffer_sync s) v (qem_file_index s) (mt_threads
    s) (mt_world s).
Definition set_index (v : Z) : mt_state :=
  mk_mt_state (qem_tracing_state s) (qem_time_start s) (qem_trace_current_buffer s)
    (qem_trace_buffer_sizes s) (qem_trace_buffer s) (qem_file_size s)
    (qem_trace_file_fd s) (qem_trace_buffer_sync s) (qem_trace_buffer_sync_init s) v
    (mt_threads s) (mt_world s).
Definition set_threads (v : list (nat * flush_pc)) : mt_state :=
  mk_mt_state (qem_tracing_state s) (qem_time_start s) (qem_trace_current_buffer s)
    (qem_trace_buffer_sizes s) (qem_trace_buffer s) (qem_file_size s)
    (qem_trace_file_fd s) (qem_trace_buffer_sync s) (qem_trace_buffer_sync_init s)
    (qem_file_index s) v (mt_world s).
Definition set_world (v : world) : mt_state :=
  mk_mt_state (qem_tracing_state s) (qem_time_start s) (qem_trace_current_buffer s)
    (qem_trace_buffer_sizes s) (qem_trace_buffer s) (qem_file_size s)
    (qem_trace_file_fd s) (qem_trace_buffer_sync s) (qem_trace_buffer_sync_init s)
    (qem_file_index s) (mt_threads s) v.
End setters.

#[export] Instance mt_stdio : HasStdio mt_state := {|
  io_world := mt_world;
  io_set_world := fun w s => set_world s w;
  io_fd := qem_trace_file_fd;
  io_set_fd := fun fd s => set_fd s fd
|}.

(** Update of one of the two buffers. *)
Definition upd {A} (b : nat) (v : A) (f : nat -> A) : nat -> A :=
  fun b' => if (b' =? b)%nat then v else f b'.

Definition set_size (s : mt_state) (b : nat) (n : Z) : mt_state :=
  set_sizes s (upd b n (qem_trace_buffer_sizes s)).
Definition set_buffer (s : mt_state) (b : nat) (bs : bytes) : mt_state :=
  set_buffers s (upd b bs (qem_trace_buffer s)).

(** ** Semaphores and threads

    [sem_wait] blocks while the counter is zero: the scheduler below does not run
    a thread at such a point, unless the call is about to fail. *)

Definition sem_check (msg : string) : C mt_state () :=
  a ← libc next_answer;
  when (negb (a =? 0)) (libc (QEM_TRACE_ERROR msg (-1) 1)).

Definition sem_wait : C mt_state () :=
  sem_check "Could not get synchronization semaphore" ;;
  modify (fun s => set_sync s (qem_trace_buffer_sync s - 1)).

Definition sem_post : C mt_state () :=
  sem_check "Could not post synchronization semaphore" ;;
  modify (fun s => set_sync s (qem_trace_buffer_sync s + 1)).

Definition pthread_check (msg : string) : C mt_state () :=
  a ← libc next_answer;
  when (negb (a =? 0)) (libc (QEM_TRACE_ERROR msg a 1)).

(** ** Functions *)

Inductive header_pc := HSeek | HWait | HWrite | HPost.

Inductive init_pc :=
  | IOpen
  | ISem (filename : string)
  | IHeader (filename : string) (h : header_pc)
  | IEnd (filename : string).

Inductive close_pc :=
  | CWait | CFlush | CPost | CArg
  | CHeader (size : Z) (h : header_pc)
  | CClose.

Inductive output_pc :=
  | OTest
  | OWait (last_buffer : nat)
  | OCreate (last_buffer : nat)
  | ODetach | OSwitch | OStore.

#[export] Instance header_pc_eq_dec : EqDecision header_pc.
Proof. solve_decision. Defined.
#[export] Instance close_pc_eq_dec : EqDecision close_pc.
Proof. solve_decision. Defined.

Section code.
Context (cfg : config).

Let sz : nat := sizeof_qem_trace_t cfg.

Definition qem_write_header (size trace_size trace_version : Z) (p : header_pc)
    : C mt_state (option header_pc) :=
  match p with
  | HSeek =>
      e ← on_fd fseek_set0;
      when (negb (e =? 0)) (libc (QEM_TRACE_ERROR "Could not set the header marker" e 1)) ;;
      mret (Some HWait)
  | HWait => sem_wait ;; mret (Some HWrite)
  | HWrite =>
      e ← on_fd (fwrite (pack_header size trace_size trace_version)
                   sizeof_qem_trace_header_t 1);
      when (negb (e =? 1)) (libc (QEM_TRACE_ERROR "Could not write the header" e 1)) ;;
      modify (fun s => set_size s (qem_trace_current_buffer s) 0) ;;
      mret (Some HPost)
  | HPost => sem_post ;; mret None
  end.

Definition qem_init_tracing (p : init_pc) : C mt_state (option init_pc) :=
  match p with
  | IOpen =>
      index ← gets qem_file_index;
      modify (fun s => set_index s (u32 (index + 1))) ;;
      filename ← libc (sprintf 23 (trace_filename index));
      libc (remove filename) ;;
      r ← libc (fopen_wb filename);
      match r with
      | inl errno =>
          modify (fun s => set_fd s None) ;;
          libc (QEM_TRACE_ERROR "Could not create or open the trace file" errno 1) ;;
          mret (Some (ISem filename))
      | inr fd => modify (fun s => set_fd s (Some fd)) ;; mret (Some (ISem filename))
      end
  | ISem filename =>
      i ← gets qem_trace_buffer_sync_init;
      when (i =? 0)
        (sem_check "Could not initialize synchronization semaphore" ;;
         modify (fun s => set_sync s 1)) ;;
      mret (Some (IHeader filename HSeek))
  | IHeader filename h =>
      r ← qem_write_header 0 (Z.of_nat sz) 1 h;
      mret (Some (match r with Some h => IHeader filename h | None => IEnd filename end))
  | IEnd filename =>
      modify (fun s => set_fsize s (Z.of_nat sz)) ;;
      libc (QEM_TRACE_INFO "==== Trace file name" 0) ;;
      libc (QEM_TRACE_INFO filename 0) ;;
      mret None
  end.

(** [fwrite] of the records of a buffer, and the check of its result. *)
Definition write_buffer (b : nat) : C mt_state () :=
  n ← gets (fun s => qem_trace_buffer_sizes s b);
  buf ← gets (fun s => qem_trace_buffer s b);
  items ← access_ (mem_read 0 (sz * Z.to_nat n) buf);
  e ← on_fd (fwrite items sz (Z.to_nat n));
  n ← gets (fun s => qem_trace_buffer_sizes s b);
  when (negb (e =? n)) (libc (QEM_TRACE_ERROR "Could not flush trace buffer" e 1)).

(** [qem_file_size += size * sizeof(qem_trace_t)]. *)
Definition count_buffer (b : nat) : C mt_state () :=
  modify (fun s => set_fsize s
    (u64 (qem_file_size s + qem_trace_buffer_sizes s b * Z.of_nat sz))).

Definition qem_close_tracing (p : close_pc) : C mt_state (option close_pc) :=
  match p with
  | CWait => sem_wait ;; mret (Some CFlush)
  | CFlush =>
      b ← gets qem_trace_current_buffer;
      n ← gets (fun s => qem_trace_buffer_sizes s b);
      when (negb (n =? 0))
        (write_buffer b ;; count_buffer b ;; modify (fun s => set_size s b 0)) ;;
      mret (Some CPost)
  | CPost => sem_post ;; mret (Some CArg)
  | CArg => size ← gets qem_file_size; mret (Some (CHeader size HSeek))
  | CHeader size h =>
      r ← qem_write_header size (Z.of_nat sz) 1 h;
      mret (Some (match r with Some h => CHeader size h | None => CClose end))
  | CClose =>
      o ← gets qem_trace_file_fd;
      fd ← access_ o;
      r ← libc (fclose fd);
      (if r.1 <? 0
       then libc (QEM_TRACE_ERROR "Error while closing the trace file" r.2 0)
       else libc (QEM_TRACE_INFO "Trace file saved" 0)) ;;
      mret None
  end.

Definition qem_trace_flush_routine (last_buffer : nat) (p : flush_pc)
    : C mt_state (option flush_pc) :=
  match p with
  | FWrite => write_buffer last_buffer ;; mret (Some FSize)
  | FSize => count_buffer last_buffer ;; mret (Some FReset)
  | FReset => modify (fun s => set_size s last_buffer 0) ;; mret (Some FPost)
  | FPost => sem_post ;; mret None
  end.

(** Copying a record to the end of the current buffer. *)
Definition store_record (t : qem_trace_t) : C mt_state () :=
  b ← gets qem_trace_current_buffer;
  n ← gets (fun s => qem_trace_buffer_sizes s b);
  buf ← gets (fun s => qem_trace_buffer s b);
  let offset := n * Z.of_nat sz in
  buf ← access_ (mem_write (Z.to_nat offset) (pack cfg t) buf);
  modify (fun s => set_buffer s b buf) ;;
  modify (fun s => set_size s b (u32 (n + 1))).

Definition qem_trace_output (t : qem_trace_t) (p : output_pc) : C mt_state (option output_pc) :=
  match p with
  | OTest =>
      b ← gets qem_trace_current_buffer;
      n ← gets (fun s => qem_trace_buffer_sizes s b);
      mret (Some (if n =? Z.of_nat (QEM_TRACE_BUFFER_SIZE cfg) then OWait b else OStore))
  | OWait last_buffer => sem_wait ;; mret (Some (OCreate last_buffer))
  | OCreate last_buffer =>
      pthread_check "Could not create flush trace thread" ;;
      modify (fun s => set_threads s (mt_threads s ++ [(last_buffer, FWrite)])) ;;
      mret (Some ODetach)
  | ODetach => pthread_check "Could not detach flush trace thread" ;; mret (Some OSwitch)
  | OSwitch =>
      modify (fun s => set_current s ((qem_trace_current_buffer s + 1) mod 2)%nat) ;;
      mret (Some OStore)
  | OStore => store_record t ;; mret None
  end.

Definition qem_trace_start_timer (now : Z) : C mt_state () :=
  modify (fun s => set_time s (u64 now)).

Definition qem_trace_get_timer (now : Z) : C mt_state () :=
  start ← gets qem_time_start;
  libc (print ("[QEMU] Elapsed time = " +:+ fmt_u (u64 (u64 now - start)) +:+ newline)%string).

(** ** The emulator thread *)

(** What the emulator thread is running: nothing, [qem_trace_enable] (with
    [None] at the assignment of the tracing state), [qem_close_tracing] called by
    [qem_trace_disable], or [qem_trace_output]. *)
Inductive main_pc :=
  | Idle
  | Enabling (type : Z) (p : option init_pc)
  | Closing (p : close_pc)
  | Output (t : qem_trace_t) (p : output_pc).

Definition qem_trace_enable (type : Z) : C mt_state main_pc :=
  st ← gets qem_tracing_state;
  mret (if st =? type then Idle
        else Enabling type (if st =? 0 then Some IOpen else None)).

Definition qem_trace_disable (type : Z) : C mt_state main_pc :=
  st ← gets qem_tracing_state;
  if st =? 0 then mret Idle
  else
    let st := u8 (Z.land st (Z.lnot type)) in
    modify (fun s => set_tracing s st) ;;
    mret (if st =? 0 then Closing CWait else Idle).

(** The call of an API function. *)
Definition main_call (o : op) : C mt_state main_pc :=
  match o with
  | OpEnable ty => qem_trace_enable ty
  | OpDisable ty => qem_trace_disable ty
  | OpOutput _ pa core time flg => mret (Output (new_trace cfg pa core time flg) OTest)
  end.

(** One atomic action of the running function. *)
Definition main_code (p : main_pc) : C mt_state main_pc :=
  match p with
  | Idle => mret Idle
  | Enabling ty (Some i) => r ← qem_init_tracing i; mret (Enabling ty r)
  | Enabling ty None => modify (fun s => set_tracing s (u8 ty)) ;; mret Idle
  | Closing c =>
      r ← qem_close_tracing c; mret (match r with Some c => Closing c | None => Idle end)
  | Output t o =>
      r ← qem_trace_output t o; mret (match r with Some o => Output t o | None => Idle end)
  end.

(** ** Interleaving *)

Record machine := mk_machine { mc_main : main_pc; mc_state : mt_state }.

(** The points at which the emulator thread calls [sem_wait]. *)
Definition at_wait (p : main_pc) : bool :=
  match p with
  | Enabling _ (Some (IHeader _ HWait)) | Closing CWait | Closing (CHeader _ HWait)
  | Output _ (OWait _) => true
  | _ => false
  end.

Definition main_ready (m : machine) : bool :=
  match mc_main m with
  | Idle => false
  | p => negb (at_wait p) || (0 <? qem_trace_buffer_sync (mc_state m))
         || match w_faults (mt_world (mc_state m)) with [] => false | a :: _ => negb (a =? 0) end
  end.

(** One atomic action of the flush thread number [i], which is at [p] on buffer
    [b]; a thread that returned is gone. *)
Definition thread_code (i b : nat) (p : flush_pc) : C mt_state () :=
  r ← qem_trace_flush_routine b p;
  modify (fun s => set_threads s
    match r with
    | Some p => <[i := (b, p)]> (mt_threads s)
    | None => delete i (mt_threads s)
    end).

(** Run the emulator thread ([None]) or the flush thread number [i]; [None] when
    it cannot run. *)
Definition mt_next (who : option nat) (m : machine) : option (outcome machine) :=
  let s := mc_state m in
  match who with
  | None =>
      if main_ready m
      then Some match main_code (mc_main m) s with
                | Done (p, s') => Done (mk_machine p s')
                | Exit c => Exit c
                | Undefined => Undefined
                end
      else None
  | Some i =>
      match mt_threads s !! i with
      | None => None
      | Some (b, p) =>
          Some match thread_code i b p s with
               | Done (_, s') => Done (mk_machine (mc_main m) s')
               | Exit c => Exit c
               | Undefined => Undefined
               end
      end
  end.

Definition mt_step (m m' : machine) : Prop := exists who, mt_next who m = Some (Done m').

Definition mt_init (w : world) : mt_state := {|
  qem_tracing_state := 0;
  qem_time_start := 0;
  qem_trace_current_buffer := 0;
  qem_trace_buffer_sizes := fun _ => 0;
  qem_trace_buffer := fun _ => replicate (QEM_TRACE_BUFFER_SIZE cfg * sz) 0;
  qem_file_size := 0;
  qem_trace_file_fd := None;
  qem_trace_buffer_sync := 0;
  qem_trace_buffer_sync_init := 0;
  qem_file_index := 0;
  mt_threads := [];
  mt_world := w
|}.
End code.
