(* ===== verification/FileMTProof.v ===== *)
(** * Correctness of the double-buffered file backend

    The invariant of the two buffers, the semaphore and the flush thread, kept by
    every action of every interleaving ([mt_rel]); termination of every schedule
    ([rank]); the instance of [TraceSink]; and the properties of the backend. *)

From S2P Require Import Prelude TraceDef Trace Stdio TraceFile Sink FileMT.

(** ** The invariant

    The records of the open session are, in order, those written to the file,
    those in the buffer a flush thread owns, and those in the current buffer.
    The semaphore says who owns the file and the other buffer: at 1 nobody (and
    the other buffer is empty), at 0 the one flush thread or the emulator
    thread. *)

Section invariant.
Context (cfg : config) (E : Prop).
Abbreviation sz := (sizeof_qem_trace_t cfg).
Abbreviation N := (QEM_TRACE_BUFFER_SIZE cfg).
Abbreviation packs ts := (concat (map (pack cfg) ts)).
Abbreviation cur s := (qem_trace_current_buffer s).

Definition other (b : nat) : nat := ((b + 1) mod 2)%nat.

(** Buffer [b] holds the records [ts]. *)
Definition buf (b : nat) (ts : list qem_trace_t) (s : mt_state) : Prop :=
  length (qem_trace_buffer s b) = (N * sz)%nat /\
  (length ts <= N)%nat /\
  qem_trace_buffer_sizes s b = Z.of_nat (length ts) /\
  slice 0 (length ts * sz) (qem_trace_buffer s b) = packs ts.

(** A file holds a header and the records [ts]. *)
Definition holds (ts : list qem_trace_t) (file : option bytes) : Prop :=
  exists hdr, length hdr = 16%nat /\ file = Some (hdr ++ packs ts).

(** The stream is on the file [name], at its end. *)
Definition file_at (name : string) (ts : list qem_trace_t) (s : mt_state) : Prop :=
  qem_trace_file_fd s = Some (mk_file name (16 + length ts * sz)) /\
  holds ts (w_fs (mt_world s) !! name).

Definition size_of (ts : list qem_trace_t) : Z := u64 (Z.of_nat sz + Z.of_nat (length ts * sz)).

Definition counted (ts : list qem_trace_t) (s : mt_state) : Prop :=
  qem_file_size s = size_of ts.

(** A flush thread at [p], writing the records [infl] of buffer [b] after the
    records [fl] of the file. *)
Definition flush_inv (name : string) (b : nat) (fl infl : list qem_trace_t) (p : flush_pc)
    (s : mt_state) : Prop :=
  match p with
  | FWrite => file_at name fl s /\ counted fl s /\ buf b infl s
  | FSize => file_at name (fl ++ infl) s /\ counted fl s /\ buf b infl s
  | FReset => file_at name (fl ++ infl) s /\ counted (fl ++ infl) s /\ buf b infl s
  | FPost => file_at name (fl ++ infl) s /\ counted (fl ++ infl) s /\ buf b [] s
  end.

(** The file and buffer [b] with [k] tokens in the semaphore and no thread. *)
Definition at_rest (k : Z) (name : string) (b : nat) (fl : list qem_trace_t) (s : mt_state) : Prop :=
  mt_threads s = [] /\ qem_trace_buffer_sync s = k /\
  file_at name fl s /\ counted fl s /\ buf b [] s.

(** The emulator thread does not hold the semaphore: the file and buffer [b]
    are at rest or owned by the flush thread. *)
Definition shared (name : string) (b : nat) (fl infl : list qem_trace_t) (s : mt_state) : Prop :=
  (infl = [] /\ at_rest 1 name b fl s) \/
  (exists p, mt_threads s = [(b, p)] /\ qem_trace_buffer_sync s = 0 /\
    flush_inv name b fl infl p s).

(** An open session with the records [ts]. *)
Definition running (name : string) (ts : list qem_trace_t) (s : mt_state) : Prop :=
  exists fl infl cu, ts = fl ++ infl ++ cu /\
    shared name (other (cur s)) fl infl s /\ buf (cur s) cu s.

(** Both buffers empty, no thread. *)
Definition quiet (s : mt_state) : Prop :=
  mt_threads s = [] /\ buf (cur s) [] s /\ buf (other (cur s)) [] s.

(** The points of [qem_write_header]: the file satisfies [before], and is [after]
    once the header is written. *)
Definition header_inv (name : string) (before : option bytes -> Prop) (after : bytes)
    (p : header_pc) (s : mt_state) : Prop :=
  quiet s /\
  match p with
  | HSeek => before (w_fs (mt_world s) !! name) /\ qem_trace_buffer_sync s = 1 /\
      exists pos, qem_trace_file_fd s = Some (mk_file name pos)
  | HWait => before (w_fs (mt_world s) !! name) /\ qem_trace_buffer_sync s = 1 /\
      qem_trace_file_fd s = Some (mk_file name 0)
  | HWrite => before (w_fs (mt_world s) !! name) /\ qem_trace_buffer_sync s = 0 /\
      qem_trace_file_fd s = Some (mk_file name 0)
  | HPost => qem_trace_buffer_sync s = 0 /\ qem_trace_file_fd s = Some (mk_file name 16) /\
      w_fs (mt_world s) !! name = Some after
  end.

Definition init_header : bytes := pack_header 0 (Z.of_nat sz) 1.

Definition init_inv (name : string) (p : init_pc) (s : mt_state) : Prop :=
  match p with
  | IOpen => quiet s
  | ISem f => f = name /\ quiet s /\ qem_trace_file_fd s = Some (mk_file name 0) /\
      w_fs (mt_world s) !! name = Some []
  | IHeader f h => f = name /\
      header_inv name (fun file => file = Some []) init_header h s
  | IEnd f => f = name /\ quiet s /\ qem_trace_buffer_sync s = 1 /\ file_at name [] s
  end.

Definition close_inv (name : string) (ts : list qem_trace_t) (p : close_pc) (s : mt_state) : Prop :=
  match p with
  | CWait => running name ts s
  | CFlush => exists fl cu, ts = fl ++ cu /\
      at_rest 0 name (other (cur s)) fl s /\ buf (cur s) cu s
  | CPost => at_rest 0 name (other (cur s)) ts s /\ buf (cur s) [] s
  | CArg => at_rest 1 name (other (cur s)) ts s /\ buf (cur s) [] s
  | CHeader size h => size = size_of ts /\
      header_inv name (holds ts) (file_bytes cfg ts) h s
  | CClose => quiet s /\ w_fs (mt_world s) !! name = Some (file_bytes cfg ts) /\
      exists pos, qem_trace_file_fd s = Some (mk_file name pos)
  end.

(** [ts] are the records before the one that is being output. *)
Definition output_inv (name : string) (ts : list qem_trace_t) (p : output_pc) (s : mt_state) : Prop :=
  match p with
  | OTest => running name ts s
  | OWait last => last = cur s /\ exists fl infl cu, ts = fl ++ infl ++ cu /\
      shared name (other (cur s)) fl infl s /\ buf (cur s) cu s /\ length cu = N
  | OCreate last => last = cur s /\ exists fl cu, ts = fl ++ cu /\
      at_rest 0 name (other (cur s)) fl s /\ buf (cur s) cu s
  | ODetach | OSwitch => exists fl infl, ts = fl ++ infl /\
      shared name (cur s) fl infl s /\ buf (other (cur s)) [] s
  | OStore => exists fl infl cu, ts = fl ++ infl ++ cu /\
      shared name (other (cur s)) fl infl s /\ buf (cur s) cu s /\ (length cu < N)%nat
  end.

(** The session [sp] describes is the one after the call that is running. *)
Definition work (sp : spec_state) (p : main_pc) : nat :=
  match p with
  | Closing _ => pred (length (sp_closed sp))
  | _ => length (sp_closed sp)
  end.

Definition main_inv (sp : spec_state) (p : main_pc) (s : mt_state) : Prop :=
  let n := length (sp_closed sp) in
  let name := trace_filename (Z.of_nat (work sp p)) in
  match p with
  | Idle => qem_tracing_state s = sp_tracing sp /\
      if sp_tracing sp =? 0
      then quiet s /\ qem_file_index s = Z.of_nat n
      else running name (sp_open sp) s /\ qem_file_index s = Z.of_nat n + 1
  | Enabling ty (Some i) => sp_tracing sp = ty /\ 1 <= ty <= 3 /\ sp_open sp = [] /\
      init_inv name i s /\
      qem_file_index s = Z.of_nat n + match i with IOpen => 0 | _ => 1 end
  | Enabling ty None => sp_tracing sp = ty /\ 1 <= ty <= 3 /\
      running name (sp_open sp) s /\ qem_file_index s = Z.of_nat n + 1
  | Closing c => qem_tracing_state s = 0 /\ sp_tracing sp = 0 /\
      qem_file_index s = Z.of_nat n /\
      exists cl ts, sp_closed sp = cl ++ [ts] /\ close_inv name ts c s
  | Output t o => qem_tracing_state s = sp_tracing sp /\ sp_tracing sp <> 0 /\
      qem_file_index s = Z.of_nat n + 1 /\
      exists ts, sp_open sp = ts ++ [t] /\ output_inv name ts o s
  end.

Record mt_rel (sp : spec_state) (m : machine) : Prop := {
  mr_tracing_ok : tracing_ok (sp_tracing sp);
  mr_faults : may_fail E (mt_world (mc_state m));
  mr_sync_init : qem_trace_buffer_sync_init (mc_state m) = 0;
  mr_current : (cur (mc_state m) < 2)%nat;
  mr_max : Z.of_nat (length (sp_closed sp)) + (if sp_tracing sp =? 0 then 0 else 1) <= 10 ^ 8;
  mr_closed : forall k ts, sp_closed sp !! k = Some ts -> k <> work sp (mc_main m) ->
    w_fs (mt_world (mc_state m)) !! trace_filename (Z.of_nat k) = Some (file_bytes cfg ts);
  mr_main : main_inv sp (mc_main m) (mc_state m);
  mr_ok : Forall (Forall (trace_ok cfg)) (sp_closed sp) /\ Forall (trace_ok cfg) (sp_open sp)
}.

(** ** Lemmas *)

(** What the data of a session depends on. *)
Record same (s s' : mt_state) : Prop := {
  same_current : cur s' = cur s;
  same_sizes : qem_trace_buffer_sizes s' = qem_trace_buffer_sizes s;
  same_buffer : qem_trace_buffer s' = qem_trace_buffer s;
  same_fsize : qem_file_size s' = qem_file_size s;
  same_fd : qem_trace_file_fd s' = qem_trace_file_fd s;
  same_fs : w_fs (mt_world s') = w_fs (mt_world s)
}.

(** What an action on the session of file [name] keeps; [d] files are opened. *)
Record frame (name : string) (d : Z) (s s' : mt_state) : Prop := {
  frame_index : qem_file_index s' = qem_file_index s + d;
  frame_tracing : qem_tracing_state s' = qem_tracing_state s;
  frame_sync_init : qem_trace_buffer_sync_init s' = qem_trace_buffer_sync_init s;
  frame_current : (cur s < 2 -> cur s' < 2)%nat;
  frame_faults : may_fail E (mt_world s) -> may_fail E (mt_world s');
  frame_fs n : n <> name -> w_fs (mt_world s') !! n = w_fs (mt_world s) !! n
}.

Lemma same_buf b ts s s' : same s s' -> buf b ts s -> buf b ts s'.
Proof. intros [] H. unfold buf in *. by rewrite same_sizes0, same_buffer0. Qed.

Lemma same_file_at name ts s s' : same s s' -> file_at name ts s -> file_at name ts s'.
Proof. intros [] H. unfold file_at in *. by rewrite same_fd0, same_fs0. Qed.

Lemma same_counted ts s s' : same s s' -> counted ts s -> counted ts s'.
Proof. intros [] H. unfold counted in *. by rewrite same_fsize0. Qed.

Lemma same_quiet s s' : same s s' -> mt_threads s' = mt_threads s -> quiet s -> quiet s'.
Proof.
  intros Hs Ht (? & ? & ?). split; [congruence|].
  rewrite (same_current _ _ Hs). by split; eapply same_buf.
Qed.

Lemma wp_sem_check msg (Q : () -> mt_state -> Prop) s :
  may_fail E (mt_world s) ->
  (forall w, may_fail E w -> w_fs w = w_fs (mt_world s) -> Q () (set_world s w)) ->
  wp E (sem_check msg) Q s.
Proof.
  intros Hw HQ. unfold sem_check. apply wp_bind, wp_libc, wp_next_answer; [done|].
  intros a w Ha Hw' Hfs. apply wp_when.
  - intros Hne%negb_true_iff%Z.eqb_neq. apply wp_libc, wp_error_critical, Ha, Hne.
  - intros _. by apply HQ.
Qed.

Lemma wp_pthread_check msg (Q : () -> mt_state -> Prop) s :
  may_fail E (mt_world s) ->
  (forall w, may_fail E w -> w_fs w = w_fs (mt_world s) -> Q () (set_world s w)) ->
  wp E (pthread_check msg) Q s.
Proof.
  intros Hw HQ. unfold pthread_check. apply wp_bind, wp_libc, wp_next_answer; [done|].
  intros a w Ha Hw' Hfs. apply wp_when.
  - intros Hne%negb_true_iff%Z.eqb_neq. apply wp_libc, wp_error_critical, Ha, Hne.
  - intros _. by apply HQ.
Qed.

Lemma wp_sem_wait (Q : () -> mt_state -> Prop) s :
  may_fail E (mt_world s) ->
  (forall w, may_fail E w -> w_fs w = w_fs (mt_world s) ->
     Q () (set_sync (set_world s w) (qem_trace_buffer_sync s - 1))) ->
  wp E sem_wait Q s.
Proof.
  intros Hw HQ. unfold sem_wait. apply wp_bind, wp_sem_check; [done|].
  intros w Hw' Hfs. wp_step. by apply HQ.
Qed.

Lemma wp_sem_post (Q : () -> mt_state -> Prop) s :
  may_fail E (mt_world s) ->
  (forall w, may_fail E w -> w_fs w = w_fs (mt_world s) ->
     Q () (set_sync (set_world s w) (qem_trace_buffer_sync s + 1))) ->
  wp E sem_post Q s.
Proof.
  intros Hw HQ. unfold sem_post. apply wp_bind, wp_sem_check; [done|].
  intros w Hw' Hfs. wp_step. by apply HQ.
Qed.

(** Writing a buffer appends its records to the file. *)
Lemma wp_write_buffer name fl ts b (Q : () -> mt_state -> Prop) s :
  may_fail E (mt_world s) -> file_at name fl s -> buf b ts s ->
  (forall w fd, let s' := set_fd (set_world s w) fd in
     may_fail E w -> file_at name (fl ++ ts) s' ->
     (forall n, n <> name -> w_fs w !! n = w_fs (mt_world s) !! n) -> Q () s') ->
  wp E (write_buffer cfg b) Q s.
Proof.
  intros Hw (Hfd & hdr & Hhdr & Hfs) (Hlen & HN & Hcnt & Hbuf) HQ.
  unfold write_buffer. do 2 wp_step. rewrite Hcnt, Nat2Z.id.
  apply wp_access with (packs ts).
  { rewrite mem_read_Some by (rewrite Hlen; nia). f_equal. rewrite <- Hbuf. f_equal. lia. }
  apply wp_bind. eapply wp_on_fd; [done|].
  apply wp_fwrite; [done|rewrite length_concat_pack; lia| |]; cbn [fst snd f_name f_pos]; cycle 1.
  { intros k fd' w' Hk HE. wp_step. apply wp_check; cbn; [done|congruence]. }
  intros w' Hw' Hfs'. cbn -[Nat.add] in Hfs'. wp_step. apply wp_check; [cbn; congruence|]. intros _.
  apply HQ; [done| |].
  - split; cbn -[Nat.add].
    + rewrite length_concat_pack, length_app. do 2 f_equal. lia.
    + exists hdr. split; [done|]. rewrite Hfs', lookup_alter_eq, Hfs. cbn -[Nat.add].
      by rewrite append_packs.
  - intros n Hn. by rewrite Hfs', lookup_alter_ne.
Qed.

Lemma wp_count_buffer ts ts' b (Q : () -> mt_state -> Prop) s :
  counted ts s -> qem_trace_buffer_sizes s b = Z.of_nat (length ts') ->
  Q () (set_fsize s (size_of (ts ++ ts'))) -> wp E (count_buffer cfg b) Q s.
Proof.
  intros Hc Hn HQ. unfold count_buffer. wp_step. rewrite Hc, Hn. unfold size_of in *.
  rewrite wrap_add_l. rewrite length_app in HQ.
  replace (Z.of_nat sz + Z.of_nat (length ts * sz) + Z.of_nat (length ts') * Z.of_nat sz)
    with (Z.of_nat sz + Z.of_nat ((length ts + length ts') * sz)) by lia. done.
Qed.

Lemma buf_reset b ts s : buf b ts s -> buf b [] (set_size s b 0).
Proof.
  intros (? & ? & _ & _). unfold buf. cbn. unfold upd. rewrite Nat.eqb_refl.
  repeat split; [done|lia].
Qed.

Lemma buf_set_size b b' ts k s : b' <> b -> buf b ts s -> buf b ts (set_size s b' k).
Proof.
  intros Hne H. unfold buf in *. cbn. unfold upd.
  by rewrite (proj2 (Nat.eqb_neq b b')) by done.
Qed.

Lemma buf_zero b b' s : buf b [] s -> buf b [] (set_size s b' 0).
Proof.
  intros H. destruct (decide (b' = b)) as [->|Hne]; [by eapply buf_reset|by apply buf_set_size].
Qed.

Lemma frame_io name s s' :
  qem_tracing_state s' = qem_tracing_state s -> qem_file_index s' = qem_file_index s ->
  qem_trace_buffer_sync_init s' = qem_trace_buffer_sync_init s ->
  cur s' = cur s -> may_fail E (mt_world s') ->
  (forall n, n <> name -> w_fs (mt_world s') !! n = w_fs (mt_world s) !! n) ->
  frame name 0 s s'.
Proof. intros. split; [lia|done|done|congruence|done|done]. Qed.

Lemma frame_same name s s' :
  qem_tracing_state s' = qem_tracing_state s -> qem_file_index s' = qem_file_index s ->
  qem_trace_buffer_sync_init s' = qem_trace_buffer_sync_init s ->
  may_fail E (mt_world s') -> same s s' -> frame name 0 s s'.
Proof. intros ? ? ? ? []. apply frame_io; [done..|]. intros. by rewrite same_fs0. Qed.

(** ** The flush thread *)

Lemma flush_step name b fl infl p s :
  may_fail E (mt_world s) -> flush_inv name b fl infl p s ->
  wp E (qem_trace_flush_routine cfg b p) (fun r s' =>
    frame name 0 s s' /\ cur s' = cur s /\ mt_threads s' = mt_threads s /\
    (forall b' ts, b' <> b -> buf b' ts s -> buf b' ts s') /\
    match r with
    | Some p' => qem_trace_buffer_sync s' = qem_trace_buffer_sync s /\
        flush_inv name b fl infl p' s'
    | None => qem_trace_buffer_sync s' = qem_trace_buffer_sync s + 1 /\
        file_at name (fl ++ infl) s' /\ counted (fl ++ infl) s' /\ buf b [] s'
    end) s.
Proof.
  intros Hw Hp. destruct p; cbn [qem_trace_flush_routine flush_inv] in *;
    destruct Hp as (Hf & Hc & Hb).
  - apply wp_bind. eapply wp_write_buffer; [done..|]. intros w fd s' Hw' Hf' Hfr. wp_step.
    split; [by apply frame_io|]. done.
  - apply wp_bind. eapply wp_count_buffer; [done|apply Hb|]. wp_step.
    split; [by apply frame_io|]. done.
  - do 2 wp_step. split; [by apply frame_io|]. split; [done|]. split; [done|].
    split; [intros; by apply buf_set_size|]. split; [done|].
    split; [done|]. split; [done|]. by eapply buf_reset.
  - apply wp_bind, wp_sem_post; [done|]. intros w Hw' Hfs. wp_step.
    assert (Hs : same s (set_sync (set_world s w) (qem_trace_buffer_sync s + 1))) by done.
    split; [by apply frame_same|]. split; [done|]. split; [done|].
    split; [intros; by eapply same_buf|]. split; [done|].
    split; [by eapply same_file_at|]. done.
Qed.

Lemma other_ne b : (b < 2)%nat -> other b <> b.
Proof. intros. destruct b as [|[|b]]; cbn; lia. Qed.

Lemma other_lt b : (other b < 2)%nat.
Proof. unfold other. apply Nat.mod_upper_bound. lia. Qed.

Lemma other_other b : (b < 2)%nat -> other (other b) = b.
Proof. intros. destruct b as [|[|b]]; cbn; lia. Qed.

(** What a step of the flush thread keeps of the buffer of the emulator. *)
Definition beside (b : nat) (s s' : mt_state) : Prop :=
  cur s' = cur s /\ forall b' ts, b' <> b -> buf b' ts s -> buf b' ts s'.

Lemma shared_step name b fl infl i b' p s :
  may_fail E (mt_world s) -> shared name b fl infl s -> mt_threads s !! i = Some (b', p) ->
  wp E (thread_code cfg i b' p) (fun _ s' =>
    frame name 0 s s' /\ beside b s s' /\
    exists fl' infl', fl' ++ infl' = fl ++ infl /\ shared name b fl' infl' s') s.
Proof.
  intros Hw [(_ & Ht & _)|(p' & Ht & Hk & Hp)] Hi; rewrite Ht in Hi; [done|].
  apply list_lookup_singleton_Some in Hi as [-> [= -> ->]].
  unfold thread_code. eapply wp_seq; [by apply flush_step|]. cbn.
  intros r s' (Hfr & Hcur & Hth & Hkeep & Hr). wp_step. rewrite Hth, Ht.
  split; [by destruct Hfr|]. split; [by split|]. destruct r as [p2|]; cbn.
  - exists fl, infl. split; [done|]. right. exists p2. destruct Hr as [Hk' Hr].
    split; [done|]. split; [cbn; congruence|]. by destruct p2.
  - exists (fl ++ infl), []. rewrite app_nil_r. split; [done|]. left.
    destruct Hr as (Hk' & Hr). split; [done|]. split; [done|]. split; [cbn; lia|done].
Qed.

(** A step of the flush thread while the emulator thread is anywhere. *)
Lemma running_thread name ts i b p s :
  (cur s < 2)%nat -> may_fail E (mt_world s) -> running name ts s ->
  mt_threads s !! i = Some (b, p) ->
  wp E (thread_code cfg i b p) (fun _ s' => frame name 0 s s' /\ running name ts s') s.
Proof.
  intros Hc Hw (fl & infl & cu & -> & Hs & Hb) Hi.
  eapply wp_mono; [by eapply shared_step|].
  intros _ s' (Hfr & (Hcur & Hkeep) & fl' & infl' & Heq & Hs'). split; [done|].
  exists fl', infl', cu. rewrite Hcur, !(app_assoc _ _ cu), Heq. split; [done|].
  split; [done|]. apply Hkeep; [|done]. by apply not_eq_sym, other_ne.
Qed.

Lemma output_thread name ts o i b p s :
  (cur s < 2)%nat -> may_fail E (mt_world s) -> output_inv name ts o s ->
  mt_threads s !! i = Some (b, p) ->
  wp E (thread_code cfg i b p) (fun _ s' => frame name 0 s s' /\ output_inv name ts o s') s.
Proof.
  intros Hc Hw Ho Hi. pose proof (other_ne _ Hc) as Hne.
  destruct o as [|l|l| | |]; cbn [output_inv] in *.
  - by apply running_thread.
  - destruct Ho as (-> & fl & infl & cu & -> & Hs & Hb & Hl).
    eapply wp_mono; [by eapply shared_step|].
    intros _ s' (Hfr & (Hcur & Hkeep) & fl' & infl' & Heq & Hs').
    rewrite Hcur. split; [done|]. split; [done|]. exists fl', infl', cu.
    rewrite !(app_assoc _ _ cu), Heq. by eauto.
  - destruct Ho as (_ & fl & cu & _ & (Ht & _) & _). by rewrite Ht in Hi.
  - destruct Ho as (fl & infl & -> & Hs & Hb). eapply wp_mono; [by eapply shared_step|].
    intros _ s' (Hfr & (Hcur & Hkeep) & fl' & infl' & Heq & Hs').
    rewrite Hcur. split; [done|]. exists fl', infl'. rewrite Heq. eauto.
  - destruct Ho as (fl & infl & -> & Hs & Hb). eapply wp_mono; [by eapply shared_step|].
    intros _ s' (Hfr & (Hcur & Hkeep) & fl' & infl' & Heq & Hs').
    rewrite Hcur. split; [done|]. exists fl', infl'. rewrite Heq. eauto.
  - destruct Ho as (fl & infl & cu & -> & Hs & Hb & Hl).
    eapply wp_mono; [by eapply shared_step|].
    intros _ s' (Hfr & (Hcur & Hkeep) & fl' & infl' & Heq & Hs').
    rewrite Hcur. split; [done|]. exists fl', infl', cu.
    rewrite !(app_assoc _ _ cu), Heq. by eauto.
Qed.

(** The points of the emulator thread at which no flush thread exists. *)
Lemma init_no_thread name i s : init_inv name i s -> mt_threads s = [].
Proof.
  destruct i as [|f|f h|f]; cbn; [intros (? & _)|intros (_ & (? & _) & _)|
    intros (_ & (? & _) & _)|intros (_ & (? & _) & _)]; done.
Qed.

Lemma close_no_thread name ts c s : close_inv name ts c s -> c <> CWait -> mt_threads s = [].
Proof.
  destruct c as [| | | |size h|]; cbn; intros H Hne; [done|..].
  - by destruct H as (? & ? & _ & (? & _) & _).
  - by destruct H as ((? & _) & _).
  - by destruct H as ((? & _) & _).
  - by destruct H as (_ & (? & _) & _).
  - by destruct H as ((? & _) & _).
Qed.

(** ** The emulator thread *)

(** The next call of the environment is going to fail. *)
Definition failing (w : world) : bool :=
  match w_faults w with [] => false | a :: _ => negb (a =? 0) end.

Lemma wp_sem_wait_ready (Q : () -> mt_state -> Prop) s :
  may_fail E (mt_world s) ->
  (0 <? qem_trace_buffer_sync s) || failing (mt_world s) = true ->
  (0 < qem_trace_buffer_sync s -> forall w, may_fail E w -> w_fs w = w_fs (mt_world s) ->
     Q () (set_sync (set_world s w) (qem_trace_buffer_sync s - 1))) ->
  wp E sem_wait Q s.
Proof.
  intros Hw Hr HQ. destruct (Z.ltb_spec 0 (qem_trace_buffer_sync s)) as [Hk|Hk].
  - apply wp_sem_wait; auto.
  - cbn in Hr. unfold failing in Hr. destruct (w_faults (mt_world s)) as [|a l] eqn:Hf; [done|].
    unfold wp, sem_wait, sem_check, next_answer, mbind, C_bind, libc, zoom. cbn.
    rewrite Hf. unfold when. rewrite Hr. cbn. apply Hw. by rewrite Hf.
Qed.

Lemma header_step name before after size tsz v p s :
  may_fail E (mt_world s) -> header_inv name before after p s ->
  (forall o, before o -> exists data, o = Some data /\
     file_put 0 (pack_header size tsz v) data = after) ->
  wp E (qem_write_header size tsz v p) (fun r s' =>
    frame name 0 s s' /\
    match r with
    | Some p' => header_inv name before after p' s'
    | None => quiet s' /\ qem_trace_buffer_sync s' = 1 /\
        qem_trace_file_fd s' = Some (mk_file name 16) /\
        w_fs (mt_world s') !! name = Some after
    end) s.
Proof.
  intros Hw [Hq Hp] Hput. destruct p; cbn [qem_write_header].
  - destruct Hp as (Hbef & Hk & pos & Hfd).
    apply wp_bind. eapply wp_on_fd; [done|]. apply wp_fseek; [done| |]; cbn [fst snd f_name]; cycle 1.
    { intros k w' Hne HE. by apply wp_bind, wp_check. }
    intros w Hw' Hfs. cbn in Hfs. apply wp_bind, wp_check; [done|]. intros _. wp_step.
    split; [apply frame_io; cbn; try done; by rewrite Hfs|]. split; [done|]. cbn. by rewrite Hfs.
  - destruct Hp as (Hbef & Hk & Hfd). apply wp_bind, wp_sem_wait; [done|].
    intros w Hw' Hfs. wp_step. split; [by apply frame_same|].
    split; [done|]. cbn. rewrite Hfs, Hk. done.
  - destruct Hp as (Hbef & Hk & Hfd). destruct (Hput _ Hbef) as (data & Hdata & Hafter).
    apply wp_bind. eapply wp_on_fd; [done|].
    apply wp_fwrite; [done|by rewrite length_pack_header| |]; cbn [fst snd f_name f_pos]; cycle 1.
    { intros k fd' w' Hne HE. by apply wp_bind, wp_check. }
    intros w Hw' Hfs. cbn in Hfs. apply wp_bind, wp_check; [done|]. intros _. do 2 wp_step.
    split; [apply frame_io; cbn; try done; intros n Hn; by rewrite Hfs, lookup_alter_ne|].
    split.
    + destruct Hq as (Ht & Hb1 & Hb2). split; [done|].
      split; [by apply (buf_zero _ (cur s)) in Hb1|by apply (buf_zero _ (cur s)) in Hb2].
    + cbn. split; [done|]. split; [done|]. by rewrite Hfs, lookup_alter_eq, Hdata, <- Hafter.
  - destruct Hp as (Hk & Hfd & Hfile). apply wp_bind, wp_sem_post; [done|].
    intros w Hw' Hfs. wp_step. split; [by apply frame_same|].
    split; [done|]. cbn. rewrite Hfs, Hk. done.
Qed.

Lemma init_step name i s :
  may_fail E (mt_world s) -> qem_trace_buffer_sync_init s = 0 -> init_inv name i s ->
  (i = IOpen -> name = trace_filename (qem_file_index s) /\ 0 <= qem_file_index s < 10 ^ 8) ->
  wp E (qem_init_tracing cfg i) (fun r s' =>
    frame name match i with IOpen => 1 | _ => 0 end s s' /\
    match r with
    | Some i' => i' <> IOpen /\ init_inv name i' s'
    | None => running name [] s'
    end) s.
Proof.
  intros Hw Hsi Hi Hopen. destruct i as [|f|f h|f]; cbn [qem_init_tracing init_inv] in *.
  - destruct (Hopen eq_refl) as [-> Hidx]. do 2 wp_step.
    apply wp_bind, wp_libc, wp_sprintf; [by rewrite length_trace_filename|].
    apply wp_bind, wp_libc, wp_modify.
    apply wp_bind, wp_libc, wp_fopen; [done| |intros e w' HE; by do 2 apply wp_bind].
    intros w Hw' Hfs. cbn in Hfs. do 2 wp_step. split.
    + split; cbn; try done; [by rewrite wrap_small by lia|].
      intros n Hn. by rewrite Hfs, lookup_insert_ne, lookup_delete_ne.
    + split; [done|]. split; [done|]. split; [done|]. split; [done|].
      cbn. by rewrite Hfs, lookup_insert_eq.
  - destruct Hi as (-> & Hq & Hfd & Hfile). wp_step. rewrite Hsi.
    apply wp_bind, wp_when; [intros _|done].
    apply wp_bind, wp_sem_check; [done|]. intros w Hw' Hfs. do 2 wp_step.
    split; [by apply frame_same|]. split; [done|]. split; [done|].
    split; [done|]. cbn. rewrite Hfs. split; [done|]. split; [done|]. by eexists.
  - destruct Hi as (-> & Hh).
    eapply wp_seq; [eapply (header_step name _ _ 0 (Z.of_nat sz) 1); [done..|]|].
    { intros o ->. exists []. split; [done|]. unfold file_put, init_header.
      by rewrite drop_nil, app_nil_r. }
    intros [h'|] s' [Hfr Hr]; wp_step; (split; [done|]); (split; [done|]); [done|].
    destruct Hr as (Hq & Hk & Hfd & Hfile). split; [done|]. split; [done|]. split; [done|].
    split; [done|]. exists init_header. split; [apply length_pack_header|].
    cbn. by rewrite app_nil_r.
  - destruct Hi as (-> & Hq & Hk & Hf). wp_step.
    apply wp_bind, wp_libc, wp_info; [done|]. intros w1 Hw1 Hfs1. cbn in Hfs1.
    apply wp_bind, wp_libc, wp_info; [done|]. intros w2 Hw2 Hfs2. cbn in Hfs2. wp_step.
    split; [apply frame_io; try done; intros; cbn; by rewrite Hfs2, Hfs1|].
    destruct Hq as (Ht & Hb1 & Hb2), Hf as (Hfd & Hfile).
    exists [], [], []. split; [done|]. split; [|done]. left. split; [done|].
    split; [done|]. split; [done|]. split; [split; [done|cbn; by rewrite Hfs2, Hfs1]|].
    split; [|done]. unfold counted, size_of. cbn. rewrite Z.add_0_r, wrap_small; [done|].
    pose proof (sizeof_le cfg). lia.
Qed.

(** Taking the semaphore: the flush thread is gone, its records are in the file. *)
Lemma shared_taken name b fl infl w s :
  shared name b fl infl s -> 0 < qem_trace_buffer_sync s -> w_fs w = w_fs (mt_world s) ->
  infl = [] /\ at_rest 0 name b fl (set_sync (set_world s w) (qem_trace_buffer_sync s - 1)).
Proof.
  intros [(-> & Ht & Hk & Hf & Hc & Hb)|(p & _ & Hk & _)] Hpos Hfs; [|lia].
  split; [done|]. split; [done|]. split; [cbn; lia|].
  split; [by apply (same_file_at _ _ s)|]. done.
Qed.

Lemma at_rest_set_size k name b b' ts s :
  b' <> b -> at_rest k name b ts s -> at_rest k name b ts (set_size s b' 0).
Proof.
  intros Hne (? & ? & ? & ? & ?). do 4 (split; [done|]). by apply buf_set_size.
Qed.

Lemma close_flush_step name fl cu s :
  may_fail E (mt_world s) -> (cur s < 2)%nat ->
  at_rest 0 name (other (cur s)) fl s -> buf (cur s) cu s ->
  wp E (qem_close_tracing cfg CFlush) (fun r s' => r = Some CPost /\ frame name 0 s s' /\
    at_rest 0 name (other (cur s')) (fl ++ cu) s' /\ buf (cur s') [] s') s.
Proof.
  intros Hw Hc2 (Ht & Hk & Hf & Hc & Hb) Hcu. cbn [qem_close_tracing].
  pose proof (other_ne _ Hc2) as Hne.
  do 2 wp_step. apply wp_bind, wp_when.
  - intros _. apply wp_bind. eapply wp_write_buffer; [done..|]. intros w fd s1 Hw1 Hf1 Hfr.
    apply wp_bind. eapply (wp_count_buffer fl cu); [done|apply Hcu|]. do 2 wp_step.
    split; [done|]. split; [by apply frame_io|]. split; [|by eapply buf_reset].
    by apply at_rest_set_size.
  - intros H0%negb_false_iff%Z.eqb_eq. destruct Hcu as (? & ? & Hn & ?).
    destruct cu; [|cbn in Hn; lia]. rewrite app_nil_r. wp_step.
    split; [done|]. split; [by apply frame_io|]. done.
Qed.

Lemma close_step name ts c s :
  may_fail E (mt_world s) -> (cur s < 2)%nat -> close_inv name ts c s ->
  (c = CWait -> (0 <? qem_trace_buffer_sync s) || failing (mt_world s) = true) ->
  wp E (qem_close_tracing cfg c) (fun r s' =>
    frame name 0 s s' /\
    match r with
    | Some c' => close_inv name ts c' s'
    | None => quiet s' /\ w_fs (mt_world s') !! name = Some (file_bytes cfg ts)
    end) s.
Proof.
  intros Hw Hc2 Hc Hready. destruct c as [| | | |size h|]; cbn [close_inv] in Hc.
  - destruct Hc as (fl & infl & cu & -> & Hs & Hb). cbn [qem_close_tracing].
    apply wp_bind, wp_sem_wait_ready; [done|auto|]. intros Hpos w Hw' Hfs. wp_step.
    destruct (shared_taken _ _ _ _ w _ Hs Hpos Hfs) as [-> Hr].
    split; [by apply frame_same|]. by exists fl, cu.
  - destruct Hc as (fl & cu & -> & Hr & Hb).
    eapply wp_mono; [by eapply close_flush_step|]. by intros r s' (-> & Hfr & Hr' & Hb').
  - destruct Hc as [(Ht & Hk & Hf & Hct & Hb) Hcu]. cbn [qem_close_tracing].
    apply wp_bind, wp_sem_post; [done|]. intros w Hw' Hfs. wp_step.
    split; [by apply frame_same|]. split; [|done].
    split; [done|]. split; [cbn; lia|]. split; [by apply (same_file_at _ _ s)|]. done.
  - destruct Hc as [(Ht & Hk & (Hfd & Hf) & Hct & Hb) Hcu]. cbn [qem_close_tracing].
    do 2 wp_step. split; [by apply frame_io|]. split; [done|]. split; [done|].
    split; [done|]. split; [done|]. by eexists.
  - destruct Hc as (-> & Hh). cbn [qem_close_tracing].
    eapply wp_seq; [eapply (header_step name _ _ (size_of ts) (Z.of_nat sz) 1); [done..|]|].
    { intros o (hdr & Hhdr & ->). eexists. split; [done|].
      rewrite file_put_start by (by rewrite length_pack_header).
      unfold file_bytes, size_of. by rewrite pack_header_u64. }
    intros [h'|] s' [Hfr Hr]; wp_step; (split; [done|]); [done|].
    destruct Hr as (Hq & Hk & Hfd & Hfile). split; [done|]. split; [done|]. by eexists.
  - destruct Hc as (Hq & Hfile & pos & Hfd). cbn [qem_close_tracing]. wp_step.
    eapply wp_access; [done|]. apply wp_bind, wp_libc, wp_fclose; [done|].
    intros r w1 Hw1 Hfs1. cbn in Hfs1. apply wp_bind.
    destruct (r.1 <? 0); apply wp_libc; [apply wp_error|apply wp_info]; try done;
      intros w2 Hw2 Hfs2; cbn in Hfs2; wp_step;
      (split; [apply frame_same; try done; split; cbn; congruence|]);
      (split; [done|]); cbn; by rewrite Hfs2, Hfs1.
Qed.

Lemma shared_same name b fl infl s s' :
  same s s' -> mt_threads s' = mt_threads s ->
  qem_trace_buffer_sync s' = qem_trace_buffer_sync s ->
  shared name b fl infl s -> shared name b fl infl s'.
Proof.
  intros Hs Ht Hk [(-> & Ht' & Hk' & Hf & Hc & Hb)|(p & Ht' & Hk' & Hp)].
  - left. split; [done|]. split; [congruence|]. split; [congruence|].
    split; [by eapply same_file_at|]. split; [by eapply same_counted|by eapply same_buf].
  - right. exists p. split; [congruence|]. split; [congruence|].
    destruct p; destruct Hp as (Hf & Hc & Hb); (split; [by eapply same_file_at|]);
      (split; [by eapply same_counted|by eapply same_buf]).
Qed.

(** Storing in one buffer leaves the file and the other buffer alone. *)
Lemma shared_store name b b' fl infl bs k s :
  b' <> b -> shared name b fl infl s -> shared name b fl infl (set_size (set_buffer s b' bs) b' k).
Proof.
  intros Hne.
  assert (Hbuf : forall ts, buf b ts s -> buf b ts (set_size (set_buffer s b' bs) b' k)).
  { intros ts H. unfold buf in *. cbn. unfold upd. by rewrite (proj2 (Nat.eqb_neq b b')) by done. }
  intros [(-> & Ht' & Hk' & Hf & Hc & Hb)|(p & Ht' & Hk' & Hp)].
  - left. split; [done|]. do 4 (split; [done|]). by apply Hbuf.
  - right. exists p. split; [done|]. split; [done|].
    destruct p; destruct Hp as (Hf & Hc & Hb); (split; [done|]); (split; [done|]); by apply Hbuf.
Qed.

Context (HN : (0 < N)%nat) (HN32 : Z.of_nat N < 2 ^ 32).

Lemma wp_store_record cu t (Q : () -> mt_state -> Prop) s :
  buf (cur s) cu s -> (length cu < N)%nat ->
  (forall bs k, let s' := set_size (set_buffer s (cur s) bs) (cur s) k in
     buf (cur s) (cu ++ [t]) s' -> Q () s') ->
  wp E (store_record cfg t) Q s.
Proof.
  intros (Hlen & Hle & Hcnt & Hbuf) Hlt HQ. unfold store_record. do 3 wp_step. rewrite Hcnt.
  replace (Z.to_nat (Z.of_nat (length cu) * Z.of_nat sz)) with (length cu * sz)%nat by lia.
  assert (Hfit : (length cu * sz + length (pack cfg t) <= length (qem_trace_buffer s (cur s)))%nat)
    by (rewrite length_pack, Hlen; nia).
  eapply wp_access; [by apply mem_write_Some|]. do 2 wp_step. apply HQ.
  unfold buf. cbn. unfold upd. rewrite Nat.eqb_refl.
  rewrite length_splice, length_app by done. cbn [length].
  split; [done|]. split; [lia|]. split; [rewrite wrap_small by lia; lia|].
  unfold slice in *. rewrite drop_0 in *.
  replace ((length cu + 1) * sz)%nat with (length cu * sz + length (pack cfg t))%nat
    by (rewrite length_pack; lia).
  rewrite take_splice_end by done.
  rewrite Hbuf, map_app, concat_app. cbn. by rewrite app_nil_r.
Qed.

Lemma output_step name ts t o s :
  may_fail E (mt_world s) -> (cur s < 2)%nat -> output_inv name ts o s ->
  (forall l, o = OWait l -> (0 <? qem_trace_buffer_sync s) || failing (mt_world s) = true) ->
  wp E (qem_trace_output cfg t o) (fun r s' =>
    frame name 0 s s' /\
    match r with
    | Some o' => output_inv name ts o' s'
    | None => running name (ts ++ [t]) s'
    end) s.
Proof.
  intros Hw Hc2 Ho Hready. pose proof (other_ne _ Hc2) as Hne.
  destruct o as [|l|l| | |]; cbn [output_inv qem_trace_output] in *.
  - destruct Ho as (fl & infl & cu & -> & Hs & Hb). do 3 wp_step.
    pose proof Hb as (_ & Hle & Hcnt & _). rewrite Hcnt.
    split; [by apply frame_io|]. destruct (Z.eqb_spec (Z.of_nat (length cu)) (Z.of_nat N)).
    + split; [done|]. exists fl, infl, cu. do 3 (split; [done|]). lia.
    + exists fl, infl, cu. do 3 (split; [done|]). lia.
  - destruct Ho as (-> & fl & infl & cu & -> & Hs & Hb & Hl).
    apply wp_bind, wp_sem_wait_ready; [done|by eapply Hready|]. intros Hpos w Hw' Hfs. wp_step.
    destruct (shared_taken _ _ _ _ w _ Hs Hpos Hfs) as [-> Hr].
    split; [by apply frame_same|]. split; [done|]. by exists fl, cu.
  - destruct Ho as (-> & fl & cu & -> & (Ht & Hk & Hf & Hc & Hb) & Hcu).
    apply wp_bind, wp_pthread_check; [done|]. intros w Hw' Hfs. do 2 wp_step. cbn. rewrite Ht.
    split; [by apply frame_same|]. exists fl, cu. split; [done|]. split; [|done].
    right. exists FWrite. split; [done|]. split; [done|].
    split; [by apply (same_file_at _ _ s)|]. done.
  - destruct Ho as (fl & infl & -> & Hs & Hb).
    apply wp_bind, wp_pthread_check; [done|]. intros w Hw' Hfs. wp_step.
    split; [by apply frame_same|]. exists fl, infl. split; [done|]. split; [|done].
    by apply (shared_same _ _ _ _ s).
  - destruct Ho as (fl & infl & -> & Hs & Hb). do 2 wp_step.
    split; [split; cbn; try done; [lia|intros _; apply other_lt]|].
    exists fl, infl, []. rewrite app_nil_r. split; [done|].
    change (shared name (other (other (cur s))) fl infl s /\ buf (other (cur s)) [] s /\ (0 < N)%nat).
    by rewrite (other_other _ Hc2).
  - destruct Ho as (fl & infl & cu & -> & Hs & Hb & Hl).
    apply wp_bind. eapply wp_store_record; [done..|]. intros bs k s' Hb'. wp_step.
    split; [by apply frame_io|]. exists fl, infl, (cu ++ [t]). rewrite <- !app_assoc.
    split; [done|]. split; [|done]. apply shared_store; [|done]. by apply not_eq_sym.
Qed.

(** ** The machine *)

Abbreviation work_name sp p := (trace_filename (Z.of_nat (work sp p))).

(** The session worked on has a file name of its own. *)
Lemma work_lt sp m :
  mt_rel sp m -> sp_tracing sp <> 0 \/ (exists c, mc_main m = Closing c) ->
  (work sp (mc_main m) < Z.to_nat (10 ^ 8))%nat.
Proof.
  intros H Ht. pose proof (mr_max _ _ H) as Hmax. destruct Ht as [Ht|[c Hc]].
  - revert Hmax. case_bool; [done|]. destruct (mc_main m); cbn; lia.
  - pose proof (mr_main _ _ H) as Hm. rewrite Hc in *. cbn in *.
    destruct Hm as (_ & _ & _ & cl & ts & Heq & _). revert Hmax. rewrite Heq, length_app. cbn.
    case_bool; lia.
Qed.

Lemma closed_frame sp m d s' k ts :
  mt_rel sp m -> frame (work_name sp (mc_main m)) d (mc_state m) s' ->
  (work sp (mc_main m) < Z.to_nat (10 ^ 8))%nat ->
  sp_closed sp !! k = Some ts -> k <> work sp (mc_main m) ->
  w_fs (mt_world s') !! trace_filename (Z.of_nat k) = Some (file_bytes cfg ts).
Proof.
  intros H Hfr Hlt Hk Hne. rewrite (frame_fs _ _ _ _ Hfr); [by apply (mr_closed _ _ H)|].
  intros He. pose proof (lookup_lt_Some _ _ _ Hk). pose proof (mr_max _ _ H) as Hmax.
  apply trace_filename_inj in He; [lia| |lia]. revert Hmax. case_bool; lia.
Qed.

(** A step within a session preserves the relation, given the invariant at the
    point it reaches. *)
Lemma rel_step sp m d p s' :
  mt_rel sp m -> frame (work_name sp (mc_main m)) d (mc_state m) s' ->
  sp_tracing sp <> 0 \/ (exists c, mc_main m = Closing c) ->
  work sp p = work sp (mc_main m) -> main_inv sp p s' -> mt_rel sp (mk_machine p s').
Proof.
  intros H Hfr Hlt Hwork Hinv. apply (work_lt _ _ H) in Hlt. pose proof Hfr as [].
  split; cbn; try apply H; try done.
  - by apply frame_faults0, (mr_faults _ _ H).
  - rewrite frame_sync_init0. apply (mr_sync_init _ _ H).
  - by apply frame_current0, (mr_current _ _ H).
  - intros k ts Hk Hne. rewrite Hwork in Hne. by eapply closed_frame.
Qed.

Lemma ready_wait m :
  main_ready m = true -> at_wait (mc_main m) = true ->
  (0 <? qem_trace_buffer_sync (mc_state m)) || failing (mt_world (mc_state m)) = true.
Proof. unfold main_ready, failing. intros Hr Hw. destruct (mc_main m); [done|..]; by rewrite Hw in Hr. Qed.

Lemma main_step_output sp t o s :
  mt_rel sp (mk_machine (Output t o) s) -> main_ready (mk_machine (Output t o) s) = true ->
  wp E (main_code cfg (Output t o)) (fun p s' => mt_rel sp (mk_machine p s')) s.
Proof.
  intros H Hr. pose proof (mr_main _ _ H) as Hm. cbn in Hm.
  destruct Hm as (Htr & H0 & Hidx & ts & Hopen & Ho). cbn [main_code].
  eapply wp_seq; [eapply output_step; [apply (mr_faults _ _ H)|apply (mr_current _ _ H)|done|]|].
  { intros l ->. by apply ready_wait in Hr. }
  intros r s' [Hfr Hr']. pose proof Hfr as []. wp_step.
  eapply (rel_step _ _ 0); [done|done|by left|by destruct r|].
  destruct r as [o'|]; cbn.
  - split; [congruence|]. split; [done|]. split; [lia|]. by exists ts.
  - rewrite (proj2 (Z.eqb_neq _ _) H0), Hopen. split; [congruence|]. split; [done|lia].
Qed.

Lemma main_step_enabling sp ty i s :
  mt_rel sp (mk_machine (Enabling ty (Some i)) s) ->
  wp E (main_code cfg (Enabling ty (Some i))) (fun p s' => mt_rel sp (mk_machine p s')) s.
Proof.
  intros H. pose proof (mr_main _ _ H) as Hm. cbn in Hm.
  destruct Hm as (Hty & Hr & Hopen & Hi & Hidx). cbn [main_code].
  eapply wp_seq; [eapply init_step; [apply (mr_faults _ _ H)|apply (mr_sync_init _ _ H)|done|]|].
  { intros ->. rewrite Hidx, Z.add_0_r. split; [done|].
    assert (Hlt := work_lt _ _ H ltac:(left; lia)). cbn in Hlt. lia. }
  intros r s' [Hfr Hr']. pose proof Hfr as []. wp_step.
  eapply (rel_step _ (mk_machine (Enabling ty (Some i)) s)); [done|done|left; lia|done|].
  destruct r as [i'|]; cbn; rewrite ?Hopen.
  - destruct Hr' as [Hne Hi']. do 4 (split; [done|]). destruct i, i'; done || lia.
  - do 3 (split; [done|]). destruct i; lia.
Qed.

Lemma main_step_closing sp c s :
  mt_rel sp (mk_machine (Closing c) s) -> main_ready (mk_machine (Closing c) s) = true ->
  wp E (main_code cfg (Closing c)) (fun p s' => mt_rel sp (mk_machine p s')) s.
Proof.
  intros H Hr. pose proof (mr_main _ _ H) as Hm. cbn in Hm.
  destruct Hm as (Htr & H0 & Hidx & cl & ts & Hcl & Hc). cbn [main_code].
  eapply wp_seq; [eapply close_step; [apply (mr_faults _ _ H)|apply (mr_current _ _ H)|done|]|].
  { intros ->. by apply ready_wait in Hr. }
  intros [c'|] s' [Hfr Hr']; pose proof Hfr as []; wp_step.
  - eapply (rel_step _ _ 0); [done|done|by right; eexists|done|]. cbn.
    split; [congruence|]. split; [done|]. split; [lia|]. by exists cl, ts.
  - destruct Hr' as [Hq Hfile].
    assert (Hlt := work_lt _ _ H ltac:(by right; eexists)). cbn in Hlt.
    split; cbn; try apply H.
    + by apply frame_faults0, (mr_faults _ _ H).
    + rewrite frame_sync_init0. apply (mr_sync_init _ _ H).
    + by apply frame_current0, (mr_current _ _ H).
    + intros k ts' Hk _. destruct (decide (k = pred (length (sp_closed sp)))) as [->|Hne].
      * rewrite Hcl, length_app, Nat.add_1_r in Hk. cbn in Hk.
        rewrite lookup_app_r, Nat.sub_diag in Hk by lia. injection Hk as <-. done.
      * by eapply (closed_frame _ _ 0 _ _ _ H).
    + rewrite H0. cbn. split; [congruence|]. split; [done|lia].
Qed.

Lemma main_step_set sp ty s :
  mt_rel sp (mk_machine (Enabling ty None) s) ->
  wp E (main_code cfg (Enabling ty None)) (fun p s' => mt_rel sp (mk_machine p s')) s.
Proof.
  intros H. pose proof (mr_main _ _ H) as Hm. cbn in Hm.
  destruct Hm as (Hty & Hr & Hrun & Hidx). cbn [main_code]. do 2 wp_step.
  rewrite wrap_small by lia. destruct H; split; cbn in *; try done.
  rewrite Hty. case_bool; [lia|]. done.
Qed.

Lemma main_step_rel sp m :
  mt_rel sp m -> main_ready m = true ->
  wp E (main_code cfg (mc_main m)) (fun p s' => mt_rel sp (mk_machine p s')) (mc_state m).
Proof.
  destruct m as [p s]. intros H Hr. destruct p as [|ty [i|]|c|t o]; cbn [mc_main mc_state].
  - done.
  - by apply main_step_enabling.
  - by apply main_step_set.
  - by apply main_step_closing.
  - by apply main_step_output.
Qed.

Lemma thread_step_rel sp m i b q :
  mt_rel sp m -> mt_threads (mc_state m) !! i = Some (b, q) ->
  wp E (thread_code cfg i b q) (fun _ s' => mt_rel sp (mk_machine (mc_main m) s')) (mc_state m).
Proof.
  destruct m as [p s]. cbn [mc_main mc_state]. intros H Hi.
  pose proof (mr_main _ _ H) as Hm. pose proof (mr_faults _ _ H) as Hw.
  pose proof (mr_current _ _ H) as Hc2. cbn [mc_main mc_state] in *.
  destruct p as [|ty [j|]|c|t o]; cbn [main_inv] in Hm.
  - destruct Hm as [Htr Hm]. destruct (Z.eqb_spec (sp_tracing sp) 0) as [|H0].
    { destruct Hm as ((Ht & _) & _). by rewrite Ht in Hi. }
    destruct Hm as [Hrun Hidx]. eapply wp_mono; [by eapply running_thread|].
    intros _ s' [Hfr Hrun']. pose proof Hfr as []. eapply rel_step; [done|done|by left|done|].
    cbn. rewrite (proj2 (Z.eqb_neq _ _) H0). split; [congruence|]. split; [done|lia].
  - destruct Hm as (_ & _ & _ & Hj & _). apply init_no_thread in Hj. by rewrite Hj in Hi.
  - destruct Hm as (Hty & Hr & Hrun & Hidx). eapply wp_mono; [by eapply running_thread|].
    intros _ s' [Hfr Hrun']. pose proof Hfr as [].
    eapply rel_step; [done|done|left; lia|done|]. cbn. do 3 (split; [done|]). lia.
  - destruct Hm as (Htr & H0 & Hidx & cl & ts & Hcl & Hc).
    assert (c = CWait) as ->.
    { destruct c; try done; apply close_no_thread in Hc; try done; by rewrite Hc in Hi. }
    eapply wp_mono; [by eapply running_thread|].
    intros _ s' [Hfr Hrun']. pose proof Hfr as [].
    eapply rel_step; [done|done|by right; eexists|done|]. cbn.
    split; [congruence|]. split; [done|]. split; [lia|]. by exists cl, ts.
  - destruct Hm as (Htr & H0 & Hidx & ts & Hopen & Ho).
    eapply wp_mono; [by eapply output_thread|].
    intros _ s' [Hfr Hrun']. pose proof Hfr as []. eapply rel_step; [done|done|by left|done|].
    cbn. split; [congruence|]. split; [done|]. split; [lia|]. by exists ts.
Qed.

(** What the scheduler can reach, and that it never meets undefined behaviour. *)
Lemma mt_next_rel sp m who r :
  mt_rel sp m -> mt_next cfg who m = Some r ->
  match r with Done m' => mt_rel sp m' | Exit _ => E | Undefined => False end.
Proof.
  intros H Hn. destruct who as [i|]; cbn in Hn.
  - destruct (mt_threads (mc_state m) !! i) as [[b q]|] eqn:Hi; [|done]. injection Hn as <-.
    pose proof (thread_step_rel _ _ _ _ _ H Hi) as Hwp. unfold wp in Hwp.
    by destruct (thread_code cfg i b q (mc_state m)) as [[[] s']| |].
  - destruct (main_ready m) eqn:Hr; [|done]. injection Hn as <-.
    pose proof (main_step_rel _ _ H Hr) as Hwp. unfold wp in Hwp.
    by destruct (main_code cfg (mc_main m) (mc_state m)) as [[p s']| |].
Qed.

Lemma mt_steps_rel sp m m' : mt_rel sp m -> rtc (mt_step cfg) m m' -> mt_rel sp m'.
Proof.
  intros H Hs. induction Hs as [|m1 m2 m3 [who Hw] _ IH]; [done|].
  apply IH. exact (mt_next_rel _ _ _ _ H Hw).
Qed.

(** ** Calls *)

Lemma call_enable_rel sp ty s :
  mt_rel sp (mk_machine Idle s) -> ttype ty -> Z.of_nat (length (sp_closed sp)) < 10 ^ 8 ->
  wp E (qem_trace_enable ty) (fun p s' => mt_rel (spec_enable ty sp) (mk_machine p s')) s.
Proof.
  intros H Hty Hmax. pose proof (ttype_range _ Hty) as Hr. unfold qem_trace_enable, spec_enable.
  pose proof (mr_main _ _ H) as [Htr Hm]. cbn in Htr, Hm. do 2 wp_step. rewrite Htr.
  destruct (Z.eqb_spec (sp_tracing sp) ty) as [Heq|Hne].
  { subst ty. case_bool; [lia|]. by destruct sp. }
  destruct H. cbn in *.
  destruct (Z.eqb_spec (sp_tracing sp) 0) as [H0|H0]; split; cbn in *; try done.
  - unfold tracing_ok. lia.
  - case_bool; lia.
  - do 3 (split; [done || lia|]). split; [apply Hm|]. destruct Hm. lia.
  - destruct mr_ok0. by split.
  - unfold tracing_ok. lia.
  - case_bool; lia.
Qed.

Lemma call_disable_rel sp ty s :
  mt_rel sp (mk_machine Idle s) -> ttype ty ->
  wp E (qem_trace_disable ty) (fun p s' => mt_rel (spec_disable ty sp) (mk_machine p s')) s.
Proof.
  intros H Hty. unfold qem_trace_disable, spec_disable.
  pose proof (mr_main _ _ H) as [Htr Hm]. cbn in Htr, Hm. wp_step. rewrite Htr.
  destruct (Z.eqb_spec (sp_tracing sp) 0) as [H0|H0]; [by wp_step|].
  pose proof (land_lnot_tracing _ _ (mr_tracing_ok _ _ H) Hty). rewrite wrap_small by lia.
  set (st := Z.land (sp_tracing sp) (Z.lnot ty)) in *. do 2 wp_step.
  destruct Hm as [Hrun Hidx]. destruct H. cbn in *.
  rewrite (proj2 (Z.eqb_neq _ _) H0) in *.
  destruct (Z.eqb_spec st 0) as [Hst|Hst]; split; cbn in *; try done.
  - rewrite length_app. cbn. lia.
  - intros k ts Hk Hne. rewrite length_app, Nat.add_1_r in Hne. cbn in Hne.
    apply lookup_app_Some in Hk as [Hk|[Hk1 Hk2]].
    + apply mr_closed0; [done|]. apply lookup_lt_Some in Hk. lia.
    + apply list_lookup_singleton_Some in Hk2 as [Hk2 _]. lia.
  - do 2 (split; [done|]). rewrite length_app, Nat.add_1_r. cbn. split; [lia|].
    by exists (sp_closed sp), (sp_open sp).
  - destruct mr_ok0. split; [|done]. by rewrite Forall_app, Forall_singleton.
  - case_bool; lia.
  - by rewrite (proj2 (Z.eqb_neq _ _) Hst).
Qed.

Lemma call_rel o sp m :
  mt_rel sp m -> mc_main m = Idle -> op_ok (10 ^ 8) o sp ->
  wp E (main_call cfg o) (fun p s' => mt_rel (spec_op cfg o sp) (mk_machine p s')) (mc_state m).
Proof.
  destruct m as [p s]. cbn. intros H -> Ho. destruct o; cbn [main_call spec_op op_ok] in *.
  - destruct Ho. by apply call_enable_rel.
  - by apply call_disable_rel.
  - wp_step. pose proof (mr_main _ _ H) as [Htr Hm]. cbn in Htr, Hm.
    rewrite (proj2 (Z.eqb_neq _ _) Ho) in Hm. destruct Hm as [Hrun Hidx].
    destruct H. split; cbn in *; try done.
    + do 3 (split; [done|]). by exists (sp_open sp).
    + destruct mr_ok0. split; [done|]. rewrite Forall_app, Forall_singleton.
      split; [done|apply new_trace_ok].
Qed.

Lemma init_rel w : may_fail E w -> mt_rel spec_init (mk_machine Idle (mt_init cfg w)).
Proof.
  intros Hw.
  assert (Hb : forall b, buf b [] (mt_init cfg w)).
  { intros b. unfold buf. cbn. rewrite length_replicate. repeat split; lia. }
  split; cbn; try done. lia.
Qed.
End invariant.

(** ** Every call returns

    The functions have no loop: each action of a thread brings it closer to its
    end, and starting a flush thread costs the emulator thread more than the
    thread has to do. *)

Definition header_rank (p : option header_pc) : nat :=
  match p with
  | None => 0 | Some HPost => 1 | Some HWrite => 2 | Some HWait => 3 | Some HSeek => 4
  end.
Definition init_rank (p : option init_pc) : nat :=
  match p with
  | None => 0 | Some (IEnd _) => 1 | Some (IHeader _ h) => 1 + header_rank (Some h)
  | Some (ISem _) => 6 | Some IOpen => 7
  end.
Definition close_rank (p : option close_pc) : nat :=
  match p with
  | None => 0 | Some CClose => 1 | Some (CHeader _ h) => 1 + header_rank (Some h)
  | Some CArg => 6 | Some CPost => 7 | Some CFlush => 8 | Some CWait => 9
  end.
Definition output_rank (p : option output_pc) : nat :=
  match p with
  | None => 0 | Some OStore => 1 | Some OSwitch => 2 | Some ODetach => 3
  | Some (OCreate _) => 8 | Some (OWait _) => 9 | Some OTest => 10
  end.
Definition flush_rank (p : flush_pc) : nat :=
  match p with FPost => 1 | FReset => 2 | FSize => 3 | FWrite => 4 end.
Definition main_rank (p : main_pc) : nat :=
  match p with
  | Idle => 0
  | Enabling _ i => 1 + init_rank i
  | Closing c => close_rank (Some c)
  | Output _ o => output_rank (Some o)
  end.
Definition threads_rank (ths : list (nat * flush_pc)) : nat :=
  sum_list_with (fun th => flush_rank th.2) ths.
Definition rank (m : machine) : nat :=
  main_rank (mc_main m) + threads_rank (mt_threads (mc_state m)).

#[export] Hint Unfold main_call main_code thread_code qem_trace_enable
  qem_trace_disable qem_trace_output qem_init_tracing qem_close_tracing
  qem_write_header qem_trace_flush_routine write_buffer count_buffer
  store_record sem_wait sem_post sem_check pthread_check : keeps.

(** Code that starts and ends no thread. *)
Lemma pthread_check_threads msg : keeps mt_threads (pthread_check msg).
Proof. keeps. Qed.
Lemma init_threads cfg p : keeps mt_threads (qem_init_tracing cfg p).
Proof. keeps. Qed.
Lemma close_threads cfg p : keeps mt_threads (qem_close_tracing cfg p).
Proof. keeps. Qed.
Lemma flush_threads cfg b p : keeps mt_threads (qem_trace_flush_routine cfg b p).
Proof. keeps. Qed.

(** Each action decreases the rank of its function. *)
Lemma header_decr size tsz v p s r s' :
  qem_write_header size tsz v p s = Done (r, s') -> (header_rank r < header_rank (Some p))%nat.
Proof. intros H. destruct p; cbn [qem_write_header] in H; c_inv H; injection H as <- _; cbn; lia. Qed.

Lemma init_decr cfg p s r s' :
  qem_init_tracing cfg p s = Done (r, s') -> (init_rank r < init_rank (Some p))%nat.
Proof.
  intros H. destruct p as [|f|f h|f]; cbn [qem_init_tracing] in H; c_inv H.
  - destruct a3; c_inv H; injection H as <- _; cbn; lia.
  - injection H as <- _. cbn. lia.
  - apply header_decr in H0. injection H as <- _. destruct a; cbn in *; lia.
  - injection H as <- _. cbn. lia.
Qed.

Lemma close_decr cfg p s r s' :
  qem_close_tracing cfg p s = Done (r, s') -> (close_rank r < close_rank (Some p))%nat.
Proof.
  intros H. destruct p as [| | | |size h|]; cbn [qem_close_tracing] in H; c_inv H;
    injection H as <- _; cbn; try lia.
  apply header_decr in H0. destruct a; cbn in *; lia.
Qed.

Lemma flush_decr cfg b p s r s' :
  qem_trace_flush_routine cfg b p s = Done (r, s') ->
  (from_option flush_rank 0 r < flush_rank p)%nat.
Proof.
  intros H. destruct p; cbn [qem_trace_flush_routine] in H; c_inv H; injection H as <- _; cbn; lia.
Qed.

Lemma output_decr cfg t p s r s' :
  qem_trace_output cfg t p s = Done (r, s') ->
  (output_rank r + threads_rank (mt_threads s')
   < output_rank (Some p) + threads_rank (mt_threads s))%nat.
Proof.
  intros H.
  assert (Hk : (forall l, p <> OCreate l) -> mt_threads s' = mt_threads s).
  { intros Hne. revert H. apply (fun k : keeps mt_threads _ => k s r s').
    destruct p; cbn [qem_trace_output]; keeps. by destruct (Hne last_buffer). }
  destruct p as [|l|l| | |]; cbn [qem_trace_output] in H; c_inv H.
  - rewrite Hk by done. injection H as <- _. case_bool; cbn; lia.
  - rewrite Hk by done. injection H as <- _. cbn. lia.
  - apply pthread_check_threads in H0. injection H1 as _ <-. injection H as <- <-.
    cbn. unfold threads_rank. rewrite H0, sum_list_with_app. cbn. lia.
  - rewrite Hk by done. injection H as <- _. cbn. lia.
  - rewrite Hk by done. injection H as <- _. cbn. lia.
  - rewrite Hk by done. injection H as <- _. cbn. lia.
Qed.

Lemma threads_rank_insert ths i b p p' :
  ths !! i = Some (b, p) -> (flush_rank p' < flush_rank p)%nat ->
  (threads_rank (<[i := (b, p')]> ths) < threads_rank ths)%nat.
Proof.
  revert i. induction ths as [|[b0 p0] ths IH]; intros [|i] Hi Hlt; try done; cbn in *.
  - injection Hi as -> ->. lia.
  - apply Nat.add_lt_mono_l, (IH _ Hi Hlt).
Qed.

Lemma threads_rank_delete ths i b p :
  ths !! i = Some (b, p) -> (threads_rank (delete i ths) < threads_rank ths)%nat.
Proof.
  revert i. induction ths as [|[b0 p0] ths IH]; intros [|i] Hi; try done; cbn in *.
  - injection Hi as -> ->. unfold threads_rank. simpl. destruct p; simpl; lia.
  - apply Nat.add_lt_mono_l, (IH _ Hi).
Qed.

Lemma main_decr cfg p s p' s' :
  p <> Idle -> main_code cfg p s = Done (p', s') ->
  (rank (mk_machine p' s') < rank (mk_machine p s))%nat.
Proof.
  intros Hne H. unfold rank. cbn [mc_main mc_state].
  destruct p as [|ty [i|]|c|t o]; [done|..]; cbn [main_code] in H; c_inv H.
  - pose proof (init_threads _ _ _ _ _ H0) as Hk. apply init_decr in H0.
    injection H as <- <-. rewrite Hk. cbn [main_rank]. lia.
  - injection H0 as _ <-. injection H as <- <-. cbn -[threads_rank]. lia.
  - pose proof (close_threads _ _ _ _ _ H0) as Hk. apply close_decr in H0.
    injection H as <- <-. rewrite Hk. destruct a; cbn -[threads_rank] in *; lia.
  - apply output_decr in H0. injection H as <- <-. destruct a; cbn -[threads_rank] in *; lia.
Qed.

(** Every step of every schedule decreases the rank. *)
Lemma step_decr cfg m m' : mt_step cfg m m' -> (rank m' < rank m)%nat.
Proof.
  destruct m as [p s]. intros [[i|] Hn]; cbn in Hn.
  - destruct (mt_threads s !! i) as [[b q]|] eqn:Hi; [|done]. injection Hn as Hn.
    destruct (thread_code cfg i b q s) as [[[] s']| |] eqn:Hc; [|done..]. injection Hn as <-.
    unfold thread_code in Hc. c_inv Hc. injection Hc as <-.
    pose proof (flush_threads _ _ _ _ _ _ Hc0) as Hk. apply flush_decr in Hc0.
    unfold rank. cbn -[threads_rank]. rewrite Hk. destruct a as [q'|]; cbn -[threads_rank] in *.
    + pose proof (threads_rank_insert _ _ _ _ _ Hi Hc0). lia.
    + pose proof (threads_rank_delete _ _ _ _ Hi). lia.
  - destruct (main_ready _) eqn:Hr; [|done]. injection Hn as Hn.
    destruct (main_code cfg p s) as [[p' s']| |] eqn:Hc; [|done..]. injection Hn as <-.
    apply main_decr in Hc; [done|]. by intros ->.
Qed.

(** ** No deadlock *)

Section progress.
Context (cfg : config) (E : Prop).

Lemma not_ready m :
  main_ready m = false -> mc_main m <> Idle ->
  at_wait (mc_main m) = true /\ (0 <? qem_trace_buffer_sync (mc_state m)) = false.
Proof.
  unfold main_ready. destruct (mc_main m) as [|ty i|c|t o]; [done|..];
    by intros [[?%negb_false_iff ?]%orb_false_iff _]%orb_false_iff _.
Qed.

(** Whenever the emulator thread is in a call, some thread can run. *)
Lemma enabled sp m :
  mt_rel cfg E sp m -> mc_main m <> Idle -> exists who r, mt_next cfg who m = Some r.
Proof.
  intros H Hne. destruct (main_ready m) eqn:Hr.
  { exists None. cbn. rewrite Hr. eauto. }
  cut (exists th, mt_threads (mc_state m) = [th]).
  { intros [[b p] Ht]. exists (Some 0%nat). cbn. rewrite Ht. cbn. eauto. }
  pose proof (mr_main _ _ _ _ H) as Hm. destruct (not_ready _ Hr Hne) as [Hw Hk].
  assert (Hshared : forall name b fl infl, shared cfg name b fl infl (mc_state m) ->
    exists th, mt_threads (mc_state m) = [th]).
  { intros name b fl infl [(_ & _ & Hk' & _)|(p & Ht & _)]; [by rewrite Hk' in Hk|eauto]. }
  destruct (mc_main m) as [|ty [i|]|c|t o]; [done|..]; cbn in Hm, Hw.
  - destruct i as [|f|f [| | |]|f]; try done.
    destruct Hm as (_ & _ & _ & (_ & _ & _ & Hk1 & _) & _). by rewrite Hk1 in Hk.
  - done.
  - destruct c as [| | | |size [| | |]|]; try done.
    + destruct Hm as (_ & _ & _ & cl & ts & _ & fl & infl & cu & _ & Hs & _). eauto.
    + destruct Hm as (_ & _ & _ & cl & ts & _ & _ & _ & _ & Hk1 & _). by rewrite Hk1 in Hk.
  - destruct o as [|l|l| | |]; try done.
    destruct Hm as (_ & _ & _ & ts & _ & _ & fl & infl & cu & _ & Hs & _). eauto.
Qed.
End progress.

Section runs.
Context (cfg : config) (HN : (0 < QEM_TRACE_BUFFER_SIZE cfg)%nat)
  (HN32 : Z.of_nat (QEM_TRACE_BUFFER_SIZE cfg) < 2 ^ 32).

Lemma step_enabled sp m :
  mt_rel cfg False sp m -> mc_main m <> Idle -> exists m', mt_step cfg m m'.
Proof.
  intros H Hne. destruct (enabled _ _ _ _ H Hne) as (who & r & Hr).
  pose proof (mt_next_rel _ _ HN HN32 _ _ _ _ H Hr). destruct r as [m'| |]; [|done..].
  by exists m', who.
Qed.

(** Every call can be completed. *)
Lemma completes sp m :
  mt_rel cfg False sp m -> exists m', rtc (mt_step cfg) m m' /\ mc_main m' = Idle.
Proof.
  induction m as [m IH] using (induction_ltof1 _ rank). intros H.
  destruct (mc_main m) eqn:Hm; [by exists m|..];
    (destruct (step_enabled _ _ H) as [m1 Hm1]; [by rewrite Hm|]);
    (destruct (IH m1) as (m' & Hs & Hi);
       [by eapply step_decr|by eapply mt_steps_rel, rtc_once|]);
    exists m'; (split; [by eapply rtc_l|done]).
Qed.

(** A call: its first action, then any interleaving until the emulator thread is
    back.  A flush thread can outlive the call. *)
Definition mt_run (o : op) (m m' : machine) : Prop :=
  mc_main m = Idle /\ exists p s, main_call cfg o (mc_state m) = Done (p, s) /\
    rtc (mt_step cfg) (mk_machine p s) m' /\ mc_main m' = Idle.

(** The sessions closed so far, read from the files. *)
Definition mt_sessions (m : machine) : list (list qem_trace_t) :=
  let s := mc_state m in
  let n := Z.to_nat (qem_file_index s) in
  let n := if qem_tracing_state s =? 0 then n else pred n in
  (fun k => from_option (read_file cfg) [] (w_fs (mt_world s) !! trace_filename (Z.of_nat k)))
    <$> seq 0 n.

Lemma mt_sessions_closed E sp m :
  mt_rel cfg E sp m -> mc_main m = Idle -> mt_sessions m = sp_closed sp.
Proof.
  intros H Hi. unfold mt_sessions. pose proof (mr_main _ _ _ _ H) as Hm.
  pose proof (mr_closed _ _ _ _ H) as Hcl. rewrite Hi in *. destruct Hm as [Htr Hm].
  rewrite Htr. replace (if sp_tracing sp =? 0 then _ else _) with (length (sp_closed sp))
    by (revert Hm; case_bool; intros [_ ->]; lia).
  apply list_eq. intros k. rewrite list_lookup_fmap.
  destruct (sp_closed sp !! k) as [ts|] eqn:Hk.
  - assert (k < length (sp_closed sp))%nat by (by eapply lookup_lt_Some).
    rewrite lookup_seq_lt by done. cbn. rewrite (Hcl _ _ Hk) by (cbn; lia). cbn. f_equal.
    apply read_file_bytes. destruct (mr_ok _ _ _ _ H) as [Hok _]. by eapply Forall_lookup_1.
  - rewrite lookup_seq_ge; [done|]. by apply lookup_ge_None.
Qed.

#[export] Program Instance mt_sink : TraceSink cfg machine := {
  sink_run := mt_run;
  sink_rel sp m := mt_rel cfg False sp m /\ mc_main m = Idle;
  sink_max := 10 ^ 8;
  sink_carries := fun _ => True;
  sink_tracing m := qem_tracing_state (mc_state m);
  sink_sessions := mt_sessions
}.
Next Obligation.
  intros sp m o m' [H Hi] Ho _ (_ & p & s & Hc & Hs & Hi'). split; [|done].
  eapply mt_steps_rel; [done..| |exact Hs].
  exact (wp_Done _ _ _ _ _ _ (call_rel _ _ HN o _ _ H Hi Ho) Hc).
Qed.
Next Obligation.
  intros sp m o [H Hi] Ho _.
  destruct (wp_total _ _ _ (call_rel _ _ HN o _ _ H Hi Ho)) as (p & s & Hc & H1).
  destruct (completes _ _ H1) as (m' & Hs & Hi'). exists m'. split; [done|]. by exists p, s.
Qed.
Next Obligation. intros sp m [H Hi]. by eapply mt_sessions_closed. Qed.
Next Obligation.
  intros sp m [H Hi]. pose proof (mr_main _ _ _ _ H) as Hmain. rewrite Hi in Hmain. apply Hmain.
Qed.
End runs.

(** ** Reachable states *)

(** [mt_reach cfg w sp m]: from the start in the world [w], some API calls and
    some interleaving of the threads lead to [m]; [sp] is the abstract state after
    the last call. *)
Inductive mt_reach (cfg : config) (w : world) : spec_state -> machine -> Prop :=
  | reach_init : mt_reach cfg w spec_init (mk_machine Idle (mt_init cfg w))
  | reach_call sp m o p s :
      mt_reach cfg w sp m -> mc_main m = Idle -> op_ok (10 ^ 8) o sp ->
      main_call cfg o (mc_state m) = Done (p, s) ->
      mt_reach cfg w (spec_op cfg o sp) (mk_machine p s)
  | reach_step sp m m' : mt_reach cfg w sp m -> mt_step cfg m m' -> mt_reach cfg w sp m'.

(** The same, executable: a list of calls and of threads to run. *)
Inductive mt_event := Call (o : op) | Run (who : option nat).

Definition mt_do (cfg : config) (e : mt_event) (c : spec_state * machine)
    : option (spec_state * machine) :=
  let (sp, m) := c in
  match e with
  | Call o =>
      match mc_main m with
      | Idle =>
          if decide (op_ok (10 ^ 8) o sp) then
            match main_call cfg o (mc_state m) with
            | Done (p, s) => Some (spec_op cfg o sp, mk_machine p s)
            | _ => None
            end
          else None
      | _ => None
      end
  | Run who =>
      match mt_next cfg who m with Some (Done m') => Some (sp, m') | _ => None end
  end.

Fixpoint mt_play (cfg : config) (evs : list mt_event) (c : spec_state * machine)
    : option (spec_state * machine) :=
  match evs with
  | [] => Some c
  | e :: evs => match mt_do cfg e c with Some c' => mt_play cfg evs c' | None => None end
  end.

(** The points at which the emulator thread is between [sem_wait] and
    [sem_post]. *)
Definition holds_sem (p : main_pc) : bool :=
  match p with
  | Enabling _ (Some (IHeader _ (HWrite | HPost)))
  | Closing (CFlush | CPost | CHeader _ (HWrite | HPost))
  | Output _ (OCreate _) => true
  | _ => false
  end.

Section reach.
Context (cfg : config) (HN : (0 < QEM_TRACE_BUFFER_SIZE cfg)%nat)
  (HN32 : Z.of_nat (QEM_TRACE_BUFFER_SIZE cfg) < 2 ^ 32).

Lemma reach_rel E w sp m : may_fail E w -> mt_reach cfg w sp m -> mt_rel cfg E sp m.
Proof.
  intros Hw. induction 1 as [|sp m o p s _ IH Hi Ho Hc|sp m m' _ IH [who Hs]].
  - by apply init_rel.
  - exact (wp_Done _ _ _ _ _ _ (call_rel _ _ HN o _ _ IH Hi Ho) Hc).
  - exact (mt_next_rel _ _ HN HN32 _ _ _ _ IH Hs).
Qed.

Lemma reach_do w e sp m sp' m' :
  mt_reach cfg w sp m -> mt_do cfg e (sp, m) = Some (sp', m') -> mt_reach cfg w sp' m'.
Proof.
  intros H He. destruct e as [o|who]; cbn in He.
  - destruct (mc_main m) eqn:Hi; try done. destruct (decide _) as [Ho|]; [|done].
    destruct (main_call cfg o (mc_state m)) as [[p s]| |] eqn:Hc; try done.
    injection He as <- <-. by econstructor.
  - destruct (mt_next cfg who m) as [[m1| |]|] eqn:Hn; try done.
    injection He as <- <-. eapply reach_step; [done|]. by exists who.
Qed.

Lemma reach_play w evs : forall sp m sp' m',
  mt_reach cfg w sp m -> mt_play cfg evs (sp, m) = Some (sp', m') -> mt_reach cfg w sp' m'.
Proof.
  induction evs as [|e evs IH]; intros sp m sp' m' H He; cbn [mt_play] in He; [by injection He as <- <-|].
  destruct (mt_do cfg e (sp, m)) as [[sp1 m1]|] eqn:Hd; [|done].
  eapply IH; [|exact He]. by eapply reach_do.
Qed.

(** The flush thread, where there is one. *)
Definition alone (m : machine) : Prop :=
  let s := mc_state m in
  mt_threads s = [] \/
  exists b p, mt_threads s = [(b, p)] /\ qem_trace_buffer_sync s = 0 /\
    holds_sem (mc_main m) = false /\
    forall t, mc_main m = Output t OStore -> b <> qem_trace_current_buffer s.

Lemma shared_alone name b fl infl m :
  shared cfg name b fl infl (mc_state m) -> holds_sem (mc_main m) = false ->
  (forall t, mc_main m = Output t OStore -> b <> qem_trace_current_buffer (mc_state m)) ->
  alone m.
Proof.
  intros [(_ & Ht & _)|(p & Ht & Hk & _)] Hh Hs; [by left|]. right. by exists b, p.
Qed.

Lemma rel_alone E sp m : mt_rel cfg E sp m -> alone m.
Proof.
  intros H. pose proof (mr_main _ _ _ _ H) as Hm. pose proof (mr_current _ _ _ _ H) as Hc.
  destruct (mc_main m) as [|ty [i|]|c|t o] eqn:Hp; cbn [main_inv] in Hm.
  - destruct Hm as [_ Hm]. destruct (sp_tracing sp =? 0); destruct Hm as [Hm _]; [by left; destruct Hm|].
    destruct Hm as (fl & infl & cu & _ & Hs & _). by eapply shared_alone; rewrite ?Hp.
  - destruct Hm as (_ & _ & _ & Hi & _). left. by eapply init_no_thread.
  - destruct Hm as (_ & _ & (fl & infl & cu & _ & Hs & _) & _).
    by eapply shared_alone; rewrite ?Hp.
  - destruct Hm as (_ & _ & _ & cl & ts & _ & Hm). destruct (decide (c = CWait)) as [->|Hne].
    + destruct Hm as (fl & infl & cu & _ & Hs & _). by eapply shared_alone; rewrite ?Hp.
    + left. by eapply close_no_thread.
  - destruct Hm as (_ & _ & _ & ts & _ & Hm).
    destruct o as [|l|l| | |]; cbn [output_inv] in Hm.
    + destruct Hm as (fl & infl & cu & _ & Hs & _). by eapply shared_alone; rewrite ?Hp.
    + destruct Hm as (_ & fl & infl & cu & _ & Hs & _). by eapply shared_alone; rewrite ?Hp.
    + destruct Hm as (_ & fl & cu & _ & (Ht & _) & _). by left.
    + destruct Hm as (fl & infl & _ & Hs & _). by eapply shared_alone; rewrite ?Hp.
    + destruct Hm as (fl & infl & _ & Hs & _). by eapply shared_alone; rewrite ?Hp.
    + destruct Hm as (fl & infl & cu & _ & Hs & _). eapply shared_alone; rewrite ?Hp; [done..|].
      intros t' _. by apply other_ne.
Qed.
End reach.

(** ** Properties *)

(** C3: without faults, every sequence of API calls can be completed, and whatever
    the interleaving of the emulator thread with the flush threads, the file of
    each closed session holds exactly its header and the records output in it, in
    order, and the tracing state and the sessions read back are those of the
    abstract machine. *)
Theorem mt_lossless cfg (HN : (0 < QEM_TRACE_BUFFER_SIZE cfg)%nat)
    (HN32 : Z.of_nat (QEM_TRACE_BUFFER_SIZE cfg) < 2 ^ 32) w os :
  w_faults w = [] -> ops_ok cfg (10 ^ 8) os spec_init ->
  let sp := spec_ops cfg os spec_init in
  let m0 := mk_machine Idle (mt_init cfg w) in
  (exists m, sink_runs (H := mt_sink cfg HN HN32) os m0 m) /\
  forall m, sink_runs (H := mt_sink cfg HN HN32) os m0 m ->
    qem_tracing_state (mc_state m) = sp_tracing sp /\
    (forall k ts, sp_closed sp !! k = Some ts ->
       w_fs (mt_world (mc_state m)) !! trace_filename (Z.of_nat k) = Some (file_bytes cfg ts)) /\
    mt_sessions cfg m = sp_closed sp.
Proof.
  intros Hw Hok sp m0.
  assert (H0 : sink_rel (TraceSink := mt_sink cfg HN HN32) spec_init m0).
  { split; [|done]. apply init_rel; [done|]. unfold may_fail. by rewrite Hw. }
  assert (Hc : Forall (op_carries cfg (fun _ => True)) os)
    by (apply Forall_forall; by intros []).
  split; [by eapply sink_runs_progress|]. intros m Hm.
  destruct (sink_runs_sound _ _ _ _ H0 Hok Hc Hm) as [H Hi]. fold sp in H.
  split; [|split].
  - pose proof (mr_main _ _ _ _ H) as Hmain. rewrite Hi in Hmain. apply Hmain.
  - intros k ts Hk. apply (mr_closed _ _ _ _ H); [done|]. rewrite Hi. cbn.
    apply lookup_lt_Some in Hk. lia.
  - by eapply mt_sessions_closed.
Qed.

Lemma mt_lossless_witness :
  exists m, mt_sessions (cfg_small true false) m
    = sp_closed (spec_ops (cfg_small true false) ops_small spec_init).
Proof.
  destruct (mt_lossless (cfg_small true false) ltac:(cbn; lia) ltac:(reflexivity) world0 ops_small
    ltac:(reflexivity) ltac:(decide_now)) as [[m Hm] H].
  exists m. by apply (H m Hm).
Defined.

(** C10: in every state that API calls and any interleaving can reach, whatever
    calls the environment fails, the next action of no thread is undefined; there
    is at most one flush thread, and while there is one the semaphore is taken,
    the emulator thread is not in its own critical section, and it does not store
    into the buffer that is being written. *)
Theorem mt_mutual_exclusion cfg w sp m :
  (0 < QEM_TRACE_BUFFER_SIZE cfg)%nat -> Z.of_nat (QEM_TRACE_BUFFER_SIZE cfg) < 2 ^ 32 ->
  mt_reach cfg w sp m ->
  (forall who, mt_next cfg who m <> Some Undefined) /\
  (length (mt_threads (mc_state m)) <= 1)%nat /\
  forall b p, (b, p) ∈ mt_threads (mc_state m) ->
    qem_trace_buffer_sync (mc_state m) = 0 /\ holds_sem (mc_main m) = false /\
    forall t, mc_main m = Output t OStore -> b <> qem_trace_current_buffer (mc_state m).
Proof.
  intros HN HN32 Hr. assert (H := reach_rel cfg HN HN32 True w sp m ltac:(done) Hr).
  split; [intros who Hn; exact (mt_next_rel _ _ HN HN32 _ _ _ _ H Hn)|].
  destruct (rel_alone _ _ _ _ H) as [Ht|(b & p & Ht & Hk & Hh & Hs)]; rewrite Ht; cbn.
  - split; [lia|]. by intros b p Hb%not_elem_of_nil.
  - split; [lia|]. intros b' p' Hb%list_elem_of_singleton. injection Hb as -> ->. done.
Qed.

(** A state with a flush thread at work: the third record found the buffer full. *)
Definition flushing_events : list mt_event :=
  [Call (OpEnable 3)] ++ replicate 8 (Run None) ++
  [Call (OpOutput 0 4096 1 7 0x100); Run None; Run None;
   Call (OpOutput 0 4100 1 8 0); Run None; Run None;
   Call (OpOutput 0 4104 1 9 0x200)] ++ replicate 5 (Run None) ++ [Run (Some 0%nat)].

Definition mt_start (cfg : config) (w : world) : spec_state * machine :=
  (spec_init, mk_machine Idle (mt_init cfg w)).

Abbreviation mt_flushing :=
  (mt_play (cfg_small true false) flushing_events (mt_start (cfg_small true false) world0)).

Lemma play_reach cfg w evs sp m :
  mt_play cfg evs (mt_start cfg w) = Some (sp, m) -> mt_reach cfg w sp m.
Proof. apply reach_play, reach_init. Qed.

Lemma mt_mutual_exclusion_witness :
  exists sp m, mt_flushing = Some (sp, m) /\
    mt_threads (mc_state m) = [(0%nat, FSize)] /\
    (0%nat <> qem_trace_current_buffer (mc_state m)).
Proof.
  assert (Ht : match mt_flushing with
    | Some (_, m) => mt_threads (mc_state m) = [(0%nat, FSize)] /\
        exists t, mc_main m = Output t OStore
    | None => False end) by (vm_compute; eauto).
  destruct mt_flushing as [[sp m]|] eqn:Hf; [|contradiction]. destruct Ht as [Ht [t Hm]].
  exists sp, m. split; [reflexivity|]. split; [exact Ht|].
  destruct (mt_mutual_exclusion (cfg_small true false) world0 sp m) as (_ & _ & Hb).
  - cbn. lia.
  - reflexivity.
  - exact (play_reach _ _ _ _ _ Hf).
  - rewrite Ht in Hb. apply (Hb 0%nat FSize (list_elem_of_here _ _)) with t. exact Hm.
Defined.

(** C11: without faults no schedule blocks or runs for ever: while the emulator
    thread is in a call or a flush thread is left, some thread can take a step,
    and every step of any thread decreases [rank]. *)
Theorem mt_no_deadlock cfg w sp m :
  (0 < QEM_TRACE_BUFFER_SIZE cfg)%nat -> Z.of_nat (QEM_TRACE_BUFFER_SIZE cfg) < 2 ^ 32 ->
  w_faults w = [] -> mt_reach cfg w sp m ->
  (mc_main m <> Idle \/ mt_threads (mc_state m) <> [] -> exists m', mt_step cfg m m') /\
  (forall m', mt_step cfg m m' -> (rank m' < rank m)%nat).
Proof.
  intros HN HN32 Hw Hr.
  assert (H := reach_rel cfg HN HN32 False w sp m ltac:(unfold may_fail; by rewrite Hw) Hr).
  split; [|apply step_decr]. intros Hne.
  assert (He : exists who r, mt_next cfg who m = Some r).
  { destruct (mt_threads (mc_state m)) as [|[b p] l] eqn:Ht.
    - destruct Hne; [by eapply enabled|done].
    - exists (Some 0%nat). cbn. rewrite Ht. cbn. eauto. }
  destruct He as (who & r & Hn). pose proof (mt_next_rel _ _ HN HN32 _ _ _ _ H Hn).
  destruct r as [m'| |]; [|done..]. by exists m', who.
Qed.

Lemma mt_no_deadlock_witness :
  exists sp m m', mt_flushing = Some (sp, m) /\ mt_step (cfg_small true false) m m'.
Proof.
  assert (Ht : match mt_flushing with
    | Some (_, m) => mt_threads (mc_state m) <> [] | None => False end) by (vm_compute; done).
  destruct mt_flushing as [[sp m]|] eqn:Hf; [|contradiction].
  destruct (mt_no_deadlock (cfg_small true false) world0 sp m) as [[m' Hs] _].
  - cbn. lia.
  - reflexivity.
  - reflexivity.
  - exact (play_reach _ _ _ _ _ Hf).
  - right. exact Ht.
  - exists sp, m, m'. split; [reflexivity|exact Hs].
Defined.
