(* ===== verification/SmiDef.v ===== *)
(** * Shared memory interface: constants

    The constants [qem_trace_smi_engine.h] (QEMU side) and [qem_posix_smi.h]
    (trace consumer side) share: names of the POSIX objects, layout of the shared
    memory, status codes; and the error codes of the consumer library. *)

From S2P Require Import Prelude.

Definition QEM_SMI_STREAM_VERSION := 1.

Definition QEM_SMI_SHM_NAME : string := "/QEM_SMI_SHM".
Definition QEM_SMI_SHARED_SEM_SERVER : string := "/QEM_SMI_SEM_SERVER".
Definition QEM_SMI_SHARED_SEM_CLIENT : string := "/QEM_SMI_SEM_CLIENT".
Definition QEM_SMI_SHARED_MUTEX : string := "/QEM_SMI_MUTEX".
Definition QEM_SMI_SHARED_COND_READ : string := "/QEM_SMI_COND_READ".
Definition QEM_SMI_SHARED_COND_WRITE : string := "/QEM_SMI_COND_WRITE".

Definition QEM_SMI_HANDSHAKE_MAGIC := 0xDEADCAFE.

(** Layout: block count (16 bits), block mask (16 bits), block size (32 bits),
    blocks. *)
Definition QEM_SMI_META_BLOCK_COUNT_OFFSET : nat := 0.
Definition QEM_SMI_META_BLOCK_COUNT_SIZE : nat := 2.
Definition QEM_SMI_META_BLOCK_MASK_OFFSET : nat :=
  QEM_SMI_META_BLOCK_COUNT_OFFSET + QEM_SMI_META_BLOCK_COUNT_SIZE.
Definition QEM_SMI_META_BLOCK_MASK_SIZE : nat := 2.
Definition QEM_SMI_META_BLOCK_SIZE_OFFSET : nat :=
  QEM_SMI_META_BLOCK_MASK_OFFSET + QEM_SMI_META_BLOCK_MASK_SIZE.
Definition QEM_SMI_META_BLOCK_SIZE_SIZE : nat := 4.
Definition QEM_SMI_DATA_BUFFER_META_DATA_SIZE : nat :=
  QEM_SMI_META_BLOCK_SIZE_OFFSET + QEM_SMI_META_BLOCK_SIZE_SIZE.

Inductive QEM_SMI_STATUS_CODE_E :=
  | QEM_SMI_UNINIT | QEM_SMI_NOT_CONNECTED | QEM_SMI_CONNECTED
  | QEM_SMI_ERR_ABORTED | QEM_SMI_FAILED_CREATE_PIPE.

#[export] Instance QEM_SMI_STATUS_CODE_E_eq_dec : EqDecision QEM_SMI_STATUS_CODE_E.
Proof. solve_decision. Defined.

(** Error codes of the consumer library. *)
Definition QEM_SMI_SHM_FD_ERROR := 100.
Definition QEM_SMI_SHM_MMAP_ERROR := 101.
Definition QEM_SMI_CREATE_LBUFFER_ERROR := 102.
Definition QEM_SMI_SHM_LOCK_ERROR := 103.
Definition QEM_SMI_SHM_RCOND_ERROR := 104.
Definition QEM_SMI_SHM_WCOND_ERROR := 105.
Definition QEM_SMI_MMAP_LOCK_ERROR := 106.
Definition QEM_SMI_MMAP_RCOND_ERROR := 107.
Definition QEM_SMI_MMAP_WCOND_ERROR := 108.
Definition QEM_SMI_NOT_CONNECTED_ERROR := 109.
Definition QEM_SMI_TIMEOUT_ERROR := 110.
Definition QEM_SMI_WRONG_MAGIC_ERROR := 111.
Definition QEM_SMI_NULL_BUFFER_ERROR := 112.

(** The layout constants, evaluated. *)
Ltac smi_layout :=
  change QEM_SMI_META_BLOCK_COUNT_OFFSET with 0%nat in *;
  change QEM_SMI_META_BLOCK_COUNT_SIZE with 2%nat in *;
  change QEM_SMI_META_BLOCK_MASK_OFFSET with 2%nat in *;
  change QEM_SMI_META_BLOCK_MASK_SIZE with 2%nat in *;
  change QEM_SMI_META_BLOCK_SIZE_OFFSET with 4%nat in *;
  change QEM_SMI_META_BLOCK_SIZE_SIZE with 4%nat in *;
  change QEM_SMI_DATA_BUFFER_META_DATA_SIZE with 8%nat in *.
