(* ===== verification/SmiRing.v ===== *)
(** * Shared memory interface: the block ring

    How QEMU sends a byte stream to the trace consumer through shared memory:
    [qem_smi_client_send] and [qem_smi_client_flush] of
    [qem_trace_smi_engine.c], [qem_smi_receive] and [qem_smi_post_server_flush] of
    [qem_posix_smi.c].  Both sides keep a local block; a mask in shared memory has
    one bit per block, set by the sender once it filled the block and cleared by
    the receiver once it copied it; a process-shared mutex protects the mask and
    two condition variables announce its changes.  The two processes are
    interleaved at the granularity of their synchronisation calls and copies. *)

From S2P Require Import Prelude SmiDef.

Inductive side := Snd | Rcv.

#[export] Instance side_eq_dec : EqDecision side.
Proof. solve_decision. Defined.

(** The shared memory, the mutex and who waits on the two conditions
    ([cond_write] is waited on by the sender, [cond_read] by the receiver), and
    the static variables of the two processes. *)
Record ring := mk_ring {
  shm : bytes;
  lock : option side;
  waits_write : bool;
  waits_read : bool;
  s_code : QEM_SMI_STATUS_CODE_E;
  s_local : bytes;
  s_index : Z;
  s_next : Z;
  r_code : QEM_SMI_STATUS_CODE_E;
  r_local : bytes;
  r_index : Z;
  r_next : Z
}.

Section setters.
Context (s : ring).
Definition set_shm (v : bytes) : ring :=
  mk_ring v (lock s) (waits_write s) (waits_read s) (s_code s) (s_local s) (s_index s)
    (s_next s) (r_code s) (r_local s) (r_index s) (r_next s).
Definition set_lock (v : option side) : ring :=
  mk_ring (shm s) v (waits_write s) (waits_read s) (s_code s) (s_local s) (s_index s)
    (s_next s) (r_code s) (r_local s) (r_index s) (r_next s).
Definition set_waits_write (v : bool) : ring :=
  mk_ring (shm s) (lock s) v (waits_read s) (s_code s) (s_local s) (s_index s) (s_next
    s) (r_code s) (r_local s) (r_index s) (r_next s).
Definition set_waits_read (v : bool) : ring :=
  mk_ring (shm s) (lock s) (waits_write s) v (s_code s) (s_local s) (s_index s)
    (s_next s) (r_code s) (r_local s) (r_index s) (r_next s).
Definition set_s_code (v : QEM_SMI_STATUS_CODE_E) : ring :=
  mk_ring (shm s) (lock s) (waits_write s) (waits_read s) v (s_local s) (s_index s)
    (s_next s) (r_code s) (r_local s) (r_index s) (r_next s).
Definition set_s_local (v : bytes) : ring :=
  mk_ring (shm s) (lock s) (waits_write s) (waits_read s) (s_code s) v (s_index s)
    (s_next s) (r_code s) (r_local s) (r_index s) (r_next s).
Definition set_s_index (v : Z) : ring :=
  mk_ring (shm s) (lock s) (waits_write s) (waits_read s) (s_code s) (s_local s) v
    (s_next s) (r_code s) (r_local s) (r_index s) (r_next s).
Definition set_s_next (v : Z) : ring :=
  mk_ring (shm s) (lock s) (waits_write s) (waits_read s) (s_code s) (s_local s)
    (s_index s) v (r_code s) (r_local s) (r_index s) (r_next s).
Definition set_r_code (v : QEM_SMI_STATUS_CODE_E) : ring :=
  mk_ring (shm s) (lock s) (waits_write s) (waits_read s) (s_code s) (s_local s)
    (s_index s) (s_next s) v (r_local s) (r_index s) (r_next s).
Definition set_r_local (v : bytes) : ring :=
  mk_ring (shm s) (lock s) (waits_write s) (waits_read s) (s_code s) (s_local s)
    (s_index s) (s_next s) (r_code s) v (r_index s) (r_next s).
Definition set_r_index (v : Z) : ring :=
  mk_ring (shm s) (lock s) (waits_write s) (waits_read s) (s_code s) (s_local s)
    (s_index s) (s_next s) (r_code s) (r_local s) v (r_next s).
Definition set_r_next (v : Z) : ring :=
  mk_ring (shm s) (lock s) (waits_write s) (waits_read s) (s_code s) (s_local s)
    (s_index s) (s_next s) (r_code s) (r_local s) (r_index s) v.
End setters.

(** ** The shared mask *)

(** [memcpy(&blocks, shared_buffer + MASK_OFFSET, 2)]: only the low half of the
    32-bit variable is written. *)
Definition load_mask (blocks : Z) : C ring Z :=
  m ← gets shm;
  bs ← access_ (mem_read QEM_SMI_META_BLOCK_MASK_OFFSET QEM_SMI_META_BLOCK_MASK_SIZE m);
  mret (Z.lor (Z.land blocks 0xFFFF0000) (le_val bs)).

Definition store_mask (blocks : Z) : C ring () :=
  m ← gets shm;
  m ← access_ (mem_write QEM_SMI_META_BLOCK_MASK_OFFSET
                 (le QEM_SMI_META_BLOCK_MASK_SIZE blocks) m);
  modify (fun s => set_shm s m).

(** [1 << n], undefined on an [int] from 31 on. *)
Definition bit (n : Z) : C ring Z :=
  access_ (if (0 <=? n) && (n <? 31) then Some (Z.shiftl 1 n) else None).

(** Copies between the shared data and a local buffer. *)
Definition shm_write (offset : Z) (bs : bytes) : C ring () :=
  m ← gets shm;
  m ← access_ (mem_write (QEM_SMI_DATA_BUFFER_META_DATA_SIZE + Z.to_nat offset) bs m);
  modify (fun s => set_shm s m).

Definition shm_read (offset size : Z) : C ring bytes :=
  m ← gets shm;
  access_ (mem_read (QEM_SMI_DATA_BUFFER_META_DATA_SIZE + Z.to_nat offset) (Z.to_nat size) m).

(** ** Mutex and conditions *)

Definition pthread_mutex_lock (who : side) : C ring () :=
  modify (fun s => set_lock s (Some who)).
Definition pthread_mutex_unlock : C ring () := modify (fun s => set_lock s None).

(** [pthread_cond_wait(cond_write, mon_lock)] and
    [pthread_cond_wait(cond_read, mon_lock)], up to the point where the process
    is asleep; it takes the mutex again when it is woken. *)
Definition wait_write : C ring () :=
  modify (fun s => set_lock (set_waits_write s true) None).
Definition wait_read : C ring () :=
  modify (fun s => set_lock (set_waits_read s true) None).
Definition signal_write : C ring () := modify (fun s => set_waits_write s false).
Definition signal_read : C ring () := modify (fun s => set_waits_read s false).

(** [(next_block + 1) % block_count]. *)
Definition succ_block (block_count next : Z) : C ring Z :=
  access_ (if block_count =? 0 then None else Some (u32 (next + 1) mod block_count)).

(** ** Sender

    The messages the functions print are left out. *)

(** What is being sent: the rest of the buffer of [qem_smi_client_send], or the
    local buffer, by [qem_smi_client_flush]. *)
Inductive sending :=
  | Sending (buffer : bytes) (wrote write_size : Z)
  | Flushing.

(** Program points of the publication of a block: taking the mutex, checking that
    the block is free, waiting for it, releasing the mutex, copying, taking the
    mutex, setting the bit of the block, releasing the mutex. *)
Inductive block_pc := BLock | BCheck | BWait | BUnlock | BCopy | BLock2 | BUpdate | BUnlock2.

Inductive send_pc :=
  | SRet (code : Z)
  | STest (buffer : bytes) (wrote write_size : Z)
  | SBlock (k : sending) (blocks : Z) (p : block_pc).

Inductive recv_pc :=
  | RRet (code : Z) (buffer : bytes)
  | RTest (buffer : bytes) (read readSize blocks : Z)
  | RBlock (buffer : bytes) (read readSize blocks : Z) (p : block_pc).

Section code.
(** [junk] is the value of the uninitialised [blocks] variables. *)
Context (block_count block_size junk : Z).

(** Calling [qem_smi_client_send]; the null pointer is [None]. *)
Definition qem_smi_client_send (buffer : option bytes) (size : Z) : C ring send_pc :=
  code ← gets s_code;
  if decide (code = QEM_SMI_CONNECTED) then
    match buffer with
    | None => mret (SRet (-1))
    | Some b => mret (STest b 0 size)
    end
  else mret (SRet (-1)).

Definition qem_smi_client_flush : C ring send_pc :=
  code ← gets s_code;
  if decide (code = QEM_SMI_CONNECTED) then
    index ← gets s_index;
    if index =? 0 then mret (SRet 0) else mret (SBlock Flushing junk BLock)
  else mret (SRet (-1)).

(** [memcpy(local_buffer + local_buffer_index, buffer + wrote, n)]. *)
Definition fill_local (buffer : bytes) (wrote n : Z) : C ring () :=
  index ← gets s_index;
  local ← gets s_local;
  bs ← access_ (mem_read (Z.to_nat wrote) (Z.to_nat n) buffer);
  local ← access_ (mem_write (Z.to_nat index) bs local);
  modify (fun s => set_s_local s local).

(** The head of the loop of [qem_smi_client_send], and what follows the loop. *)
Definition send_test (buffer : bytes) (wrote write_size : Z) : C ring send_pc :=
  index ← gets s_index;
  if block_size <? u32 (index + write_size) then
    let to_write := u32 (block_size - index) in
    fill_local buffer wrote to_write ;;
    modify (fun s => set_s_index s 0) ;;
    mret (SBlock (Sending buffer (u32 (wrote + to_write)) (u32 (write_size - to_write))) 0 BLock)
  else if negb (write_size =? 0) then
    fill_local buffer wrote write_size ;;
    modify (fun s => set_s_index s (u32 (index + write_size))) ;;
    mret (SRet 0)
  else mret (SRet 0).

(** The copy of the local buffer to the block, padded with zeros by a flush. *)
Definition copy_block (k : sending) : C ring () :=
  next ← gets s_next;
  local ← gets s_local;
  let offset := u32 (next * block_size) in
  match k with
  | Sending _ _ _ =>
      bs ← access_ (mem_read 0 (Z.to_nat block_size) local);
      shm_write offset bs
  | Flushing =>
      index ← gets s_index;
      shm_write offset (replicate (Z.to_nat block_size) 0) ;;
      bs ← access_ (mem_read 0 (Z.to_nat index) local);
      shm_write offset bs
  end.

Definition send_block (k : sending) (blocks : Z) (p : block_pc) : C ring send_pc :=
  match p with
  | BLock | BWait => pthread_mutex_lock Snd ;; mret (SBlock k blocks BCheck)
  | BCheck =>
      blocks ← load_mask blocks;
      next ← gets s_next;
      b ← bit next;
      if bit_any blocks b
      then wait_write ;; mret (SBlock k blocks BWait)
      else mret (SBlock k blocks BUnlock)
  | BUnlock => pthread_mutex_unlock ;; mret (SBlock k blocks BCopy)
  | BCopy => copy_block k ;; mret (SBlock k blocks BLock2)
  | BLock2 => pthread_mutex_lock Snd ;; mret (SBlock k blocks BUpdate)
  | BUpdate =>
      blocks ← load_mask blocks;
      next ← gets s_next;
      b ← bit next;
      let blocks := Z.lor blocks b in
      store_mask blocks ;;
      next ← succ_block block_count next;
      modify (fun s => set_s_next s next) ;;
      signal_read ;;
      mret (SBlock k blocks BUnlock2)
  | BUnlock2 =>
      pthread_mutex_unlock ;;
      match k with
      | Sending buffer wrote write_size => mret (STest buffer wrote write_size)
      | Flushing => modify (fun s => set_s_index s 0) ;; mret (SRet 0)
      end
  end.

Definition send_code (p : send_pc) : C ring send_pc :=
  match p with
  | SRet c => mret (SRet c)
  | STest buffer wrote write_size => send_test buffer wrote write_size
  | SBlock k blocks p => send_block k blocks p
  end.

(** ** Receiver *)

(** Calling [qem_smi_receive]; [buffer] is the memory to fill. *)
Definition qem_smi_receive (buffer : option bytes) (size : Z) : C ring recv_pc :=
  code ← gets r_code;
  if decide (code = QEM_SMI_CONNECTED) then
    match buffer with
    | None => mret (RRet QEM_SMI_NULL_BUFFER_ERROR [])
    | Some b => mret (RTest b 0 size junk)
    end
  else mret (RRet QEM_SMI_NOT_CONNECTED_ERROR (default [] buffer)).

Definition qem_smi_post_server_flush : C ring () :=
  modify (fun s => set_r_index s block_size).

(** [memcpy(buffer + read, local_buffer + local_buffer_index, n)]. *)
Definition take_local (buffer : bytes) (read n : Z) : C ring bytes :=
  index ← gets r_index;
  local ← gets r_local;
  bs ← access_ (mem_read (Z.to_nat index) (Z.to_nat n) local);
  access_ (mem_write (Z.to_nat read) bs buffer).

(** The head of the loop of [qem_smi_receive], and what follows the loop. *)
Definition recv_test (buffer : bytes) (read readSize blocks : Z) : C ring recv_pc :=
  index ← gets r_index;
  if block_size <? u32 (index + readSize) then
    let toRead := u32 (block_size - index) in
    if 0 <? toRead then
      buffer ← take_local buffer read toRead;
      modify (fun s => set_r_index s 0) ;;
      mret (RBlock buffer (u32 (read + toRead)) (u32 (readSize - toRead)) blocks BLock)
    else
      modify (fun s => set_r_index s 0) ;;
      mret (RBlock buffer read readSize blocks BLock)
  else if negb (readSize =? 0) then
    buffer ← take_local buffer read readSize;
    modify (fun s => set_r_index s (u32 (index + readSize))) ;;
    mret (RRet 0 buffer)
  else mret (RRet 0 buffer).

Definition recv_block (buffer : bytes) (read readSize blocks : Z) (p : block_pc)
    : C ring recv_pc :=
  match p with
  | BLock | BWait => pthread_mutex_lock Rcv ;; mret (RBlock buffer read readSize blocks BCheck)
  | BCheck =>
      blocks ← load_mask blocks;
      next ← gets r_next;
      b ← bit next;
      if bit_any blocks b
      then mret (RBlock buffer read readSize blocks BUnlock)
      else wait_read ;; mret (RBlock buffer read readSize blocks BWait)
  | BUnlock => pthread_mutex_unlock ;; mret (RBlock buffer read readSize blocks BCopy)
  | BCopy =>
      next ← gets r_next;
      bs ← shm_read (u32 (next * block_size)) block_size;
      local ← gets r_local;
      local ← access_ (mem_write 0 bs local);
      modify (fun s => set_r_local s local) ;;
      mret (RBlock buffer read readSize blocks BLock2)
  | BLock2 => pthread_mutex_lock Rcv ;; mret (RBlock buffer read readSize blocks BUpdate)
  | BUpdate =>
      blocks ← load_mask blocks;
      next ← gets r_next;
      b ← bit next;
      let blocks := Z.land blocks (Z.lnot b) in
      store_mask blocks ;;
      next ← succ_block block_count next;
      modify (fun s => set_r_next s next) ;;
      signal_write ;;
      mret (RBlock buffer read readSize blocks BUnlock2)
  | BUnlock2 => pthread_mutex_unlock ;; mret (RTest buffer read readSize blocks)
  end.

Definition recv_code (p : recv_pc) : C ring recv_pc :=
  match p with
  | RRet c buffer => mret (RRet c buffer)
  | RTest buffer read readSize blocks => recv_test buffer read readSize blocks
  | RBlock buffer read readSize blocks p => recv_block buffer read readSize blocks p
  end.

(** ** Interleaving *)

Record machine := mk_machine { mc_snd : send_pc; mc_rcv : recv_pc; mc_ring : ring }.

(** A call, one step of a process in a call, or a wake-up without a signal. *)
Inductive action :=
  | ASend (buffer : option bytes) (size : Z)
  | AFlush
  | ASnd
  | ARecv (buffer : option bytes) (size : Z)
  | APost
  | ARcv
  | ASpurious (who : side).

Definition lock_free (s : ring) : bool := if lock s is None then true else false.

Definition snd_ready (m : machine) : bool :=
  let s := mc_ring m in
  match mc_snd m with
  | SRet _ => false
  | SBlock _ _ (BLock | BLock2) => lock_free s
  | SBlock _ _ BWait => negb (waits_write s) && lock_free s
  | _ => true
  end.

Definition rcv_ready (m : machine) : bool :=
  let s := mc_ring m in
  match mc_rcv m with
  | RRet _ _ => false
  | RBlock _ _ _ _ (BLock | BLock2) => lock_free s
  | RBlock _ _ _ _ BWait => negb (waits_read s) && lock_free s
  | _ => true
  end.

Definition run_snd (c : C ring send_pc) (m : machine) : outcome machine :=
  match c (mc_ring m) with
  | Done (p, s) => Done (mk_machine p (mc_rcv m) s)
  | Exit c => Exit c
  | Undefined => Undefined
  end.

Definition run_rcv (c : C ring recv_pc) (m : machine) : outcome machine :=
  match c (mc_ring m) with
  | Done (p, s) => Done (mk_machine (mc_snd m) p s)
  | Exit c => Exit c
  | Undefined => Undefined
  end.

Definition snd_idle (m : machine) : bool := if mc_snd m is SRet _ then true else false.
Definition rcv_idle (m : machine) : bool := if mc_rcv m is RRet _ _ then true else false.

(** [None] when the action is not possible. *)
Definition ring_do (a : action) (m : machine) : option (outcome machine) :=
  match a with
  | ASend b n => if snd_idle m then Some (run_snd (qem_smi_client_send b n) m) else None
  | AFlush => if snd_idle m then Some (run_snd qem_smi_client_flush m) else None
  | ASnd => if snd_ready m then Some (run_snd (send_code (mc_snd m)) m) else None
  | ARecv b n => if rcv_idle m then Some (run_rcv (qem_smi_receive b n) m) else None
  | APost =>
      if rcv_idle m
      then Some (run_rcv (qem_smi_post_server_flush ;; mret (mc_rcv m)) m) else None
  | ARcv => if rcv_ready m then Some (run_rcv (recv_code (mc_rcv m)) m) else None
  | ASpurious Snd =>
      if waits_write (mc_ring m)
      then Some (run_snd (signal_write ;; mret (mc_snd m)) m) else None
  | ASpurious Rcv =>
      if waits_read (mc_ring m)
      then Some (run_rcv (signal_read ;; mret (mc_rcv m)) m) else None
  end.

(** Both processes connected: the metadata written by [mmap_buffer], an empty
    mask, the local buffers allocated with any contents. *)
Definition ring_init (data sl rl : bytes) : machine := {|
  mc_snd := SRet 0;
  mc_rcv := RRet 0 [];
  mc_ring := {|
    shm := le QEM_SMI_META_BLOCK_COUNT_SIZE block_count ++
           le QEM_SMI_META_BLOCK_MASK_SIZE 0 ++
           le QEM_SMI_META_BLOCK_SIZE_SIZE block_size ++ data;
    lock := None; waits_write := false; waits_read := false;
    s_code := QEM_SMI_CONNECTED; s_local := sl; s_index := 0; s_next := 0;
    r_code := QEM_SMI_CONNECTED; r_local := rl; r_index := block_size; r_next := 0
  |}
|}.
End code.

(** C16: [qem_smi_client_send] adds the fill of the local buffer and the size in 32
    bits: when the sum overflows to at most the block size, the loop is skipped
    and the whole buffer is copied past the end of the local buffer. *)
Theorem send_size_overflow bs b s :
  length (s_local s) = bs -> 0 <= s_index s <= Z.of_nat bs ->
  Z.of_nat (length b) < 2 ^ 32 -> Z.of_nat bs < Z.of_nat (length b) ->
  2 ^ 32 <= s_index s + Z.of_nat (length b) <= 2 ^ 32 + Z.of_nat bs ->
  send_test (Z.of_nat bs) b 0 (Z.of_nat (length b)) s = Undefined.
Proof.
  intros Hl Hi Hb Hlt Hov. unfold send_test. rewrite gets_bind.
  replace (u32 (s_index s + Z.of_nat (length b))) with (s_index s + Z.of_nat (length b) - 2 ^ 32).
  2: { unfold wrap. apply Zmod_unique with 1; lia. }
  rewrite (proj2 (Z.ltb_ge _ _)), (proj2 (Z.eqb_neq _ _)) by lia. cbn [negb].
  unfold fill_local, access_, mem_read, mem_write, gets, mbind, C_bind.
  rewrite (proj2 (Nat.leb_le _ _)) by lia.
  by rewrite length_slice, (proj2 (Nat.leb_gt _ _)) by lia.
Qed.

Lemma send_size_overflow_witness :
  let s := set_s_index (mc_ring (ring_init 2 4 (replicate 8 7) (replicate 4 7) (replicate 16 7))) 1 in
  let b := replicate (Z.to_nat (2 ^ 32 - 1)) 0 in
  send_test (Z.of_nat 4) b 0 (Z.of_nat (length b)) s = Undefined.
Proof.
  intros s b.
  assert (Hlen : Z.of_nat (length b) = 2 ^ 32 - 1)
    by (unfold b; rewrite length_replicate, Z2Nat.id; [reflexivity|lia]).
  apply (send_size_overflow 4 b s).
  - reflexivity.
  - cbn. lia.
  - rewrite Hlen. lia.
  - rewrite Hlen. lia.
  - rewrite Hlen. cbn [s_index set_s_index s]. lia.
Defined.
