(* ===== verification/SmiRingProof.v ===== *)
(** * Correctness of the block ring

    The invariant of the shared memory and of the two processes ([ring_inv]),
    kept by every action of every interleaving, spurious wake-ups included, and
    what it gives: no undefined behaviour, no access of the two processes to the
    same block, no lost wake-up, and the bytes received are the bytes sent, in
    order. *)

From S2P Require Import Prelude SmiDef SmiRing.

#[export] Instance block_pc_eq_dec : EqDecision block_pc.
Proof. solve_decision. Defined.

Ltac sync_unfold :=
  unfold pthread_mutex_lock, pthread_mutex_unlock, wait_write, wait_read, signal_write,
    signal_read.

(** ** Arithmetic of the ring *)

Lemma mod_small_diff a b n :
  (0 < n)%nat -> (a <= b < a + n)%nat -> (a mod n = b mod n)%nat -> a = b.
Proof.
  intros Hn Hab Hmod.
  pose proof (Nat.div_mod a n ltac:(lia)). pose proof (Nat.div_mod b n ltac:(lia)).
  assert (a / n <= b / n)%nat by (apply Nat.Div0.div_le_mono; lia).
  destruct (decide (a / n = b / n)%nat) as [Heq|Hne]; [rewrite Heq in *; lia|].
  assert (n * (a / n) + n <= n * (b / n))%nat by nia. lia.
Qed.

(** Block [i] of the ring is in use when blocks [k], ..., [n - 1] of the stream
    are. *)
Definition occupied (bc k n i : nat) : Prop := exists j, (k <= j < n /\ j mod bc = i)%nat.

Lemma occupied_tail bc k n :
  (0 < bc)%nat -> (k <= n <= k + bc)%nat ->
  occupied bc k n (n mod bc) <-> n = (k + bc)%nat.
Proof.
  intros Hbc Hkn. split.
  - intros (j & Hj & Hmod). destruct (decide (n < j + bc)%nat) as [Hlt|Hge]; [|lia].
    apply mod_small_diff in Hmod; lia.
  - intros ->. exists k. split; [lia|]. symmetry.
    by rewrite Nat.Div0.add_mod, Nat.Div0.mod_same, Nat.add_0_r, Nat.Div0.mod_mod.
Qed.

Lemma occupied_head bc k n :
  (0 < bc)%nat -> (k <= n <= k + bc)%nat -> occupied bc k n (k mod bc) <-> (k < n)%nat.
Proof.
  intros Hbc Hkn. split; [intros (j & Hj & _); lia|]. intros. exists k. lia.
Qed.

Lemma occupied_grow bc k n i :
  (k <= n)%nat -> occupied bc k (S n) i <-> occupied bc k n i \/ (n mod bc = i)%nat.
Proof.
  intros Hkn. split.
  - intros (j & Hj & Hmod). destruct (decide (j = n)) as [->|Hne]; [by right|left].
    exists j. lia.
  - intros [(j & Hj & Hmod)|Hmod]; [exists j|exists n]; lia.
Qed.

Lemma occupied_shrink bc k n i :
  (0 < bc)%nat -> (k < n <= k + bc)%nat ->
  occupied bc (S k) n i <-> occupied bc k n i /\ (k mod bc <> i)%nat.
Proof.
  intros Hbc Hkn. split.
  - intros (j & Hj & Hmod). split; [exists j; lia|]. intros Heq.
    rewrite <- Hmod in Heq. apply mod_small_diff in Heq; lia.
  - intros [(j & Hj & Hmod) Hne]. exists j. split; [|done].
    destruct (decide (j = k)) as [->|]; [done|lia].
Qed.

Lemma succ_mod bc n :
  (0 < bc)%nat -> Z.of_nat bc < 2 ^ 32 ->
  u32 (Z.of_nat (n mod bc) + 1) mod Z.of_nat bc = Z.of_nat (S n mod bc).
Proof.
  intros Hbc Hmax. pose proof (Nat.mod_upper_bound n bc ltac:(lia)).
  rewrite wrap_small by lia.
  replace (Z.of_nat (n mod bc) + 1) with (Z.of_nat (n mod bc + 1)) by lia.
  rewrite <- Nat2Z.inj_mod. f_equal. by rewrite Nat.Div0.add_mod_idemp_l, Nat.add_1_r.
Qed.

(** ** The mask and the blocks in shared memory *)

Definition mask (s : ring) : Z := le_val (slice 2 2 (shm s)).

Lemma load_bit blocks m n :
  0 <= n < 16 -> Z.testbit (Z.lor (Z.land blocks 0xFFFF0000) m) n = Z.testbit m n.
Proof.
  intros Hn. rewrite Z.lor_spec, Z.land_spec.
  replace (Z.testbit 0xFFFF0000 n) with false; [by rewrite andb_false_r|].
  change 0xFFFF0000 with (Z.shiftl 0xFFFF 16). by rewrite Z.shiftl_spec_low by lia.
Qed.

Section ring.
Context (bc bs : nat) (junk : Z).

Abbreviation block_count := (Z.of_nat bc).
Abbreviation block_size := (Z.of_nat bs).

(** Block [i] of the shared memory. *)
Definition block (i : nat) (s : ring) : bytes := slice (8 + i * bs) bs (shm s).

Lemma wp_load_mask blocks (Q : Z -> ring -> Prop) s :
  (4 <= length (shm s))%nat ->
  (forall b, (forall i, 0 <= i < 16 -> Z.testbit b i = Z.testbit (mask s) i) -> Q b s) ->
  wp False (load_mask blocks) Q s.
Proof.
  intros Hlen HQ. unfold load_mask. smi_layout. wp_step.
  eapply wp_access; [apply mem_read_Some; lia|]. wp_step. apply HQ.
  intros i Hi. by apply load_bit.
Qed.

Lemma wp_bit n (Q : Z -> ring -> Prop) s :
  0 <= n < 31 -> Q (Z.shiftl 1 n) s -> wp False (bit n) Q s.
Proof.
  intros Hn HQ. unfold bit. rewrite (proj2 (Z.leb_le 0 n)), (proj2 (Z.ltb_lt n 31)) by lia. done.
Qed.

Lemma block_splice_mask i v m :
  (8 <= length m)%nat ->
  slice (8 + i * bs) bs (splice 2 (le 2 v) m) = slice (8 + i * bs) bs m.
Proof. intros. apply slice_splice_above; rewrite length_le; lia. Qed.

Lemma wp_store_mask v (Q : () -> ring -> Prop) s :
  (8 <= length (shm s))%nat ->
  (forall m, let s' := set_shm s m in length m = length (shm s) ->
     (forall i, 0 <= i < 16 -> Z.testbit (mask s') i = Z.testbit v i) ->
     (forall i, block i s' = block i s) -> Q () s') ->
  wp False (store_mask v) Q s.
Proof.
  intros Hlen HQ. unfold store_mask. smi_layout. wp_step.
  eapply wp_access; [apply mem_write_Some; rewrite length_le; lia|]. wp_step. apply HQ.
  - apply length_splice. rewrite length_le. lia.
  - intros i Hi. unfold mask. cbn [shm set_shm].
    pose proof (slice_splice_same 2 (le 2 v) (shm s)) as Hs. rewrite length_le in Hs.
    rewrite Hs, le_val_le by lia. unfold wrap. by rewrite Z.mod_pow2_bits_low by lia.
  - intros i. by apply block_splice_mask.
Qed.

(** ** The invariant

    [B] are the blocks published so far, [k] of them were consumed; [st] is the
    byte stream of the calls made by the sender so far, padding included; the
    receiver's last call started at position [p0] of the stream and its next one
    starts at [p1]. *)

Record blocks_inv (B : list bytes) (k : nat) (s : ring) : Prop := {
  bi_shm : length (shm s) = (8 + bc * bs)%nat;
  bi_blocks : Forall (fun b => length b = bs) B;
  bi_count : (k <= length B <= k + bc)%nat;
  bi_mask i : (i < 16)%nat -> Z.testbit (mask s) (Z.of_nat i) = true <-> occupied bc k (length B) i;
  bi_data j b : (k <= j)%nat -> B !! j = Some b -> block (j mod bc) s = b;
  bi_s_next : s_next s = Z.of_nat (length B mod bc);
  bi_r_next : r_next s = Z.of_nat (k mod bc)
}.

(** Does the block protocol hold the mutex, know its block, have it copied? *)
Definition holds (p : block_pc) : bool :=
  match p with BCheck | BUnlock | BUpdate | BUnlock2 => true | _ => false end.
Definition granted (p : block_pc) : bool :=
  match p with BUnlock | BCopy | BLock2 | BUpdate => true | _ => false end.
Definition copied (p : block_pc) : bool :=
  match p with BLock2 | BUpdate => true | _ => false end.

Definition zeros_to_block (n : nat) : bytes := replicate (bs - n) 0.

(** The block the sender is about to publish. *)
Definition pending (k : sending) (s : ring) : bytes :=
  match k with
  | Sending _ _ _ => s_local s
  | Flushing => take (Z.to_nat (s_index s)) (s_local s) ++ zeros_to_block (Z.to_nat (s_index s))
  end.

(** The part of the buffer that is still to send. *)
Definition unsent (k : sending) : bytes :=
  match k with Sending b wrote _ => drop (Z.to_nat wrote) b | Flushing => [] end.

Definition sending_ok (k : sending) (s : ring) : Prop :=
  match k with
  | Sending b wrote n => 0 <= wrote /\ wrote + n = Z.of_nat (length b) /\ 0 <= n /\
      block_size + Z.of_nat (length b) < 2 ^ 32 /\ s_index s = 0
  | Flushing => 0 < s_index s <= block_size
  end.

Definition snd_inv (st : bytes) (B : list bytes) (k : nat) (p : send_pc) (s : ring) : Prop :=
  s_code s = QEM_SMI_CONNECTED /\ length (s_local s) = bs /\
  match p with
  | SRet _ => 0 <= s_index s <= block_size /\
      st = concat B ++ take (Z.to_nat (s_index s)) (s_local s)
  | STest b wrote n => 0 <= s_index s <= block_size /\
      0 <= wrote /\ wrote + n = Z.of_nat (length b) /\ 0 <= n /\
      block_size + Z.of_nat (length b) < 2 ^ 32 /\
      st = concat B ++ take (Z.to_nat (s_index s)) (s_local s) ++ drop (Z.to_nat wrote) b
  | SBlock q _ BUnlock2 => sending_ok q s /\ st = concat B ++ unsent q
  | SBlock q _ pc => sending_ok q s /\ st = concat B ++ pending q s ++ unsent q /\
      (granted pc = true -> (length B < k + bc)%nat) /\
      (copied pc = true -> block (length B mod bc) s = pending q s)
  end.

(** The receiver's position: [k] blocks were taken, [bs - r_index] bytes of the
    last one are left in the local buffer. *)
Definition rcv_at (pos : nat) (B : list bytes) (k : nat) (s : ring) : Prop :=
  0 <= r_index s <= block_size /\
  (pos + (bs - Z.to_nat (r_index s)) = k * bs)%nat /\
  (r_index s < block_size -> exists b, B !! pred k = Some b /\ take bs (r_local s) = b /\ (0 < k)%nat).

Definition rcv_inv (st : bytes) (p0 p1 : nat) (B : list bytes) (k : nat) (p : recv_pc)
    (s : ring) : Prop :=
  r_code s = QEM_SMI_CONNECTED /\ (bs <= length (r_local s))%nat /\
  match p with
  | RRet _ out => rcv_at p1 B k s /\ 0 < r_index s /\
      (p0 + length out <= length (concat B))%nat /\ out = slice p0 (length out) st
  | RTest out read n _ => 0 <= read /\ read + n = Z.of_nat (length out) /\ 0 <= n /\
      block_size + Z.of_nat (length out) < 2 ^ 32 /\ p1 = (p0 + length out)%nat /\
      rcv_at (p0 + Z.to_nat read) B k s /\ (r_index s = 0 -> 0 < n) /\
      take (Z.to_nat read) out = slice p0 (Z.to_nat read) st
  | RBlock out read n _ pc => 0 <= read /\ read + n = Z.of_nat (length out) /\ 0 < n /\
      block_size + Z.of_nat (length out) < 2 ^ 32 /\ p1 = (p0 + length out)%nat /\
      r_index s = 0 /\
      take (Z.to_nat read) out = slice p0 (Z.to_nat read) st /\
      (p0 + Z.to_nat read = (if decide (pc = BUnlock2) then pred k else k) * bs)%nat /\
      (granted pc = true -> (k < length B)%nat) /\
      (copied pc = true -> exists b, B !! k = Some b /\ take bs (r_local s) = b) /\
      (pc = BUnlock2 -> exists b, B !! pred k = Some b /\ take bs (r_local s) = b /\ (0 < k)%nat)
  end.

(** Who holds the mutex, and who sleeps: a process sleeps only while there is
    nothing to do for it. *)
Definition snd_holds (p : send_pc) : bool :=
  match p with SBlock _ _ pc => holds pc | _ => false end.
Definition rcv_holds (p : recv_pc) : bool :=
  match p with RBlock _ _ _ _ pc => holds pc | _ => false end.

Definition snd_waits (p : send_pc) : Prop := exists q b, p = SBlock q b BWait.
Definition rcv_waits (p : recv_pc) : Prop := exists o r n b, p = RBlock o r n b BWait.

Record sync_inv (B : list bytes) (k : nat) (ps : send_pc) (pr : recv_pc) (s : ring) : Prop := {
  sy_snd : snd_holds ps = true <-> lock s = Some Snd;
  sy_rcv : rcv_holds pr = true <-> lock s = Some Rcv;
  sy_write : waits_write s = true -> snd_waits ps /\ length B = (k + bc)%nat;
  sy_read : waits_read s = true -> rcv_waits pr /\ length B = k
}.

Definition ring_inv (st : bytes) (p0 p1 : nat) (m : machine) : Prop :=
  exists B k,
    blocks_inv B k (mc_ring m) /\
    snd_inv st B k (mc_snd m) (mc_ring m) /\
    rcv_inv st p0 p1 B k (mc_rcv m) (mc_ring m) /\
    sync_inv B k (mc_snd m) (mc_rcv m) (mc_ring m).

Context (Hbc : (0 < bc <= 16)%nat) (Hbs : (0 < bs)%nat) (Hsize : Z.of_nat (8 + bc * bs) < 2 ^ 32).

(** ** Blocks *)

Lemma block_fits i : (i < bc)%nat -> (i * bs + bs <= bc * bs)%nat.
Proof. intros. nia. Qed.

(** The offset of a block does not overflow. *)
Lemma block_offset i : (i < bc)%nat -> Z.to_nat (u32 (Z.of_nat i * block_size)) = (i * bs)%nat.
Proof. intros Hi. pose proof (block_fits i Hi). rewrite wrap_small by nia. lia. Qed.

Lemma mod_lt n : (n mod bc < bc)%nat.
Proof. apply Nat.mod_upper_bound. lia. Qed.

(** Writing inside block [i] leaves the mask and the other blocks alone. *)
Lemma wp_shm_write i v (Q : () -> ring -> Prop) s :
  (i < bc)%nat -> length (shm s) = (8 + bc * bs)%nat -> (length v <= bs)%nat ->
  (forall m, let s' := set_shm s m in length m = length (shm s) -> mask s' = mask s ->
     block i s' = v ++ drop (length v) (block i s) ->
     (forall j, (j < bc)%nat -> j <> i -> block j s' = block j s) -> Q () s') ->
  wp False (shm_write (u32 (Z.of_nat i * block_size)) v) Q s.
Proof.
  intros Hi Hlen Hv HQ. unfold shm_write. smi_layout. wp_step. rewrite block_offset by done.
  pose proof (block_fits i Hi).
  eapply wp_access; [apply mem_write_Some; lia|]. wp_step. apply HQ.
  - apply length_splice. lia.
  - unfold mask. cbn [shm set_shm]. f_equal. apply slice_splice_below; lia.
  - unfold block. cbn [shm set_shm]. by apply slice_splice_inside; lia.
  - intros j Hj Hne. unfold block. cbn [shm set_shm].
    apply slice_splice_disjoint; [lia|].
    destruct (decide (j < i)%nat); [left; nia|right; nia].
Qed.

Lemma length_concat_blocks (B : list bytes) :
  Forall (fun b => length b = bs) B -> length (concat B) = (length B * bs)%nat.
Proof. induction 1 as [|b B Hb _ IH]; [done|]. cbn. rewrite length_app, Hb, IH. lia. Qed.

(** Block number [j] of the published stream. *)
Lemma slice_concat (B : list bytes) j b :
  Forall (fun b => length b = bs) B -> B !! j = Some b -> slice (j * bs) bs (concat B) = b.
Proof.
  intros HB. revert j. induction HB as [|b0 B Hb0 HB IH]; intros [|j] Hj; [done..| |].
  - injection Hj as ->. cbn. by apply slice_app_start.
  - cbn. unfold slice. rewrite drop_app_ge by lia.
    rewrite <- (IH _ Hj). unfold slice. do 2 f_equal. lia.
Qed.

(** ** Sender *)

(** What the sender leaves alone of the receiver. *)
Record rframe (s s' : ring) : Prop := {
  rf_code : r_code s' = r_code s;
  rf_local : r_local s' = r_local s;
  rf_index : r_index s' = r_index s
}.

(** The effect of a step of the sender on the mutex and the sleeping processes. *)
Record snd_sync (B B' : list bytes) (k : nat) (p : send_pc) (s s' : ring) : Prop := {
  ss_lock : snd_holds p = true <-> lock s' = Some Snd;
  ss_other : lock s' = Some Rcv <-> lock s = Some Rcv;
  ss_write : waits_write s' = true -> snd_waits p /\ length B' = (k + bc)%nat;
  ss_read : waits_read s' = true -> waits_read s = true /\ B' = B;
  ss_woken : waits_read s' = waits_read s \/ (k < length B')%nat
}.

Definition snd_post (st : bytes) (B : list bytes) (k : nat) (s : ring) (p' : send_pc)
    (s' : ring) : Prop :=
  exists B', B `prefix_of` B' /\ blocks_inv B' k s' /\ snd_inv st B' k p' s' /\
    rframe s s' /\ snd_sync B B' k p' s s'.

Lemma wp_fill_local b wrote n (Q : () -> ring -> Prop) s :
  length (s_local s) = bs -> 0 <= s_index s -> 0 <= wrote -> 0 <= n ->
  s_index s + n <= block_size -> wrote + n <= Z.of_nat (length b) ->
  Q () (set_s_local s (splice (Z.to_nat (s_index s))
                         (slice (Z.to_nat wrote) (Z.to_nat n) b) (s_local s))) ->
  wp False (fill_local b wrote n) Q s.
Proof.
  intros Hl Hi Hw Hn Hfit Hb HQ. unfold fill_local. do 2 wp_step.
  eapply wp_access; [apply mem_read_Some; lia|].
  eapply wp_access; [apply mem_write_Some; rewrite length_slice; lia|]. by wp_step.
Qed.

Lemma blocks_inv_same B k s s' :
  shm s' = shm s -> s_next s' = s_next s -> r_next s' = r_next s ->
  blocks_inv B k s -> blocks_inv B k s'.
Proof.
  intros Hm Hs Hr []. split; unfold block, mask in *; rewrite ?Hm, ?Hs, ?Hr; done.
Qed.

(** A step that publishes nothing. *)
Lemma snd_post_same st B k p s s' :
  blocks_inv B k s' -> snd_inv st B k p s' -> rframe s s' -> snd_sync B B k p s s' ->
  snd_post st B k s p s'.
Proof. intros. exists B. done. Qed.

Lemma send_test_step st B k b wrote n s :
  blocks_inv B k s -> snd_inv st B k (STest b wrote n) s ->
  lock s <> Some Snd -> waits_write s = false ->
  wp False (send_test block_size b wrote n) (snd_post st B k s) s.
Proof.
  intros Hbi (Hcode & Hl & Hi & Hw & Hwn & Hn & Hov & Hst) Hlock Hwait.
  unfold send_test. wp_step. rewrite wrap_small by lia.
  destruct (Z.ltb_spec block_size (s_index s + n)) as [Hlt|Hge].
  - rewrite (wrap_small _ (block_size - _)) by lia.
    apply wp_bind, wp_fill_local; [done|lia..|]. do 2 wp_step.
    rewrite !wrap_small by lia.
    set (tw := block_size - s_index s) in *.
    apply snd_post_same; [by apply (blocks_inv_same _ _ s)| |done|].
    + split; [done|]. cbn. split; [rewrite length_splice; rewrite ?length_slice; lia|].
      split; [repeat split; lia|]. split; [|done].
      rewrite Hst. f_equal.
      replace (splice _ _ _) with
        (take (Z.to_nat (s_index s)) (s_local s) ++ slice (Z.to_nat wrote) (Z.to_nat tw) b).
      2: { unfold splice. rewrite length_slice by lia. rewrite drop_ge by lia. by rewrite app_nil_r. }
      rewrite <- app_assoc. f_equal. unfold slice.
      replace (Z.to_nat (wrote + tw)) with (Z.to_nat wrote + Z.to_nat tw)%nat by lia.
      by rewrite <- drop_drop, take_drop.
    + split; cbn; try done; try (by left). by rewrite Hwait.
  - destruct (Z.eqb_spec n 0) as [->|Hne]; cbn [negb].
    + wp_step. apply snd_post_same; [done| |done|].
      * split; [done|]. split; [done|]. split; [done|].
        rewrite Hst. rewrite (drop_ge b) by lia. by rewrite app_nil_r.
      * split; try done; try (by left). by rewrite Hwait.
    + apply wp_bind, wp_fill_local; [done|lia..|]. do 2 wp_step.
      apply snd_post_same; [by apply (blocks_inv_same _ _ s)| |done|].
      * split; [done|]. cbn. split; [rewrite length_splice; rewrite ?length_slice; lia|].
        split; [lia|]. rewrite Hst. f_equal.
        replace (Z.to_nat (s_index s + n)) with
          (Z.to_nat (s_index s) + length (slice (Z.to_nat wrote) (Z.to_nat n) b))%nat
          by (rewrite length_slice; lia).
        rewrite take_splice_end by (rewrite length_slice; lia). f_equal.
        unfold slice. rewrite take_ge; [done|]. rewrite length_drop. lia.
      * split; cbn; try done; try (by left). by rewrite Hwait.
Qed.

(** The mask bit of the next block of each side. *)
Lemma tail_bit B k s b :
  blocks_inv B k s -> (forall i, 0 <= i < 16 -> Z.testbit b i = Z.testbit (mask s) i) ->
  bit_any b (Z.shiftl 1 (s_next s)) = true <-> length B = (k + bc)%nat.
Proof.
  intros Hbi Hb. pose proof (mod_lt (length B)). rewrite (bi_s_next _ _ _ Hbi).
  rewrite bit_any_pow2, Hb, (bi_mask _ _ _ Hbi) by lia.
  apply occupied_tail; [lia|]. apply (bi_count _ _ _ Hbi).
Qed.

Lemma head_bit B k s b :
  blocks_inv B k s -> (forall i, 0 <= i < 16 -> Z.testbit b i = Z.testbit (mask s) i) ->
  bit_any b (Z.shiftl 1 (r_next s)) = true <-> (k < length B)%nat.
Proof.
  intros Hbi Hb. pose proof (mod_lt k). rewrite (bi_r_next _ _ _ Hbi).
  rewrite bit_any_pow2, Hb, (bi_mask _ _ _ Hbi) by lia.
  apply occupied_head; [lia|]. apply (bi_count _ _ _ Hbi).
Qed.

Lemma wp_next_bit_s B k (Q : Z -> ring -> Prop) s :
  blocks_inv B k s -> Q (Z.shiftl 1 (s_next s)) s -> wp False (bit (s_next s)) Q s.
Proof.
  intros Hbi HQ. pose proof (mod_lt (length B)). apply wp_bit; [|done].
  rewrite (bi_s_next _ _ _ Hbi). lia.
Qed.

Lemma wp_next_bit_r B k (Q : Z -> ring -> Prop) s :
  blocks_inv B k s -> Q (Z.shiftl 1 (r_next s)) s -> wp False (bit (r_next s)) Q s.
Proof.
  intros Hbi HQ. pose proof (mod_lt k). apply wp_bit; [|done].
  rewrite (bi_r_next _ _ _ Hbi). lia.
Qed.

Lemma wp_succ_block n (Q : Z -> ring -> Prop) s :
  Q (Z.of_nat (S n mod bc)) s -> wp False (succ_block block_count (Z.of_nat (n mod bc))) Q s.
Proof.
  intros HQ. unfold succ_block. rewrite (proj2 (Z.eqb_neq _ _)) by lia.
  rewrite succ_mod by lia. done.
Qed.

(** The copy to the block at the tail. *)
Lemma copy_block_step B k q (Q : () -> ring -> Prop) s :
  blocks_inv B k s -> length (s_local s) = bs -> sending_ok q s -> (length B < k + bc)%nat ->
  (forall m, let s' := set_shm s m in blocks_inv B k s' ->
     block (length B mod bc) s' = pending q s' -> Q () s') ->
  wp False (copy_block block_size q) Q s.
Proof.
  intros Hbi Hl Hq Hroom HQ. unfold copy_block. do 2 wp_step. rewrite (bi_s_next _ _ _ Hbi).
  pose proof (mod_lt (length B)) as Hi. pose proof (bi_shm _ _ _ Hbi) as Hlen.
  assert (Hkeep : forall m m1, let s' := set_shm (set_shm s m1) m in
    length m = length (shm s) -> mask s' = mask s ->
    (forall j, (j < bc)%nat -> j <> (length B mod bc)%nat -> block j s' = block j s) ->
    blocks_inv B k s').
  { intros m m1 s' Hm Hmask Hblk. destruct Hbi. split; cbn in *; try done; [congruence| |].
    - intros i Hi16. by rewrite Hmask, bi_mask0.
    - intros j b Hj Hb. rewrite Hblk; [by apply bi_data0|apply mod_lt|].
      intros Heq. apply lookup_lt_Some in Hb. apply mod_small_diff in Heq; lia. }
  destruct q as [b wrote n|]; cbn [sending_ok pending] in *.
  - eapply wp_access; [apply mem_read_Some; lia|]. rewrite Nat2Z.id, slice_all by done.
    apply wp_shm_write; [done|done|lia|]. intros m s' Hm Hmask Hblk Hoth. apply HQ.
    + by apply (Hkeep m (shm s)).
    + etrans; [exact Hblk|]. rewrite drop_ge, app_nil_r; [done|].
      unfold block. rewrite length_slice; [lia|]. pose proof (block_fits _ Hi). lia.
  - wp_step. apply wp_bind. rewrite Nat2Z.id.
    apply wp_shm_write; [done|done|rewrite length_replicate; lia|].
    intros m1 s1 Hm1 Hmask1 Hblk1 Hoth1.
    eapply wp_access; [apply mem_read_Some; lia|].
    apply wp_shm_write; [done|cbn; lia|rewrite length_slice; lia|].
    intros m s' Hm Hmask Hblk Hoth. apply HQ.
    + apply (Hkeep m m1); [cbn in Hm; congruence|by etrans|].
      intros j Hj Hne. etrans; [by apply Hoth|by apply Hoth1].
    + etrans; [exact Hblk|]. rewrite Hblk1. unfold slice. rewrite drop_0.
      cbn [s_local s_index set_shm]. f_equal.
      rewrite length_take, drop_app_le by (rewrite length_replicate; lia).
      rewrite drop_replicate, (drop_ge (block _ _)), app_nil_r.
      * unfold zeros_to_block. f_equal. lia.
      * rewrite length_replicate. unfold block. rewrite length_slice; [done|].
        pose proof (block_fits _ Hi). lia.
Qed.

Lemma snd_inv_block st B k q b pc s :
  pc <> BUnlock2 ->
  snd_inv st B k (SBlock q b pc) s <->
  s_code s = QEM_SMI_CONNECTED /\ length (s_local s) = bs /\
  sending_ok q s /\ st = concat B ++ pending q s ++ unsent q /\
  (granted pc = true -> (length B < k + bc)%nat) /\
  (copied pc = true -> block (length B mod bc) s = pending q s).
Proof. by destruct pc. Qed.

(** Taking the mutex, to check the mask or to update it. *)
Lemma send_lock_step st B k q blocks pc pc' s :
  blocks_inv B k s -> snd_inv st B k (SBlock q blocks pc) s ->
  lock s = None -> waits_write s = false ->
  pc <> BUnlock2 -> pc' <> BUnlock2 -> holds pc' = true ->
  (granted pc' = true -> granted pc = true) -> (copied pc' = true -> copied pc = true) ->
  wp False (pthread_mutex_lock Snd ;; mret (SBlock q blocks pc')) (snd_post st B k s) s.
Proof.
  intros Hbi Hs Hlock Hwait Hpc Hpc' Hh Hg Hc. sync_unfold. do 2 wp_step.
  apply snd_post_same; [by apply (blocks_inv_same _ _ s)| |done|].
  - apply snd_inv_block in Hs as (? & ? & ? & ? & ? & ?); [|done].
    apply snd_inv_block; [done|]. do 4 (split; [by destruct q|]). split; auto.
  - split; cbn; try done; try (by left); [by rewrite Hlock|by rewrite Hwait].
Qed.

Lemma send_check_step st B k q blocks s :
  blocks_inv B k s -> snd_inv st B k (SBlock q blocks BCheck) s ->
  lock s = Some Snd -> waits_write s = false ->
  wp False (send_block block_count block_size q blocks BCheck) (snd_post st B k s) s.
Proof.
  intros Hbi (Hcode & Hl & Hq & Hst & _ & _) Hlock Hwait. cbn [send_block]. sync_unfold.
  apply wp_bind, wp_load_mask; [rewrite (bi_shm _ _ _ Hbi); lia|]. intros b Hb.
  wp_step. apply wp_bind. eapply wp_next_bit_s; [done|].
  pose proof (tail_bit _ _ _ _ Hbi Hb) as Hfull. pose proof (bi_count _ _ _ Hbi).
  destruct (bit_any b _).
  - do 2 wp_step. apply snd_post_same; [by apply (blocks_inv_same _ _ s)| |done|].
    + split; [done|]. split; [done|]. by split; [|split].
    + split; cbn; try done; try (by left); [by rewrite Hlock|]. intros _. split; [by eexists _, _|by apply Hfull].
  - wp_step. apply snd_post_same; [done| |done|].
    + split; [done|]. split; [done|]. split; [done|]. split; [done|]. split; [|done].
      intros _. destruct (decide (length B = k + bc)%nat) as [He|]; [|lia].
      by apply Hfull in He.
    + split; try done; try (by left). by rewrite Hwait.
Qed.

Lemma blocks_inv_publish B k b m nx s :
  blocks_inv B k s -> (length B < k + bc)%nat -> length b = bs ->
  block (length B mod bc) s = b ->
  let s' := set_s_next (set_shm s m) nx in
  length m = length (shm s) -> (forall i, block i s' = block i s) ->
  nx = Z.of_nat (S (length B) mod bc) ->
  (forall i, (i < 16)%nat -> Z.testbit (mask s') (Z.of_nat i) = true <->
     Z.testbit (mask s) (Z.of_nat i) = true \/ (length B mod bc = i)%nat) ->
  blocks_inv (B ++ [b]) k s'.
Proof.
  intros Hbi Hroom Hb Hblk s' Hm Hsame Hnx Hmask. destruct Hbi.
  split; try done; try (by left).
  - by etrans.
  - by rewrite Forall_app, Forall_singleton.
  - rewrite length_app. cbn. lia.
  - intros i Hi. rewrite Hmask, bi_mask0, length_app, Nat.add_1_r, occupied_grow by lia. done.
  - intros j b' Hj Hl. rewrite Hsame. apply lookup_app_Some in Hl as [Hl|[Hge Hl]].
    + by apply bi_data0.
    + apply list_lookup_singleton_Some in Hl as [Hl <-].
      by replace j with (length B) by lia.
  - rewrite length_app, Nat.add_1_r. exact Hnx.
Qed.

Lemma length_pending q s : length (s_local s) = bs -> sending_ok q s -> length (pending q s) = bs.
Proof.
  intros Hl Hq. destruct q as [b w n|]; cbn in *; [done|].
  rewrite length_app, length_take. unfold zeros_to_block. rewrite length_replicate. lia.
Qed.

Lemma send_update_step st B k q blocks s :
  blocks_inv B k s -> snd_inv st B k (SBlock q blocks BUpdate) s ->
  lock s = Some Snd -> waits_write s = false ->
  wp False (send_block block_count block_size q blocks BUpdate) (snd_post st B k s) s.
Proof.
  intros Hbi (Hcode & Hl & Hq & Hst & Hroom & Hcop) Hlock Hwait. cbn [send_block]. sync_unfold.
  specialize (Hroom eq_refl). specialize (Hcop eq_refl).
  apply wp_bind, wp_load_mask; [rewrite (bi_shm _ _ _ Hbi); lia|]. intros b Hb.
  wp_step. apply wp_bind. eapply wp_next_bit_s; [done|].
  apply wp_bind, wp_store_mask; [rewrite (bi_shm _ _ _ Hbi); lia|].
  intros m s1 Hm Hbits Hblk. rewrite (bi_s_next _ _ _ Hbi).
  apply wp_bind, wp_succ_block. do 3 wp_step.
  exists (B ++ [pending q s]). split; [by apply prefix_app_r|]. split; [|split; [|split]].
  - apply (blocks_inv_same _ _ (set_s_next s1 (Z.of_nat (S (length B) mod bc)))); [done..|].
    eapply (blocks_inv_publish _ _ _ m); [done|done|by apply length_pending|done|done|done|done|].
    intros i Hi. rewrite <- Hb by lia. pose proof (mod_lt (length B)).
    replace (Z.testbit (mask _) _) with (Z.testbit (mask s1) (Z.of_nat i)) by done.
    rewrite Hbits, Z.lor_spec, (bi_s_next _ _ _ Hbi), Z.shiftl_1_l, Z.pow2_bits_eqb by lia.
    rewrite orb_true_iff, Z.eqb_eq. by rewrite Nat2Z.inj_iff.
  - split; [done|]. split; [done|]. cbn. rewrite concat_app. cbn. rewrite app_nil_r.
    split; [by destruct q|]. by rewrite <- app_assoc.
  - done.
  - pose proof (bi_count _ _ _ Hbi). split; cbn; try done; [by rewrite Hwait|].
    right. rewrite length_app. cbn. lia.
Qed.

Lemma send_block_step st B k q blocks pc pr s :
  blocks_inv B k s -> snd_inv st B k (SBlock q blocks pc) s ->
  (holds pc = true <-> lock s = Some Snd) ->
  snd_ready (mk_machine (SBlock q blocks pc) pr s) = true -> waits_write s = false ->
  wp False (send_block block_count block_size q blocks pc) (snd_post st B k s) s.
Proof.
  intros Hbi Hs Hlock Hready Hwait. unfold snd_ready, lock_free in Hready. cbn in Hready.
  destruct pc; cbn [holds] in *.
  - by apply (send_lock_step _ _ _ _ _ BLock); [..|destruct (lock s)| | | | | |].
  - apply send_check_step; by try apply Hlock.
  - apply (send_lock_step _ _ _ _ _ BWait); try done. by destruct (waits_write s), (lock s).
  - cbn [send_block]. sync_unfold. do 2 wp_step.
    apply snd_post_same; [by apply (blocks_inv_same _ _ s)|by destruct q|done|].
    split; cbn; try done; try (by left); [by rewrite (proj1 Hlock)|by rewrite Hwait].
  - destruct Hs as (Hcode & Hl & Hq & Hst & Hroom & _). cbn [send_block].
    apply wp_bind. eapply copy_block_step; [done|done|done|by apply Hroom|].
    intros m s' Hbi' Hblk. wp_step. apply snd_post_same; [done| |done|].
    + split; [done|]. split; [done|]. split; [by destruct q|]. split; [by destruct q|]. by split.
    + split; cbn; try done; try (by left). by rewrite Hwait.
  - by apply (send_lock_step _ _ _ _ _ BLock2); [..|destruct (lock s)| | | | | |].
  - apply send_update_step; by try apply Hlock.
  - destruct Hs as (Hcode & Hl & Hq & Hst). cbn [send_block]. sync_unfold. wp_step.
    destruct q as [b wrote n|]; cbn [sending_ok unsent] in *.
    + wp_step. apply snd_post_same; [by apply (blocks_inv_same _ _ s)| |done|].
      * split; [done|]. split; [done|]. destruct Hq as (? & ? & ? & ? & Hi). cbn. rewrite Hi.
        do 5 (split; [lia|]). done.
      * split; cbn; try done; try (by left); [by rewrite (proj1 Hlock)|by rewrite Hwait].
    + do 2 wp_step. apply snd_post_same; [by apply (blocks_inv_same _ _ s)| |done|].
      * split; [done|]. split; [done|]. cbn. split; [lia|done].
      * split; cbn; try done; try (by left); [by rewrite (proj1 Hlock)|by rewrite Hwait].
Qed.

(** ** Receiver *)

Record sframe (s s' : ring) : Prop := {
  sf_code : s_code s' = s_code s;
  sf_local : s_local s' = s_local s;
  sf_index : s_index s' = s_index s;
  sf_block i : block i s' = block i s
}.

Record rcv_sync (B : list bytes) (k k' : nat) (p : recv_pc) (s s' : ring) : Prop := {
  rs_lock : rcv_holds p = true <-> lock s' = Some Rcv;
  rs_other : lock s' = Some Snd <-> lock s = Some Snd;
  rs_read : waits_read s' = true -> rcv_waits p /\ length B = k';
  rs_write : waits_write s' = true -> waits_write s = true /\ k' = k;
  rs_woken : waits_write s' = waits_write s \/ (length B < k' + bc)%nat
}.

Definition rcv_post (st : bytes) (p0 p1 : nat) (B : list bytes) (k : nat) (s : ring)
    (p' : recv_pc) (s' : ring) : Prop :=
  exists k', (k <= k')%nat /\ blocks_inv B k' s' /\ rcv_inv st p0 p1 B k' p' s' /\
    sframe s s' /\ rcv_sync B k k' p' s s'.

Lemma rcv_post_same st p0 p1 B k p s s' :
  blocks_inv B k s' -> rcv_inv st p0 p1 B k p s' -> sframe s s' -> rcv_sync B k k p s s' ->
  rcv_post st p0 p1 B k s p s'.
Proof. intros. exists k. done. Qed.

Lemma slice_prefix (l l' : bytes) o n :
  l `prefix_of` l' -> (o + n <= length l)%nat -> slice o n l' = slice o n l.
Proof.
  intros [x ->] Hlen. unfold slice. rewrite drop_app_le by lia. apply take_app_le.
  rewrite length_drop. lia.
Qed.

Lemma slice_plus (l : bytes) o n n' : slice o (n + n') l = slice o n l ++ slice (o + n) n' l.
Proof.
  unfold slice. rewrite <- (take_drop n (take (n + n') (drop o l))).
  rewrite take_take, Nat.min_l by lia. f_equal.
  rewrite skipn_firstn_comm, drop_drop. f_equal. lia.
Qed.

(** The rest of the local buffer is what follows the receiver's position. *)
Lemma local_slice st pos B k n s :
  Forall (fun b => length b = bs) B -> concat B `prefix_of` st -> rcv_at pos B k s ->
  (0 < n)%nat -> (Z.to_nat (r_index s) + n <= bs)%nat ->
  slice (Z.to_nat (r_index s)) n (r_local s) = slice pos n st.
Proof.
  intros HB Hpre (Hi & Hpos & Hloc) Hn Hfit.
  destruct Hloc as (b & Hb & Htake & Hk); [lia|].
  pose proof (lookup_lt_Some _ _ _ Hb) as Hlt.
  rewrite (slice_prefix _ _ _ _ Hpre) by (rewrite length_concat_blocks by done; nia).
  pose proof (slice_concat _ _ _ HB Hb) as Hsl. rewrite <- Htake in Hsl.
  set (i := Z.to_nat (r_index s)) in *.
  replace pos with (pred k * bs + i)%nat by nia.
  transitivity (slice i n (take bs (r_local s))).
  { unfold slice. rewrite skipn_firstn_comm, take_take. f_equal. lia. }
  rewrite <- Hsl. unfold slice. rewrite skipn_firstn_comm, take_take, drop_drop.
  f_equal; lia || (f_equal; lia).
Qed.

(** Copying from the local buffer continues the received bytes. *)
Lemma wp_take_local st p0 B k out read n (Q : bytes -> ring -> Prop) s :
  Forall (fun b => length b = bs) B -> concat B `prefix_of` st ->
  (bs <= length (r_local s))%nat -> rcv_at (p0 + Z.to_nat read) B k s ->
  take (Z.to_nat read) out = slice p0 (Z.to_nat read) st ->
  0 <= read -> 0 < n -> r_index s + n <= block_size -> read + n <= Z.of_nat (length out) ->
  (forall out', length out' = length out ->
     take (Z.to_nat (read + n)) out' = slice p0 (Z.to_nat (read + n)) st -> Q out' s) ->
  wp False (take_local out read n) Q s.
Proof.
  intros HB Hpre Hl Hat Hout Hr Hn Hfit Hlen HQ. unfold take_local. do 2 wp_step.
  pose proof Hat as (Hi & _).
  eapply wp_access; [apply mem_read_Some; lia|].
  rewrite mem_write_Some by (rewrite length_slice; lia). apply HQ.
  - apply length_splice. rewrite length_slice; lia.
  - replace (Z.to_nat (read + n)) with
      (Z.to_nat read + length (slice (Z.to_nat (r_index s)) (Z.to_nat n) (r_local s)))%nat at 1
      by (rewrite length_slice; lia).
    rewrite take_splice_end by (rewrite length_slice; lia).
    replace (Z.to_nat (read + n)) with (Z.to_nat read + Z.to_nat n)%nat by lia.
    rewrite slice_plus, Hout. f_equal. eapply local_slice; [done..|lia|lia].
Qed.

Lemma recv_test_step st p0 p1 B k out read n blocks s :
  blocks_inv B k s -> concat B `prefix_of` st ->
  rcv_inv st p0 p1 B k (RTest out read n blocks) s ->
  lock s <> Some Rcv -> waits_read s = false ->
  wp False (recv_test block_size out read n blocks) (rcv_post st p0 p1 B k s) s.
Proof.
  intros Hbi Hpre (Hcode & Hl & Hr & Hrn & Hn & Hov & Hp1 & Hat & Hi0 & Hout) Hlock Hwait.
  pose proof Hat as (Hi & Hpos & Hloc). pose proof (bi_blocks _ _ _ Hbi) as HB.
  unfold recv_test. wp_step. rewrite wrap_small by lia.
  destruct (Z.ltb_spec block_size (r_index s + n)) as [Hlt|Hge].
  - rewrite (wrap_small _ (block_size - _)) by lia.
    destruct (Z.ltb_spec 0 (block_size - r_index s)) as [Hpos'|Hzero].
    + apply wp_bind. eapply wp_take_local; [done..|lia|lia|lia|]. intros out' Hlen' Hout'.
      do 2 wp_step. rewrite !wrap_small by lia.
      apply rcv_post_same; [by apply (blocks_inv_same _ _ s)| |done|split; cbn; try done; try (by left); by rewrite Hwait].
      split; [done|]. split; [done|]. rewrite Hlen'. do 5 (split; [lia|]). split; [done|].
      split; [done|]. case_decide; [done|]. split; [lia|]. done.
    + do 2 wp_step.
      apply rcv_post_same; [by apply (blocks_inv_same _ _ s)| |done|split; cbn; try done; try (by left); by rewrite Hwait].
      split; [done|]. split; [done|]. do 5 (split; [lia|]). split; [done|].
      split; [done|]. case_decide; [done|]. split; [lia|]. done.
  - pose proof (length_concat_blocks _ HB) as HBl. pose proof (bi_count _ _ _ Hbi).
    destruct (Z.eqb_spec n 0) as [->|Hne]; cbn [negb].
    + wp_step. apply rcv_post_same; [done| |done|split; try done; try (by left); by rewrite Hwait].
      split; [done|]. split; [done|].
      replace (Z.to_nat read) with (length out) in * by lia.
      rewrite take_ge in Hout by lia. subst p1. split; [done|].
      split; [destruct (Z.eq_dec (r_index s) 0); [lia|lia]|]. split; [nia|done].
    + apply wp_bind. eapply wp_take_local; [done..|lia|lia|lia|]. intros out' Hlen' Hout'.
      do 2 wp_step.
      replace (Z.to_nat (read + n)) with (length out') in Hout' by lia.
      rewrite take_ge in Hout' by lia.
      apply rcv_post_same; [by apply (blocks_inv_same _ _ s)| |done|split; cbn; try done; try (by left); by rewrite Hwait].
      split; [done|]. split; [done|]. cbn. split; [|split; [lia|split; [nia|done]]].
      split; [cbn; lia|]. split; [cbn; lia|]. cbn. intros. apply Hloc. lia.
Qed.

Lemma recv_lock_step st p0 p1 B k out read n blocks pc pc' s :
  blocks_inv B k s -> rcv_inv st p0 p1 B k (RBlock out read n blocks pc) s ->
  lock s = None -> waits_read s = false ->
  pc <> BUnlock2 -> pc' <> BUnlock2 -> holds pc' = true ->
  (granted pc' = true -> granted pc = true) -> (copied pc' = true -> copied pc = true) ->
  wp False (pthread_mutex_lock Rcv ;; mret (RBlock out read n blocks pc'))
    (rcv_post st p0 p1 B k s) s.
Proof.
  intros Hbi (Hcode & Hl & Hr) Hlock Hwait Hpc Hpc' Hh Hg Hc. sync_unfold. do 2 wp_step.
  apply rcv_post_same; [by apply (blocks_inv_same _ _ s)| |done|].
  - split; [done|]. split; [done|].
    destruct Hr as (? & ? & ? & ? & ? & ? & ? & Hpos & ? & ? & ?).
    do 7 (split; [done|]). rewrite decide_False in Hpos by done.
    rewrite decide_False by done. split; [done|]. split; [auto|]. split; [auto|done].
  - split; cbn; try done; try (by left); [by rewrite Hlock|by rewrite Hwait].
Qed.

Lemma recv_check_step st p0 p1 B k out read n blocks s :
  blocks_inv B k s -> rcv_inv st p0 p1 B k (RBlock out read n blocks BCheck) s ->
  lock s = Some Rcv -> waits_read s = false ->
  wp False (recv_block block_count block_size out read n blocks BCheck)
    (rcv_post st p0 p1 B k s) s.
Proof.
  intros Hbi (Hcode & Hl & Hr) Hlock Hwait. cbn [recv_block]. sync_unfold.
  destruct Hr as (? & ? & ? & ? & ? & ? & ? & Hpos & _).
  apply wp_bind, wp_load_mask; [rewrite (bi_shm _ _ _ Hbi); lia|]. intros b Hb.
  wp_step. apply wp_bind. eapply wp_next_bit_r; [done|].
  pose proof (head_bit _ _ _ _ Hbi Hb) as Hhead. pose proof (bi_count _ _ _ Hbi).
  destruct (bit_any b _).
  - wp_step. apply rcv_post_same; [done| |done|split; try done; try (by left); by rewrite Hwait].
    split; [done|]. split; [done|]. do 8 (split; [done|]).
    split; [by intros _; apply Hhead|done].
  - do 2 wp_step. apply rcv_post_same; [by apply (blocks_inv_same _ _ s)| |done|].
    + split; [done|]. split; [done|]. by do 8 (split; [done|]).
    + split; cbn; try done; try (by left); [by rewrite Hlock|]. intros _. split; [by eexists _, _, _, _|].
      destruct (decide (k < length B)%nat) as [Hlt|]; [by apply Hhead in Hlt|lia].
Qed.

Lemma recv_copy_step st p0 p1 B k out read n blocks s :
  blocks_inv B k s -> rcv_inv st p0 p1 B k (RBlock out read n blocks BCopy) s ->
  lock s <> Some Rcv -> waits_read s = false ->
  wp False (recv_block block_count block_size out read n blocks BCopy)
    (rcv_post st p0 p1 B k s) s.
Proof.
  intros Hbi (Hcode & Hl & Hr) Hlock Hwait. cbn [recv_block].
  destruct Hr as (? & ? & ? & ? & ? & ? & ? & Hpos & Hg & _). specialize (Hg eq_refl).
  wp_step. rewrite (bi_r_next _ _ _ Hbi).
  pose proof (mod_lt k) as Hk. pose proof (block_fits _ Hk). pose proof (bi_shm _ _ _ Hbi).
  destruct (lookup_lt_is_Some_2 B k Hg) as [b Hb].
  unfold shm_read. smi_layout. apply wp_bind. wp_step. rewrite block_offset, Nat2Z.id by done.
  rewrite mem_read_Some by lia. fold (block (k mod bc) s).
  rewrite (bi_data _ _ _ Hbi k b) by done. apply wp_ret. wp_step.
  assert (Hbl : length b = bs) by (by eapply (Forall_lookup_1 _ _ _ _ (bi_blocks _ _ _ Hbi))).
  eapply wp_access; [apply mem_write_Some; lia|]. do 2 wp_step.
  apply rcv_post_same; [by apply (blocks_inv_same _ _ s)| |done|split; cbn; try done; try (by left); by rewrite Hwait].
  split; [done|]. cbn. split; [rewrite length_splice; lia|]. do 8 (split; [done|]).
  split; [done|]. split; [|done]. intros _. exists b. split; [done|].
  rewrite <- Hbl. rewrite <- (Nat.add_0_l (length b)). rewrite take_splice_end by lia. done.
Qed.

Lemma blocks_inv_consume B k m nx s :
  blocks_inv B k s -> (k < length B)%nat ->
  let s' := set_r_next (set_shm s m) nx in
  length m = length (shm s) -> (forall i, block i s' = block i s) ->
  nx = Z.of_nat (S k mod bc) ->
  (forall i, (i < 16)%nat -> Z.testbit (mask s') (Z.of_nat i) = true <->
     Z.testbit (mask s) (Z.of_nat i) = true /\ (k mod bc <> i)%nat) ->
  blocks_inv B (S k) s'.
Proof.
  intros Hbi Hlt s' Hm Hsame Hnx Hmask. destruct Hbi. split; try done; try (by left).
  - by etrans.
  - lia.
  - intros i Hi. rewrite Hmask, bi_mask0, occupied_shrink by lia. done.
  - intros j b Hj Hl. rewrite Hsame. apply bi_data0; [lia|done].
Qed.

Lemma recv_update_step st p0 p1 B k out read n blocks s :
  blocks_inv B k s -> rcv_inv st p0 p1 B k (RBlock out read n blocks BUpdate) s ->
  lock s = Some Rcv -> waits_read s = false ->
  wp False (recv_block block_count block_size out read n blocks BUpdate)
    (rcv_post st p0 p1 B k s) s.
Proof.
  intros Hbi (Hcode & Hl & Hr) Hlock Hwait. cbn [recv_block]. sync_unfold.
  destruct Hr as (? & ? & ? & ? & ? & ? & ? & Hpos & Hg & Hcop & _).
  specialize (Hg eq_refl). destruct (Hcop eq_refl) as (b & Hb & Htake).
  apply wp_bind, wp_load_mask; [rewrite (bi_shm _ _ _ Hbi); lia|]. intros bl Hbl.
  wp_step. apply wp_bind. eapply wp_next_bit_r; [done|].
  apply wp_bind, wp_store_mask; [rewrite (bi_shm _ _ _ Hbi); lia|].
  intros m s1 Hm Hbits Hblk. rewrite (bi_r_next _ _ _ Hbi).
  apply wp_bind, wp_succ_block. do 3 wp_step.
  exists (S k). split; [lia|]. split; [|split; [|split]].
  - apply (blocks_inv_same _ _ (set_r_next s1 (Z.of_nat (S k mod bc)))); [done..|].
    eapply (blocks_inv_consume _ _ m); [done..|].
    intros i Hi. rewrite <- Hbl by lia. pose proof (mod_lt k).
    replace (Z.testbit (mask _) _) with (Z.testbit (mask s1) (Z.of_nat i)) by done.
    rewrite Hbits, Z.land_spec, (bi_r_next _ _ _ Hbi), Z.lnot_spec by lia.
    rewrite Z.shiftl_1_l, Z.pow2_bits_eqb by lia.
    rewrite andb_true_iff, negb_true_iff, Z.eqb_neq. by rewrite Nat2Z.inj_iff.
  - split; [done|]. split; [done|]. do 7 (split; [done|]).
    split; [done|]. split; [done|]. split; [done|]. intros _. exists b. split; [done|].
    split; [done|lia].
  - split; [done..|]. exact Hblk.
  - pose proof (bi_count _ _ _ Hbi). split; cbn; try done; [by rewrite Hwait|].
    right. lia.
Qed.

Lemma recv_block_step st p0 p1 B k out read n blocks pc ps s :
  blocks_inv B k s -> rcv_inv st p0 p1 B k (RBlock out read n blocks pc) s ->
  (holds pc = true <-> lock s = Some Rcv) ->
  rcv_ready (mk_machine ps (RBlock out read n blocks pc) s) = true -> waits_read s = false ->
  wp False (recv_block block_count block_size out read n blocks pc) (rcv_post st p0 p1 B k s) s.
Proof.
  intros Hbi Hr Hlock Hready Hwait. unfold rcv_ready, lock_free in Hready. cbn in Hready.
  destruct pc; cbn [holds] in *.
  - by apply (recv_lock_step _ _ _ _ _ _ _ _ _ BLock); [..|destruct (lock s)| | | | | |].
  - apply recv_check_step; by try apply Hlock.
  - apply (recv_lock_step _ _ _ _ _ _ _ _ _ BWait); try done. by destruct (waits_read s), (lock s).
  - cbn [recv_block]. sync_unfold. do 2 wp_step.
    apply rcv_post_same; [by apply (blocks_inv_same _ _ s)| |done|].
    { destruct Hr as (? & ? & ? & ? & ? & ? & ? & ? & ? & ? & ? & ? & _).
      by do 12 (split; [done|]). }
    split; cbn; try done; try (by left); [by rewrite (proj1 Hlock)|by rewrite Hwait].
  - apply recv_copy_step; try done. by intros ?%Hlock.
  - by apply (recv_lock_step _ _ _ _ _ _ _ _ _ BLock2); [..|destruct (lock s)| | | | | |].
  - apply recv_update_step; by try apply Hlock.
  - destruct Hr as (Hcode & Hl & Hr). cbn [recv_block]. sync_unfold. do 2 wp_step.
    destruct Hr as (? & ? & ? & ? & ? & Hi & ? & Hpos & _ & _ & Hb).
    destruct (Hb eq_refl) as (b & Hb1 & Hb2 & Hk). rewrite decide_True in Hpos by done.
    apply rcv_post_same; [by apply (blocks_inv_same _ _ s)| |done|].
    + split; [done|]. split; [done|]. do 2 (split; [done|]). split; [lia|]. do 2 (split; [done|]).
      split; [|done]. split; [cbn; lia|]. split; [|by intros _; exists b].
      cbn. rewrite Hi. destruct k; [lia|]. cbn in Hpos |- *. lia.
    + split; cbn; try done; try (by left); [by rewrite (proj1 Hlock)|by rewrite Hwait].
Qed.

(** ** Interleaving *)

Lemma snd_prefix st B k p s : snd_inv st B k p s -> concat B `prefix_of` st.
Proof.
  intros (_ & _ & H). destruct p as [c|b w n|q bl pc].
  - destruct H as (_ & ->). by eexists.
  - destruct H as (_ & _ & _ & _ & _ & ->). by eexists.
  - destruct pc; destruct H as (_ & H); try destruct H as (-> & _); subst; by eexists.
Qed.

(** A step of the sender keeps the invariant of the receiver. *)
Lemma rcv_mono st st' p0 p1 B B' k p s s' :
  (k <= length B)%nat -> Forall (fun b => length b = bs) B ->
  concat B `prefix_of` st -> B `prefix_of` B' -> st `prefix_of` st' -> rframe s s' ->
  rcv_inv st p0 p1 B k p s -> rcv_inv st' p0 p1 B' k p s'.
Proof.
  intros Hk HB Hpre HB' Hst [Hc Hlo Hi] (Hcode & Hl & H).
  pose proof (length_concat_blocks _ HB) as HBl. pose proof (prefix_length _ _ Hpre).
  assert (Hlook : forall j b, B !! j = Some b -> B' !! j = Some b)
    by (intros; by eapply prefix_lookup_Some).
  assert (Hat : forall pos, rcv_at pos B k s -> rcv_at pos B' k s').
  { intros pos (? & ? & Hloc). unfold rcv_at. rewrite Hi, Hlo. split; [done|]. split; [done|].
    intros Hlt. destruct (Hloc Hlt) as (b & ? & ? & ?). eauto. }
  split; [congruence|]. split; [by rewrite Hlo|]. destruct p as [c out|out r n bl|out r n bl pc].
  - destruct H as (Ha & Hpos & Hlen & Hout). rewrite Hi. split; [auto|]. split; [done|].
    split; [|by rewrite (slice_prefix _ _ _ _ Hst) by lia].
    destruct HB' as [x ->]. rewrite concat_app, length_app. lia.
  - destruct H as (? & ? & ? & ? & ? & Ha & ? & Hout). rewrite Hi.
    do 5 (split; [done|]). split; [auto|]. split; [done|].
    destruct Ha as (? & Hpos & _). rewrite (slice_prefix _ _ _ _ Hst) by nia. done.
  - destruct H as (? & ? & ? & ? & ? & ? & Hout & Hpos & Hg & Hcp & Hu). rewrite Hi, Hlo.
    do 6 (split; [done|]).
    split; [rewrite (slice_prefix _ _ _ _ Hst) by (destruct (decide _); nia); done|].
    split; [done|]. pose proof (prefix_length _ _ HB'). split; [intros ?%Hg; lia|].
    split; [intros Ht; destruct (Hcp Ht) as (b & ? & ?); eauto|].
    intros Ht. destruct (Hu Ht) as (b & ? & ? & ?). eauto.
Qed.

Lemma snd_mono st B k k' p s s' :
  (k <= k')%nat -> sframe s s' -> snd_inv st B k p s -> snd_inv st B k' p s'.
Proof.
  intros Hk [Hc Hlo Hi Hbl] (Hcode & Hl & H).
  assert (Hpend : forall q, pending q s' = pending q s)
    by (intros []; cbn; by rewrite ?Hi, ?Hlo).
  assert (Hok : forall q, sending_ok q s -> sending_ok q s')
    by (intros []; cbn; by rewrite ?Hi).
  split; [congruence|]. split; [congruence|]. destruct p as [c|b w n|q bl pc].
  - by rewrite Hi, Hlo.
  - by rewrite Hi, Hlo.
  - destruct pc; try (destruct H as (? & ? & Hg & Hcp); rewrite Hpend, Hbl;
      split; [auto|]; split; [done|]; split; [intros ?%Hg; lia|done]).
    destruct H. auto.
Qed.

Lemma snd_step_post st B k m :
  blocks_inv B k (mc_ring m) -> snd_inv st B k (mc_snd m) (mc_ring m) ->
  sync_inv B k (mc_snd m) (mc_rcv m) (mc_ring m) -> snd_ready m = true ->
  wp False (send_code block_count block_size (mc_snd m)) (snd_post st B k (mc_ring m)) (mc_ring m).
Proof.
  destruct m as [ps pr s]. cbn [mc_snd mc_rcv mc_ring]. intros Hbi Hs [Hsl Hrl Hsw Hrw] Hready.
  assert (Hwait : waits_write s = false).
  { destruct (waits_write s) eqn:Hw; [|done]. destruct (Hsw eq_refl) as [(q & b & ->) _].
    unfold snd_ready in Hready. cbn in Hready. by rewrite Hw in Hready. }
  destruct ps as [c|b w n|q bl pc]; [done|..]; cbn [send_code].
  - apply send_test_step; try done. intros Hl. by apply Hsl in Hl.
  - by eapply send_block_step.
Qed.

Lemma snd_step_inv st p0 p1 m :
  ring_inv st p0 p1 m -> snd_ready m = true ->
  wp False (send_code block_count block_size (mc_snd m))
    (fun p s => ring_inv st p0 p1 (mk_machine p (mc_rcv m) s)) (mc_ring m).
Proof.
  intros (B & k & Hbi & Hs & Hr & Hsy) Hready.
  eapply wp_mono; [by eapply snd_step_post|].
  intros p s' (B' & HB' & Hbi' & Hs' & Hrf & [Hl Ho Hw Hrd _]). destruct Hsy as [Hsl Hrl Hsw Hrw].
  exists B', k. cbn. split; [done|]. split; [done|]. split.
  - eapply rcv_mono; [apply (bi_count _ _ _ Hbi)|apply (bi_blocks _ _ _ Hbi)
      |by eapply snd_prefix|done|done|done|done].
  - split; [done|by rewrite Ho|done|]. intros H. destruct (Hrd H) as [H1 ->]. auto.
Qed.

Lemma rcv_step_post st p0 p1 B k m :
  blocks_inv B k (mc_ring m) -> concat B `prefix_of` st ->
  rcv_inv st p0 p1 B k (mc_rcv m) (mc_ring m) ->
  sync_inv B k (mc_snd m) (mc_rcv m) (mc_ring m) -> rcv_ready m = true ->
  wp False (recv_code block_count block_size (mc_rcv m)) (rcv_post st p0 p1 B k (mc_ring m))
    (mc_ring m).
Proof.
  destruct m as [ps pr s]. cbn [mc_snd mc_rcv mc_ring].
  intros Hbi Hpre Hr [Hsl Hrl Hsw Hrw] Hready.
  assert (Hwait : waits_read s = false).
  { destruct (waits_read s) eqn:Hw; [|done]. destruct (Hrw eq_refl) as [(o & r & n & b & ->) _].
    unfold rcv_ready in Hready. cbn in Hready. by rewrite Hw in Hready. }
  destruct pr as [c out|out r n bl|out r n bl pc]; [done|..]; cbn [recv_code].
  - apply recv_test_step; try done. intros Hl. by apply Hrl in Hl.
  - by eapply recv_block_step.
Qed.

Lemma rcv_step_inv st p0 p1 m :
  ring_inv st p0 p1 m -> rcv_ready m = true ->
  wp False (recv_code block_count block_size (mc_rcv m))
    (fun p s => ring_inv st p0 p1 (mk_machine (mc_snd m) p s)) (mc_ring m).
Proof.
  intros (B & k & Hbi & Hs & Hr & Hsy) Hready.
  eapply wp_mono; [eapply rcv_step_post; [done|by eapply snd_prefix|done..]|].
  intros p s' (k' & Hk & Hbi' & Hr' & Hsf & [Hl Ho Hrd Hw _]). destruct Hsy as [Hsl Hrl Hsw Hrw].
  exists B, k'. cbn. split; [done|]. split; [by eapply snd_mono|]. split; [done|].
  split; [by rewrite Ho|done| |done]. intros H. destruct (Hw H) as [H1 ->]. auto.
Qed.

(** ** Calls, and the stream they describe *)

(** A flush completes the current block with zeros. *)
Definition gap (n : nat) : nat := ((bs - n mod bs) mod bs)%nat.

(** The byte stream sent, and the positions at which the last [qem_smi_receive]
    started and the next one starts. *)
Definition spec_action (a : action) (v : bytes * nat * nat) : bytes * nat * nat :=
  let '(st, p0, p1) := v in
  match a with
  | ASend (Some d) _ => (st ++ d, p0, p1)
  | AFlush => (st ++ replicate (gap (length st)) 0, p0, p1)
  | ARecv (Some out) _ => (st, p1, (p1 + length out)%nat)
  | APost => (st, p0, (p1 + gap p1)%nat)
  | _ => v
  end.

(** The buffers are as long as the sizes say, and small enough for the 32-bit
    sum of the loops. *)
Definition action_ok (a : action) : Prop :=
  match a with
  | ASend b n | ARecv b n => exists d, b = Some d /\ n = Z.of_nat (length d) /\
      block_size + Z.of_nat (length d) < 2 ^ 32
  | _ => True
  end.

Lemma gap_block n i : (0 < i <= bs)%nat -> gap (n * bs + i) = (bs - i)%nat.
Proof.
  intros Hi. unfold gap. rewrite Nat.add_comm, Nat.Div0.mod_add.
  destruct (decide (i = bs)) as [->|Hne].
  - rewrite Nat.Div0.mod_same, Nat.sub_0_r, Nat.Div0.mod_same. lia.
  - rewrite (Nat.mod_small i) by lia. apply Nat.mod_small. lia.
Qed.

Lemma gap_mult n : gap (n * bs) = 0%nat.
Proof.
  unfold gap. by rewrite Nat.Div0.mod_mul, Nat.sub_0_r, Nat.Div0.mod_same.
Qed.

Lemma snd_idle_wait ps B k pr s :
  sync_inv B k ps pr s -> snd_holds ps = false -> ~ snd_waits ps ->
  lock s <> Some Snd /\ waits_write s = false.
Proof.
  intros [Hsl _ Hsw _] Hh Hnw. split; [intros H; apply Hsl in H; congruence|].
  destruct (waits_write s); [|done]. by destruct (Hsw eq_refl).
Qed.

Lemma call_send_inv st p0 p1 c d pr s :
  ring_inv st p0 p1 (mk_machine (SRet c) pr s) ->
  block_size + Z.of_nat (length d) < 2 ^ 32 ->
  wp False (qem_smi_client_send (Some d) (Z.of_nat (length d)))
    (fun p s => ring_inv (st ++ d) p0 p1 (mk_machine p pr s)) s.
Proof.
  intros (B & k & Hbi & Hs & Hr & Hsy) Hov. cbn in *. unfold qem_smi_client_send. wp_step.
  pose proof (snd_prefix _ _ _ _ _ Hs) as Hpre. destruct Hs as (Hcode & Hl & Hi & Hst).
  rewrite decide_True by done. wp_step. exists B, k. cbn. split; [done|]. split; [|split].
  - split; [done|]. split; [done|]. split; [done|]. split; [lia|]. split; [lia|].
    split; [lia|]. split; [done|]. by rewrite Hst, drop_0, <- app_assoc.
  - eapply rcv_mono; [apply (bi_count _ _ _ Hbi)|apply (bi_blocks _ _ _ Hbi)|done|done| |done|done].
    by apply prefix_app_r.
  - destruct Hsy as [Hsl Hrl Hsw Hrw]. split; [done|done| |done].
    intros H. by destruct (Hsw H) as [(? & ? & ?) _].
Qed.

Lemma call_flush_inv st p0 p1 c pr s :
  ring_inv st p0 p1 (mk_machine (SRet c) pr s) ->
  wp False (qem_smi_client_flush junk)
    (fun p s => ring_inv (st ++ replicate (gap (length st)) 0) p0 p1 (mk_machine p pr s)) s.
Proof.
  intros (B & k & Hbi & Hs & Hr & Hsy). cbn in *. unfold qem_smi_client_flush. wp_step.
  pose proof (snd_prefix _ _ _ _ _ Hs) as Hpre. destruct Hs as (Hcode & Hl & Hi & Hst).
  pose proof (bi_blocks _ _ _ Hbi) as HB. rewrite decide_True by done. wp_step.
  assert (Hlen : length st = (length B * bs + Z.to_nat (s_index s))%nat).
  { rewrite Hst, length_app, length_take, length_concat_blocks by done. lia. }
  destruct Hsy as [Hsl Hrl Hsw Hrw].
  assert (Hw : waits_write s = true -> False).
  { intros H. by destruct (Hsw H) as [(? & ? & ?) _]. }
  rewrite Hlen. destruct (Z.eqb_spec (s_index s) 0) as [H0|Hne].
  - wp_step. rewrite H0, Nat.add_0_r, gap_mult, app_nil_r.
    exists B, k. cbn. split; [done|]. split; [done|]. split; [done|].
    split; [done|done| |done]. intros H. by destruct (Hw H).
  - wp_step. rewrite gap_block by lia. exists B, k. cbn. split; [done|]. split; [|split].
    + split; [done|]. split; [done|]. cbn. split; [lia|]. split; [|done].
      by rewrite Hst, app_nil_r, <- app_assoc.
    + eapply rcv_mono; [apply (bi_count _ _ _ Hbi)|done|done|done| |done|done].
      by apply prefix_app_r.
    + split; [done|done| |done]. intros H. by destruct (Hw H).
Qed.

Lemma call_recv_inv st p0 p1 ps c old out s :
  ring_inv st p0 p1 (mk_machine ps (RRet c old) s) ->
  block_size + Z.of_nat (length out) < 2 ^ 32 ->
  wp False (qem_smi_receive junk (Some out) (Z.of_nat (length out)))
    (fun p s => ring_inv st p1 (p1 + length out) (mk_machine ps p s)) s.
Proof.
  intros (B & k & Hbi & Hs & Hr & [Hsl Hrl Hsw Hrw]) Hov. cbn in *. unfold qem_smi_receive.
  wp_step. destruct Hr as (Hcode & Hl & Hat & Hi & _ & _).
  rewrite decide_True by done. wp_step. exists B, k. cbn. split; [done|]. split; [done|]. split.
  - split; [done|]. split; [done|]. split; [lia|]. split; [lia|]. split; [lia|].
    split; [done|]. split; [done|]. rewrite Nat.add_0_r. split; [done|]. split; [lia|].
    by rewrite take_0.
  - split; [done|done|done|]. intros H. by destruct (Hrw H) as [(? & ? & ? & ? & ?) _].
Qed.

Lemma call_post_inv st p0 p1 ps c out s :
  ring_inv st p0 p1 (mk_machine ps (RRet c out) s) ->
  ring_inv st p0 (p1 + gap p1) (mk_machine ps (RRet c out) (set_r_index s block_size)).
Proof.
  intros (B & k & Hbi & Hs & Hr & [Hsl Hrl Hsw Hrw]). cbn in *.
  destruct Hr as (Hcode & Hl & (Hix & Hpos & _) & Hi & Hlen & Hout).
  exists B, k. cbn. split; [by apply (blocks_inv_same _ _ s)|]. split; [done|]. split; [|done].
  split; [done|]. split; [done|]. cbn. split; [|split; [lia|done]].
  split; [cbn; lia|]. cbn. split; [|lia]. rewrite Nat2Z.id, Nat.sub_diag, Nat.add_0_r.
  destruct k as [|k].
  - assert (p1 = 0%nat) as -> by lia. apply (gap_mult 0).
  - assert (Hp : p1 = (k * bs + Z.to_nat (r_index s))%nat) by nia.
    rewrite Hp, gap_block by lia. nia.
Qed.

Definition inv_of (v : bytes * nat * nat) (m : machine) : Prop :=
  let '(st, p0, p1) := v in ring_inv st p0 p1 m.

(** Every possible action is defined and keeps the invariant. *)
Lemma ring_do_inv a v m r :
  inv_of v m -> action_ok a -> ring_do block_count block_size junk a m = Some r ->
  exists m', r = Done m' /\ inv_of (spec_action a v) m'.
Proof.
  destruct v as [[st p0] p1], m as [ps pr s]. cbn [inv_of]. intros H Ha Hdo.
  assert (Hsnd : forall st' c, wp False c (fun p s => ring_inv st' p0 p1 (mk_machine p pr s)) s ->
    exists m', run_snd c (mk_machine ps pr s) = Done m' /\ ring_inv st' p0 p1 m').
  { intros st' c (p & s' & Hc & Hi)%wp_total. unfold run_snd. cbn. rewrite Hc. eauto. }
  assert (Hrcv : forall q0 q1 c, wp False c (fun p s => ring_inv st q0 q1 (mk_machine ps p s)) s ->
    exists m', run_rcv c (mk_machine ps pr s) = Done m' /\ ring_inv st q0 q1 m').
  { intros q0 q1 c (p & s' & Hc & Hi)%wp_total. unfold run_rcv. cbn. rewrite Hc. eauto. }
  destruct a as [b n| | |b n| | |w]; cbn [ring_do] in Hdo; unfold snd_idle, rcv_idle in Hdo;
    cbn [mc_snd mc_rcv] in Hdo.
  - destruct ps as [c| |]; [|done..]. injection Hdo as <-. destruct Ha as (d & -> & -> & Hov).
    apply Hsnd. by eapply call_send_inv.
  - destruct ps as [c| |]; [|done..]. injection Hdo as <-. apply Hsnd. by eapply call_flush_inv.
  - destruct (snd_ready _) eqn:Hr; [|done]. injection Hdo as <-.
    apply Hsnd. by apply (snd_step_inv _ _ _ _ H).
  - destruct pr as [c old| |]; [|done..]. injection Hdo as <-. destruct Ha as (d & -> & -> & Hov).
    apply Hrcv. by eapply call_recv_inv.
  - destruct pr as [c old| |]; [|done..]. injection Hdo as <-. apply Hrcv. apply wp_bind, wp_modify.
    wp_step. by apply call_post_inv.
  - destruct (rcv_ready _) eqn:Hr; [|done]. injection Hdo as <-.
    apply Hrcv. by apply (rcv_step_inv _ _ _ _ H).
  - destruct H as (B & k & Hbi & Hs & Hr & [Hsl Hrl Hsw Hrw]). cbn in *.
    destruct w; [destruct (waits_write s) eqn:Hw|destruct (waits_read s) eqn:Hw]; try done;
      injection Hdo as <-; [apply Hsnd|apply Hrcv]; apply wp_bind, wp_modify; wp_step;
      exists B, k; cbn; (split; [by apply (blocks_inv_same _ _ s)|]);
      (split; [by eapply (snd_mono _ _ k)|]); (split; [|by split; cbn; auto]); done.
Qed.
End ring.

(** ** Runs *)

Section runs.
Context (bc bs : nat) (junk : Z).

Fixpoint ring_play (acts : list action) (m : machine) : option machine :=
  match acts with
  | [] => Some m
  | a :: acts =>
      match ring_do (Z.of_nat bc) (Z.of_nat bs) junk a m with
      | Some (Done m') => ring_play acts m'
      | _ => None
      end
  end.

(** The stream sent and the positions of the receiver after some actions. *)
Definition spec_actions (acts : list action) : bytes * nat * nat :=
  foldl (fun v a => spec_action bs a v) ([], 0%nat, 0%nat) acts.

Definition start (data sl rl : bytes) : machine :=
  ring_init (Z.of_nat bc) (Z.of_nat bs) data sl rl.

(** The sizes a connection establishes. *)
Definition sizes_ok (data sl rl : bytes) : Prop :=
  (0 < bc <= 16)%nat /\ (0 < bs)%nat /\ Z.of_nat (8 + bc * bs) < 2 ^ 32 /\
  length data = (bc * bs)%nat /\ length sl = bs /\ (bs <= length rl)%nat.

Context (data sl rl : bytes) (Hok : sizes_ok data sl rl).

Lemma start_inv : inv_of bc bs ([], 0%nat, 0%nat) (start data sl rl).
Proof.
  destruct Hok as (Hbc & Hbs & Hsz & Hd & Hsl & Hrl).
  exists [], 0%nat. cbn [mc_snd mc_rcv mc_ring start ring_init]. split; [|split; [|split]].
  - split; cbn [shm s_next r_next].
    + rewrite !length_app, !length_le, Hd. smi_layout. lia.
    + done.
    + cbn. lia.
    + intros i Hi. split; [|intros (j & Hj & _); cbn in Hj; lia].
      unfold mask. cbn [shm]. smi_layout. rewrite slice_app_mid by (by rewrite length_le).
      rewrite le_val_le_small by lia. by rewrite Z.bits_0.
    + intros j b _ Hj. by rewrite lookup_nil in Hj.
    + rewrite Nat.Div0.mod_0_l. done.
    + rewrite Nat.Div0.mod_0_l. done.
  - split; [done|]. split; [done|]. split; [cbn; lia|done].
  - split; [done|]. split; [done|]. split; [|split; [cbn; lia|split; [cbn; lia|done]]].
    split; [cbn; lia|]. cbn. split; [lia|lia].
  - by split.
Qed.

Lemma play_inv acts : forall v m m',
  inv_of bc bs v m -> Forall (action_ok bs) acts -> ring_play acts m = Some m' ->
  inv_of bc bs (foldl (fun v a => spec_action bs a v) v acts) m'.
Proof.
  destruct Hok as (Hbc & Hbs & Hsz & _).
  induction acts as [|a acts IH]; intros v m m' H Hacts Hp; cbn in Hp; [by injection Hp as <-|].
  apply Forall_cons in Hacts as [Ha Hacts].
  destruct (ring_do _ _ junk a m) as [r|] eqn:Hdo; [|done].
  destruct (ring_do_inv _ _ _ Hbc Hbs Hsz _ _ _ _ H Ha Hdo) as (m1 & -> & H1).
  by eapply IH.
Qed.

Lemma play_start_inv acts m :
  Forall (action_ok bs) acts -> ring_play acts (start data sl rl) = Some m ->
  inv_of bc bs (spec_actions acts) m.
Proof. apply play_inv, start_inv. Qed.
End runs.

(** ** Consequences of the invariant *)

Section consequences.
Context (bc bs : nat) (junk : Z) (Hbc : (0 < bc <= 16)%nat) (Hbs : (0 < bs)%nat)
  (Hsize : Z.of_nat (8 + bc * bs) < 2 ^ 32).

Definition snd_copies (p : send_pc) : Prop := exists q b, p = SBlock q b BCopy.
Definition rcv_copies (p : recv_pc) : Prop := exists o r n b, p = RBlock o r n b BCopy.

Lemma inv_exclusion v m :
  inv_of bc bs v m ->
  snd_holds (mc_snd m) && rcv_holds (mc_rcv m) = false /\
  (snd_copies (mc_snd m) -> rcv_copies (mc_rcv m) ->
     s_next (mc_ring m) <> r_next (mc_ring m)).
Proof.
  destruct v as [[st p0] p1]. intros (B & k & Hbi & Hs & Hr & [Hsl Hrl _ _]). split.
  - destruct (snd_holds (mc_snd m)) eqn:H1, (rcv_holds (mc_rcv m)) eqn:H2; try done.
    pose proof (proj1 Hsl eq_refl). pose proof (proj1 Hrl eq_refl). congruence.
  - intros (q & b & Hp) (o & r & n & bl & Hq). rewrite Hp in Hs. rewrite Hq in Hr.
    destruct Hs as (_ & _ & _ & _ & Hg & _). specialize (Hg eq_refl).
    destruct Hr as (_ & _ & _ & _ & _ & _ & _ & _ & _ & _ & Hg' & _). specialize (Hg' eq_refl).
    rewrite (bi_s_next _ _ _ _ _ Hbi), (bi_r_next _ _ _ _ _ Hbi). intros Heq.
    apply Nat2Z.inj, eq_sym, mod_small_diff in Heq; lia.
Qed.

Lemma occupied_all k i : (i < bc)%nat -> occupied bc k (k + bc) i.
Proof.
  intros Hi. pose proof (Nat.mod_upper_bound k bc ltac:(lia)).
  exists (k + (i + bc - k mod bc) mod bc)%nat.
  pose proof (Nat.mod_upper_bound (i + bc - k mod bc) bc ltac:(lia)). split; [lia|].
  rewrite Nat.Div0.add_mod_idemp_r, <- Nat.Div0.add_mod_idemp_l.
  replace (k mod bc + (i + bc - k mod bc))%nat with (i + 1 * bc)%nat by lia.
  rewrite Nat.Div0.mod_add. by apply Nat.mod_small.
Qed.

(** A side that is in a call and cannot run sleeps or waits for the mutex. *)
Lemma snd_not_ready m :
  snd_ready m = false -> snd_idle m = false ->
  lock_free (mc_ring m) = false \/ waits_write (mc_ring m) = true.
Proof.
  unfold snd_ready, snd_idle. destruct (mc_snd m) as [c|b w n|q b pc]; try done.
  destruct pc; try done; auto. destruct (waits_write _); auto.
Qed.

Lemma rcv_not_ready m :
  rcv_ready m = false -> rcv_idle m = false ->
  lock_free (mc_ring m) = false \/ waits_read (mc_ring m) = true.
Proof.
  unfold rcv_ready, rcv_idle. destruct (mc_rcv m) as [c o|o r n b|o r n b pc]; try done.
  destruct pc; try done; auto. destruct (waits_read _); auto.
Qed.

(** The holder of the mutex can run. *)
Lemma holder_ready v m :
  inv_of bc bs v m -> lock_free (mc_ring m) = false ->
  (snd_ready m = true /\ snd_idle m = false) \/ (rcv_ready m = true /\ rcv_idle m = false).
Proof.
  destruct v as [[st p0] p1]. intros (B & k & _ & _ & _ & [Hsl Hrl _ _]) Hl.
  unfold lock_free in Hl. unfold snd_ready, snd_idle, rcv_ready, rcv_idle.
  destruct (lock (mc_ring m)) as [[|]|] eqn:Hlock; try done.
  - left. pose proof (proj2 Hsl eq_refl) as H.
    destruct (mc_snd m) as [|?|? ? pc]; try done. by destruct pc.
  - right. pose proof (proj2 Hrl eq_refl) as H.
    destruct (mc_rcv m) as [|?|? ? ? ? pc]; try done. by destruct pc.
Qed.

Lemma inv_progress v m :
  inv_of bc bs v m ->
  (snd_idle m = false -> rcv_idle m = false -> snd_ready m = true \/ rcv_ready m = true) /\
  (snd_idle m = false -> rcv_idle m = true -> snd_ready m = false ->
     forall i, (i < bc)%nat -> Z.testbit (mask (mc_ring m)) (Z.of_nat i) = true) /\
  (rcv_idle m = false -> snd_idle m = true -> rcv_ready m = false ->
     forall i, (i < bc)%nat -> Z.testbit (mask (mc_ring m)) (Z.of_nat i) = false).
Proof.
  intros Hv. pose proof (holder_ready _ _ Hv) as Hh. destruct v as [[st p0] p1].
  destruct Hv as (B & k & Hbi & _ & _ & [_ _ Hsw Hrw]). split; [|split].
  - intros Hs Hr. destruct (snd_ready m) eqn:Hs1; [auto|]. destruct (rcv_ready m) eqn:Hr1; [auto|].
    exfalso. destruct (lock_free (mc_ring m)) eqn:Hl.
    2: { by destruct (Hh eq_refl) as [[? ?]|[? ?]]. }
    destruct (snd_not_ready _ Hs1 Hs) as [?|Hw]; [congruence|].
    destruct (rcv_not_ready _ Hr1 Hr) as [?|Hw']; [congruence|].
    destruct (Hsw Hw), (Hrw Hw'). lia.
  - intros Hs Hr Hs1 i Hi. destruct (snd_not_ready _ Hs1 Hs) as [Hl|Hw].
    { by destruct (Hh Hl) as [[? ?]|[? ?]]; congruence. }
    destruct (Hsw Hw) as [_ HB]. apply (bi_mask _ _ _ _ _ Hbi); [lia|]. rewrite HB.
    by apply occupied_all.
  - intros Hr Hs Hr1 i Hi. destruct (rcv_not_ready _ Hr1 Hr) as [Hl|Hw].
    { by destruct (Hh Hl) as [[? ?]|[? ?]]; congruence. }
    destruct (Hrw Hw) as [_ HB]. apply not_true_is_false.
    intros (j & Hj & _)%(bi_mask _ _ _ _ _ Hbi); lia.
Qed.

Lemma inv_ready_runs v m :
  inv_of bc bs v m ->
  (snd_ready m = true -> exists m', ring_do (Z.of_nat bc) (Z.of_nat bs) junk ASnd m = Some (Done m')) /\
  (rcv_ready m = true -> exists m', ring_do (Z.of_nat bc) (Z.of_nat bs) junk ARcv m = Some (Done m')).
Proof.
  intros Hv. split; intros Hr.
  - destruct (ring_do (Z.of_nat bc) (Z.of_nat bs) junk ASnd m) as [r|] eqn:Hd.
    + by destruct (ring_do_inv _ _ _ Hbc Hbs Hsize ASnd _ _ _ Hv I Hd) as (m' & -> & _); eauto.
    + cbn in Hd. by rewrite Hr in Hd.
  - destruct (ring_do (Z.of_nat bc) (Z.of_nat bs) junk ARcv m) as [r|] eqn:Hd.
    + by destruct (ring_do_inv _ _ _ Hbc Hbs Hsize ARcv _ _ _ Hv I Hd) as (m' & -> & _); eauto.
    + cbn in Hd. by rewrite Hr in Hd.
Qed.
End consequences.

(** ** Every call returns

    Without spurious wake-ups every step of either process decreases [ring_rank]:
    the loops move at least one block per turn, and a process that finds its block
    unavailable sleeps until the other one made it available. *)

(** The mask bit of the next block of each process. *)
Definition snd_full (s : ring) : bool := Z.testbit (mask s) (s_next s).
Definition rcv_some (s : ring) : bool := Z.testbit (mask s) (r_next s).

Definition pc_rank (blocked sleeps : bool) (p : block_pc) : nat :=
  match p with
  | BLock => if blocked then 12 else 9
  | BWait => if sleeps then 10 else if blocked then 12 else 9
  | BCheck => if blocked then 11 else 8
  | BUnlock => 7 | BCopy => 6 | BLock2 => 5 | BUpdate => 4 | BUnlock2 => 3
  end.

Definition snd_rank (p : send_pc) (s : ring) : nat :=
  match p with
  | SRet _ => 0
  | STest _ _ n => 20 * Z.to_nat (s_index s + n) + 1
  | SBlock q _ pc =>
      20 * (match q with Sending _ _ n => Z.to_nat n | Flushing => 0 end)
      + pc_rank (snd_full s) (waits_write s) pc
  end.

Definition rcv_rank (p : recv_pc) (s : ring) : nat :=
  match p with
  | RRet _ _ => 0
  | RTest _ _ n _ => 20 * Z.to_nat (r_index s + n) + 1
  | RBlock _ _ n _ pc => 20 * Z.to_nat n + pc_rank (negb (rcv_some s)) (waits_read s) pc
  end.

Definition ring_rank (m : machine) : nat :=
  snd_rank (mc_snd m) (mc_ring m) + rcv_rank (mc_rcv m) (mc_ring m).

Section rank.
Context (bc bs : nat) (Hbc : (0 < bc <= 16)%nat) (Hbs : (0 < bs)%nat)
  (Hsize : Z.of_nat (8 + bc * bs) < 2 ^ 32).

Lemma snd_full_iff B k s :
  blocks_inv bc bs B k s -> snd_full s = true <-> length B = (k + bc)%nat.
Proof.
  intros Hbi. pose proof (Nat.mod_upper_bound (length B) bc ltac:(lia)). unfold snd_full.
  rewrite (bi_s_next _ _ _ _ _ Hbi), (bi_mask _ _ _ _ _ Hbi) by lia.
  apply occupied_tail; [lia|]. apply (bi_count _ _ _ _ _ Hbi).
Qed.

Lemma rcv_some_iff B k s : blocks_inv bc bs B k s -> rcv_some s = true <-> (k < length B)%nat.
Proof.
  intros Hbi. pose proof (Nat.mod_upper_bound k bc ltac:(lia)). unfold rcv_some.
  rewrite (bi_r_next _ _ _ _ _ Hbi), (bi_mask _ _ _ _ _ Hbi) by lia.
  apply occupied_head; [lia|]. apply (bi_count _ _ _ _ _ Hbi).
Qed.

(** The rank of a process does not grow when its block becomes available and it is
    woken. *)
Lemma pc_rank_mono bl bl' sl sl' p :
  (bl' = true -> bl = true) -> (sl' = true -> sl = true) -> (sl' = sl \/ bl' = false) ->
  (pc_rank bl' sl' p <= pc_rank bl sl p)%nat.
Proof.
  intros Hb Hs Hw. destruct p; cbn; try lia;
    destruct bl, bl', sl, sl'; try lia; try (by specialize (Hb eq_refl));
    try (by specialize (Hs eq_refl)); by destruct Hw.
Qed.

Lemma rcv_rank_mono st B k p s p' s' :
  blocks_inv bc bs B k s -> snd_post bc bs st B k s p' s' ->
  (rcv_rank p s' <= rcv_rank p s)%nat.
Proof.
  intros Hbi (B' & HB' & Hbi' & _ & [_ _ Hi] & [_ _ _ Hr Hw]).
  pose proof (rcv_some_iff _ _ _ Hbi) as H1. pose proof (rcv_some_iff _ _ _ Hbi') as H2.
  destruct p as [c o|o r n b|o r n b pc]; cbn; [done|by rewrite Hi|].
  apply Nat.add_le_mono_l, pc_rank_mono.
  - rewrite !negb_true_iff, <- !not_true_iff_false, H1, H2.
    pose proof (prefix_length _ _ HB'). lia.
  - intros H. by apply Hr.
  - destruct Hw as [Hw|Hw]; [auto|]. right. by apply negb_false_iff, H2.
Qed.

Lemma snd_rank_mono st p0 p1 B k p s p' s' :
  blocks_inv bc bs B k s -> rcv_post bc bs st p0 p1 B k s p' s' ->
  (snd_rank p s' <= snd_rank p s)%nat.
Proof.
  intros Hbi (k' & Hk & Hbi' & _ & [_ _ Hi _] & [_ _ _ Hr Hw]).
  pose proof (snd_full_iff _ _ _ Hbi) as H1. pose proof (snd_full_iff _ _ _ Hbi') as H2.
  pose proof (bi_count _ _ _ _ _ Hbi).
  destruct p as [c|b w n|q b pc]; cbn; [done|by rewrite Hi|].
  apply Nat.add_le_mono_l, pc_rank_mono.
  - rewrite H1, H2. lia.
  - intros H3. by apply Hr.
  - destruct Hw as [Hw|Hw]; [auto|]. right. apply not_true_is_false. rewrite H2. lia.
Qed.

Lemma pc_rank_le bl sl p : (3 <= pc_rank bl sl p <= 12)%nat.
Proof. destruct p, bl, sl; cbn; lia. Qed.

(** Inversion of the parts of a step that can only return in one way. *)
Lemma load_mask_inv blocks s b s' :
  load_mask blocks s = Done (b, s') ->
  s' = s /\ forall i, 0 <= i < 16 -> Z.testbit b i = Z.testbit (mask s) i.
Proof.
  unfold load_mask. intros H. c_inv H. injection H0 as <- <-.
  unfold access_ in H1. smi_layout. destruct (mem_read 2 2 (shm s)) as [v|] eqn:Hm; [|done].
  injection H1 as <- <-. injection H as <- <-. apply mem_read_inv in Hm as [_ ->].
  split; [done|]. intros i Hi. by apply load_bit.
Qed.

Lemma bit_inv n s b s' : bit n s = Done (b, s') -> s' = s /\ b = Z.shiftl 1 n.
Proof.
  unfold bit, access_. destruct ((0 <=? n) && (n <? 31)); [|done]. by intros [= <- <-].
Qed.

Lemma send_test_decr st B k b w n s p s' :
  snd_inv bc bs st B k (STest b w n) s -> send_test (Z.of_nat bs) b w n s = Done (p, s') ->
  (snd_rank p s' < snd_rank (STest b w n) s)%nat.
Proof.
  intros (_ & _ & Hi & Hw & Hwn & Hn & Hov & _) H. unfold send_test in H. c_inv H.
  injection H0 as <- <-. rewrite wrap_small in H by lia.
  destruct (Z.ltb_spec (Z.of_nat bs) (s_index s + n)) as [Hlt|Hge].
  - c_inv H. injection H as <- <-. cbn [snd_rank].
    pose proof (pc_rank_le (snd_full s1) (waits_write s1) BLock).
    rewrite !wrap_small by (rewrite ?wrap_small by lia; lia). lia.
  - destruct (Z.eqb_spec n 0); cbn [negb] in H; [|c_inv H]; injection H as <- <-; cbn; lia.
Qed.

Lemma send_block_decr st B k q bl pc s p s' :
  blocks_inv bc bs B k s -> snd_inv bc bs st B k (SBlock q bl pc) s -> waits_write s = false ->
  send_block (Z.of_nat bc) (Z.of_nat bs) q bl pc s = Done (p, s') ->
  (snd_rank p s' < snd_rank (SBlock q bl pc) s)%nat.
Proof.
  intros Hbi Hs Hw H. destruct pc; cbn [send_block] in H; c_inv H.
  - injection H as <- <-. injection H0 as _ <-. cbn [snd_rank pc_rank].
    change (snd_full (set_lock s (Some Snd))) with (snd_full s). destruct (snd_full s); lia.
  - apply load_mask_inv in H0 as [-> Hb]. injection H1 as <- <-. apply bit_inv in H2 as [-> ->].
    assert (Hf : bit_any a (Z.shiftl 1 (s_next s)) = true <-> length B = (k + bc)%nat)
      by (by eapply tail_bit). pose proof (snd_full_iff _ _ _ Hbi) as Hf'.
    destruct (bit_any a _).
    + c_inv H. injection H as <- <-. injection H0 as _ <-. cbn [snd_rank pc_rank waits_write set_lock set_waits_write].
      rewrite (proj2 Hf') by (by apply Hf). lia.
    + injection H as <- <-. cbn [snd_rank pc_rank]. destruct (snd_full s); lia.
  - injection H as <- <-. injection H0 as _ <-. cbn [snd_rank pc_rank]. rewrite Hw.
    change (snd_full (set_lock s (Some Snd))) with (snd_full s). destruct (snd_full s); lia.
  - injection H as <- <-. cbn [snd_rank pc_rank]. lia.
  - injection H as <- <-. cbn [snd_rank pc_rank]. lia.
  - injection H as <- <-. cbn [snd_rank pc_rank]. lia.
  - injection H as <- <-. cbn [snd_rank pc_rank]. lia.
  - destruct q as [b w n|].
    + injection H as <- <-. injection H0 as _ <-. destruct Hs as (_ & _ & (_ & _ & _ & _ & Hi) & _).
      cbn. rewrite Hi. lia.
    + c_inv H. injection H as <- <-. cbn. lia.
Qed.

Lemma recv_test_decr st p0 p1 B k o r n bl s p s' :
  rcv_inv bs st p0 p1 B k (RTest o r n bl) s ->
  recv_test (Z.of_nat bs) o r n bl s = Done (p, s') ->
  (rcv_rank p s' < rcv_rank (RTest o r n bl) s)%nat.
Proof.
  intros (_ & _ & Hr & Hrn & Hn & Hov & _ & (Hi & _) & _) H. unfold recv_test in H. c_inv H.
  injection H0 as <- <-. rewrite wrap_small in H by lia.
  destruct (Z.ltb_spec (Z.of_nat bs) (r_index s + n)) as [Hlt|Hge].
  - rewrite (wrap_small _ (Z.of_nat bs - _)) in H by lia.
    destruct (Z.ltb_spec 0 (Z.of_nat bs - r_index s)); c_inv H; injection H as <- <-;
      cbn [rcv_rank]; match goal with |- context [pc_rank ?a ?b ?c] => pose proof (pc_rank_le a b c) end;
      rewrite ?wrap_small by lia; lia.
  - destruct (Z.eqb_spec n 0); cbn [negb] in H; [|c_inv H]; injection H as <- <-; cbn; lia.
Qed.

Lemma recv_block_decr st p0 p1 B k o r n bl pc s p s' :
  blocks_inv bc bs B k s -> rcv_inv bs st p0 p1 B k (RBlock o r n bl pc) s ->
  waits_read s = false ->
  recv_block (Z.of_nat bc) (Z.of_nat bs) o r n bl pc s = Done (p, s') ->
  (rcv_rank p s' < rcv_rank (RBlock o r n bl pc) s)%nat.
Proof.
  intros Hbi Hr Hw H. destruct pc; cbn [recv_block] in H; c_inv H.
  - injection H as <- <-. injection H0 as _ <-. cbn [rcv_rank pc_rank].
    change (rcv_some (set_lock s (Some Rcv))) with (rcv_some s). destruct (rcv_some s); cbn [negb]; lia.
  - apply load_mask_inv in H0 as [-> Hb]. injection H1 as <- <-. apply bit_inv in H2 as [-> ->].
    assert (Hf : bit_any a (Z.shiftl 1 (r_next s)) = true <-> (k < length B)%nat)
      by (by eapply head_bit).
    pose proof (rcv_some_iff _ _ _ Hbi) as Hf'. destruct (bit_any a _).
    + injection H as <- <-. cbn [rcv_rank pc_rank]. destruct (rcv_some s); cbn [negb]; lia.
    + c_inv H. injection H as <- <-. injection H0 as _ <-.
      cbn [rcv_rank pc_rank waits_read set_lock set_waits_read].
      replace (rcv_some s) with false; [cbn [negb]; lia|]. symmetry. apply not_true_is_false.
      rewrite Hf'. by intros ?%Hf.
  - injection H as <- <-. injection H0 as _ <-. cbn [rcv_rank pc_rank]. rewrite Hw.
    change (rcv_some (set_lock s (Some Rcv))) with (rcv_some s). destruct (rcv_some s); cbn [negb]; lia.
  - injection H as <- <-. cbn [rcv_rank pc_rank]. lia.
  - injection H as <- <-. cbn [rcv_rank pc_rank]. lia.
  - injection H as <- <-. cbn [rcv_rank pc_rank]. lia.
  - injection H as <- <-. cbn [rcv_rank pc_rank]. lia.
  - injection H as <- <-. injection H0 as _ <-.
    destruct Hr as (_ & _ & _ & _ & _ & _ & _ & Hi & _). cbn [rcv_rank pc_rank r_index set_lock].
    rewrite Hi. lia.
Qed.

Lemma snd_waits_ready B k m :
  sync_inv bc B k (mc_snd m) (mc_rcv m) (mc_ring m) -> snd_ready m = true ->
  waits_write (mc_ring m) = false.
Proof.
  intros [_ _ Hsw _] Hr. destruct (waits_write (mc_ring m)) eqn:Hw; [|done].
  destruct (Hsw eq_refl) as [(q & b & Hp) _]. unfold snd_ready in Hr.
  by rewrite Hp, Hw in Hr.
Qed.

Lemma rcv_waits_ready B k m :
  sync_inv bc B k (mc_snd m) (mc_rcv m) (mc_ring m) -> rcv_ready m = true ->
  waits_read (mc_ring m) = false.
Proof.
  intros [_ _ _ Hrw] Hr. destruct (waits_read (mc_ring m)) eqn:Hw; [|done].
  destruct (Hrw eq_refl) as [(o & r & n & b & Hp) _]. unfold rcv_ready in Hr.
  by rewrite Hp, Hw in Hr.
Qed.

(** Every step of a process decreases the rank. *)
Lemma ring_decr v junk a m m' :
  inv_of bc bs v m -> a = ASnd \/ a = ARcv ->
  ring_do (Z.of_nat bc) (Z.of_nat bs) junk a m = Some (Done m') ->
  (ring_rank m' < ring_rank m)%nat.
Proof.
  destruct v as [[st p0] p1]. intros (B & k & Hbi & Hs & Hr & Hsy) Ha Hd.
  unfold ring_rank. destruct Ha as [-> | ->]; cbn [ring_do] in Hd.
  - destruct (snd_ready m) eqn:Hready; [|done]. injection Hd as Hd. unfold run_snd in Hd.
    destruct (send_code _ _ _ _) as [[p s']| |] eqn:Hc; try done. injection Hd as <-. cbn.
    pose proof (wp_Done _ _ _ _ _ _ (snd_step_post _ _ Hbc Hbs Hsize _ _ _ _ Hbi Hs Hsy Hready) Hc) as Hp.
    pose proof (rcv_rank_mono _ _ _ (mc_rcv m) _ _ _ Hbi Hp).
    pose proof (snd_waits_ready _ _ _ Hsy Hready) as Hw.
    enough (snd_rank p s' < snd_rank (mc_snd m) (mc_ring m))%nat by lia.
    destruct (mc_snd m) as [c|b w n|q bl pc] eqn:Hm; cbn [send_code] in Hc.
    + unfold snd_ready in Hready. by rewrite Hm in Hready.
    + by eapply send_test_decr.
    + by eapply send_block_decr.
  - destruct (rcv_ready m) eqn:Hready; [|done]. injection Hd as Hd. unfold run_rcv in Hd.
    destruct (recv_code _ _ _ _) as [[p s']| |] eqn:Hc; try done. injection Hd as <-. cbn.
    pose proof (wp_Done _ _ _ _ _ _ (rcv_step_post _ _ Hbc Hbs Hsize _ _ _ _ _ _ Hbi
      (snd_prefix _ _ _ _ _ _ _ Hs) Hr Hsy Hready) Hc) as Hp.
    pose proof (snd_rank_mono _ _ _ _ _ (mc_snd m) _ _ _ Hbi Hp).
    pose proof (rcv_waits_ready _ _ _ Hsy Hready) as Hw.
    enough (rcv_rank p s' < rcv_rank (mc_rcv m) (mc_ring m))%nat by lia.
    destruct (mc_rcv m) as [c o|o r n bl|o r n bl pc] eqn:Hm; cbn [recv_code] in Hc.
    + unfold rcv_ready in Hready. by rewrite Hm in Hready.
    + by eapply recv_test_decr.
    + by eapply recv_block_decr.
Qed.
End rank.

(** ** Properties *)

(** C6: in every reachable state of the two processes, whatever the interleaving
    and the spurious wake-ups, no action is undefined (every copy stays inside the
    local buffers, the shared memory and the caller's buffer); the two processes
    are never both in their critical section; and they never copy the same block
    at the same time, although the copies are done without the mutex. *)
Theorem ring_safe bc bs junk data sl rl acts m :
  sizes_ok bc bs data sl rl -> Forall (action_ok bs) acts ->
  ring_play bc bs junk acts (start bc bs data sl rl) = Some m ->
  (forall a, action_ok bs a ->
     match ring_do (Z.of_nat bc) (Z.of_nat bs) junk a m with
     | Some Undefined | Some (Exit _) => False
     | _ => True
     end) /\
  snd_holds (mc_snd m) && rcv_holds (mc_rcv m) = false /\
  (snd_copies (mc_snd m) -> rcv_copies (mc_rcv m) -> s_next (mc_ring m) <> r_next (mc_ring m)).
Proof.
  intros Hok Hacts Hp. pose proof Hok as (Hbc & Hbs & Hsz & _).
  pose proof (play_start_inv _ _ _ _ _ _ Hok _ _ Hacts Hp) as Hv.
  split; [|by eapply inv_exclusion]. intros a Ha.
  destruct (ring_do _ _ junk a m) as [r|] eqn:Hd; [|done].
  by destruct (ring_do_inv _ _ _ Hbc Hbs Hsz _ _ _ _ Hv Ha Hd) as (m' & -> & _).
Qed.

Lemma stream_received bc bs junk data sl rl acts m c out st p0 p1 :
  sizes_ok bc bs data sl rl -> Forall (action_ok bs) acts ->
  ring_play bc bs junk acts (start bc bs data sl rl) = Some m ->
  mc_rcv m = RRet c out -> spec_actions bs acts = (st, p0, p1) ->
  (p0 + length out <= length st)%nat /\ out = slice p0 (length out) st.
Proof.
  intros Hok Hacts Hp Hm Hspec. pose proof (play_start_inv _ _ _ _ _ _ Hok _ _ Hacts Hp) as Hv.
  rewrite Hspec in Hv. destruct Hv as (B & k & _ & Hs & Hr & _). rewrite Hm in Hr.
  destruct Hr as (_ & _ & _ & _ & Hlen & Hout). split; [|done].
  pose proof (prefix_length _ _ (snd_prefix _ _ _ _ _ _ _ Hs)). lia.
Qed.

(** C1: the bytes a completed [qem_smi_receive] returns are the bytes of the
    sender's stream at the receiver's position, in order and without loss or
    duplication: the stream is the concatenation of the data of the sends, a flush
    completing the current block with zeros; each receive moves the position by
    its size, and [qem_smi_post_server_flush] moves it to the next block. *)
Theorem ring_fifo bc bs junk data sl rl acts m c out st p0 p1 :
  sizes_ok bc bs data sl rl -> Forall (action_ok bs) acts ->
  ring_play bc bs junk acts (start bc bs data sl rl) = Some m ->
  mc_rcv m = RRet c out -> spec_actions bs acts = (st, p0, p1) ->
  (p0 + length out <= length st)%nat /\ out = slice p0 (length out) st.
Proof. apply stream_received. Qed.

(** C5: no wake-up is lost and no call runs for ever: when both processes are in a
    call, one of them can take a step; a sender that cannot while the receiver is
    idle has found every block in use, and a receiver that cannot while the sender
    is idle has found no block in use; and every step of a process decreases
    [ring_rank]. *)
Theorem ring_no_deadlock bc bs junk data sl rl acts m :
  sizes_ok bc bs data sl rl -> Forall (action_ok bs) acts ->
  ring_play bc bs junk acts (start bc bs data sl rl) = Some m ->
  (snd_idle m = false -> rcv_idle m = false ->
     exists a m', (a = ASnd \/ a = ARcv) /\
       ring_do (Z.of_nat bc) (Z.of_nat bs) junk a m = Some (Done m')) /\
  (snd_idle m = false -> rcv_idle m = true -> snd_ready m = false ->
     forall i, (i < bc)%nat -> Z.testbit (mask (mc_ring m)) (Z.of_nat i) = true) /\
  (rcv_idle m = false -> snd_idle m = true -> rcv_ready m = false ->
     forall i, (i < bc)%nat -> Z.testbit (mask (mc_ring m)) (Z.of_nat i) = false) /\
  (forall a m', a = ASnd \/ a = ARcv ->
     ring_do (Z.of_nat bc) (Z.of_nat bs) junk a m = Some (Done m') ->
     (ring_rank m' < ring_rank m)%nat).
Proof.
  intros Hok Hacts Hp. pose proof Hok as (Hbc & Hbs & Hsz & _).
  pose proof (play_start_inv _ _ _ _ _ _ Hok _ _ Hacts Hp) as Hv.
  destruct (inv_progress _ _ Hbc Hbs Hsz _ _ Hv) as (Hboth & Hfull & Hempty).
  destruct (inv_ready_runs _ _ junk Hbc Hbs Hsz _ _ Hv) as [Hsr Hrr].
  split; [|split; [done|split; [done|]]].
  - intros Hs Hr. destruct (Hboth Hs Hr) as [H|H]; [destruct (Hsr H)|destruct (Hrr H)]; eauto.
  - intros a m' Ha Hd. by eapply ring_decr.
Qed.

(** Two blocks of four bytes; the sender sends six bytes and flushes, the receiver
    reads five bytes, starting before the first block is published. *)
Definition small_acts : list action :=
  [ARecv (Some [9; 9; 9; 9; 9]) 5; ASend (Some [1; 2; 3; 4; 5; 6]) 6]
  ++ replicate 3 ARcv ++ replicate 9 ASnd ++ [AFlush] ++ replicate 4 ASnd
  ++ replicate 10 ARcv ++ replicate 3 ASnd ++ replicate 8 ARcv.

Abbreviation small_run :=
  (ring_play 2 4 0xABCD0000 small_acts (start 2 4 (replicate 8 7) (replicate 4 7) (replicate 16 7))).

Lemma small_ok : Forall (action_ok 4) small_acts.
Proof.
  unfold small_acts. cbn [app replicate].
  repeat (apply Forall_cons; split; [first [exact I|by eexists]|]). apply Forall_nil_2.
Qed.

Lemma small_sizes : sizes_ok 2 4 (replicate 8 7) (replicate 4 7) (replicate 16 7).
Proof. unfold sizes_ok. repeat split; cbn; lia. Qed.

Lemma ring_safe_witness :
  exists m, small_run = Some m /\
    snd_holds (mc_snd m) && rcv_holds (mc_rcv m) = false.
Proof.
  assert (Hs : match small_run with Some _ => True | None => False end) by (vm_compute; exact I).
  destruct small_run as [m|] eqn:Hm; [|contradiction]. exists m. split; [reflexivity|].
  exact (proj1 (proj2 (ring_safe _ _ _ _ _ _ _ m small_sizes small_ok Hm))).
Defined.

Lemma ring_fifo_witness :
  exists m, small_run = Some m /\ mc_rcv m = RRet 0 [1; 2; 3; 4; 5] /\
    [1; 2; 3; 4; 5] = slice 0 5 [1; 2; 3; 4; 5; 6; 0; 0].
Proof.
  assert (Hs : match small_run with
    | Some m => mc_rcv m = RRet 0 [1; 2; 3; 4; 5] | None => False end) by (vm_compute; reflexivity).
  destruct small_run as [m|] eqn:Hm; [|contradiction]. exists m. split; [reflexivity|].
  split; [exact Hs|].
  apply (ring_fifo _ _ _ _ _ _ _ m 0 [1; 2; 3; 4; 5] _ _ 5 small_sizes small_ok Hm Hs).
  vm_compute. reflexivity.
Defined.

(** The state in which the receiver sleeps on the second block and the sender is
    about to publish it. *)
Definition sleepy_acts : list action := take 29 small_acts.

Abbreviation sleepy_run :=
  (ring_play 2 4 0xABCD0000 sleepy_acts (start 2 4 (replicate 8 7) (replicate 4 7) (replicate 16 7))).

Lemma ring_no_deadlock_witness :
  exists m, sleepy_run = Some m /\ rcv_ready m = false /\
    exists a m', (a = ASnd \/ a = ARcv) /\ ring_do 2 4 0xABCD0000 a m = Some (Done m').
Proof.
  assert (Hs : match sleepy_run with
    | Some m => snd_idle m = false /\ rcv_idle m = false /\ rcv_ready m = false
    | None => False end) by (vm_compute; auto).
  destruct sleepy_run as [m|] eqn:Hm; [|contradiction]. destruct Hs as (Hs & Hr & Hn).
  exists m. split; [reflexivity|]. split; [exact Hn|].
  exact (proj1 (ring_no_deadlock _ _ _ _ _ _ _ m small_sizes (Forall_take _ _ _ small_ok) Hm) Hs Hr).
Defined.
