(* ===== verification/SmiPosix.v ===== *)
(** * Shared memory interface: the POSIX objects

    The globals of the two ends of the shared memory interface
    ([qem_trace_smi_engine.c] in QEMU, [qem_posix_smi.c] in the trace consumer,
    which declare the same ones), and the system calls they make: shared memory
    objects and semaphores found by name, descriptors, mappings, heap blocks.

    A call that can fail takes the next answer of a list, zero or a nonzero
    [errno]; a call beyond the list succeeds when its arguments allow it.  The
    calls that release something do it; the code never looks at their result. *)

From S2P Require Import Prelude SmiDef SmiRing.

(** ** State *)

(** The pointers and descriptors among the globals. *)
Inductive slot :=
  | Shm_fd | Shared_buffer | Local_buffer | Server_sem | Client_sem
  | Mon_lock | Mon_lock_fd | Cond_read | Cond_read_fd | Cond_write | Cond_write_fd.

#[export] Instance slot_eq_dec : EqDecision slot.
Proof. solve_decision. Defined.

(** Their values: the constants that mean "none", or something the process
    holds. *)
Inductive cval := NULL | MAP_FAILED | SEM_FAILED | NOFD | Ref (h : nat).

#[export] Instance cval_eq_dec : EqDecision cval.
Proof. solve_decision. Defined.

(** The initialisers of the globals. *)
Definition unset (sl : slot) : cval :=
  match sl with
  | Shared_buffer | Local_buffer => NULL
  | Server_sem | Client_sem => SEM_FAILED
  | Mon_lock | Cond_read | Cond_write => MAP_FAILED
  | Shm_fd | Mon_lock_fd | Cond_read_fd | Cond_write_fd => NOFD
  end.

(** What a process holds: a descriptor or a mapping of a shared memory object, a
    named semaphore, a heap block. *)
Inductive resource := RFd (obj : nat) | RMap (obj : nat) (len : Z) | RSem (sem : nat) | RHeap.

(** The synchronisation objects and their attributes. *)
Inductive sync := Lock_attr | Read_attr | Write_attr | Lock_obj | Read_obj | Write_obj.

#[export] Instance sync_eq_dec : EqDecision sync.
Proof. solve_decision. Defined.

(** The system: answers of the calls to come, names and contents of the shared
    memory objects, names and values of the semaphores, state of the process-
    shared mutex and conditions. *)
Record os := mk_os {
  os_faults : list Z;
  os_shm : gmap string nat;
  os_objs : gmap nat bytes;
  os_sem : gmap string nat;
  os_sems : gmap nat Z;
  os_lock : option side;
  os_waits_write : bool;
  os_waits_read : bool
}.

Section os_setters.
Context (w : os).
Definition set_faults (v : list Z) : os :=
  mk_os v (os_shm w) (os_objs w) (os_sem w) (os_sems w) (os_lock w) (os_waits_write w)
    (os_waits_read w).
Definition set_os_shm (v : gmap string nat) : os :=
  mk_os (os_faults w) v (os_objs w) (os_sem w) (os_sems w) (os_lock w) (os_waits_write w)
    (os_waits_read w).
Definition set_objs (v : gmap nat bytes) : os :=
  mk_os (os_faults w) (os_shm w) v (os_sem w) (os_sems w) (os_lock w) (os_waits_write w)
    (os_waits_read w).
Definition set_os_sem (v : gmap string nat) : os :=
  mk_os (os_faults w) (os_shm w) (os_objs w) v (os_sems w) (os_lock w) (os_waits_write w)
    (os_waits_read w).
Definition set_sems (v : gmap nat Z) : os :=
  mk_os (os_faults w) (os_shm w) (os_objs w) (os_sem w) v (os_lock w) (os_waits_write w)
    (os_waits_read w).
Definition set_os_lock (v : option side) : os :=
  mk_os (os_faults w) (os_shm w) (os_objs w) (os_sem w) (os_sems w) v (os_waits_write w)
    (os_waits_read w).
Definition set_os_waits_write (v : bool) : os :=
  mk_os (os_faults w) (os_shm w) (os_objs w) (os_sem w) (os_sems w) (os_lock w) v
    (os_waits_read w).
Definition set_os_waits_read (v : bool) : os :=
  mk_os (os_faults w) (os_shm w) (os_objs w) (os_sem w) (os_sems w) (os_lock w)
    (os_waits_write w) v.
End os_setters.

(** A process: its globals, what it holds, and the synchronisation objects it
    destroyed without having initialised them (undefined by POSIX, harmless with
    the usual implementations); and the system. *)
Record env := mk_env {
  error_code : QEM_SMI_STATUS_CODE_E;
  slots : slot -> cval;
  shared_buffer_data : cval * nat;
  shared_buffer_size : Z;
  local_bytes : bytes;
  local_buffer_index : Z;
  next_block : Z;
  block_count : Z;
  block_size : Z;
  sync_ready : sync -> bool;
  held : gmap nat resource;
  misuse : list sync;
  e_os : os
}.

Section env_setters.
Context (s : env).
Definition set_error_code (v : QEM_SMI_STATUS_CODE_E) : env :=
  mk_env v (slots s) (shared_buffer_data s) (shared_buffer_size s) (local_bytes s)
    (local_buffer_index s) (next_block s) (block_count s) (block_size s) (sync_ready s)
    (held s) (misuse s) (e_os s).
Definition set_slots (v : slot -> cval) : env :=
  mk_env (error_code s) v (shared_buffer_data s) (shared_buffer_size s) (local_bytes s)
    (local_buffer_index s) (next_block s) (block_count s) (block_size s) (sync_ready s)
    (held s) (misuse s) (e_os s).
Definition set_data (v : cval * nat) : env :=
  mk_env (error_code s) (slots s) v (shared_buffer_size s) (local_bytes s)
    (local_buffer_index s) (next_block s) (block_count s) (block_size s) (sync_ready s)
    (held s) (misuse s) (e_os s).
Definition set_size (v : Z) : env :=
  mk_env (error_code s) (slots s) (shared_buffer_data s) v (local_bytes s)
    (local_buffer_index s) (next_block s) (block_count s) (block_size s) (sync_ready s)
    (held s) (misuse s) (e_os s).
Definition set_local (v : bytes) : env :=
  mk_env (error_code s) (slots s) (shared_buffer_data s) (shared_buffer_size s) v
    (local_buffer_index s) (next_block s) (block_count s) (block_size s) (sync_ready s)
    (held s) (misuse s) (e_os s).
Definition set_index (v : Z) : env :=
  mk_env (error_code s) (slots s) (shared_buffer_data s) (shared_buffer_size s)
    (local_bytes s) v (next_block s) (block_count s) (block_size s) (sync_ready s)
    (held s) (misuse s) (e_os s).
Definition set_next (v : Z) : env :=
  mk_env (error_code s) (slots s) (shared_buffer_data s) (shared_buffer_size s)
    (local_bytes s) (local_buffer_index s) v (block_count s) (block_size s) (sync_ready s)
    (held s) (misuse s) (e_os s).
Definition set_block_count (v : Z) : env :=
  mk_env (error_code s) (slots s) (shared_buffer_data s) (shared_buffer_size s)
    (local_bytes s) (local_buffer_index s) (next_block s) v (block_size s) (sync_ready s)
    (held s) (misuse s) (e_os s).
Definition set_block_size (v : Z) : env :=
  mk_env (error_code s) (slots s) (shared_buffer_data s) (shared_buffer_size s)
    (local_bytes s) (local_buffer_index s) (next_block s) (block_count s) v (sync_ready s)
    (held s) (misuse s) (e_os s).
Definition set_sync_ready (v : sync -> bool) : env :=
  mk_env (error_code s) (slots s) (shared_buffer_data s) (shared_buffer_size s)
    (local_bytes s) (local_buffer_index s) (next_block s) (block_count s) (block_size s) v
    (held s) (misuse s) (e_os s).
Definition set_held (v : gmap nat resource) : env :=
  mk_env (error_code s) (slots s) (shared_buffer_data s) (shared_buffer_size s)
    (local_bytes s) (local_buffer_index s) (next_block s) (block_count s) (block_size s)
    (sync_ready s) v (misuse s) (e_os s).
Definition set_misuse (v : list sync) : env :=
  mk_env (error_code s) (slots s) (shared_buffer_data s) (shared_buffer_size s)
    (local_bytes s) (local_buffer_index s) (next_block s) (block_count s) (block_size s)
    (sync_ready s) (held s) v (e_os s).
Definition set_os (v : os) : env :=
  mk_env (error_code s) (slots s) (shared_buffer_data s) (shared_buffer_size s)
    (local_bytes s) (local_buffer_index s) (next_block s) (block_count s) (block_size s)
    (sync_ready s) (held s) (misuse s) v.
End env_setters.

Definition set_slot (s : env) (sl : slot) (v : cval) : env :=
  set_slots s (fun x => if decide (x = sl) then v else slots s x).

(** [*p = v] for one of the pointers and descriptors. *)
Definition assign (sl : slot) (v : cval) : C env () := modify (fun s => set_slot s sl v).

Definition on_os (f : os -> os) : C env () := modify (fun s => set_os s (f (e_os s))).

(** ** System calls *)

Definition next_fault : C env Z :=
  l ← gets (fun s => os_faults (e_os s));
  match l with
  | [] => mret 0
  | a :: l => on_os (fun w => set_faults w l) ;; mret a
  end.

(** A new handle on a resource. *)
Definition hold (r : resource) : C env cval :=
  h ← gets (fun s => fresh (dom (held s)));
  modify (fun s => set_held s (<[h := r]> (held s))) ;;
  mret (Ref h).

Definition let_go (h : nat) : C env () := modify (fun s => set_held s (delete h (held s))).

Definition find (v : cval) : C env (option (nat * resource)) :=
  hs ← gets held;
  mret (match v with Ref h => r ← hs !! h; Some (h, r) | _ => None end).

(** [shm_open(name, O_RDWR | O_CREAT | O_TRUNC, 0666)]. *)
Definition shm_open_create (name : string) : C env cval :=
  a ← next_fault;
  if negb (a =? 0) then mret NOFD
  else
    o ← gets (fun s => default (fresh (dom (os_objs (e_os s)))) (os_shm (e_os s) !! name));
    on_os (fun w => set_os_shm w (<[name := o]> (os_shm w))) ;;
    on_os (fun w => set_objs w (<[o := []]> (os_objs w))) ;;
    hold (RFd o).

(** [shm_open(name, O_RDWR, 0666)]. *)
Definition shm_open (name : string) : C env cval :=
  a ← next_fault;
  o ← gets (fun s => os_shm (e_os s) !! name);
  match o with
  | Some o => if negb (a =? 0) then mret NOFD else hold (RFd o)
  | None => mret NOFD
  end.

(** [ftruncate]: the object is cut, or extended with zeros. *)
Definition ftruncate (fd : cval) (size : Z) : C env Z :=
  a ← next_fault;
  r ← find fd;
  match r with
  | Some (_, RFd o) =>
      if negb (a =? 0) then mret (-1)
      else
        on_os (fun w => set_objs w (alter (fun bs => resize (Z.to_nat size) 0 bs) o (os_objs w))) ;;
        mret 0
  | _ => mret (-1)
  end.

(** [mmap(NULL, len, PROT_READ | PROT_WRITE, MAP_SHARED, fd, 0)]. *)
Definition mmap (len : Z) (fd : cval) : C env cval :=
  a ← next_fault;
  r ← find fd;
  match r with
  | Some (_, RFd o) =>
      if negb (a =? 0) || (len =? 0) then mret MAP_FAILED else hold (RMap o len)
  | _ => mret MAP_FAILED
  end.

(** [munmap] of a whole mapping; anything that is not a mapping is refused by the
    system. *)
Definition munmap (p : cval) (len : Z) : C env () :=
  r ← find p;
  match r with
  | Some (h, RMap _ l) => if len =? l then let_go h else access_ None
  | _ => mret ()
  end.

Definition close (fd : cval) : C env () :=
  r ← find fd;
  match r with Some (h, RFd _) => let_go h | _ => mret () end.

Definition shm_unlink (name : string) : C env () :=
  on_os (fun w => set_os_shm w (delete name (os_shm w))).

Definition sem_unlink (name : string) : C env () :=
  on_os (fun w => set_os_sem w (delete name (os_sem w))).

(** [sem_open(name, O_CREAT | O_EXCL, 0666, 0)]. *)
Definition sem_open_create (name : string) : C env cval :=
  a ← next_fault;
  o ← gets (fun s => os_sem (e_os s) !! name);
  match o with
  | Some _ => mret SEM_FAILED
  | None =>
      if negb (a =? 0) then mret SEM_FAILED
      else
        k ← gets (fun s => fresh (dom (os_sems (e_os s))));
        on_os (fun w => set_os_sem w (<[name := k]> (os_sem w))) ;;
        on_os (fun w => set_sems w (<[k := 0]> (os_sems w))) ;;
        hold (RSem k)
  end.

(** [sem_open(name, O_RDWR)]. *)
Definition sem_open (name : string) : C env cval :=
  a ← next_fault;
  o ← gets (fun s => os_sem (e_os s) !! name);
  match o with
  | Some k => if negb (a =? 0) then mret SEM_FAILED else hold (RSem k)
  | None => mret SEM_FAILED
  end.

Definition sem_close (v : cval) : C env () :=
  r ← find v;
  match r with Some (h, RSem _) => let_go h | _ => mret () end.

(** The semaphore of a handle. *)
Definition the_sem (v : cval) : C env nat :=
  r ← find v;
  match r with Some (_, RSem k) => mret k | _ => access_ None end.

Definition sem_add (v : cval) (d : Z) : C env () :=
  k ← the_sem v;
  on_os (fun w => set_sems w (alter (fun n => n + d) k (os_sems w))).

Definition sem_post (v : cval) : C env () := sem_add v 1.

(** [malloc], which leaves [fill] in the block. *)
Definition malloc (fill : bytes) : C env cval :=
  a ← next_fault;
  if negb (a =? 0) then mret NULL
  else modify (fun s => set_local s fill) ;; hold RHeap.

Definition free (p : cval) : C env () :=
  r ← find p;
  match r with
  | Some (h, RHeap) => let_go h
  | _ => access_ None
  end.

(** The object behind a mapping; its first [n] bytes must be mapped and exist. *)
Definition mapped (p : cval) (n : nat) : C env (nat * bytes) :=
  r ← find p;
  match r with
  | Some (_, RMap o len) =>
      bs ← gets (fun s => os_objs (e_os s) !! o);
      bs ← access_ bs;
      access_ (if (Z.of_nat n <=? len) && (n <=? length bs)%nat then Some (o, bs) else None)
  | _ => access_ None
  end.

(** [memcpy] to and from a mapping. *)
Definition map_write (p : cval) (off : nat) (bs : bytes) : C env () :=
  m ← mapped p (off + length bs);
  mem ← access_ (mem_write off bs m.2);
  on_os (fun w => set_objs w (<[m.1 := mem]> (os_objs w))).

Definition map_read (p : cval) (off n : nat) : C env bytes :=
  m ← mapped p (off + n);
  access_ (mem_read off n m.2).

(** [sizeof(pthread_mutex_t)] and [sizeof(pthread_cond_t)] on the host. *)
Definition sizeof_pthread_mutex_t : Z := 40.
Definition sizeof_pthread_cond_t : Z := 48.

Definition set_ready (k : sync) (b : bool) : C env () :=
  modify (fun s => set_sync_ready s (fun x => if decide (x = k) then b else sync_ready s x)).

(** Initialisation of an attribute object, and setting it process-shared. *)
Definition attr_init (k : sync) : C env Z :=
  a ← next_fault;
  when (a =? 0) (set_ready k true) ;;
  mret a.

Definition attr_setpshared : C env Z := next_fault.

(** Initialisation of the mutex or of a condition in a mapping. *)
Definition obj_init (k : sync) (p : cval) (size : Z) (reset : os -> os) : C env Z :=
  a ← next_fault;
  mapped p (Z.to_nat size) ;;
  when (a =? 0) (set_ready k true ;; on_os reset) ;;
  mret a.

Definition sync_destroy (k : sync) : C env () :=
  b ← gets (fun s => sync_ready s k);
  if (b : bool) then set_ready k false
  else modify (fun s => set_misuse s (misuse s ++ [k])).

Definition obj_destroy (k : sync) (p : cval) (size : Z) : C env () :=
  mapped p (Z.to_nat size) ;;
  sync_destroy k.
