(* ===== verification/SmiConn.v ===== *)
(** * Shared memory interface: connecting the two ends

    [qem_smi_client_init], [qem_smi_client_connect], [qem_smi_client_disconnect] of
    [qem_trace_smi_engine.c] (QEMU), [qem_smi_init], [qem_smi_connect],
    [qem_smi_disconnect] of [qem_posix_smi.c] (the trace consumer).  QEMU creates
    the objects and posts a semaphore, the consumer opens them, checks a magic
    number and posts another one.  The two processes are interleaved at the calls
    that wait for the other side. *)

From S2P Require Import Prelude SmiDef SmiRing SmiPosix.

(** [if(x != none) { ...; x = none; }], for the handle in [sl]. *)
Definition if_set (sl : slot) (k : cval -> C env ()) : C env () :=
  v ← gets (fun s => slots s sl);
  when (negb (bool_decide (v = unset sl))) (k v ;; assign sl (unset sl)).

(** The descriptor or mapping in a global, as an argument. *)
Definition with_slot {A} (sl : slot) (k : cval -> C env A) : C env A :=
  v ← gets (fun s => slots s sl);
  k v.

(** [x = call; if(x == none) ...]: whether the call succeeded. *)
Definition acquire (sl : slot) (m : C env cval) : C env bool :=
  v ← m;
  assign sl v ;;
  mret (negb (bool_decide (v = unset sl))).

(** [error = call; if(error != 0) ...]. *)
Definition succeeds (m : C env Z) : C env bool := e ← m; mret (e =? 0).

(** [shared_buffer = mmap(...)], and whether it succeeded. *)
Definition map_shared (len : Z) : C env bool :=
  p ← with_slot Shm_fd (mmap len);
  assign Shared_buffer p ;;
  mret (negb (bool_decide (p = MAP_FAILED))).

(** A sequence of calls, each followed by [if(failed) { fail; return code; }]. *)
Fixpoint run_steps (fail : C env ()) (l : list (C env bool * Z)) : C env Z :=
  match l with
  | [] => mret 0
  | (m, code) :: l =>
      ok ← m;
      if (ok : bool) then run_steps fail l else (fail ;; mret code)
  end.

(** ** QEMU's end *)

Section client.
(** The configuration; the value of uninitialised variables; what [malloc] leaves
    in a block. *)
Context (QEM_SMI_BLOCK_COUNT QEM_SMI_BLOCK_SIZE junk : Z) (fill : Z -> bytes).

(** The sender's part of the ring, run on the mapped memory; the variables of the
    receiver are not visible to it. *)
Definition on_ring {A} (m : C ring A) : C env A :=
  p ← gets (fun s => slots s Shared_buffer);
  ob ← mapped p 0;
  s ← gets id;
  let r := mk_ring ob.2 (os_lock (e_os s)) (os_waits_write (e_os s)) (os_waits_read (e_os s))
             (error_code s) (local_bytes s) (local_buffer_index s) (next_block s)
             QEM_SMI_UNINIT [] 0 0 in
  match m r with
  | Done (a, r) =>
      on_os (fun w => set_objs w (<[ob.1 := shm r]> (os_objs w))) ;;
      on_os (fun w => set_os_lock w (lock r)) ;;
      on_os (fun w => set_os_waits_write w (waits_write r)) ;;
      on_os (fun w => set_os_waits_read w (waits_read r)) ;;
      modify (fun s => set_local s (s_local r)) ;;
      modify (fun s => set_index s (s_index r)) ;;
      modify (fun s => set_next s (s_next r)) ;;
      mret a
  | Exit c => exit_ c
  | Undefined => access_ None
  end.

(** [qem_smi_client_disconnect], after the flush. *)
Definition client_release : C env () :=
  size ← gets shared_buffer_size;
  if_set Shared_buffer (fun p => munmap p size) ;;
  if_set Shm_fd (fun fd => close fd ;; shm_unlink QEM_SMI_SHM_NAME) ;;
  if_set Local_buffer free ;;
  if_set Server_sem (fun v => sem_close v ;; sem_unlink QEM_SMI_SHARED_SEM_SERVER) ;;
  if_set Client_sem (fun v => sem_close v ;; sem_unlink QEM_SMI_SHARED_SEM_CLIENT) ;;
  if_set Mon_lock (fun p =>
    obj_destroy Lock_obj p sizeof_pthread_mutex_t ;; munmap p sizeof_pthread_mutex_t) ;;
  if_set Mon_lock_fd (fun fd => close fd ;; shm_unlink QEM_SMI_SHARED_MUTEX) ;;
  if_set Cond_read (fun p =>
    obj_destroy Read_obj p sizeof_pthread_cond_t ;; munmap p sizeof_pthread_cond_t) ;;
  if_set Cond_read_fd (fun fd => close fd ;; shm_unlink QEM_SMI_SHARED_COND_READ) ;;
  if_set Cond_write (fun p =>
    obj_destroy Write_obj p sizeof_pthread_cond_t ;; munmap p sizeof_pthread_cond_t) ;;
  if_set Cond_write_fd (fun fd => close fd ;; shm_unlink QEM_SMI_SHARED_COND_WRITE) ;;
  sync_destroy Read_attr ;;
  sync_destroy Write_attr ;;
  sync_destroy Lock_attr ;;
  modify (fun s => set_error_code s QEM_SMI_UNINIT).

(** [qem_smi_client_disconnect] returned, or is in its call of
    [qem_smi_client_flush], which can wait for the consumer. *)
Inductive disc_pc := Returned | InFlush (p : send_pc).

Definition after_flush (p : send_pc) : C env disc_pc :=
  match p with
  | SRet _ => client_release ;; mret Returned
  | p => mret (InFlush p)
  end.

Definition qem_smi_client_disconnect : C env disc_pc :=
  code ← gets error_code;
  if decide (code = QEM_SMI_CONNECTED)
  then p ← on_ring (qem_smi_client_flush junk); after_flush p
  else client_release ;; mret Returned.

Definition flush_step (p : send_pc) : C env disc_pc :=
  p ← on_ring (send_code QEM_SMI_BLOCK_COUNT QEM_SMI_BLOCK_SIZE p); after_flush p.

(** The calls of [qem_smi_client_disconnect] in the error paths, none of which is
    reached by a connected client. *)
Definition disconnect : C env () :=
  d ← qem_smi_client_disconnect;
  match d with Returned => mret () | InFlush _ => access_ None end.

(** [shared_buffer_size]. *)
Definition buffer_size : Z :=
  u32 (QEM_SMI_BLOCK_COUNT * QEM_SMI_BLOCK_SIZE + Z.of_nat QEM_SMI_DATA_BUFFER_META_DATA_SIZE).

(** The end of [mmap_buffer]. *)
Definition write_metadata (p : cval) : C env () :=
  modify (fun s => set_data s (p, QEM_SMI_DATA_BUFFER_META_DATA_SIZE)) ;;
  map_write p QEM_SMI_META_BLOCK_COUNT_OFFSET
    (le QEM_SMI_META_BLOCK_COUNT_SIZE QEM_SMI_BLOCK_COUNT) ;;
  map_write p QEM_SMI_META_BLOCK_MASK_OFFSET (le QEM_SMI_META_BLOCK_MASK_SIZE 0) ;;
  map_write p QEM_SMI_META_BLOCK_SIZE_OFFSET
    (le QEM_SMI_META_BLOCK_SIZE_SIZE QEM_SMI_BLOCK_SIZE).

(** A failed [ftruncate] does not return. *)
Definition mmap_buffer : C env Z :=
  ok ← acquire Shm_fd (shm_open_create QEM_SMI_SHM_NAME);
  if negb ok then disconnect ;; mret (-1)
  else
    modify (fun s => set_size s buffer_size) ;;
    ok ← succeeds (with_slot Shm_fd (fun fd => ftruncate fd buffer_size));
    when (negb ok) disconnect ;;
    ok ← map_shared buffer_size;
    if negb ok then disconnect ;; mret (-1)
    else with_slot Shared_buffer write_metadata ;; mret 0.

Definition create_local_buffer : C env Z :=
  modify (fun s => set_index s 0) ;;
  run_steps disconnect [(acquire Local_buffer (malloc (fill QEM_SMI_BLOCK_SIZE)), -1)].

Definition create_sync : C env Z :=
  run_steps disconnect (map (fun m => (m, -1)) [
    acquire Server_sem (sem_open_create QEM_SMI_SHARED_SEM_SERVER);
    acquire Client_sem (sem_open_create QEM_SMI_SHARED_SEM_CLIENT);
    acquire Mon_lock_fd (shm_open_create QEM_SMI_SHARED_MUTEX);
    acquire Cond_read_fd (shm_open_create QEM_SMI_SHARED_COND_READ);
    acquire Cond_write_fd (shm_open_create QEM_SMI_SHARED_COND_WRITE);
    succeeds (with_slot Mon_lock_fd (fun fd => ftruncate fd sizeof_pthread_mutex_t));
    succeeds (with_slot Cond_read_fd (fun fd => ftruncate fd sizeof_pthread_cond_t));
    succeeds (with_slot Cond_write_fd (fun fd => ftruncate fd sizeof_pthread_cond_t));
    acquire Mon_lock (with_slot Mon_lock_fd (mmap sizeof_pthread_mutex_t));
    acquire Cond_read (with_slot Cond_read_fd (mmap sizeof_pthread_cond_t));
    acquire Cond_write (with_slot Cond_write_fd (mmap sizeof_pthread_cond_t));
    succeeds (attr_init Lock_attr);
    succeeds attr_setpshared;
    succeeds (with_slot Mon_lock (fun p =>
      obj_init Lock_obj p sizeof_pthread_mutex_t (fun w => set_os_lock w None)));
    succeeds (attr_init Read_attr);
    succeeds attr_setpshared;
    succeeds (with_slot Cond_read (fun p =>
      obj_init Read_obj p sizeof_pthread_cond_t (fun w => set_os_waits_read w false)));
    succeeds (attr_init Write_attr);
    succeeds attr_setpshared;
    succeeds (with_slot Cond_write (fun p =>
      obj_init Write_obj p sizeof_pthread_cond_t (fun w => set_os_waits_write w false)))]).

Definition qem_smi_client_init : C env Z :=
  modify (fun s => set_data s (slots s Shared_buffer, 0%nat)) ;;
  modify (fun s => set_error_code s QEM_SMI_NOT_CONNECTED) ;;
  modify (fun s => set_index s 0) ;;
  shm_unlink QEM_SMI_SHARED_MUTEX ;;
  shm_unlink QEM_SMI_SHARED_COND_READ ;;
  shm_unlink QEM_SMI_SHARED_COND_WRITE ;;
  sem_unlink QEM_SMI_SHARED_SEM_CLIENT ;;
  sem_unlink QEM_SMI_SHARED_SEM_SERVER ;;
  shm_unlink QEM_SMI_SHM_NAME ;;
  ret_val ← mmap_buffer;
  if negb (ret_val =? 0) then disconnect ;; mret ret_val
  else
    ret_val ← create_local_buffer;
    if negb (ret_val =? 0) then disconnect ;; mret ret_val
    else
      ret_val ← create_sync;
      if negb (ret_val =? 0) then disconnect ;; mret ret_val
      else mret ret_val.

(** Program points of [qem_smi_client_connect]: it waits for the other side in
    [sem_timedwait], or, when the client was connected already, in the flush of
    [qem_smi_client_disconnect]. *)
Inductive client_pc :=
  | CWait (attempt : Z)
  | CFlush (p : send_pc)
  | CRet (code : Z).

(** What [sem_timedwait] can answer. *)
Inductive wait_answer := Got | TimedOut | Interrupted.

Section connect.
Context (max_attempt : Z).

(** After the loop. *)
Definition connect_end (sem_get : Z) : C env client_pc :=
  if negb (sem_get =? 0) then disconnect ;; mret (CRet (-1))
  else modify (fun s => set_error_code s QEM_SMI_CONNECTED) ;; mret (CRet 0).

(** The test of the loop. *)
Definition connect_test (attempt sem_get : Z) : C env client_pc :=
  if attempt <? max_attempt then mret (CWait attempt) else connect_end sem_get.

Definition qem_smi_client_connect : C env client_pc :=
  code ← gets error_code;
  if decide (code = QEM_SMI_NOT_CONNECTED) then
    d ← gets shared_buffer_data;
    map_write d.1 d.2 (le 4 QEM_SMI_HANDSHAKE_MAGIC) ;;
    v ← gets (fun s => slots s Client_sem);
    sem_post v ;;
    connect_test 0 (-1)
  else
    d ← qem_smi_client_disconnect;
    match d with Returned => mret (CRet (-1)) | InFlush p => mret (CFlush p) end.

(** The body of the loop, after one answer of [sem_timedwait]. *)
Definition connect_wait (attempt : Z) (a : wait_answer) : C env client_pc :=
  match a with
  | Interrupted => mret (CWait attempt)
  | Got =>
      v ← gets (fun s => slots s Server_sem);
      sem_add v (-1) ;;
      connect_end 0
  | TimedOut => connect_test (u32 (attempt + 1)) (-1)
  end.

Definition connect_flush (p : send_pc) : C env client_pc :=
  d ← flush_step p;
  match d with Returned => mret (CRet (-1)) | InFlush p => mret (CFlush p) end.
End connect.
End client.

(** ** The consumer's end *)

Section server.
Context (fill : Z -> bytes) (max_attempt : Z).

Definition qem_smi_disconnect : C env () :=
  size ← gets shared_buffer_size;
  if_set Shared_buffer (fun p => munmap p size) ;;
  if_set Shm_fd (fun fd => close fd ;; shm_unlink QEM_SMI_SHM_NAME) ;;
  if_set Local_buffer free ;;
  if_set Server_sem (fun v => sem_close v ;; sem_unlink QEM_SMI_SHARED_SEM_SERVER) ;;
  if_set Client_sem (fun v => sem_close v ;; sem_unlink QEM_SMI_SHARED_SEM_CLIENT) ;;
  if_set Mon_lock (fun p => munmap p sizeof_pthread_mutex_t) ;;
  if_set Mon_lock_fd (fun fd => close fd ;; shm_unlink QEM_SMI_SHARED_MUTEX) ;;
  if_set Cond_read (fun p => munmap p sizeof_pthread_cond_t) ;;
  if_set Cond_read_fd (fun fd => close fd ;; shm_unlink QEM_SMI_SHARED_COND_READ) ;;
  if_set Cond_write (fun p => munmap p sizeof_pthread_cond_t) ;;
  if_set Cond_write_fd (fun fd => close fd ;; shm_unlink QEM_SMI_SHARED_COND_WRITE) ;;
  modify (fun s => set_error_code s QEM_SMI_UNINIT).

(** The metadata; the block count is copied to the low half of its global. *)
Definition read_metadata (p : cval) : C env () :=
  count ← map_read p QEM_SMI_META_BLOCK_COUNT_OFFSET QEM_SMI_META_BLOCK_COUNT_SIZE;
  modify (fun s => set_block_count s
    (Z.lor (Z.land (block_count s) 0xFFFF0000) (le_val count))) ;;
  size ← map_read p QEM_SMI_META_BLOCK_SIZE_OFFSET QEM_SMI_META_BLOCK_SIZE_SIZE;
  modify (fun s => set_block_size s (le_val size)) ;;
  modify (fun s => set_size s
    (u32 (block_count s * block_size s + Z.of_nat QEM_SMI_DATA_BUFFER_META_DATA_SIZE))).

Definition mapp_buffer : C env Z :=
  run_steps qem_smi_disconnect [
    (acquire Shm_fd (shm_open QEM_SMI_SHM_NAME), QEM_SMI_SHM_FD_ERROR);
    (map_shared (Z.of_nat QEM_SMI_DATA_BUFFER_META_DATA_SIZE), QEM_SMI_SHM_MMAP_ERROR);
    (with_slot Shared_buffer (fun p =>
       read_metadata p ;; munmap p (Z.of_nat QEM_SMI_DATA_BUFFER_META_DATA_SIZE)) ;;
     size ← gets shared_buffer_size;
     map_shared size, QEM_SMI_SHM_MMAP_ERROR);
    (with_slot Shared_buffer (fun p =>
     modify (fun s => set_data s (p, QEM_SMI_DATA_BUFFER_META_DATA_SIZE))) ;;
     mret true, 0)].

Definition createlocal_buffer : C env Z :=
  modify (fun s => set_index s 0) ;;
  size ← gets shared_buffer_size;
  run_steps qem_smi_disconnect
    [(acquire Local_buffer (malloc (fill size)), QEM_SMI_CREATE_LBUFFER_ERROR)].

Definition server_create_sync : C env Z :=
  run_steps qem_smi_disconnect [
    (acquire Mon_lock_fd (shm_open QEM_SMI_SHARED_MUTEX), QEM_SMI_SHM_LOCK_ERROR);
    (acquire Cond_read_fd (shm_open QEM_SMI_SHARED_COND_READ), QEM_SMI_SHM_RCOND_ERROR);
    (acquire Cond_write_fd (shm_open QEM_SMI_SHARED_COND_WRITE), QEM_SMI_SHM_WCOND_ERROR);
    (acquire Mon_lock (with_slot Mon_lock_fd (mmap sizeof_pthread_mutex_t)),
       QEM_SMI_MMAP_LOCK_ERROR);
    (acquire Cond_read (with_slot Cond_read_fd (mmap sizeof_pthread_cond_t)),
       QEM_SMI_MMAP_RCOND_ERROR);
    (acquire Cond_write (with_slot Cond_write_fd (mmap sizeof_pthread_cond_t)),
       QEM_SMI_MMAP_WCOND_ERROR)].

Definition qem_smi_init : C env () :=
  modify (fun s => set_data s (slots s Shared_buffer, 0%nat)) ;;
  modify (fun s => set_error_code s QEM_SMI_NOT_CONNECTED).

(** Program points of [qem_smi_connect]: opening the two semaphores, waiting for
    the client. *)
Inductive server_pc :=
  | VServer (attempt : Z)
  | VClient (attempt : Z)
  | VWait
  | VRet (code : Z).

Definition qem_smi_connect : C env server_pc :=
  code ← gets error_code;
  if decide (code = QEM_SMI_NOT_CONNECTED) then mret (VServer 0)
  else qem_smi_disconnect ;; mret (VRet QEM_SMI_NOT_CONNECTED_ERROR).

(** One iteration of a loop that opens a semaphore; [again] and [next] are the
    points at the head of the loop and after it. *)
Definition open_sem (sl : slot) (name : string) (attempt : Z) (again : Z -> server_pc)
    (next : server_pc) : C env server_pc :=
  if attempt <? max_attempt then
    ok ← acquire sl (sem_open name);
    mret (if (ok : bool) then next else again (u32 (attempt + 1)))
  else if attempt =? max_attempt then qem_smi_disconnect ;; mret (VRet QEM_SMI_TIMEOUT_ERROR)
  else mret next.

(** After [sem_wait(client_sem)]. *)
Definition server_handshake : C env server_pc :=
  error ← mapp_buffer;
  if negb (error =? 0) then mret (VRet error)
  else
    error ← createlocal_buffer;
    if negb (error =? 0) then mret (VRet error)
    else
      error ← server_create_sync;
      if negb (error =? 0) then mret (VRet error)
      else
        d ← gets shared_buffer_data;
        buffer ← map_read d.1 d.2 4;
        if negb (le_val buffer =? QEM_SMI_HANDSHAKE_MAGIC)
        then qem_smi_disconnect ;; mret (VRet QEM_SMI_WRONG_MAGIC_ERROR)
        else
          v ← gets (fun s => slots s Server_sem);
          sem_post v ;;
          modify (fun s => set_index s (block_size s)) ;;
          modify (fun s => set_error_code s QEM_SMI_CONNECTED) ;;
          mret (VRet 0).

(** The result of [sem_wait] is not looked at: an interrupted wait goes on without
    the semaphore. *)
Definition server_wait (a : wait_answer) : C env server_pc :=
  match a with
  | Got =>
      v ← gets (fun s => slots s Client_sem);
      sem_add v (-1) ;;
      server_handshake
  | _ => server_handshake
  end.

Definition server_code (p : server_pc) (a : wait_answer) : C env server_pc :=
  match p with
  | VServer n => open_sem Server_sem QEM_SMI_SHARED_SEM_SERVER n VServer (VClient 0)
  | VClient n => open_sem Client_sem QEM_SMI_SHARED_SEM_CLIENT n VClient VWait
  | VWait => server_wait a
  | VRet c => mret (VRet c)
  end.
End server.

(** ** The two processes *)

(** QEMU initialises and connects ([qem_init_tracing] of [qem_trace_smi.c]); the
    consumer does the same. *)
Inductive client_run := KInit | KConnect | KRun (p : client_pc).
Inductive server_run := WInit | WConnect | WRun (p : server_pc).

Record conn := mk_conn {
  cn_cli : client_run;
  cn_srv : server_run;
  cn_cenv : env;
  cn_senv : env;
  cn_os : os
}.

(** The semaphore a wait is on, when it can be taken now. *)
Definition sem_free (s : env) (sl : slot) (w : os) : bool :=
  match slots s sl with
  | Ref h =>
      match held s !! h with
      | Some (RSem k) => match os_sems w !! k with Some n => 0 <? n | None => false end
      | _ => false
      end
  | _ => false
  end.

(** A wait that can be satisfied does not time out. *)
Definition answer_ok (free : bool) (a : wait_answer) : bool :=
  match a with Got => free | TimedOut => negb free | Interrupted => true end.

Section conn_run.
Context (bc bs junk : Z) (cfill sfill : Z -> bytes) (cmax smax : Z).

Definition client_code (p : client_run) (a : wait_answer) : C env client_run :=
  match p with
  | KInit => qem_smi_client_init bc bs junk cfill ;; mret KConnect
  | KConnect => p ← qem_smi_client_connect junk cmax; mret (KRun p)
  | KRun (CWait n) => p ← connect_wait junk cmax n a; mret (KRun p)
  | KRun (CFlush p) => p ← connect_flush bc bs p; mret (KRun p)
  | KRun (CRet c) => mret (KRun (CRet c))
  end.

Definition server_run_code (p : server_run) (a : wait_answer) : C env server_run :=
  match p with
  | WInit => qem_smi_init ;; mret WConnect
  | WConnect => p ← qem_smi_connect; mret (WRun p)
  | WRun p => p ← server_code sfill smax p a; mret (WRun p)
  end.

(** Whether the answer is possible where the process is. *)
Definition client_can (m : conn) (a : wait_answer) : bool :=
  match cn_cli m with
  | KRun (CRet _) => false
  | KRun (CWait _) => answer_ok (sem_free (cn_cenv m) Server_sem (cn_os m)) a
  | _ => true
  end.

Definition server_can (m : conn) (a : wait_answer) : bool :=
  match cn_srv m with
  | WRun (VRet _) => false
  | WRun VWait =>
      match a with
      | TimedOut => false
      | a => answer_ok (sem_free (cn_senv m) Client_sem (cn_os m)) a
      end
  | _ => true
  end.

(** One step of QEMU ([true]) or of the consumer ([false]). *)
Definition conn_do (who : bool) (a : wait_answer) (m : conn) : option (outcome conn) :=
  if who then
    if client_can m a
    then Some match client_code (cn_cli m) a (set_os (cn_cenv m) (cn_os m)) with
              | Done (p, s) => Done (mk_conn p (cn_srv m) s (cn_senv m) (e_os s))
              | Exit c => Exit c
              | Undefined => Undefined
              end
    else None
  else
    if server_can m a
    then Some match server_run_code (cn_srv m) a (set_os (cn_senv m) (cn_os m)) with
              | Done (p, s) => Done (mk_conn (cn_cli m) p (cn_cenv m) s (e_os s))
              | Exit c => Exit c
              | Undefined => Undefined
              end
    else None.
End conn_run.

(** The globals of a process that just started. *)
Definition env_init (w : os) : env := {|
  error_code := QEM_SMI_UNINIT;
  slots := unset;
  shared_buffer_data := (NULL, 0%nat);
  shared_buffer_size := 0;
  local_bytes := [];
  local_buffer_index := 0;
  next_block := 0;
  block_count := 0;
  block_size := 0;
  sync_ready := fun _ => false;
  held := ∅;
  misuse := [];
  e_os := w
|}.
