(* ===== verification/SmiHandles.v ===== *)
(** * Shared memory interface: what an end holds

    What a process holds at every point of its initialisation is described by a
    partial map from its globals to the system objects behind them ([handles]), and
    the contents of these objects ([osrel]).  Each system call and each step of the
    release code is specified against this description. *)

From S2P Require Import Prelude SmiDef SmiRing SmiPosix SmiConn.

(** ** Handles *)

(** The system object behind each global. *)
Definition view := slot -> option nat.

Definition vset (sl : slot) (o : option nat) (V : view) : view :=
  fun x => if decide (x = sl) then o else V x.

Lemma vset_eq sl o V : vset sl o V sl = o.
Proof. unfold vset. by rewrite decide_True. Qed.

Lemma vset_ne sl sl' o V : sl <> sl' -> vset sl o V sl' = V sl'.
Proof. intros. unfold vset. by rewrite decide_False by congruence. Qed.

(** The size of a mapping; [size] is the one of the ring. *)
Definition map_len (size : Z) (sl : slot) : Z :=
  match sl with
  | Shared_buffer => size
  | Mon_lock => sizeof_pthread_mutex_t
  | Cond_read | Cond_write => sizeof_pthread_cond_t
  | _ => 0
  end.

(** What a process holds through a global. *)
Definition res (size : Z) (sl : slot) (o : nat) : resource :=
  match sl with
  | Shm_fd | Mon_lock_fd | Cond_read_fd | Cond_write_fd => RFd o
  | Shared_buffer | Mon_lock | Cond_read | Cond_write => RMap o (map_len size sl)
  | Server_sem | Client_sem => RSem o
  | Local_buffer => RHeap
  end.

(** The value of a global without an object; after a failed [mmap],
    [shared_buffer] is [MAP_FAILED] and not [NULL]. *)
Definition none (mf : bool) (sl : slot) : cval :=
  if bool_decide (sl = Shared_buffer) && mf then MAP_FAILED else unset sl.

Record handles (size : Z) (mf : bool) (V : view) (f : slot -> cval) (hs : gmap nat resource)
    : Prop := {
  h_some sl o : V sl = Some o -> exists h, f sl = Ref h /\ hs !! h = Some (res size sl o);
  h_none sl : V sl = None -> f sl = none mf sl;
  h_inj sl sl' h : f sl = Ref h -> f sl' = Ref h -> sl = sl';
  h_all h : is_Some (hs !! h) -> exists sl, f sl = Ref h
}.

Lemma none_no_ref mf sl h : none mf sl <> Ref h.
Proof. unfold none. destruct (_ && _); [done|by destruct sl]. Qed.

Lemma unset_no_ref sl h : unset sl <> Ref h.
Proof. by destruct sl. Qed.

Lemma handles_ref size mf V f hs sl h :
  handles size mf V f hs -> f sl = Ref h ->
  exists o, V sl = Some o /\ hs !! h = Some (res size sl o).
Proof.
  intros H Hr. destruct (V sl) as [o|] eqn:Ho.
  - destruct (h_some _ _ _ _ _ H _ _ Ho) as (h' & Hf & Hh).
    exists o. split; [done|]. congruence.
  - rewrite (h_none _ _ _ _ _ H _ Ho) in Hr. by apply none_no_ref in Hr.
Qed.

(** The three ways a handle changes: acquired, not acquired, released. *)
Lemma handles_hold size mf V f hs sl o :
  handles size mf V f hs -> V sl = None ->
  handles size (mf && negb (bool_decide (sl = Shared_buffer))) (vset sl (Some o) V)
    (fun x => if decide (x = sl) then Ref (fresh (dom hs)) else f x)
    (<[fresh (dom hs) := res size sl o]> hs).
Proof.
  intros H Hn. set (h0 := fresh (dom hs)).
  assert (Hf : hs !! h0 = None) by (apply not_elem_of_dom, is_fresh).
  assert (Hne : forall x, f x <> Ref h0).
  { intros x Hx. destruct (handles_ref _ _ _ _ _ _ _ H Hx) as (? & _ & Hs). congruence. }
  split.
  - intros x o' Hx. unfold vset in Hx. destruct (decide (x = sl)) as [->|Hd].
    + injection Hx as ->. exists h0. by rewrite lookup_insert_eq.
    + destruct (h_some _ _ _ _ _ H _ _ Hx) as (h & Hr & Hh). exists h. split; [done|].
      rewrite lookup_insert_ne; [done|]. congruence.
  - intros x Hx. unfold vset in Hx. destruct (decide (x = sl)) as [->|Hd]; [done|].
    rewrite (h_none _ _ _ _ _ H _ Hx). unfold none.
    destruct (bool_decide_reflect (x = Shared_buffer)) as [->|]; [|done].
    by rewrite bool_decide_eq_false_2, andb_true_r by congruence.
  - intros x y h. destruct (decide (x = sl)), (decide (y = sl)); try congruence.
    apply (h_inj _ _ _ _ _ H).
  - intros h Hh. destruct (decide (h = h0)) as [->|Hd].
    + exists sl. by rewrite decide_True.
    + rewrite lookup_insert_ne in Hh by done. destruct (h_all _ _ _ _ _ H _ Hh) as [x Hx].
      exists x. rewrite decide_False; [done|]. intros ->.
      rewrite (h_none _ _ _ _ _ H _ Hn) in Hx. by apply none_no_ref in Hx.
Qed.

Lemma handles_set_none size mf mf' V f hs sl :
  handles size mf V f hs -> V sl = None -> (sl <> Shared_buffer -> mf' = mf) ->
  handles size mf' V (fun x => if decide (x = sl) then none mf' sl else f x) hs.
Proof.
  intros H Hn Hmf.
  assert (Hk : forall x h, (if decide (x = sl) then none mf' sl else f x) = Ref h ->
                           x <> sl /\ f x = Ref h).
  { intros x h Hx. destruct (decide (x = sl)); [by apply none_no_ref in Hx|done]. }
  split.
  - intros x o Hx. destruct (decide (x = sl)) as [->|]; [congruence|]. by apply H.
  - intros x Hx. destruct (decide (x = sl)) as [->|Hd]; [done|].
    rewrite (h_none _ _ _ _ _ H _ Hx). unfold none.
    destruct (bool_decide_reflect (x = Shared_buffer)) as [->|]; [|done].
    by rewrite Hmf by congruence.
  - intros x y h [_ Hx]%Hk [_ Hy]%Hk. eapply H; eauto.
  - intros h Hh. destruct (h_all _ _ _ _ _ H _ Hh) as [x Hx]. exists x.
    rewrite decide_False; [done|]. intros ->.
    rewrite (h_none _ _ _ _ _ H _ Hn) in Hx. by apply none_no_ref in Hx.
Qed.

Lemma handles_let_go size mf V f hs sl h :
  handles size mf V f hs -> f sl = Ref h ->
  handles size (mf && negb (bool_decide (sl = Shared_buffer))) (vset sl None V)
    (fun x => if decide (x = sl) then unset sl else f x) (delete h hs).
Proof.
  intros H Hr.
  assert (Hk : forall x k, (if decide (x = sl) then unset sl else f x) = Ref k ->
                           x <> sl /\ f x = Ref k /\ k <> h).
  { intros x k Hx. destruct (decide (x = sl)); [by apply unset_no_ref in Hx|].
    split_and!; [done..|]. intros ->. by eapply n, H. }
  split.
  - intros x o Hx. unfold vset in Hx. destruct (decide (x = sl)) as [->|Hd]; [done|].
    destruct (h_some _ _ _ _ _ H _ _ Hx) as (k & Hf & Hh). exists k. split; [done|].
    rewrite lookup_delete_ne; [done|]. intros ->. by eapply Hd, H.
  - intros x Hx. unfold vset in Hx. destruct (decide (x = sl)) as [->|Hd].
    + unfold none. destruct (bool_decide_reflect (sl = Shared_buffer)) as [->|]; [|done].
      by rewrite andb_false_r.
    + rewrite (h_none _ _ _ _ _ H _ Hx). unfold none.
      destruct (bool_decide_reflect (x = Shared_buffer)) as [->|]; [|done].
      by rewrite bool_decide_eq_false_2, andb_true_r by congruence.
  - intros x y k [_ [Hx _]]%Hk [_ [Hy _]]%Hk. eapply H; eauto.
  - intros k Hh. assert (k <> h) by (intros ->; rewrite lookup_delete_eq in Hh; by destruct Hh).
    rewrite lookup_delete_ne in Hh by done. destruct (h_all _ _ _ _ _ H _ Hh) as [x Hx].
    exists x. rewrite decide_False; [done|]. intros ->. congruence.
Qed.

(** ** The system objects behind the handles of the client *)

Definition shm_name (sl : slot) : option string :=
  match sl with
  | Shm_fd => Some QEM_SMI_SHM_NAME
  | Mon_lock_fd => Some QEM_SMI_SHARED_MUTEX
  | Cond_read_fd => Some QEM_SMI_SHARED_COND_READ
  | Cond_write_fd => Some QEM_SMI_SHARED_COND_WRITE
  | _ => None
  end.

Definition sem_name (sl : slot) : option string :=
  match sl with
  | Server_sem => Some QEM_SMI_SHARED_SEM_SERVER
  | Client_sem => Some QEM_SMI_SHARED_SEM_CLIENT
  | _ => None
  end.

(** The descriptor a mapping was made from. *)
Definition fd_of (sl : slot) : option slot :=
  match sl with
  | Shared_buffer => Some Shm_fd
  | Mon_lock => Some Mon_lock_fd
  | Cond_read => Some Cond_read_fd
  | Cond_write => Some Cond_write_fd
  | _ => None
  end.

Lemma shm_name_inj sl sl' n : shm_name sl = Some n -> shm_name sl' = Some n -> sl = sl'.
Proof. by destruct sl, sl'; intros [= <-]. Qed.

Lemma sem_name_inj sl sl' n : sem_name sl = Some n -> sem_name sl' = Some n -> sl = sl'.
Proof. by destruct sl, sl'; intros [= <-]. Qed.

Definition supd {A} (sl : slot) (v : A) (f : slot -> A) : slot -> A :=
  fun x => if decide (x = sl) then v else f x.

Lemma supd_eq {A} sl (v : A) f : supd sl v f sl = v.
Proof. unfold supd. by rewrite decide_True. Qed.

(** What is known of the names: they are exactly those of the objects of the view,
    or no others, or anything. *)
Inductive names := Exact | Within | Any.

Definition agree (N : names) (x y : option nat) : Prop :=
  match N with Exact => x = y | Within => x = None \/ x = y | Any => True end.

Lemma agree_refl N x : agree N x x.
Proof. destruct N; cbn; auto. Qed.

Lemma agree_None N x : N <> Any -> agree N x None -> x = None.
Proof. destruct N; cbn; naive_solver. Qed.

Lemma agree_delete N y : N <> Exact -> agree N None y.
Proof. destruct N; cbn; naive_solver. Qed.

(** The objects of the view [V] have the contents [B] and the values [K], and the
    names are as [N] says. *)
Record osrel (N : names) (V : view) (B : slot -> bytes) (K : slot -> Z) (w : os) : Prop := {
  o_obj sl n o : shm_name sl = Some n -> V sl = Some o -> os_objs w !! o = Some (B sl);
  o_obj_inj sl sl' n n' o :
    shm_name sl = Some n -> shm_name sl' = Some n' -> V sl = Some o -> V sl' = Some o -> sl = sl';
  o_map sl fd o : fd_of sl = Some fd -> V sl = Some o -> V fd = Some o;
  o_sem sl n k : sem_name sl = Some n -> V sl = Some k -> os_sems w !! k = Some (K sl);
  o_sem_inj sl sl' n n' k :
    sem_name sl = Some n -> sem_name sl' = Some n' -> V sl = Some k -> V sl' = Some k -> sl = sl';
  o_shm_names sl n : shm_name sl = Some n -> agree N (os_shm w !! n) (V sl);
  o_sem_names sl n : sem_name sl = Some n -> agree N (os_sem w !! n) (V sl)
}.

Ltac slot_cases :=
  repeat match goal with
  | H : context [decide (?x = ?y)] |- _ => destruct (decide (x = y)); subst
  | |- context [decide (?x = ?y)] => destruct (decide (x = y)); subst
  end.

(** Contradictions between the kinds of slots. *)
Ltac slot_absurd :=
  exfalso;
  match goal with
  | H : ?f ?x = Some _, H' : ?g ?x = Some _ |- _ => is_var x; destruct x; discriminate
  | H : ?f ?x = Some ?x |- _ => destruct x; discriminate
  | H : fd_of ?x = Some ?y, H' : sem_name ?y = Some _ |- _ =>
      destruct x; try discriminate; injection H as <-; discriminate
  end.

Lemma os_create N V B K w sl n o :
  osrel N V B K w -> N <> Any -> shm_name sl = Some n -> V sl = None ->
  o = default (fresh (dom (os_objs w))) (os_shm w !! n) ->
  osrel N (vset sl (Some o) V) (supd sl [] B) K
    (set_objs (set_os_shm w (<[n := o]> (os_shm w))) (<[o := []]> (os_objs w))).
Proof.
  intros H HN Hsl Hv Ho. pose proof (o_shm_names _ _ _ _ _ H _ _ Hsl) as Hnm.
  rewrite Hv in Hnm. rewrite (agree_None _ _ HN Hnm) in Ho. cbn in Ho.
  assert (Hf : forall sl' n' o', shm_name sl' = Some n' -> V sl' = Some o' -> o' <> o).
  { intros sl' n' o' Hn' Hv' ->. pose proof (o_obj _ _ _ _ _ H _ _ _ Hn' Hv') as Hobj.
    apply elem_of_dom_2 in Hobj. subst o. by apply is_fresh in Hobj. }
  split; unfold vset, supd; cbn.
  - intros x n' o' Hn' Hx. slot_cases; [simplify_eq; by rewrite lookup_insert_eq|].
    rewrite lookup_insert_ne by (apply not_eq_sym; eauto). by eapply H.
  - intros x y n1 n2 o' H1 H2 Hx Hy. slot_cases; try done; [..|by eapply H].
    all: first [destruct (Hf _ _ _ H2 Hy); congruence|destruct (Hf _ _ _ H1 Hx); congruence].
  - intros x fd o' Hfd Hx. slot_cases; try slot_absurd; [..|by eapply H].
    by rewrite (o_map _ _ _ _ _ H _ _ _ Hfd Hx) in Hv.
  - intros x n' k Hn' Hx. slot_cases; [slot_absurd|]. by eapply H.
  - intros x y n1 n2 k H1 H2 Hx Hy. slot_cases; try slot_absurd. by eapply (o_sem_inj _ _ _ _ _ H).
  - intros x n' Hn'. slot_cases; [simplify_eq; rewrite lookup_insert_eq; apply agree_refl|].
    rewrite lookup_insert_ne; [by apply H|]. intros ->. eauto using shm_name_inj.
  - intros x n' Hn'. slot_cases; [slot_absurd|]. by apply H.
Qed.

Lemma os_sem_create N V B K w sl n k :
  osrel N V B K w -> sem_name sl = Some n -> V sl = None -> k = fresh (dom (os_sems w)) ->
  osrel N (vset sl (Some k) V) B (supd sl 0 K)
    (set_sems (set_os_sem w (<[n := k]> (os_sem w))) (<[k := 0]> (os_sems w))).
Proof.
  intros H Hsl Hv Hk.
  assert (Hf : forall sl' n' k', sem_name sl' = Some n' -> V sl' = Some k' -> k' <> k).
  { intros sl' n' k' Hn' Hv' ->. pose proof (o_sem _ _ _ _ _ H _ _ _ Hn' Hv') as Hs.
    apply elem_of_dom_2 in Hs. subst k. by apply is_fresh in Hs. }
  split; unfold vset, supd; cbn.
  - intros x n' o' Hn' Hx. slot_cases; [slot_absurd|]. by eapply H.
  - intros x y n1 n2 o' H1 H2 Hx Hy. slot_cases; try slot_absurd.
    by eapply (o_obj_inj _ _ _ _ _ H).
  - intros x fd o' Hfd Hx. slot_cases; try slot_absurd. by eapply H.
  - intros x n' k' Hn' Hx. slot_cases; [simplify_eq; by rewrite lookup_insert_eq|].
    rewrite lookup_insert_ne by (apply not_eq_sym; eauto). by eapply H.
  - intros x y n1 n2 k' H1 H2 Hx Hy.
    slot_cases; try done; [..|by eapply (o_sem_inj _ _ _ _ _ H)].
    all: first [destruct (Hf _ _ _ H2 Hy); congruence|destruct (Hf _ _ _ H1 Hx); congruence].
  - intros x n' Hn'. slot_cases; [slot_absurd|]. by apply H.
  - intros x n' Hn'. slot_cases; [simplify_eq; rewrite lookup_insert_eq; apply agree_refl|].
    rewrite lookup_insert_ne; [by apply H|]. intros ->. eauto using sem_name_inj.
Qed.

(** Changing the contents of an object, or the value of a semaphore. *)
Lemma os_write N V B K w sl n o bs :
  osrel N V B K w -> shm_name sl = Some n -> V sl = Some o ->
  osrel N V (supd sl bs B) K (set_objs w (<[o := bs]> (os_objs w))).
Proof.
  intros H Hsl Hv. split; cbn; try apply H.
  intros x n' o' Hn' Hx. unfold supd. slot_cases; [simplify_eq; by rewrite lookup_insert_eq|].
  rewrite lookup_insert_ne; [by eapply H|]. intros ->.
  by destruct (o_obj_inj _ _ _ _ _ H x sl n' n o').
Qed.

Lemma os_sem_set N V B K w sl n k v :
  osrel N V B K w -> sem_name sl = Some n -> V sl = Some k ->
  osrel N V B (supd sl v K) (set_sems w (<[k := v]> (os_sems w))).
Proof.
  intros H Hsl Hv. split; cbn; try apply H.
  intros x n' k' Hn' Hx. unfold supd. slot_cases; [simplify_eq; by rewrite lookup_insert_eq|].
  rewrite lookup_insert_ne; [by eapply H|]. intros ->.
  by destruct (o_sem_inj _ _ _ _ _ H x sl n' n k').
Qed.

Lemma alter_Some {A} (f : A -> A) (m : gmap nat A) i x :
  m !! i = Some x -> alter f i m = <[i := f x]> m.
Proof.
  intros H. apply map_eq. intros j. destruct (decide (j = i)) as [->|].
  - by rewrite lookup_alter_eq, H, lookup_insert_eq.
  - by rewrite lookup_alter_ne, lookup_insert_ne.
Qed.

(** Mapping an open object, allocating, and giving either up. *)
Lemma os_vset N V B K w sl v :
  osrel N V B K w -> shm_name sl = None -> sem_name sl = None ->
  (forall fd o, fd_of sl = Some fd -> v = Some o -> V fd = Some o) ->
  osrel N (vset sl v V) B K w.
Proof.
  intros H Hs Hk Hfd. split; unfold vset.
  - intros x n' o' Hn' Hx. slot_cases; [congruence|]. by eapply H.
  - intros x y n1 n2 o' H1 H2 Hx Hy. slot_cases; try congruence.
    by eapply (o_obj_inj _ _ _ _ _ H).
  - intros x fd o' Hf Hx. slot_cases; try congruence; try by eauto.
    + destruct x; try discriminate; injection Hf as <-; discriminate.
    + by eapply H.
  - intros x n' k' Hn' Hx. slot_cases; [congruence|]. by eapply H.
  - intros x y n1 n2 k' H1 H2 Hx Hy. slot_cases; try congruence.
    by eapply (o_sem_inj _ _ _ _ _ H).
  - intros x n' Hn'. slot_cases; [congruence|]. by apply H.
  - intros x n' Hn'. slot_cases; [congruence|]. by apply H.
Qed.

(** Closing a descriptor no mapping depends on, and unlinking its name. *)
Lemma os_close N V B K w sl n :
  osrel N V B K w -> shm_name sl = Some n -> (forall x, fd_of x = Some sl -> V x = None) ->
  osrel N (vset sl None V) B K (set_os_shm w (delete n (os_shm w))).
Proof.
  intros H Hs Hfd. split; unfold vset; cbn.
  - intros x n' o' Hn' Hx. slot_cases; [done|]. by eapply H.
  - intros x y n1 n2 o' H1 H2 Hx Hy. slot_cases; try done.
    by eapply (o_obj_inj _ _ _ _ _ H).
  - intros x fd o' Hf Hx. slot_cases; try done; [|by eapply H]. by rewrite Hfd in Hx.
  - intros x n' k' Hn' Hx. slot_cases; [done|]. by eapply H.
  - intros x y n1 n2 k' H1 H2 Hx Hy. slot_cases; try done.
    by eapply (o_sem_inj _ _ _ _ _ H).
  - intros x n' Hn'. slot_cases; [simplify_eq; rewrite lookup_delete_eq; apply agree_refl|].
    rewrite lookup_delete_ne; [by apply H|]. intros ->. eauto using shm_name_inj.
  - intros x n' Hn'. slot_cases; [slot_absurd|]. by apply H.
Qed.

Lemma os_sem_close N V B K w sl n :
  osrel N V B K w -> sem_name sl = Some n ->
  osrel N (vset sl None V) B K (set_os_sem w (delete n (os_sem w))).
Proof.
  intros H Hs. split; unfold vset; cbn.
  - intros x n' o' Hn' Hx. slot_cases; [done|]. by eapply H.
  - intros x y n1 n2 o' H1 H2 Hx Hy. slot_cases; try done.
    by eapply (o_obj_inj _ _ _ _ _ H).
  - intros x fd o' Hf Hx. slot_cases; try done; [|by eapply H]. slot_absurd.
  - intros x n' k' Hn' Hx. slot_cases; [done|]. by eapply H.
  - intros x y n1 n2 k' H1 H2 Hx Hy. slot_cases; try done.
    by eapply (o_sem_inj _ _ _ _ _ H).
  - intros x n' Hn'. slot_cases; [slot_absurd|]. by apply H.
  - intros x n' Hn'. slot_cases; [simplify_eq; rewrite lookup_delete_eq; apply agree_refl|].
    rewrite lookup_delete_ne; [by apply H|]. intros ->. eauto using sem_name_inj.
Qed.

(** ** Abstract state of an end *)

Record ast := mk_ast {
  a_view : view;
  a_mf : bool;
  a_data : bool;
  a_obj : slot -> bytes;
  a_sem : slot -> Z
}.

(** Everything but the handles and the objects behind them. *)
Definition glob (s : env) :=
  (error_code s, shared_buffer_data s, shared_buffer_size s, local_bytes s,
   local_buffer_index s, next_block s, (block_count s, block_size s),
   (sync_ready s, misuse s),
   (os_lock (e_os s), os_waits_write (e_os s), os_waits_read (e_os s))).

(** [F]: some call may fail; [N]: what is known of the names. *)
Record rel (F : Prop) (N : names) (g : env) (a : ast) (s : env) : Prop := {
  r_glob : glob s = glob g;
  r_handles : handles (shared_buffer_size g) (a_mf a) (a_view a) (slots s) (held s);
  r_os : osrel N (a_view a) (a_obj a) (a_sem a) (e_os s);
  r_sized sl fd o : fd_of sl = Some fd -> a_view a sl = Some o ->
    map_len (shared_buffer_size g) sl <= Z.of_nat (length (a_obj a fd));
  r_faults : os_faults (e_os s) <> [] -> F;
  r_data : a_data a = true ->
    shared_buffer_data s = (slots s Shared_buffer, QEM_SMI_DATA_BUFFER_META_DATA_SIZE)
}.

(** The abstract state with the object [o] behind [sl], or none; with new contents,
    or a new value; with [shared_buffer] set to a constant. *)
Definition a_set (sl : slot) (o : option nat) (a : ast) : ast :=
  let other := negb (bool_decide (sl = Shared_buffer)) in
  mk_ast (vset sl o (a_view a)) (a_mf a && other) (a_data a && other) (a_obj a) (a_sem a).
Definition a_put (sl : slot) (bs : bytes) (a : ast) : ast :=
  mk_ast (a_view a) (a_mf a) (a_data a) (supd sl bs (a_obj a)) (a_sem a).
Definition a_val (sl : slot) (v : Z) (a : ast) : ast :=
  mk_ast (a_view a) (a_mf a) (a_data a) (a_obj a) (supd sl v (a_sem a)).
Definition a_failed (mf : bool) (a : ast) : ast :=
  mk_ast (a_view a) mf false (a_obj a) (a_sem a).

(** [shared_buffer_data] still points into [shared_buffer] after another global
    changed. *)
Lemma data_keep sl (b : bool) (f : slot -> cval) v d :
  (b = true -> d = (f Shared_buffer, QEM_SMI_DATA_BUFFER_META_DATA_SIZE)) ->
  b && negb (bool_decide (sl = Shared_buffer)) = true ->
  d = (if decide (Shared_buffer = sl) then v else f Shared_buffer,
       QEM_SMI_DATA_BUFFER_META_DATA_SIZE).
Proof.
  intros Hd [Hb Hn]%andb_true_iff. rewrite decide_False; [by apply Hd|].
  intros <-. by rewrite bool_decide_eq_true_2 in Hn.
Qed.

(** Run the administrative steps of a call. *)
Ltac px_run :=
  unfold on_os, assign, hold, let_go, set_ready;
  repeat first
    [ wp_step
    | lazymatch goal with |- wp _ ((_ ≫= _) ≫= _) _ _ => apply wp_bind end ].

(** Equality of everything but the handles, after the same updates. *)
Ltac glob_eq :=
  unfold glob in *; cbn in *;
  match goal with H : (_, _) = (_, _) |- _ => injection H; clear H; intros end;
  repeat match goal with E : ?x = ?y |- context [?x] => rewrite E; clear E end; reflexivity.

Section client_calls.
Context (F : Prop) (N : names).

Lemma wp_next_fault g a s :
  rel F N g a s ->
  wp False next_fault (fun x s' => (x <> 0 -> F) /\ rel F N g a s' /\
    slots s' = slots s /\ held s' = held s) s.
Proof.
  intros H. unfold next_fault. wp_step. destruct (os_faults (e_os s)) as [|x l] eqn:Hf.
  - by px_run.
  - px_run. assert (HF : F) by (by apply H; rewrite Hf).
    split; [done|]. split; [|done]. destruct H as [Hg Hh Ho Hz _ Hd]. split; [done|done| |done..].
    destruct Ho as [? ? ? ? ? ? ?]. by split.
Qed.

(** A global of an end that holds nothing through it. *)
Lemma rel_none g a s sl mf :
  rel F N g a s -> a_view a sl = None -> (sl <> Shared_buffer -> mf = a_mf a) ->
  rel F N g (a_failed mf a) (set_slot s sl (none mf sl)).
Proof.
  intros H Hv Hmf. split; cbn; try apply H; [|done]. eapply handles_set_none; [apply H|done..].
Qed.

Lemma rel_unset g a s sl :
  rel F N g a s -> a_view a sl = None -> sl <> Shared_buffer ->
  rel F N g a (set_slot s sl (unset sl)).
Proof.
  intros H Hv Hsl. split; cbn; try apply H.
  - replace (unset sl) with (none (a_mf a) sl)
      by (unfold none; by rewrite bool_decide_eq_false_2).
    by apply (handles_set_none _ (a_mf a)); [apply H|..].
  - intros Hd. rewrite decide_False by done. by apply H.
Qed.

(** What a step of the initialisation leaves: the new abstract state, or the old
    one when the call failed. *)
Definition step_post (g : env) (a : ast) (P : env -> ast -> Prop) (ok : bool) (s : env) : Prop :=
  if ok then exists g' a', P g' a' /\ rel F N g' a' s else F /\ rel F N g a s.

Lemma wp_acquire_create g a s sl n :
  rel F N g a s -> N <> Any -> shm_name sl = Some n -> a_view a sl = None ->
  wp False (acquire sl (shm_open_create n))
    (step_post g a (fun g' a' => g' = g /\ exists o, a' = a_put sl [] (a_set sl (Some o) a))) s.
Proof.
  intros H HN Hn Hv. unfold acquire, shm_open_create. px_run.
  eapply wp_seq; [by apply wp_next_fault|]. intros x s1 (Hx & H1 & _).
  assert (Hun : unset sl = NOFD) by by destruct sl.
  destruct (Z.eqb_spec x 0) as [->|Hne]; cbn [negb].
  - px_run. rewrite bool_decide_eq_false_2 by apply not_eq_sym, unset_no_ref. cbn [negb step_post].
    set (o := default _ _). exists g, (a_put sl [] (a_set sl (Some o) a)).
    split; [split; [done|by exists o]|].
    destruct H1 as [Hg Hh Ho Hz Hf Hd]. split; cbn.
    + done.
    + replace (RFd o) with (res (shared_buffer_size g) sl o) by by destruct sl.
      by apply handles_hold.
    + by apply os_create.
    + intros y fd o' Hfd Hy. unfold vset, supd in *.
      slot_cases; try slot_absurd; [|by eapply Hz].
      by rewrite (o_map _ _ _ _ _ Ho _ _ _ Hfd Hy) in Hv.
    + done.
    + by apply data_keep.
  - px_run. rewrite <- Hun.
    rewrite bool_decide_eq_true_2 by done. cbn. split; [by apply Hx|].
    apply rel_unset; [done|done|by destruct sl].
Qed.

Lemma wp_acquire_sem g a s sl n :
  rel F N g a s -> N <> Any -> sem_name sl = Some n -> a_view a sl = None ->
  wp False (acquire sl (sem_open_create n))
    (step_post g a (fun g' a' => g' = g /\ exists k, a' = a_val sl 0 (a_set sl (Some k) a))) s.
Proof.
  intros H HN Hn Hv. unfold acquire, sem_open_create. px_run.
  eapply wp_seq; [by apply wp_next_fault|]. intros x s1 (Hx & H1 & _). px_run.
  pose proof (o_sem_names _ _ _ _ _ (r_os _ _ _ _ _ H1) _ _ Hn) as Hnm.
  rewrite Hv in Hnm. rewrite (agree_None _ _ HN Hnm).
  assert (Hun : unset sl = SEM_FAILED) by by destruct sl.
  destruct (Z.eqb_spec x 0) as [->|Hne]; cbn [negb].
  - px_run. rewrite bool_decide_eq_false_2 by apply not_eq_sym, unset_no_ref.
    cbn [negb step_post]. set (k := fresh _).
    exists g, (a_val sl 0 (a_set sl (Some k) a)). split; [split; [done|by exists k]|].
    destruct H1 as [Hg Hh Ho Hz Hf Hd]. split; cbn.
    + done.
    + replace (RSem k) with (res (shared_buffer_size g) sl k) by by destruct sl.
      by apply handles_hold.
    + by apply os_sem_create.
    + intros y fd o' Hfd Hy. unfold vset in *. slot_cases; [slot_absurd|]. by eapply Hz.
    + done.
    + by apply data_keep.
  - px_run. rewrite <- Hun.
    rewrite bool_decide_eq_true_2 by done. cbn. split; [by apply Hx|].
    apply rel_unset; [done|done|by destruct sl].
Qed.

Lemma wp_with_slot {A} g a s sl o (k : cval -> C env A) Q :
  rel F N g a s -> a_view a sl = Some o ->
  (forall h, slots s sl = Ref h -> held s !! h = Some (res (shared_buffer_size g) sl o) ->
     wp False (k (Ref h)) Q s) ->
  wp False (with_slot sl k) Q s.
Proof.
  intros H Hv Hk. destruct (h_some _ _ _ _ _ (r_handles _ _ _ _ _ H) _ _ Hv) as (h & Hs & Hh).
  unfold with_slot. wp_step. rewrite Hs. by apply Hk.
Qed.

(** Looking up a handle that is held. *)
Lemma wp_find {A} h r (f : option (nat * resource) -> C env A) Q s :
  held s !! h = Some r -> wp False (f (Some (h, r))) Q s -> wp False (find (Ref h) ≫= f) Q s.
Proof. intros Hh Hf. unfold find. px_run. by rewrite Hh. Qed.

Lemma wp_ftruncate g a s sl n o size :
  rel F N g a s -> shm_name sl = Some n -> a_view a sl = Some o ->
  (forall x, fd_of x = Some sl -> a_view a x = None) ->
  wp False (succeeds (with_slot sl (fun fd => ftruncate fd size)))
    (step_post g a (fun g' a' => g' = g /\ a' = a_put sl (resize (Z.to_nat size) 0 (a_obj a sl)) a)) s.
Proof.
  intros H Hn Hv Hm. unfold succeeds. apply wp_bind. eapply wp_with_slot; [done..|].
  intros h Hs Hh. unfold ftruncate. eapply wp_seq; [by apply wp_next_fault|].
  intros x s1 (Hx & H1 & Hs1 & Hh1). rewrite <- Hh1 in Hh. eapply wp_find; [done|].
  replace (res _ sl o) with (RFd o) by by destruct sl.
  destruct (Z.eqb_spec x 0) as [->|Hne]; cbn [negb].
  - px_run. eexists _, _; split; [done|]. destruct H1 as [Hg Hh' Ho Hz Hf Hd].
    split; cbn; [done|done| | |done..].
    + rewrite (alter_Some _ _ _ _ (o_obj _ _ _ _ _ Ho _ _ _ Hn Hv)). by eapply os_write.
    + intros y fd o' Hfd Hy. unfold supd. slot_cases; [by rewrite Hm in Hy|]. by eapply Hz.
  - px_run. cbn. split; [by apply Hx|done].
Qed.

Lemma wp_acquire_map g a s sl fd o len :
  rel F N g a s -> fd_of sl = Some fd -> a_view a fd = Some o -> a_view a sl = None ->
  sl <> Shared_buffer -> len = map_len (shared_buffer_size g) sl ->
  0 < len <= Z.of_nat (length (a_obj a fd)) ->
  wp False (acquire sl (with_slot fd (mmap len)))
    (step_post g a (fun g' a' => g' = g /\ a' = a_set sl (Some o) a)) s.
Proof.
  intros H Hfd Hv Hn Hsl Hres Hlen. unfold acquire. apply wp_bind.
  eapply wp_with_slot; [done..|].
  intros h Hs Hh. unfold mmap. eapply wp_seq; [by apply wp_next_fault|].
  intros x s1 (Hx & H1 & Hs1 & Hh1). rewrite <- Hh1 in Hh. eapply wp_find; [done|].
  replace (res _ fd o) with (RFd o)
    by (destruct sl; try discriminate; by injection Hfd as <-).
  assert (Hun : unset sl = MAP_FAILED) by by destruct sl.
  rewrite (proj2 (Z.eqb_neq len 0)), orb_false_r by lia.
  destruct (Z.eqb_spec x 0) as [->|Hne]; cbn [negb].
  - px_run. rewrite bool_decide_eq_false_2 by apply not_eq_sym, unset_no_ref.
    eexists _, _; split; [done|]. destruct H1 as [Hg Hh' Ho Hz Hf Hd].
    split; cbn; [done| | | |done|by apply data_keep].
    + replace (RMap o len) with (res (shared_buffer_size g) sl o)
        by (subst len; by destruct sl).
      by apply handles_hold.
    + apply os_vset; [done|by destruct sl..|]. congruence.
    + intros y fd' o' Hfd' Hy. unfold vset in Hy. slot_cases; [|by eapply Hz].
      simplify_eq. lia.
  - px_run. rewrite <- Hun, bool_decide_eq_true_2 by done. cbn. split; [by apply Hx|].
    by apply rel_unset.
Qed.

Lemma wp_acquire_malloc g a s fill :
  rel F N g a s -> a_view a Local_buffer = None ->
  wp False (acquire Local_buffer (malloc fill))
    (step_post g a (fun g' a' => g' = set_local g fill /\
       a' = a_set Local_buffer (Some 0%nat) a)) s.
Proof.
  intros H Hv. unfold acquire, malloc. px_run.
  eapply wp_seq; [by apply wp_next_fault|]. intros x s1 (Hx & H1 & _).
  destruct (Z.eqb_spec x 0) as [->|Hne]; cbn [negb].
  - px_run. rewrite bool_decide_eq_false_2 by done. eexists _, _; split; [done|].
    destruct H1 as [Hg Hh Ho Hz Hf Hd]. split; cbn; [glob_eq| | | |done|by apply data_keep].
    + change RHeap with (res (shared_buffer_size g) Local_buffer 0). by apply handles_hold.
    + by apply os_vset.
    + intros y fd o' Hfd Hy. unfold vset in Hy. slot_cases; [done|]. by eapply Hz.
  - px_run. rewrite bool_decide_eq_true_2 by done. cbn. split; [by apply Hx|].
    by apply (rel_unset g a s1 Local_buffer).
Qed.

Lemma wp_attr_setpshared g a s :
  rel F N g a s -> 
  wp False (succeeds attr_setpshared) (step_post g a (fun g' a' => g' = g /\ a' = a)) s.
Proof.
  intros H. unfold succeeds, attr_setpshared. eapply wp_seq; [by apply wp_next_fault|].
  intros x s1 (Hx & H1 & _). px_run. destruct (Z.eqb_spec x 0) as [->|Hne]; cbn.
  - eexists _, _. by split.
  - split; [by apply Hx|done].
Qed.

(** The globals once the synchronisation object [k] is initialised. *)
Definition g_ready (k : sync) (b : bool) (g : env) : env :=
  set_sync_ready g (fun x => if decide (x = k) then b else sync_ready g x).

Lemma rel_ready g a s k b :
  rel F N g a s ->
  rel F N (g_ready k b g) a
    (set_sync_ready s (fun x => if decide (x = k) then b else sync_ready s x)).
Proof. intros [Hg Hh Ho Hz Hf Hd]. split; cbn; [|done..]. unfold g_ready. glob_eq. Qed.

Lemma wp_attr_init g a s k :
  rel F N g a s ->
  wp False (succeeds (attr_init k)) (step_post g a (fun g' a' => g' = g_ready k true g /\ a' = a)) s.
Proof.
  intros H. unfold succeeds, attr_init. px_run. eapply wp_seq; [by apply wp_next_fault|].
  intros x s1 (Hx & H1 & _). destruct (Z.eqb_spec x 0) as [->|Hne].
  - rewrite when_true. px_run. eexists _, _. split; [done|]. by apply rel_ready.
  - rewrite when_false. px_run. rewrite (proj2 (Z.eqb_neq _ _)) by done.
    cbn. split; [by apply Hx|done].
Qed.

(** Access to a mapping that is held. *)
Lemma wp_mapped {A} g a s sl fd n o h m (f : nat * bytes -> C env A) Q :
  rel F N g a s -> fd_of sl = Some fd -> shm_name fd = Some n -> a_view a sl = Some o ->
  held s !! h = Some (res (shared_buffer_size g) sl o) ->
  Z.of_nat m <= map_len (shared_buffer_size g) sl ->
  wp False (f (o, a_obj a fd)) Q s -> wp False (mapped (Ref h) m ≫= f) Q s.
Proof.
  intros H Hfd Hn Hv Hh Hm Hk. unfold mapped. px_run. eapply wp_find; [done|].
  replace (res _ sl o) with (RMap o (map_len (shared_buffer_size g) sl)) by by destruct sl.
  pose proof (o_map _ _ _ _ _ (r_os _ _ _ _ _ H) _ _ _ Hfd Hv) as Hvf. px_run.
  rewrite (o_obj _ _ _ _ _ (r_os _ _ _ _ _ H) _ _ _ Hn Hvf).
  pose proof (r_sized _ _ _ _ _ H _ _ _ Hfd Hv).
  eapply wp_access; [done|]. rewrite (proj2 (Z.leb_le _ _)), (proj2 (Nat.leb_le _ _)) by lia.
  done.
Qed.

Lemma wp_obj_init g a s k sl fd n o size reset :
  rel F N g a s -> fd_of sl = Some fd -> shm_name fd = Some n -> a_view a sl = Some o ->
  size = map_len (shared_buffer_size g) sl -> 0 <= size ->
  (forall w, os_objs (reset w) = os_objs w /\ os_sems (reset w) = os_sems w /\
     os_shm (reset w) = os_shm w /\ os_sem (reset w) = os_sem w /\ os_faults (reset w) = os_faults w) ->
  (forall s, glob s = glob g -> glob (set_os s (reset (e_os s))) = glob (set_os g (reset (e_os g)))) ->
  wp False (succeeds (with_slot sl (fun p => obj_init k p size reset)))
    (step_post g a (fun g' a' => g' = g_ready k true (set_os g (reset (e_os g))) /\ a' = a)) s.
Proof.
  intros H Hfd Hn Hv Hlen Hpos Hre Hgl. unfold succeeds. apply wp_bind.
  eapply wp_with_slot; [done..|]. intros h Hs Hh. unfold obj_init.
  eapply wp_seq; [by apply wp_next_fault|]. intros x s1 (Hx & H1 & Hs1 & Hh1).
  rewrite <- Hh1 in Hh. eapply wp_mapped; [done..|lia|].
  destruct (Z.eqb_spec x 0) as [->|Hne].
  - rewrite when_true. px_run. eexists _, _. split; [done|].
    apply (rel_ready (set_os g (reset (e_os g))) a (set_os s1 (reset (e_os s1))) k true).
    destruct H1 as [Hg Hh' Ho Hz Hf Hd]. destruct (Hre (e_os s1)) as (E1 & E2 & E3 & E4 & E5).
    split; cbn; [by apply Hgl|done| |done|by rewrite E5|done].
    destruct Ho. split; rewrite ?E1, ?E2, ?E3, ?E4; done.
  - rewrite when_false. px_run. rewrite (proj2 (Z.eqb_neq _ _)) by done.
    cbn. split; [by apply Hx|done].
Qed.

(** *** Releasing *)

Lemma rel_ext g a a' s :
  rel F N g a s -> (forall sl, a_view a sl = a_view a' sl) -> a_mf a = a_mf a' ->
  (a_data a' = true -> a_data a = true) -> a_obj a = a_obj a' -> a_sem a = a_sem a' -> rel F N g a' s.
Proof.
  destruct a as [V mf d B K], a' as [V' mf' d' B' K']. cbn. intros H HV <- Hdd <- <-.
  destruct H as [Hg Hh Ho Hz Hf Hd]. split; cbn in *; [done| | | |done|by auto].
  - destruct Hh. split; [intros ? ?|intros ?|done..]; rewrite <- HV; auto.
  - destruct Ho. split; repeat setoid_rewrite <- HV; auto.
  - setoid_rewrite <- HV. auto.
Qed.

Lemma rel_unset_view g a s sl :
  rel F N g a s -> a_view a sl = None -> (sl = Shared_buffer -> a_mf a = false) ->
  rel F N g (a_set sl None a) s.
Proof.
  intros H Hv Hmf. eapply rel_ext; [done|..]; try done; cbn.
  - intros x. unfold vset. by slot_cases.
  - destruct (bool_decide_reflect (sl = Shared_buffer)) as [->|]; [by rewrite Hmf|].
    by rewrite andb_true_r.
  - by intros [? _]%andb_true_iff.
Qed.

(** Skipping what is not held, and what releasing a handle leaves. *)
Lemma wp_if_set g a s sl (k : cval -> C env ()) (Q : () -> env -> Prop) :
  rel F N g a s -> (sl = Shared_buffer -> a_mf a = false) ->
  (a_view a sl = None -> rel F N g (a_set sl None a) s -> Q tt s) ->
  (forall h o, slots s sl = Ref h -> a_view a sl = Some o ->
     held s !! h = Some (res (shared_buffer_size g) sl o) ->
     wp False (k (Ref h)) (fun _ s' => Q tt (set_slot s' sl (unset sl))) s) ->
  wp False (if_set sl k) Q s.
Proof.
  intros H Hmf Hn Hk. unfold if_set. wp_step. destruct (a_view a sl) as [o|] eqn:Hv.
  - destruct (h_some _ _ _ _ _ (r_handles _ _ _ _ _ H) _ _ Hv) as (h & Hs & Hh).
    rewrite Hs, bool_decide_eq_false_2 by apply not_eq_sym, unset_no_ref. rewrite when_true.
    apply wp_bind. eapply wp_mono; [by eapply Hk|]. intros [] s' HQ. by px_run.
  - rewrite (h_none _ _ _ _ _ (r_handles _ _ _ _ _ H) _ Hv). unfold none.
    replace (_ && a_mf a) with false.
    + rewrite bool_decide_eq_true_2 by done. rewrite when_false. wp_step.
      apply Hn; [done|]. by apply rel_unset_view.
    + destruct (bool_decide_reflect (sl = Shared_buffer)) as [->|]; [by rewrite Hmf|done].
Qed.

Lemma rel_let_go g a s sl h w :
  rel F N g a s -> slots s sl = Ref h ->
  glob (set_os s w) = glob s -> (os_faults w <> [] -> F) ->
  osrel N (vset sl None (a_view a)) (a_obj a) (a_sem a) w ->
  rel F N g (a_set sl None a)
    (set_slot (set_os (set_held s (delete h (held s))) w) sl (unset sl)).
Proof.
  intros H Hs Hw Hf Ho. split; cbn.
  - etrans; [exact Hw|exact (r_glob _ _ _ _ _ H)].
  - apply handles_let_go; [apply H|done].
  - done.
  - intros y fd o Hfd Hy. unfold vset in Hy. slot_cases; [done|]. by eapply H.
  - done.
  - by apply data_keep, H.
Qed.

Lemma set_os_id s : set_os s (e_os s) = s.
Proof. by destruct s. Qed.

Lemma wp_munmap g a s sl fd o h :
  rel F N g a s -> fd_of sl = Some fd -> slots s sl = Ref h -> a_view a sl = Some o ->
  held s !! h = Some (res (shared_buffer_size g) sl o) ->
  wp False (munmap (Ref h) (map_len (shared_buffer_size g) sl))
    (fun _ s' => rel F N g (a_set sl None a) (set_slot s' sl (unset sl))) s.
Proof.
  intros H Hfd Hs Hv Hh. unfold munmap. eapply wp_find; [done|].
  replace (res _ sl o) with (RMap o (map_len (shared_buffer_size g) sl)) by by destruct sl.
  rewrite Z.eqb_refl. px_run.
  rewrite <- (set_os_id (set_held s _)). apply rel_let_go; [done|done|done|apply H|].
  apply os_vset; [apply H|by destruct sl..|done].
Qed.

Lemma wp_release_fd g a s sl n :
  rel F N g a s -> shm_name sl = Some n -> (forall x, fd_of x = Some sl -> a_view a x = None) ->
  wp False (if_set sl (fun fd => close fd ;; shm_unlink n))
    (fun _ s' => rel F N g (a_set sl None a) s') s.
Proof.
  intros H Hn Hm. apply (wp_if_set g a); [done|by destruct sl|done|].
  intros h o Hs Hv Hh. unfold close, shm_unlink. px_run. eapply wp_find; [done|].
  replace (res _ sl o) with (RFd o) by by destruct sl. px_run.
  apply rel_let_go; [done|done|done|apply H|]. apply os_close; [apply H|done|done].
Qed.

Lemma wp_release_sem g a s sl n :
  rel F N g a s -> sem_name sl = Some n ->
  wp False (if_set sl (fun v => sem_close v ;; sem_unlink n))
    (fun _ s' => rel F N g (a_set sl None a) s') s.
Proof.
  intros H Hn. apply (wp_if_set g a); [done|by destruct sl|done|].
  intros h o Hs Hv Hh. unfold sem_close, sem_unlink. px_run. eapply wp_find; [done|].
  replace (res _ sl o) with (RSem o) by by destruct sl. px_run.
  apply rel_let_go; [done|done|done|apply H|]. apply os_sem_close; [apply H|done].
Qed.

Lemma wp_release_local g a s :
  rel F N g a s ->
  wp False (if_set Local_buffer free) (fun _ s' => rel F N g (a_set Local_buffer None a) s') s.
Proof.
  intros H. apply (wp_if_set g a); [done|done|done|].
  intros h o Hs Hv Hh. unfold free. eapply wp_find; [done|]. cbn [res]. px_run.
  rewrite <- (set_os_id (set_held s _)). apply rel_let_go; [done|done|done|apply H|].
  by apply os_vset; [apply H|..].
Qed.

Lemma wp_release_shared g a s :
  rel F N g a s ->
  wp False (if_set Shared_buffer (fun p => munmap p (shared_buffer_size g)))
    (fun _ s' => rel F N g (a_set Shared_buffer None a) s') s.
Proof.
  intros H. destruct (a_view a Shared_buffer) as [o|] eqn:Hv.
  - destruct (h_some _ _ _ _ _ (r_handles _ _ _ _ _ H) _ _ Hv) as (h & Hs & Hh).
    unfold if_set. wp_step. rewrite Hs, bool_decide_eq_false_2, when_true by done. apply wp_bind.
    eapply wp_mono; [by apply (wp_munmap g a s Shared_buffer Shm_fd o h)|].
    intros [] s' H'. by px_run.
  - unfold if_set. wp_step. rewrite (h_none _ _ _ _ _ (r_handles _ _ _ _ _ H) _ Hv).
    unfold none. rewrite (bool_decide_eq_true_2 (Shared_buffer = Shared_buffer)) by done. cbn [andb].
    destruct (a_mf a) eqn:Hmf.
    + rewrite bool_decide_eq_false_2, when_true by done. unfold munmap, find. px_run.
      eapply rel_ext; [by apply (rel_none g a s Shared_buffer false)|..]; try done; cbn.
      * intros x. unfold vset. by slot_cases.
      * by rewrite andb_false_r.
      * by rewrite andb_false_r.
    + rewrite bool_decide_eq_true_2, when_false by done. px_run. by apply rel_unset_view.
Qed.

(** The globals once the synchronisation object [k] is destroyed. *)
Definition g_destroy (k : sync) (g : env) : env :=
  if sync_ready g k then g_ready k false g else set_misuse g (misuse g ++ [k]).

Lemma size_destroy k g : shared_buffer_size (g_destroy k g) = shared_buffer_size g.
Proof. unfold g_destroy. by destruct (sync_ready g k). Qed.

Lemma code_destroy k g : error_code (g_destroy k g) = error_code g.
Proof. unfold g_destroy. by destruct (sync_ready g k). Qed.

Lemma wp_sync_destroy g a s k :
  rel F N g a s ->
  wp False (sync_destroy k) (fun _ s' => rel F N (g_destroy k g) a s' /\
    slots s' = slots s /\ held s' = held s) s.
Proof.
  intros H. unfold sync_destroy, g_destroy. px_run.
  assert (Hr : sync_ready s = sync_ready g) by (pose proof (r_glob _ _ _ _ _ H) as Hg; glob_eq).
  rewrite Hr. destruct (sync_ready g k).
  - px_run. split; [|done]. by apply rel_ready.
  - px_run. split; [|done]. destruct H as [Hg Hh Ho Hz Hf Hd]. split; cbn; [glob_eq|done..].
Qed.

Lemma wp_release_obj g a s sl fd n k :
  rel F N g a s -> fd_of sl = Some fd -> shm_name fd = Some n -> sl <> Shared_buffer ->
  let len := map_len (shared_buffer_size g) sl in
  wp False (if_set sl (fun p => obj_destroy k p len ;; munmap p len))
    (fun _ s' => rel F N (if a_view a sl is Some _ then g_destroy k g else g) (a_set sl None a) s') s.
Proof.
  intros H Hfd Hn Hsl len. apply (wp_if_set g a); [done|done|by intros ->|].
  intros h o Hs Hv Hh. rewrite Hv. unfold obj_destroy. px_run.
  assert (0 <= len) by (subst len; by destruct sl).
  eapply wp_mapped; [done..|lia|].
  eapply wp_mono; [by apply wp_sync_destroy|]. intros [] s1 (H1 & Hs1 & Hh1).
  subst len. rewrite <- (size_destroy k g).
  eapply wp_munmap; [done..|by rewrite Hs1|done|by rewrite Hh1, size_destroy].
Qed.

(** What releasing leaves of the globals, and of the handles. *)
Definition g_after (V : view) (g : env) : env :=
  let g := if V Mon_lock is Some _ then g_destroy Lock_obj g else g in
  let g := if V Cond_read is Some _ then g_destroy Read_obj g else g in
  let g := if V Cond_write is Some _ then g_destroy Write_obj g else g in
  set_error_code (g_destroy Lock_attr (g_destroy Write_attr (g_destroy Read_attr g)))
    QEM_SMI_UNINIT.

Definition a_none (a : ast) : ast := mk_ast (fun _ => None) false false (a_obj a) (a_sem a).

Lemma rel_code g a s c :
  rel F N g a s -> rel F N (set_error_code g c) a (set_error_code s c).
Proof. intros [Hg Hh Ho Hz Hf Hd]. split; cbn; [glob_eq|done..]. Qed.

Lemma fd_map_none (V : view) fd sl :
  fd_of sl = Some fd -> V sl = None -> forall x, fd_of x = Some fd -> V x = None.
Proof. intros Hsl Hv x Hx. destruct sl, x; simplify_eq/=; done. Qed.

Lemma wp_client_release g a s :
  rel F N g a s ->
  wp False client_release (fun _ s' => rel F N (g_after (a_view a) g) (a_none a) s') s.
Proof.
  intros H. unfold client_release. wp_step.
  replace (shared_buffer_size s) with (shared_buffer_size g)
    by (pose proof (r_glob _ _ _ _ _ H) as Hg; glob_eq).
  eapply wp_seq; [by apply wp_release_shared|]. intros [] s1 H1.
  eapply wp_seq; [eapply wp_release_fd; [exact H1|done|by eapply (fd_map_none _ _ Shared_buffer)]|].
  intros [] s2 H2.
  eapply wp_seq; [by apply (wp_release_local _ _ _ H2)|]. intros [] s3 H3.
  eapply wp_seq; [by apply (wp_release_sem _ _ _ _ _ H3)|]. intros [] s4 H4.
  eapply wp_seq; [by apply (wp_release_sem _ _ _ _ _ H4)|]. intros [] s5 H5.
  eapply wp_seq; [by eapply (wp_release_obj _ _ _ Mon_lock Mon_lock_fd _ Lock_obj H5)|].
  intros [] s6 H6.
  eapply wp_seq; [eapply wp_release_fd; [exact H6|done|by eapply (fd_map_none _ _ Mon_lock)]|].
  intros [] s7 H7.
  eapply wp_seq; [by eapply (wp_release_obj _ _ _ Cond_read Cond_read_fd _ Read_obj H7)|].
  intros [] s8 H8.
  eapply wp_seq; [eapply wp_release_fd; [exact H8|done|by eapply (fd_map_none _ _ Cond_read)]|].
  intros [] s9 H9.
  eapply wp_seq; [by eapply (wp_release_obj _ _ _ Cond_write Cond_write_fd _ Write_obj H9)|].
  intros [] s10 H10.
  eapply wp_seq; [eapply wp_release_fd; [exact H10|done|by eapply (fd_map_none _ _ Cond_write)]|].
  intros [] s11 H11.
  eapply wp_seq; [by apply (wp_sync_destroy _ _ _ Read_attr H11)|]. intros [] s12 (H12 & _).
  eapply wp_seq; [by apply (wp_sync_destroy _ _ _ Write_attr H12)|]. intros [] s13 (H13 & _).
  eapply wp_seq; [by apply (wp_sync_destroy _ _ _ Lock_attr H13)|]. intros [] s14 (H14 & _).
  px_run. eapply rel_ext; [exact (rel_code _ _ _ QEM_SMI_UNINIT H14)|..]; try done; cbn.
  - intros x. by destruct x.
  - by rewrite !andb_false_r.
Qed.

Lemma wp_map_write g a s o h off bs :
  rel F N g a s -> a_view a Shared_buffer = Some o -> slots s Shared_buffer = Ref h ->
  Z.of_nat (off + length bs) <= shared_buffer_size g ->
  wp False (map_write (Ref h) off bs)
    (fun _ s' => rel F N g (a_put Shm_fd (splice off bs (a_obj a Shm_fd)) a) s' /\
       slots s' = slots s /\ held s' = held s) s.
Proof.
  intros H Hv Hs Hlen. unfold map_write.
  assert (Hh : held s !! h = Some (res (shared_buffer_size g) Shared_buffer o)).
  { destruct (handles_ref _ _ _ _ _ _ _ (r_handles _ _ _ _ _ H) Hs) as (o' & Ho' & Hh).
    congruence. }
  eapply (wp_mapped g a s Shared_buffer Shm_fd); [done..|].
  pose proof (r_sized _ _ _ _ _ H _ _ _ (eq_refl : fd_of Shared_buffer = Some Shm_fd) Hv) as Hz.
  cbn in Hz. eapply wp_access; [apply mem_write_Some; cbn; lia|]. px_run. split; [|done].
  pose proof (o_map _ _ _ _ _ (r_os _ _ _ _ _ H) Shared_buffer _ _ eq_refl Hv) as Hvf.
  destruct H as [Hg Hh' Ho Hsz Hf Hd]. split; cbn; [done|done| | |done|done].
  - by eapply os_write.
  - intros y fd o' Hfd Hy. unfold supd. slot_cases; [|by eapply Hsz].
    rewrite length_splice by lia. by eapply Hsz.
Qed.

(** Mapping the shared memory, and the mapping of a closed descriptor. *)
Lemma wp_map_shared g a s o len :
  rel F N g a s -> a_view a Shm_fd = Some o -> a_view a Shared_buffer = None ->
  len = shared_buffer_size g -> 0 < len <= Z.of_nat (length (a_obj a Shm_fd)) ->
  wp False (map_shared len) (fun ok s' =>
    if ok : bool then rel F N g (a_set Shared_buffer (Some o) a) s'
    else F /\ rel F N g (a_failed true a) s') s.
Proof.
  intros H Hv Hn Hlen Hsz. unfold map_shared. apply wp_bind.
  eapply wp_with_slot; [done..|].
  intros h Hs Hh. unfold mmap. eapply wp_seq; [by apply wp_next_fault|].
  intros x s1 (Hx & H1 & Hs1 & Hh1). rewrite <- Hh1 in Hh. eapply wp_find; [done|].
  cbn [res]. rewrite (proj2 (Z.eqb_neq len 0)), orb_false_r by lia.
  destruct (Z.eqb_spec x 0) as [->|Hne]; cbn [negb].
  - px_run. rewrite bool_decide_eq_false_2 by done. cbn.
    destruct H1 as [Hg Hh' Ho Hz Hf Hd].
    split; cbn; [done| | | |done|by rewrite andb_false_r].
    + rewrite Hlen. by apply (handles_hold _ _ _ _ _ Shared_buffer o).
    + apply os_vset; [done..|]. by intros fd o0 [= <-] [= <-].
    + intros y fd' o' Hfd' Hy. unfold vset in Hy. slot_cases; [|by eapply Hz].
      simplify_eq/=. lia.
  - px_run. rewrite bool_decide_eq_true_2 by done. cbn. split; [by apply Hx|].
    by apply (rel_none g a s1 Shared_buffer true).
Qed.

Lemma wp_map_shared_closed g a s len :
  rel F N g a s -> a_view a Shm_fd = None -> a_view a Shared_buffer = None ->
  wp False (map_shared len) (fun ok s' => ok = false /\ rel F N g (a_failed true a) s') s.
Proof.
  intros H Hv Hn. unfold map_shared, with_slot. px_run.
  rewrite (h_none _ _ _ _ _ (r_handles _ _ _ _ _ H) _ Hv).
  change (none (a_mf a) Shm_fd) with NOFD. unfold mmap.
  px_run. eapply wp_seq; [by apply wp_next_fault|]. intros x s1 (Hx & H1 & _).
  unfold find. px_run. rewrite bool_decide_eq_true_2 by done. split; [done|].
  by apply (rel_none g a s1 Shared_buffer true).
Qed.

(** [mmap] does not look at the globals. *)
Lemma mmap_slots len v s f :
  mmap len v (set_slots s f) =
  match mmap len v s with
  | Done (p, s') => Done (p, set_slots s' f)
  | Exit c => Exit c
  | Undefined => Undefined
  end.
Proof.
  unfold mmap, next_fault, find, hold, on_os, mbind, C_bind, gets, modify, mret, C_ret. cbn.
  destruct (os_faults (e_os s)) as [|x l]; cbn;
    destruct v as [| | | |h]; cbn; try done;
    destruct (held s !! h) as [[]|]; cbn; try done.
  - by destruct (len =? 0).
  - by destruct (_ || _).
Qed.

Lemma rel_slots g a s f :
  rel F N g a s -> (forall sl, f sl = slots s sl) -> rel F N g a (set_slots s f).
Proof.
  intros [Hg Hh Ho Hz Hf Hd] E. split; cbn; try done; [|by rewrite E].
  destruct Hh as [H1 H2 H3 H4]. split.
  - intros sl o. rewrite E. apply H1.
  - intros sl. rewrite E. apply H2.
  - intros sl sl' h. rewrite !E. apply H3.
  - intros h Hh. destruct (H4 _ Hh) as [sl Hsl]. exists sl. by rewrite E.
Qed.

(** The value [shared_buffer] had before does not matter. *)
Lemma wp_map_shared_over len s v Q :
  wp False (map_shared len) (fun ok s' => forall f, (forall sl, f sl = slots s' sl) ->
    Q ok (set_slots s' f)) s ->
  wp False (map_shared len) Q (set_slot s Shared_buffer v).
Proof.
  unfold wp, map_shared, with_slot, set_slot, assign, mbind, C_bind, gets, modify, mret, C_ret. cbn.
  rewrite mmap_slots, (decide_False (P := Shm_fd = Shared_buffer)) by done.
  destruct (mmap len (slots s Shm_fd) s) as [[p s']| |] eqn:E; cbn; try done.
  intros H. unfold set_slot in *. cbn in *.
  assert (Hs : slots s' = slots s).
  { pose proof (mmap_slots len (slots s Shm_fd) s (slots s)) as Hm.
    replace (set_slots s (slots s)) with s in Hm by by destruct s. rewrite E in Hm.
    injection Hm as Hm. rewrite Hm. done. }
  apply H. intros sl. rewrite Hs. by slot_cases.
Qed.

(** Pointing [shared_buffer_data] into the mapping. *)
Definition a_pointed (a : ast) : ast := mk_ast (a_view a) (a_mf a) true (a_obj a) (a_sem a).

Lemma rel_set_data g a s :
  rel F N g a s -> let d := (slots s Shared_buffer, QEM_SMI_DATA_BUFFER_META_DATA_SIZE) in
  rel F N (set_data g d) (a_pointed a) (set_data s d).
Proof. intros [Hg Hh Ho Hz Hf Hd] d. split; cbn; [glob_eq|done..]. Qed.

Lemma rel_set_size g a s size :
  rel F N g a s -> a_view a Shared_buffer = None -> rel F N (set_size g size) a (set_size s size).
Proof.
  intros [Hg Hh Ho Hz Hf Hd] Hv. split; cbn; [glob_eq| |done| |done|done].
  - destruct Hh as [H1 H2 H3 H4]. split; [|done..]. intros sl o Hsl.
    destruct (H1 _ _ Hsl) as (h & Hs & Hh). exists h. split; [done|].
    rewrite Hh. destruct sl; try done; congruence.
  - intros sl fd o Hfd Hsl. pose proof (Hz _ _ _ Hfd Hsl). destruct sl; try done; congruence.
Qed.

Lemma rel_set_index g a s i : rel F N g a s -> rel F N (set_index g i) a (set_index s i).
Proof. intros [Hg Hh Ho Hz Hf Hd]. split; cbn; [glob_eq|done..]. Qed.
End client_calls.
