(* ===== verification/SmiConnProof.v ===== *)
(** * Shared memory interface: proofs about the connection

    Whatever calls fail, the initialisation of QEMU's end succeeds or releases
    everything; the two ends agree on whether they are connected; and once they
    are, the ring is in the state its proofs start from. *)

From S2P Require Import Prelude SmiDef SmiRing SmiRingProof SmiPosix SmiConn SmiHandles.

(** ** QEMU's initialisation *)

(** The shared memory once the metadata is written. *)
Definition metadata (bc bs : Z) (data : bytes) : bytes :=
  le QEM_SMI_META_BLOCK_COUNT_SIZE bc ++ le QEM_SMI_META_BLOCK_MASK_SIZE 0 ++
  le QEM_SMI_META_BLOCK_SIZE_SIZE bs ++ data.

Lemma splice_app {A} (x y z bs : list A) off :
  length x = off -> length y = length bs -> splice off bs (x ++ y ++ z) = x ++ bs ++ z.
Proof.
  intros <- Hy. unfold splice. rewrite take_app_length. do 2 f_equal.
  rewrite <- Hy, app_assoc. by rewrite drop_app_length' by (rewrite length_app; lia).
Qed.

Lemma metadata_written bc bs k :
  splice QEM_SMI_META_BLOCK_SIZE_OFFSET (le QEM_SMI_META_BLOCK_SIZE_SIZE bs)
    (splice QEM_SMI_META_BLOCK_MASK_OFFSET (le QEM_SMI_META_BLOCK_MASK_SIZE 0)
       (splice QEM_SMI_META_BLOCK_COUNT_OFFSET (le QEM_SMI_META_BLOCK_COUNT_SIZE bc)
          (replicate (QEM_SMI_DATA_BUFFER_META_DATA_SIZE + k) 0))) =
  metadata bc bs (replicate k 0).
Proof.
  smi_layout. unfold metadata. smi_layout.
  change (8 + k)%nat with (0 + (2 + (2 + (4 + k))))%nat. rewrite !replicate_add.
  rewrite splice_app by (by rewrite ?length_le). cbn [replicate app].
  change (0 :: 0 :: ?l) with ([0; 0] ++ l).
  rewrite splice_app by (by rewrite ?length_le).
  rewrite (app_assoc (le 2 bc)). change (0 :: 0 :: 0 :: 0 :: ?l) with ([0; 0; 0; 0] ++ l).
  rewrite splice_app; [by rewrite <- app_assoc|by rewrite length_app, !length_le|by rewrite length_le].
Qed.

Section client_init.
Context (F : Prop) (N : names) (HN : N <> Any).
Context (bc bs junk : Z) (fill : Z -> bytes).

(** The attributes of the synchronisation objects are not initialised. *)
Definition no_attr (g : env) : Prop :=
  sync_ready g Read_attr = false /\ sync_ready g Write_attr = false /\
  sync_ready g Lock_attr = false.

(** Nothing held and the status reset, as [qem_smi_client_disconnect] leaves it,
    after at least [n] uses of an object that was not initialised. *)
Definition closed (n : nat) (s : env) : Prop :=
  exists g a, rel F N g a s /\ (forall sl, a_view a sl = None) /\ a_mf a = false /\
    error_code g = QEM_SMI_UNINIT /\ no_attr g /\ (n <= length (misuse g))%nat.

Lemma ready_destroy k k' g :
  sync_ready (g_destroy k g) k' = (if decide (k' = k) then false else sync_ready g k').
Proof. unfold g_destroy, g_ready. destruct (sync_ready g k) eqn:E; cbn; by case_decide; subst. Qed.

Lemma misuse_destroy k g :
  misuse (g_destroy k g) = misuse g ++ (if sync_ready g k then [] else [k]).
Proof. unfold g_destroy. destruct (sync_ready g k); cbn; by rewrite ?app_nil_r. Qed.

Lemma g_after_spec V g :
  no_attr (g_after V g) /\
  (length (misuse g) <= length (misuse (g_after V g)))%nat /\
  (no_attr g -> (length (misuse g) + 3 <= length (misuse (g_after V g)))%nat).
Proof.
  unfold g_after. cbn.
  rewrite !misuse_destroy, !ready_destroy, !(decide_False (P := _ = _)) by done.
  assert (Hm : forall (o : option nat) k g', 
    let g1 := if o is Some _ then g_destroy k g' else g' in
    (length (misuse g') <= length (misuse g1))%nat /\
    (k <> Read_attr -> k <> Write_attr -> k <> Lock_attr -> no_attr g' -> no_attr g1)).
  { intros o k g'. destruct o; cbn; [|done]. rewrite misuse_destroy, length_app.
    split; [lia|]. intros ? ? ? (? & ? & ?). unfold no_attr.
    rewrite !ready_destroy, !decide_False by done. done. }
  set (g1 := if V Mon_lock is Some _ then _ else _).
  set (g2 := if V Cond_read is Some _ then _ else _).
  set (g3 := if V Cond_write is Some _ then _ else _).
  destruct (Hm (V Mon_lock) Lock_obj g) as [L1 A1]. cbn zeta in L1, A1. fold g1 in L1, A1.
  destruct (Hm (V Cond_read) Read_obj g1) as [L2 A2]. cbn zeta in L2, A2. fold g2 in L2, A2.
  destruct (Hm (V Cond_write) Write_obj g2) as [L3 A3]. cbn zeta in L3, A3. fold g3 in L3, A3.
  split_and!.
  - unfold no_attr. cbn. by rewrite !ready_destroy.
  - rewrite !length_app. lia.
  - intros Hg. destruct A3 as (R1 & R2 & R3); [done..|by apply A2, A1|].
    rewrite R1, R2, R3, !length_app. cbn. lia.
Qed.

Lemma wp_disconnect g a s :
  rel F N g a s -> error_code g <> QEM_SMI_CONNECTED ->
  wp False (disconnect junk) (fun _ s' => closed 0 s' /\
    (no_attr g -> closed (length (misuse g) + 3) s')) s.
Proof.
  intros H Hc. unfold disconnect, qem_smi_client_disconnect. px_run.
  replace (error_code s) with (error_code g)
    by (pose proof (r_glob _ _ _ _ _ H) as Hg; glob_eq).
  rewrite decide_False by done. px_run.
  eapply wp_seq; [by apply (wp_client_release F N g a)|]. intros [] s1 H1. px_run.
  destruct (g_after_spec (a_view a) g) as (A1 & A2 & A3).
  split; [|intros Hg]; exists (g_after (a_view a) g), (a_none a); split_and!; try done; [lia|auto].
Qed.

(** The result of a function of the initialisation. *)
Definition init_post (n : nat) (P : env -> ast -> Prop) (r : Z) (s : env) : Prop :=
  (r = 0 /\ exists g a, P g a /\ rel F N g a s) \/ (r = -1 /\ F /\ closed n s).

Lemma wp_steps_cons g a s m l P Q :
  rel F N g a s -> error_code g <> QEM_SMI_CONNECTED ->
  wp False m (step_post F N g a P) s ->
  (forall g' a' s', P g' a' -> rel F N g' a' s' ->
     wp False (run_steps (disconnect junk) l) (init_post 0 Q) s') ->
  wp False (run_steps (disconnect junk) ((m, -1) :: l)) (init_post 0 Q) s.
Proof.
  intros H Hc Hm Hl. cbn. eapply wp_seq; [exact Hm|]. intros [] s1 H1.
  - destruct H1 as (g' & a' & HP & H'). eauto.
  - destruct H1 as [HF H1]. eapply wp_seq; [by apply (wp_disconnect g a)|].
    intros [] s2 [H2 _]. px_run. by right.
Qed.

Lemma wp_steps_nil g a s (P : env -> ast -> Prop) :
  rel F N g a s -> P g a -> wp False (run_steps (disconnect junk) []) (init_post 0 P) s.
Proof. intros H HP. cbn. px_run. left. eauto. Qed.

(** The globals [create_sync] acquires, and what it leaves. *)
Definition sync_slot (sl : slot) : bool :=
  match sl with Shm_fd | Shared_buffer | Local_buffer => false | _ => true end.

Definition synced (g : env) (a : ast) (g' : env) (a' : ast) : Prop :=
  (forall sl, sync_slot sl = true -> is_Some (a_view a' sl)) /\
  (forall sl, sync_slot sl = false -> a_view a' sl = a_view a sl) /\
  a_obj a' Shm_fd = a_obj a Shm_fd /\ a_sem a' Server_sem = 0 /\ a_sem a' Client_sem = 0 /\
  a_data a' = a_data a /\
  (error_code g', shared_buffer_size g', local_bytes g', local_buffer_index g', next_block g') =
  (error_code g, shared_buffer_size g, local_bytes g, local_buffer_index g, next_block g) /\
  misuse g' = misuse g /\ (forall k, sync_ready g' k = true) /\
  os_lock (e_os g') = None /\ os_waits_write (e_os g') = false /\ os_waits_read (e_os g') = false.

(** One step of a sequence of calls, with the specification of the call. *)
Ltac sync_step lem :=
  match goal with H : rel F N _ _ ?s |- wp False _ _ ?s =>
    eapply wp_steps_cons; [exact H|done|eapply lem; first
      [ exact H | done | by intros []; cbn; intros [=]; done | cbn; lia
      | intros ? ?; glob_eq | idtac ]|];
    [..|clear H; intros ? ? ? Hp ?;
        first [destruct Hp as (-> & ? & ->)|destruct Hp as (-> & ->)]]
  end.

Lemma wp_create_sync g a s :
  rel F N g a s -> error_code g <> QEM_SMI_CONNECTED ->
  (forall sl, sync_slot sl = true -> a_view a sl = None) ->
  wp False (create_sync junk) (init_post 0 (synced g a)) s.
Proof.
  intros H Hc Hn. unfold create_sync. cbn [map].
  assert (Hv : a_view a Server_sem = None /\ a_view a Client_sem = None /\
               a_view a Mon_lock_fd = None /\ a_view a Cond_read_fd = None /\
               a_view a Cond_write_fd = None /\ a_view a Mon_lock = None /\
               a_view a Cond_read = None /\ a_view a Cond_write = None)
    by (by rewrite !Hn).
  destruct Hv as (V1 & V2 & V3 & V4 & V5 & V6 & V7 & V8).
  sync_step wp_acquire_sem. sync_step wp_acquire_sem.
  do 3 sync_step wp_acquire_create.
  do 3 sync_step wp_ftruncate.
  do 3 sync_step wp_acquire_map.
  sync_step wp_attr_init. sync_step wp_attr_setpshared. sync_step wp_obj_init.
  sync_step wp_attr_init. sync_step wp_attr_setpshared. sync_step wp_obj_init.
  sync_step wp_attr_init. sync_step wp_attr_setpshared. sync_step wp_obj_init.
  eapply wp_steps_nil; [done|]. unfold synced. split_and!; try done.
  - by intros []; cbn; eauto.
  - by intros [].
  - cbn. by rewrite !andb_true_r.
  - by intros [].
Qed.

Context (Hbc : 0 <= bc) (Hbs : 0 <= bs) (Hsize : bc * bs + 8 < 2 ^ 32).

Lemma buffer_size_eq : buffer_size bc bs = bc * bs + 8.
Proof. apply wrap_small. change (Z.of_nat QEM_SMI_DATA_BUFFER_META_DATA_SIZE) with 8. nia. Qed.

Lemma wp_write_metadata g a s o :
  rel F N g a s -> a_view a Shared_buffer = Some o ->
  shared_buffer_size g = bc * bs + 8 ->
  a_obj a Shm_fd = replicate (8 + Z.to_nat (bc * bs)) 0 ->
  wp False (with_slot Shared_buffer (write_metadata bc bs)) (fun _ s' =>
    exists d a', rel F N (set_data g d) a' s' /\ a_view a' = a_view a /\ a_data a' = true /\
      a_obj a' Shm_fd = metadata bc bs (replicate (Z.to_nat (bc * bs)) 0)) s.
Proof.
  intros H Hv Hsz Hobj. eapply wp_with_slot; [done..|]. intros h Hs _. unfold write_metadata.
  px_run. rewrite <- Hs. pose proof (rel_set_data F N g a s H) as H0. cbn zeta in H0.
  rewrite Hs in *. smi_layout.
  eapply wp_seq; [eapply wp_map_write; [exact H0|done|done|rewrite length_le; cbn; lia]|].
  intros [] s1 (H1 & Hs1 & _).
  eapply wp_seq; [eapply wp_map_write; [exact H1|done|by rewrite Hs1|rewrite length_le; cbn; lia]|].
  intros [] s2 (H2 & Hs2 & _).
  eapply wp_mono; [eapply wp_map_write;
    [exact H2|done|by rewrite Hs2, Hs1|rewrite length_le; cbn; lia]|].
  intros [] s3 (H3 & _ & _). eexists _, _. split; [exact H3|]. split; [done|]. split; [done|].
  cbn -[le splice]. rewrite Hobj. apply (metadata_written bc bs).
Qed.

(** What [mmap_buffer] leaves. *)
Definition mmapped (g : env) (a : ast) (g' : env) (a' : ast) : Prop :=
  (exists d, g' = set_data (set_size g (bc * bs + 8)) d) /\
  (forall sl, is_Some (a_view a' sl) <-> sl = Shm_fd \/ sl = Shared_buffer) /\
  a_data a' = true /\ a_obj a' Shm_fd = metadata bc bs (replicate (Z.to_nat (bc * bs)) 0).

Lemma wp_mmap_buffer g a s :
  rel F N g a s -> error_code g <> QEM_SMI_CONNECTED -> (forall sl, a_view a sl = None) ->
  wp False (mmap_buffer bc bs junk) (init_post 0 (mmapped g a)) s.
Proof.
  intros H Hc Hn. unfold mmap_buffer. rewrite buffer_size_eq.
  eapply wp_seq; [by apply wp_acquire_create|]. intros [] s1 H1; cbn [negb].
  2: { destruct H1 as [HF H1]. eapply wp_seq; [by apply (wp_disconnect g a)|].
       intros [] s2 [H2 _]. px_run. by right. }
  destruct H1 as (? & ? & (-> & o & ->) & H1). px_run.
  apply (rel_set_size F N _ _ _ (bc * bs + 8)) in H1; [|by apply (Hn Shared_buffer)].
  eapply wp_seq.
  { eapply wp_ftruncate; [exact H1|done|done|]. by intros []; cbn; intros [=]; apply Hn. }
  intros [] s2 H2; cbn [negb].
  - rewrite when_false. px_run. destruct H2 as (? & ? & (-> & ->) & H2).
    eapply wp_seq.
    { eapply wp_map_shared; [exact H2|done|by apply (Hn Shared_buffer)|done|].
      cbn -[resize supd]. rewrite supd_eq, length_resize. nia. }
    intros [] s3 H3; cbn [negb].
    + px_run. eapply wp_seq; [eapply wp_write_metadata; [exact H3|done|done|]|].
      { cbn -[resize replicate Z.to_nat supd]. rewrite !supd_eq, resize_nil. f_equal. nia. }
      intros [] s4 (d & a' & H4 & Hv' & Hd' & Ho'). px_run. left. split; [done|].
      eexists _, _. split; [|exact H4]. split; [by eexists|]. split; [|done].
      intros sl. rewrite Hv'. split; [|by intros [->| ->]; eexists].
      intros [x Hx]. destruct sl; auto; cbn in Hx; rewrite !vset_ne, Hn in Hx by done; done.
    + destruct H3 as [HF H3]. eapply wp_seq; [by eapply (wp_disconnect _ _ _ H3)|].
      intros [] s4 [H4 _]. px_run. by right.
  - destruct H2 as [HF H2]. rewrite when_true.
    eapply wp_seq; [by eapply (wp_disconnect _ _ _ H2)|].
    intros [] s3 [(g3 & a3 & H3 & Hv3 & _ & Hc3 & _) _].
    eapply wp_seq; [by eapply wp_map_shared_closed; [exact H3|..]|].
    intros ok s4 [-> H4]. cbn [negb].
    eapply wp_seq; [eapply (wp_disconnect _ _ _ H4); by rewrite Hc3|].
    intros [] s5 [H5 _]. px_run. by right.
Qed.

Lemma wp_create_local_buffer g a s :
  rel F N g a s -> error_code g <> QEM_SMI_CONNECTED -> a_view a Local_buffer = None ->
  wp False (create_local_buffer bs junk fill) (init_post 0 (fun g' a' =>
    g' = set_local (set_index g 0) (fill bs) /\
    a' = a_set Local_buffer (Some 0%nat) a)) s.
Proof.
  intros H Hc Hv. unfold create_local_buffer. px_run. apply (rel_set_index F N _ _ _ 0) in H.
  eapply wp_steps_cons; [exact H|done|by apply wp_acquire_malloc|].
  intros g' a' s1 [-> ->] H1. by eapply wp_steps_nil.
Qed.

(** An end that was released, or never initialised. *)
Definition idle (s : env) : Prop := (forall sl, slots s sl = unset sl) /\ held s = ∅.

(** A client ready to connect: every object created, the metadata written, the
    semaphores at zero, the synchronisation objects initialised. *)
Definition ready (next : Z) (bad : list sync) (g : env) (a : ast) : Prop :=
  (forall sl, is_Some (a_view a sl)) /\ a_data a = true /\
  a_obj a Shm_fd = metadata bc bs (replicate (Z.to_nat (bc * bs)) 0) /\
  a_sem a Server_sem = 0 /\ a_sem a Client_sem = 0 /\
  (error_code g, shared_buffer_size g, local_bytes g, local_buffer_index g, next_block g) =
  (QEM_SMI_NOT_CONNECTED, bc * bs + 8, fill bs, 0, next) /\
  misuse g = bad /\ (forall k, sync_ready g k = true) /\
  os_lock (e_os g) = None /\ os_waits_write (e_os g) = false /\ os_waits_read (e_os g) = false.

(** An error of a function of the initialisation, handled by its caller. *)
Lemma wp_init_next (P Q : env -> ast -> Prop) r s (k : C env Z) :
  init_post 0 P r s ->
  (forall g a, r = 0 -> P g a -> rel F N g a s -> wp False k (init_post 3 Q) s) ->
  wp False (if negb (r =? 0) then disconnect junk ;; mret r else k) (init_post 3 Q) s.
Proof.
  intros [(-> & g & a & HP & H)|(-> & HF & g & a & H & _ & _ & Hc & Hg & _)] Hk; cbn;
    [by eapply Hk|].
  eapply wp_seq; [eapply (wp_disconnect _ _ _ H); by rewrite Hc|]. intros [] s' [_ H'].
  px_run. right. split_and!; [done..|]. destruct (H' Hg) as (g' & a' & H1 & H2 & H3 & H4 & H5 & H6).
  exists g', a'. split_and!; try done. lia.
Qed.

Lemma wp_client_body g a s :
  rel F N g a s -> error_code g = QEM_SMI_NOT_CONNECTED -> (forall sl, a_view a sl = None) ->
  wp False (
    r ← mmap_buffer bc bs junk;
    if negb (r =? 0) then disconnect junk ;; mret r
    else
      r ← create_local_buffer bs junk fill;
      if negb (r =? 0) then disconnect junk ;; mret r
      else
        r ← create_sync junk;
        if negb (r =? 0) then disconnect junk ;; mret r
        else mret r) (init_post 3 (ready (next_block g) (misuse g))) s.
Proof.
  intros H Hc Hn.
  eapply wp_seq; [apply (wp_mmap_buffer g a); [done|by rewrite Hc|done]|]. intros r1 s1 H1.
  eapply wp_init_next; [exact H1|]. clear H1. intros g1 a1 _ ([d ->] & Hv1 & Hd1 & Ho1) H1.
  assert (Hnone : forall sl, sl <> Shm_fd -> sl <> Shared_buffer -> a_view a1 sl = None).
  { intros sl ? ?. destruct (a_view a1 sl) eqn:E; [|done].
    destruct (proj1 (Hv1 sl)); [by eexists|done..]. }
  eapply wp_seq; [eapply wp_create_local_buffer; [exact H1|by cbn; rewrite Hc|by apply Hnone]|].
  intros r2 s2 H2.
  eapply wp_init_next; [exact H2|]. clear H2. intros g2 a2 _ [-> ->] H2.
  eapply wp_seq; [eapply wp_create_sync; [exact H2|by cbn; rewrite Hc|]|].
  { by intros []; cbn; intros [=]; apply Hnone. }
  intros r3 s3 H3. eapply wp_init_next; [exact H3|]. clear H3.
  intros g3 a3 -> (S1 & S2 & S3 & S4 & S5 & S6 & S7 & S8) H3. px_run. left.
  split; [done|]. exists g3, a3. split; [|done]. unfold ready. split_and!; try tauto.
  - intros sl. destruct (sync_slot sl) eqn:E; [by apply S1|]. rewrite S2 by done.
    destruct sl; try done; cbn; apply Hv1; auto.
  - rewrite S6. cbn. by rewrite Hd1.
  - by rewrite S3.
  - rewrite S7. cbn. by rewrite Hc.
Qed.

Lemma wp_client_init s :
  idle s -> (os_faults (e_os s) <> [] -> F) ->
  wp False (qem_smi_client_init bc bs junk fill)
    (init_post 3 (ready (next_block s) (misuse s))) s.
Proof.
  intros [Hs Hh] Hf. unfold qem_smi_client_init, shm_unlink, sem_unlink. px_run.
  match goal with |- wp _ _ _ ?s' => pose (g := s') end.
  apply (wp_client_body g (mk_ast (fun _ => None) false false (fun _ => []) (fun _ => 0)));
    [|done..].
  split; [done| | |done|done|done].
  - split; [done|..].
    + intros sl _. subst g. cbn. rewrite Hs. by destruct sl.
    + intros sl sl' h. subst g. cbn. rewrite Hs. by destruct sl.
    + intros h. subst g. cbn. rewrite Hh, lookup_empty. by intros [].
  - split; try done.
    + intros sl n Hn. subst g. cbn. destruct sl; try done; injection Hn as <-;
        rewrite ?lookup_delete_eq, ?lookup_delete_ne, ?lookup_delete_eq by done; apply agree_refl.
    + intros sl n Hn. subst g. cbn. destruct sl; try done; injection Hn as <-;
        rewrite ?lookup_delete_eq, ?lookup_delete_ne, ?lookup_delete_eq by done; apply agree_refl.
Qed.
End client_init.

(** A client that created everything, and one that has nothing. *)
Definition client_up (bc bs : Z) (fill : Z -> bytes) (s : env) : Prop :=
  error_code s = QEM_SMI_NOT_CONNECTED /\ local_bytes s = fill bs /\ local_buffer_index s = 0 /\
  (forall sl, exists h, slots s sl = Ref h /\ is_Some (held s !! h)) /\
  (exists o, os_shm (e_os s) !! QEM_SMI_SHM_NAME = Some o /\
     os_objs (e_os s) !! o = Some (metadata bc bs (replicate (Z.to_nat (bc * bs)) 0))) /\
  (forall sl n, sem_name sl = Some n ->
     exists k, os_sem (e_os s) !! n = Some k /\ os_sems (e_os s) !! k = Some 0) /\
  os_lock (e_os s) = None.

Definition client_down (s : env) : Prop :=
  error_code s = QEM_SMI_UNINIT /\ idle s /\
  (forall sl n, shm_name sl = Some n -> os_shm (e_os s) !! n = None) /\
  (forall sl n, sem_name sl = Some n -> os_sem (e_os s) !! n = None).

Lemma ready_up F bc bs fill next bad g a s :
  rel F Exact g a s -> ready bc bs fill next bad g a ->
  client_up bc bs fill s /\ misuse s = bad /\ next_block s = next.
Proof.
  intros H (Hv & _ & Ho & Hs1 & Hs2 & Hg & Hb & _ & Hl & _).
  assert (Hgl : (error_code s, local_bytes s, local_buffer_index s, next_block s, misuse s,
                 os_lock (e_os s)) =
                (error_code g, local_bytes g, local_buffer_index g, next_block g, misuse g,
                 os_lock (e_os g))) by (pose proof (r_glob _ _ _ _ _ H); glob_eq).
  simplify_eq. rewrite Hl in *. split_and!; try congruence.
  unfold client_up. split_and!; try congruence.
  - intros sl. destruct (Hv sl) as [o Hsl].
    destruct (h_some _ _ _ _ _ (r_handles _ _ _ _ _ H) _ _ Hsl) as (h & ? & ?). eauto.
  - destruct (Hv Shm_fd) as [o Hsl]. exists o. split.
    + etrans; [exact (o_shm_names _ _ _ _ _ (r_os _ _ _ _ _ H) Shm_fd _ eq_refl)|done].
    + rewrite <- Ho. exact (o_obj _ _ _ _ _ (r_os _ _ _ _ _ H) Shm_fd _ _ eq_refl Hsl).
  - intros sl n Hn. destruct (Hv sl) as [k Hsl]. exists k. split.
    + etrans; [exact (o_sem_names _ _ _ _ _ (r_os _ _ _ _ _ H) sl _ Hn)|done].
    + rewrite (o_sem _ _ _ _ _ (r_os _ _ _ _ _ H) sl _ _ Hn Hsl). by destruct sl; simplify_eq/=; congruence.
Qed.

Lemma rel_idle F N g a s :
  rel F N g a s -> (forall sl, a_view a sl = None) -> a_mf a = false -> idle s.
Proof.
  intros H Hv Hmf. split.
  - intros sl. rewrite (h_none _ _ _ _ _ (r_handles _ _ _ _ _ H) _ (Hv sl)), Hmf.
    unfold none. by rewrite andb_false_r.
  - apply map_eq. intros h. rewrite lookup_empty. destruct (held s !! h) eqn:E; [|done].
    destruct (h_all _ _ _ _ _ (r_handles _ _ _ _ _ H) h) as [sl Hsl]; [by eexists|].
    destruct (handles_ref _ _ _ _ _ _ _ (r_handles _ _ _ _ _ H) Hsl) as (o & Ho & _).
    by rewrite Hv in Ho.
Qed.

Lemma closed_down F N n s : N <> Any -> closed F N n s -> client_down s /\ (n <= length (misuse s))%nat.
Proof.
  intros HN (g & a & H & Hv & Hmf & Hc & _ & Hb).
  assert (Hgl : (error_code s, misuse s) = (error_code g, misuse g))
    by (pose proof (r_glob _ _ _ _ _ H); glob_eq).
  injection Hgl as Hec Hm. split; [|by rewrite Hm]. unfold client_down. split_and!; [congruence|by eapply rel_idle|..].
  - intros sl n' Hn. apply (agree_None N); [done|]. rewrite <- (Hv sl).
    exact (o_shm_names _ _ _ _ _ (r_os _ _ _ _ _ H) sl _ Hn).
  - intros sl n' Hn. apply (agree_None N); [done|]. rewrite <- (Hv sl).
    exact (o_sem_names _ _ _ _ _ (r_os _ _ _ _ _ H) sl _ Hn).
Qed.


Definition os_empty (faults : list Z) : os := mk_os faults ∅ ∅ ∅ ∅ None false false.


(** Every failed initialisation destroys attribute objects that are not
    initialised: [qem_smi_client_disconnect] is called by the function that failed
    and again by [qem_smi_client_init], and destroys the three attributes each
    time. *)
Theorem failed_init_misuse bc bs junk fill s s' :
  0 <= bc -> 0 <= bs -> bc * bs + 8 < 2 ^ 32 -> idle s ->
  qem_smi_client_init bc bs junk fill s = Done (-1, s') -> (3 <= length (misuse s'))%nat.
Proof.
  intros Hbc Hbs Hsz Hi Hr.
  pose proof (wp_Done _ _ _ _ _ _ (wp_client_init (os_faults (e_os s) <> []) Exact ltac:(done)
    bc bs junk fill Hbc Hbs Hsz s Hi ltac:(done)) Hr) as [(? & _)|(_ & _ & H)]; [done|].
  by destruct (closed_down _ Exact _ _ ltac:(done) H).
Qed.

Lemma failed_init_misuse_witness :
  exists s', qem_smi_client_init 2 4 0 (fun n => replicate (Z.to_nat n) 7)
               (env_init (os_empty [0; 28])) = Done (-1, s') /\ (3 <= length (misuse s'))%nat.
Proof.
  eexists. split; [vm_compute; reflexivity|].
  apply (failed_init_misuse 2 4 0 (fun n => replicate (Z.to_nat n) 7)
    (env_init (os_empty [0; 28]))).
  - lia.
  - lia.
  - reflexivity.
  - split; reflexivity.
  - vm_compute. reflexivity.
Defined.
