(* ===== verification/SmiHandshake.v ===== *)
(** * Shared memory interface: the handshake

    The two ends of the shared memory interface, connecting in any interleaving,
    with any failing call, any time-out and any interruption. *)

From S2P Require Import Prelude SmiDef SmiRing SmiRingProof SmiPosix SmiConn SmiHandles SmiConnProof.

(** ** Code that leaves the objects of the other end alone *)

(** The objects and semaphores are the same, names can only have gone. *)
Record calm (w w' : os) : Prop := {
  calm_objs : os_objs w' = os_objs w;
  calm_sems : os_sems w' = os_sems w;
  calm_shm : os_shm w' ⊆ os_shm w;
  calm_sem : os_sem w' ⊆ os_sem w;
  calm_sync : (os_lock w', os_waits_write w', os_waits_read w') =
              (os_lock w, os_waits_write w, os_waits_read w);
  calm_faults : os_faults w' <> [] -> os_faults w <> []
}.

#[export] Instance calm_preorder : PreOrder calm.
Proof.
  split; [by split|]. intros w1 w2 w3 [? ? ? ? ? ?] [? ? ? ? ? ?].
  split; [congruence..|by etrans|by etrans|congruence|auto].
Qed.

(** Names can only have gone, and the mutex and conditions are the same. *)
Record shrinks (w w' : os) : Prop := {
  sh_shm : os_shm w' ⊆ os_shm w;
  sh_sem : os_sem w' ⊆ os_sem w;
  sh_sync : (os_lock w', os_waits_write w', os_waits_read w') =
            (os_lock w, os_waits_write w, os_waits_read w)
}.

#[export] Instance shrinks_preorder : PreOrder shrinks.
Proof.
  split; [by split|]. intros w1 w2 w3 [? ? ?] [? ? ?]. split; [by etrans|by etrans|congruence].
Qed.

Lemma calm_shrinks w w' : calm w w' -> shrinks w w'.
Proof. intros []. by split. Qed.

Definition keeps {A} (m : C env A) : Prop :=
  forall s, match m s with Done (_, s') => calm (e_os s) (e_os s') | _ => True end.

Section keeps.
Lemma sys_keeps_ret {A} (a : A) : keeps (mret a).
Proof. by intros s. Qed.

Lemma sys_keeps_gets {A} (f : env -> A) : keeps (gets f).
Proof. by intros s. Qed.

Lemma sys_keeps_access {A} (o : option A) : keeps (access_ o).
Proof. intros s. by destruct o. Qed.

Lemma sys_keeps_bind {A B} (m : C env A) (f : A -> C env B) :
  keeps m -> (forall a, keeps (f a)) -> keeps (m ≫= f).
Proof.
  intros Hm Hf s. unfold mbind, C_bind. specialize (Hm s).
  destruct (m s) as [[a s1]| |]; try done. specialize (Hf a s1).
  destruct (f a s1) as [[b s2]| |]; try done. by etrans.
Qed.

Lemma sys_keeps_modify f : (forall s, calm (e_os s) (e_os (f s))) -> keeps (modify f).
Proof. intros Hf s. apply Hf. Qed.

Lemma sys_keeps_when b m : keeps m -> keeps (when b m).
Proof. by destruct b. Qed.
End keeps.

Create HintDb keeps.
#[export] Hint Resolve sys_keeps_ret sys_keeps_gets sys_keeps_access : keeps.

(** Case analysis on the structure of code that keeps the objects. *)
Ltac keeps_run :=
  repeat first
    [ progress auto with keeps
    | apply sys_keeps_bind; [|intros ?]
    | apply sys_keeps_when
    | apply sys_keeps_modify; intros ?
    | match goal with |- keeps (match ?x with _ => _ end) => destruct x end ].

Lemma keeps_next_fault : keeps next_fault.
Proof. unfold next_fault, on_os. 
  intros s. cbn. unfold mbind, C_bind, gets. destruct (os_faults (e_os s)) as [|a l] eqn:E; [done|].
  cbn. split; cbn; try done. by rewrite E.
Qed.

Lemma keeps_hold r : keeps (hold r).
Proof. unfold hold. keeps_run. done. Qed.
Lemma keeps_let_go h : keeps (let_go h).
Proof. unfold let_go. keeps_run. done. Qed.
Lemma keeps_find v : keeps (find v).
Proof. unfold find. keeps_run. Qed.
Lemma keeps_assign sl v : keeps (assign sl v).
Proof. unfold assign. keeps_run. done. Qed.
#[export] Hint Resolve keeps_next_fault keeps_hold keeps_let_go keeps_find keeps_assign : keeps.

Lemma keeps_shm_open n : keeps (shm_open n).
Proof. unfold shm_open. keeps_run. Qed.
Lemma keeps_sem_open n : keeps (sem_open n).
Proof. unfold sem_open. keeps_run. Qed.
Lemma keeps_mmap len v : keeps (mmap len v).
Proof. unfold mmap. keeps_run. Qed.
Lemma keeps_munmap v len : keeps (munmap v len).
Proof. unfold munmap. keeps_run. Qed.
Lemma sys_keeps_close v : keeps (close v).
Proof. unfold close. keeps_run. Qed.
Lemma keeps_sem_close v : keeps (sem_close v).
Proof. unfold sem_close. keeps_run. Qed.
Lemma keeps_free v : keeps (free v).
Proof. unfold free. keeps_run. Qed.
Lemma keeps_malloc bs : keeps (malloc bs).
Proof. unfold malloc. keeps_run. done. Qed.
Lemma keeps_mapped v n : keeps (mapped v n).
Proof. unfold mapped. keeps_run. Qed.
Lemma keeps_shm_unlink n : keeps (shm_unlink n).
Proof. unfold shm_unlink, on_os. keeps_run. split; cbn; try done. apply delete_subseteq. Qed.
Lemma keeps_sem_unlink n : keeps (sem_unlink n).
Proof. unfold sem_unlink, on_os. keeps_run. split; cbn; try done. apply delete_subseteq. Qed.
Lemma keeps_sync_destroy k : keeps (sync_destroy k).
Proof. unfold sync_destroy, set_ready. keeps_run; done. Qed.
#[export] Hint Resolve keeps_shm_open keeps_sem_open keeps_mmap keeps_munmap sys_keeps_close
  keeps_sem_close keeps_free keeps_malloc keeps_mapped keeps_shm_unlink keeps_sem_unlink
  keeps_sync_destroy : keeps.

Lemma keeps_map_read v off n : keeps (map_read v off n).
Proof. unfold map_read. keeps_run. Qed.
Lemma keeps_obj_destroy k v n : keeps (obj_destroy k v n).
Proof. unfold obj_destroy. keeps_run. Qed.
Lemma keeps_if_set sl k : (forall v, keeps (k v)) -> keeps (if_set sl k).
Proof. intros Hk. unfold if_set. keeps_run. Qed.
Lemma keeps_with_slot {A} sl (k : cval -> C env A) : (forall v, keeps (k v)) -> keeps (with_slot sl k).
Proof. intros Hk. unfold with_slot. keeps_run. Qed.
Lemma keeps_acquire sl m : keeps m -> keeps (acquire sl m).
Proof. intros Hm. unfold acquire. keeps_run. Qed.
Lemma keeps_run_steps fail l :
  keeps fail -> Forall (fun p => keeps p.1) l -> keeps (run_steps fail l).
Proof. intros Hf Hl. induction Hl as [|[m c] l Hm _ IH]; cbn; keeps_run. Qed.
#[export] Hint Resolve keeps_map_read keeps_obj_destroy keeps_if_set keeps_with_slot
  keeps_acquire : keeps.

Lemma keeps_map_shared len : keeps (map_shared len).
Proof. unfold map_shared. keeps_run. Qed.
#[export] Hint Resolve keeps_map_shared : keeps.

Lemma keeps_client_release : keeps client_release.
Proof. unfold client_release. keeps_run; [apply keeps_if_set; intros; keeps_run..|done]. Qed.

Lemma keeps_server_disconnect : keeps qem_smi_disconnect.
Proof. unfold qem_smi_disconnect. keeps_run; [apply keeps_if_set; intros; keeps_run..|done]. Qed.
#[export] Hint Resolve keeps_client_release keeps_server_disconnect : keeps.

(** A specification of such code, with what it keeps. *)
Lemma wp_keeps {A} (m : C env A) Q s :
  keeps m -> wp False m Q s -> wp False m (fun a s' => Q a s' /\ calm (e_os s) (e_os s')) s.
Proof. intros Hk. specialize (Hk s). unfold wp. by destruct (m s) as [[a s']| |]. Qed.

Lemma calm_osrel V B K w w' : calm w w' -> osrel Within V B K w -> osrel Within V B K w'.
Proof.
  intros [Ho Hs Hn1 Hn2 _ _] H. split; try apply H.
  - intros sl n o. rewrite Ho. apply H.
  - intros sl n k. rewrite Hs. apply H.
  - intros sl n Hsl. pose proof (o_shm_names _ _ _ _ _ H _ _ Hsl) as Ha. cbn in *.
    destruct (os_shm w' !! n) as [o|] eqn:E; [|by left].
    rewrite (lookup_weaken _ _ _ _ E Hn1) in Ha. auto.
  - intros sl n Hsl. pose proof (o_sem_names _ _ _ _ _ H _ _ Hsl) as Ha. cbn in *.
    destruct (os_sem w' !! n) as [o|] eqn:E; [|by left].
    rewrite (lookup_weaken _ _ _ _ E Hn2) in Ha. auto.
Qed.

(** ** The consumer's steps *)

Section server.
(** The objects of the client, their contents and the values of its semaphores. *)
Context (G : view) (B : slot -> bytes) (K : slot -> Z).
(** The system at the beginning. *)
Context (w0 : os).

Definition named (sl : slot) : Prop := is_Some (shm_name sl) \/ is_Some (sem_name sl).

(** Everything the consumer opened belongs to the client. *)
Record srel (g : env) (a : ast) (s : env) : Prop := {
  sr_rel : rel True Any g a s;
  sr_obj : a_obj a = B;
  sr_sem : a_sem a = K;
  sr_within sl o : named sl -> a_view a sl = Some o -> G sl = Some o;
  sr_os : osrel Within G B K (e_os s);
  sr_frame : shrinks w0 (e_os s)
}.

Lemma osrel_within V w :
  osrel Within G B K w -> (forall sl o, named sl -> V sl = Some o -> G sl = Some o) ->
  (forall sl fd o, fd_of sl = Some fd -> V sl = Some o -> V fd = Some o) ->
  osrel Any V B K w.
Proof.
  intros H Hw Hm. split; try done.
  - intros sl n o Hn Hv. eapply H; [done|]. apply Hw; [left; by eexists|done].
  - intros sl sl' n n' o Hn Hn' Hv Hv'. eapply (o_obj_inj _ _ _ _ _ H); [done..| |];
      apply Hw; try done; left; by eexists.
  - intros sl n o Hn Hv. eapply H; [done|]. apply Hw; [right; by eexists|done].
  - intros sl sl' n n' o Hn Hn' Hv Hv'. eapply (o_sem_inj _ _ _ _ _ H); [done..| |];
      apply Hw; try done; right; by eexists.
Qed.

(** Opening one of the client's objects. *)
Lemma srel_hold g a s sl o :
  srel g a s -> a_view a sl = None -> named sl -> G sl = Some o ->
  srel g (a_set sl (Some o) a)
    (set_slot (set_held s (<[fresh (dom (held s)) := res (shared_buffer_size g) sl o]> (held s)))
       sl (Ref (fresh (dom (held s))))).
Proof.
  intros [H Ho Hs Hw Hos Hnm] Hv Hn Hg.
  assert (Hw' : forall sl' o', named sl' -> vset sl (Some o) (a_view a) sl' = Some o' ->
                               G sl' = Some o').
  { intros sl' o' Hn' Hv'. unfold vset in Hv'. slot_cases; [congruence|by apply Hw]. }
  assert (Hfd : fd_of sl = None) by (destruct Hn as [[? ?]|[? ?]]; by destruct sl).
  assert (Hmf : forall x fd o', fd_of x = Some fd -> vset sl (Some o) (a_view a) x = Some o' ->
                                vset sl (Some o) (a_view a) fd = Some o').
  { intros x fd o' Hx Hv'. unfold vset in *. slot_cases; try congruence.
    - by rewrite (o_map _ _ _ _ _ (r_os _ _ _ _ _ H) _ _ _ Hx Hv') in Hv.
    - by eapply (o_map _ _ _ _ _ (r_os _ _ _ _ _ H)). }
  split; try done. destruct H as [Hg' Hh Hos' Hz Hf Hd]. split; cbn; try done.
  - by apply handles_hold.
  - rewrite Ho, Hs. by apply osrel_within.
  - intros x fd o' Hx Hv'. unfold vset in Hv'. slot_cases; [congruence|]. by eapply Hz.
  - by apply data_keep.
Qed.

Lemma srel_calm g a s s' : rel True Any g a s' -> calm (e_os s) (e_os s') -> srel g a s -> srel g a s'.
Proof.
  intros H Hc [_ Ho Hs Hw Hos Hsh]. split; try done; [by eapply calm_osrel|].
  by etrans; [|apply calm_shrinks].
Qed.

Lemma wp_sfault g a s :
  srel g a s -> wp False next_fault (fun _ s' => srel g a s' /\ 
    slots s' = slots s /\ held s' = held s /\ calm (e_os s) (e_os s')) s.
Proof.
  intros H. eapply wp_mono; [apply wp_keeps; [auto with keeps|]|].
  - apply (wp_next_fault True Any g a), H.
  - intros x s' [(_ & Hr & Hs & Hh) Hc]. split_and!; try done. by eapply srel_calm.
Qed.

(** A call that opens something by name: what it opened is the client's. *)
Definition sstep (g : env) (a : ast) (P : env -> ast -> Prop) (ok : bool) (s : env) : Prop :=
  if ok then exists g' a', P g' a' /\ srel g' a' s else exists g' a', srel g' a' s.

Definition opened (sl : slot) (name : option nat) (g : env) (a : ast) (g' : env) (a' : ast) : Prop :=
  g' = g /\ exists o, name = Some o /\ G sl = Some o /\ a' = a_set sl (Some o) a.

Lemma srel_unset g a s sl :
  srel g a s -> a_view a sl = None -> sl <> Shared_buffer -> srel g a (set_slot s sl (unset sl)).
Proof. intros [H Ho Hs Hw Hos Hnm] Hv Hn. split; try done. by apply rel_unset. Qed.

Lemma wp_sopen g a s sl n :
  srel g a s -> shm_name sl = Some n -> a_view a sl = None ->
  wp False (acquire sl (shm_open n)) (fun ok s' =>
    (if ok : bool then sstep g a (opened sl (os_shm (e_os s) !! n) g a) true s'
     else srel g a s') /\ calm (e_os s) (e_os s')) s.
Proof.
  intros H Hn Hv. apply wp_keeps; [apply keeps_acquire; auto with keeps|].
  unfold acquire, shm_open. px_run.
  eapply wp_seq; [by apply wp_sfault|]. intros x s1 (H1 & _ & _ & Hc). px_run.
  assert (Hun : unset sl = NOFD) by by destruct sl.
  assert (Hfail : srel g a (set_slot s1 sl NOFD)).
  { rewrite <- Hun. apply srel_unset; [done|done|by destruct sl]. }
  pose proof (o_shm_names _ _ _ _ _ (sr_os _ _ _ H1) _ _ Hn) as Hnm.
  destruct (os_shm (e_os s1) !! n) as [o|] eqn:Ho.
  - destruct Hnm as [?|Hg]; [done|]. destruct (negb (x =? 0)); px_run.
    + by rewrite Hun, bool_decide_eq_true_2 by done.
    + rewrite bool_decide_eq_false_2 by apply not_eq_sym, unset_no_ref. cbn.
      exists g, (a_set sl (Some o) a). split.
      * split; [done|]. exists o. split; [|done]. by eapply lookup_weaken, Hc.
      * replace (RFd o) with (res (shared_buffer_size g) sl o) by by destruct sl.
        apply srel_hold; [done|done|left; by eexists|done].
  - px_run. by rewrite Hun, bool_decide_eq_true_2 by done.
Qed.

Lemma wp_ssem g a s sl n :
  srel g a s -> sem_name sl = Some n -> a_view a sl = None ->
  wp False (acquire sl (sem_open n)) (fun ok s' =>
    (if ok : bool then sstep g a (opened sl (os_sem (e_os s) !! n) g a) true s'
     else srel g a s') /\ calm (e_os s) (e_os s')) s.
Proof.
  intros H Hn Hv. apply wp_keeps; [apply keeps_acquire; auto with keeps|].
  unfold acquire, sem_open. px_run.
  eapply wp_seq; [by apply wp_sfault|]. intros x s1 (H1 & _ & _ & Hc). px_run.
  assert (Hun : unset sl = SEM_FAILED) by by destruct sl.
  assert (Hfail : srel g a (set_slot s1 sl SEM_FAILED)).
  { rewrite <- Hun. apply srel_unset; [done|done|by destruct sl]. }
  pose proof (o_sem_names _ _ _ _ _ (sr_os _ _ _ H1) _ _ Hn) as Hnm.
  destruct (os_sem (e_os s1) !! n) as [o|] eqn:Ho.
  - destruct Hnm as [?|Hg]; [done|]. destruct (negb (x =? 0)); px_run.
    + by rewrite Hun, bool_decide_eq_true_2 by done.
    + rewrite bool_decide_eq_false_2 by apply not_eq_sym, unset_no_ref. cbn.
      exists g, (a_set sl (Some o) a). split.
      * split; [done|]. exists o. split; [|done]. by eapply lookup_weaken, Hc.
      * replace (RSem o) with (res (shared_buffer_size g) sl o) by by destruct sl.
        apply srel_hold; [done|done|right; by eexists|done].
  - px_run. by rewrite Hun, bool_decide_eq_true_2 by done.
Qed.

(** What is not opened by name. *)
Lemma srel_other g g' a s s' sl o :
  srel g a s -> rel True Any g' (a_set sl o a) s' -> ~ named sl -> calm (e_os s) (e_os s') ->
  srel g' (a_set sl o a) s'.
Proof.
  intros [H Ho Hs Hw Hos Hsh] H' Hn Hc.
  split; try done; [|by eapply calm_osrel|by etrans; [|apply calm_shrinks]].
  intros sl' o' Hn' Hv. cbn in Hv. unfold vset in Hv. slot_cases; [done|by apply Hw].
Qed.

Lemma wp_smap g a s sl fd o len :
  srel g a s -> fd_of sl = Some fd -> a_view a fd = Some o -> a_view a sl = None ->
  sl <> Shared_buffer -> len = map_len (shared_buffer_size g) sl ->
  0 < len <= Z.of_nat (length (B fd)) ->
  wp False (acquire sl (with_slot fd (mmap len)))
    (sstep g a (fun g' a' => g' = g /\ a' = a_set sl (Some o) a)) s.
Proof.
  intros H Hfd Hv Hn Hsl Hlen Hpos. rewrite <- (sr_obj _ _ _ H) in Hpos.
  eapply wp_mono; [apply wp_keeps; [keeps_run; apply keeps_acquire; auto with keeps|]|].
  - eapply (wp_acquire_map True Any g a s sl fd o len); [apply H|done..].
  - intros [] s' [Hs Hc].
    + destruct Hs as (? & ? & (-> & ->) & Hr). exists g, (a_set sl (Some o) a). split; [done|].
      eapply srel_other; [done|done| |done]. intros [[? ?]|[? ?]]; by destruct sl.
    + destruct Hs as [_ Hr]. exists g, a. by eapply srel_calm.
Qed.

Lemma wp_smalloc g a s fill :
  srel g a s -> a_view a Local_buffer = None ->
  wp False (acquire Local_buffer (malloc fill))
    (sstep g a (fun g' a' => g' = set_local g fill /\ a' = a_set Local_buffer (Some 0%nat) a)) s.
Proof.
  intros H Hv.
  eapply wp_mono; [apply wp_keeps; [apply keeps_acquire; auto with keeps|]|].
  - apply (wp_acquire_malloc True Any g a s fill); [apply H|done].
  - intros [] s' [Hs Hc].
    + destruct Hs as (? & ? & (-> & ->) & Hr). eexists _, _. split; [done|].
      eapply srel_other; [done|done| |done]. by intros [[? ?]|[? ?]].
    + destruct Hs as [_ Hr]. exists g, a. by eapply srel_calm.
Qed.

(** *** Disconnecting *)

Definition sclosed (s : env) : Prop :=
  idle s /\ error_code s = QEM_SMI_UNINIT /\ osrel Within G B K (e_os s) /\
  shrinks w0 (e_os s).

Lemma wp_unmap_obj F N g a s sl fd :
  rel F N g a s -> fd_of sl = Some fd -> sl <> Shared_buffer ->
  wp False (if_set sl (fun p => munmap p (map_len (shared_buffer_size g) sl)))
    (fun _ s' => rel F N g (a_set sl None a) s') s.
Proof.
  intros H Hfd Hsl. apply (wp_if_set F N g a); [done|done|done|].
  intros h o Hs Hv Hh. by eapply wp_munmap.
Qed.

Lemma wp_sdisconnect g a s :
  srel g a s -> wp False qem_smi_disconnect (fun _ s' => sclosed s' /\ calm (e_os s) (e_os s')) s.
Proof.
  intros Hr. eapply wp_mono; [apply (wp_keeps _ (fun _ s' => idle s' /\ error_code s' = QEM_SMI_UNINIT))|].
  - auto with keeps.
  - pose proof (sr_rel _ _ _ Hr) as H. unfold qem_smi_disconnect. wp_step.
    replace (shared_buffer_size s) with (shared_buffer_size g)
      by (pose proof (r_glob _ _ _ _ _ H) as Hg; glob_eq).
    eapply wp_seq; [by apply (wp_release_shared True Any)|]. intros [] s1 H1.
    eapply wp_seq; [eapply wp_release_fd; [exact H1|done|by eapply (fd_map_none _ _ Shared_buffer)]|].
    intros [] s2 H2.
    eapply wp_seq; [by apply (wp_release_local _ _ _ _ _ H2)|]. intros [] s3 H3.
    eapply wp_seq; [by apply (wp_release_sem _ _ _ _ _ _ _ H3)|]. intros [] s4 H4.
    eapply wp_seq; [by apply (wp_release_sem _ _ _ _ _ _ _ H4)|]. intros [] s5 H5.
    eapply wp_seq; [by apply (wp_unmap_obj _ _ _ _ _ Mon_lock Mon_lock_fd H5)|]. intros [] s6 H6.
    eapply wp_seq; [eapply wp_release_fd; [exact H6|done|by eapply (fd_map_none _ _ Mon_lock)]|].
    intros [] s7 H7.
    eapply wp_seq; [by apply (wp_unmap_obj _ _ _ _ _ Cond_read Cond_read_fd H7)|]. intros [] s8 H8.
    eapply wp_seq; [eapply wp_release_fd; [exact H8|done|by eapply (fd_map_none _ _ Cond_read)]|].
    intros [] s9 H9.
    eapply wp_seq; [by apply (wp_unmap_obj _ _ _ _ _ Cond_write Cond_write_fd H9)|]. intros [] s10 H10.
    eapply wp_seq; [eapply wp_release_fd; [exact H10|done|by eapply (fd_map_none _ _ Cond_write)]|].
    intros [] s11 H11. px_run. split; [|done].
    apply (rel_idle _ _ _ _ s11 H11); [by intros []|]. cbn. by rewrite !andb_false_r.
  - intros [] s' [[Hi Hc] Hk]. split; [|done]. split_and!; [done..| |].
    + by eapply calm_osrel, Hr.
    + etrans; [apply Hr|by apply calm_shrinks].
Qed.

(** *** Mapping the shared memory *)

Context (bc bs : Z) (data : bytes).
Context (Hbc : 0 <= bc < 2 ^ 16) (Hbs : 0 <= bs < 2 ^ 32) (Hsize : bc * bs + 8 < 2 ^ 32).
Context (Hshm : B Shm_fd = metadata bc bs data) (Hdata : Z.of_nat (length data) = bc * bs).

Lemma length_shm : Z.of_nat (length (B Shm_fd)) = bc * bs + 8.
Proof.
  rewrite Hshm. unfold metadata. smi_layout. rewrite !length_app, !length_le. lia.
Qed.

(** The globals once the metadata is read. *)
Definition g_meta (s : env) : env :=
  set_size (set_block_size (set_block_count s bc) bs) (bc * bs + 8).

Lemma wp_map_read_at {A} s h o len off n (f : bytes -> C env A) Q bytes :
  held s !! h = Some (RMap o len) -> os_objs (e_os s) !! o = Some bytes ->
  Z.of_nat (off + n) <= len -> (off + n <= length bytes)%nat ->
  wp False (f (slice off n bytes)) Q s -> wp False (map_read (Ref h) off n ≫= f) Q s.
Proof.
  intros Hh Ho Hlen Hn Hf. unfold map_read, mapped. px_run. eapply wp_find; [done|]. px_run.
  rewrite Ho. eapply wp_access; [done|]. eapply wp_access_last.
  - by rewrite (proj2 (Z.leb_le _ _)), (proj2 (Nat.leb_le _ _)) by lia.
  - eapply wp_access_last; [by apply mem_read_Some|done].
Qed.

Lemma wp_read_metadata s h o :
  held s !! h = Some (RMap o 8) -> os_objs (e_os s) !! o = Some (B Shm_fd) ->
  block_count s = 0 ->
  wp False (read_metadata (Ref h)) (fun _ s' => s' = g_meta s) s.
Proof.
  intros Hh Ho Hc. unfold read_metadata, g_meta. pose proof length_shm as Hlen.
  assert (H0 : 0 <= bc * bs) by nia.
  smi_layout. eapply wp_map_read_at; [done|done|lia|lia|]. px_run.
  eapply wp_map_read_at; [done|done|lia|lia|]. px_run. cbn. rewrite Hc. cbn [Z.land].
  rewrite Z.land_0_l, Z.lor_0_l, Hshm. unfold metadata. smi_layout.
  rewrite slice_app_start by apply length_le.
  rewrite (app_assoc (le 2 bc)), slice_app_mid
    by (rewrite ?length_app, ?length_le; done).
  rewrite !le_val_le_small by (cbn; lia). change (Z.of_nat 8) with 8.
  by rewrite wrap_small by lia.
Qed.

(** The result of a function of the consumer. *)
Definition spost (P : env -> ast -> Prop) (r : Z) (s : env) : Prop :=
  (r = 0 /\ exists g a, P g a /\ srel g a s) \/ (r <> 0 /\ sclosed s).

Lemma wp_sfail (P : env -> ast -> Prop) g a s c :
  srel g a s -> c <> 0 -> wp False (qem_smi_disconnect ;; mret c) (spost P) s.
Proof.
  intros H Hc. eapply wp_seq; [by apply (wp_sdisconnect g a)|]. intros [] s' [H' _].
  px_run. by right.
Qed.

Lemma wp_ssteps_cons g a s m c l P Q :
  wp False m (sstep g a P) s -> c <> 0 ->
  (forall g' a' s', P g' a' -> srel g' a' s' ->
     wp False (run_steps qem_smi_disconnect l) (spost Q) s') ->
  wp False (run_steps qem_smi_disconnect ((m, c) :: l)) (spost Q) s.
Proof.
  intros Hm Hc Hl. cbn. eapply wp_seq; [exact Hm|]. intros [] s1 H1.
  - destruct H1 as (g' & a' & HP & H'). eauto.
  - destruct H1 as (g' & a' & H'). by eapply wp_sfail.
Qed.

Lemma wp_ssteps_nil g a s (P : env -> ast -> Prop) :
  srel g a s -> P g a -> wp False (run_steps qem_smi_disconnect []) (spost P) s.
Proof. intros H HP. cbn. px_run. left. eauto. Qed.

(** Mapping the metadata only: a handle besides those of the abstract state. *)
Lemma wp_smap_meta g a s o :
  srel g a s -> a_view a Shm_fd = Some o ->
  a_view a Shared_buffer = None ->
  wp False (map_shared 8) (fun ok s' =>
    if ok : bool
    then exists s0 h, srel g a s0 /\ held s0 !! h = None /\
           s' = set_slot (set_held s0 (<[h := RMap o 8]> (held s0))) Shared_buffer (Ref h)
    else exists a', srel g a' s') s.
Proof.
  intros H Hv Hn. unfold map_shared. apply wp_bind.
  eapply wp_with_slot; [apply H|done|]. intros h Hs Hh. unfold mmap.
  eapply wp_seq; [by apply wp_sfault|]. intros x s1 (H1 & Hs1 & Hh1 & Hc).
  rewrite <- Hh1 in Hh. eapply wp_find; [done|]. cbn [res].
  destruct (negb (x =? 0) || (8 =? 0)); px_run.
  - rewrite bool_decide_eq_true_2 by done. cbn. exists (a_failed true a).
    destruct H1 as [Hr Ho Hsm Hw Hos Hnm]. split; try done.
    by apply (rel_none True Any g a s1 Shared_buffer true).
  - rewrite bool_decide_eq_false_2 by done. cbn. exists s1, (fresh (dom (held s1))).
    split; [done|]. split; [apply not_elem_of_dom, is_fresh|done].
Qed.

Lemma srel_meta g a s :
  srel g a s -> a_view a Shared_buffer = None -> srel (g_meta g) a (g_meta s).
Proof.
  intros [H Ho Hs Hw Hos Hnm] Hv. split; try done. unfold g_meta.
  apply (rel_set_size True Any (set_block_size (set_block_count g bc) bs) a
    (set_block_size (set_block_count s bc) bs)); [|done].
  destruct H as [Hg Hh Hr Hz Hf Hd]. split; cbn; [glob_eq|done..].
Qed.

(** Reading the metadata, and mapping the rest. *)
Lemma wp_smap_all g a s o h :
  srel g a s -> a_view a Shm_fd = Some o -> a_view a Shared_buffer = None ->
  block_count g = 0 -> held s !! h = None ->
  wp False (with_slot Shared_buffer (fun p => read_metadata p ;; munmap p 8) ;;
            size ← gets shared_buffer_size; map_shared size)
    (sstep g a (fun g' a' => g' = g_meta g /\ a' = a_set Shared_buffer (Some o) a))
    (set_slot (set_held s (<[h := RMap o 8]> (held s))) Shared_buffer (Ref h)).
Proof.
  intros H Hv Hn Hbc0 Hh. unfold with_slot. px_run.
  assert (Hobj : os_objs (e_os s) !! o = Some (B Shm_fd)).
  { eapply (sr_os _ _ _ H); [done|]. apply (sr_within _ _ _ H); [left; by eexists|done]. }
  assert (Hc : block_count s = 0)
    by (rewrite <- Hbc0; pose proof (r_glob _ _ _ _ _ (sr_rel _ _ _ H)); glob_eq).
  eapply wp_seq; [apply wp_read_metadata with (o := o); [by cbn; rewrite lookup_insert_eq|done|done]|].
  intros [] s1 ->. unfold munmap. eapply wp_find; [by cbn; rewrite lookup_insert_eq|].
  cbn [Z.eqb Pos.eqb]. px_run.
  replace (set_held _ _) with (set_slot (g_meta s) Shared_buffer (Ref h))
    by (cbn; by rewrite delete_insert_id by done).
  pose proof (srel_meta _ _ _ H Hn) as Hm.
  apply (wp_map_shared_over (bc * bs + 8) (g_meta s) (Ref h)).
  eapply wp_mono; [apply wp_keeps; [auto with keeps|]|].
  - eapply (wp_map_shared True Any _ _ _ _ _ (sr_rel _ _ _ Hm)); [done|done|done|].
    rewrite (sr_obj _ _ _ Hm), length_shm. nia.
  - intros ok s' [Hr Hca] f Hf. destruct ok.
    + eexists _, _. split; [done|].
      eapply srel_other; [exact Hm|by apply rel_slots| |done]. by intros [[? ?]|[? ?]].
    + eexists _, (a_failed true a). destruct Hr as [_ Hr].
      destruct Hm as [_ Ho Hs Hw Hos Hsh]. split; try done.
      * by apply rel_slots.
      * cbn. by eapply calm_osrel.
      * by etrans; [|apply calm_shrinks].
Qed.

(** What [mapp_buffer] leaves. *)
Definition mapped_all (name : option nat) (g : env) (a : ast) (g' : env) (a' : ast) : Prop :=
  exists o d, name = Some o /\ G Shm_fd = Some o /\ g' = set_data (g_meta g) d /\
    a' = a_pointed (a_set Shared_buffer (Some o) (a_set Shm_fd (Some o) a)).

Lemma wp_mapp_buffer g a s :
  srel g a s -> a_view a Shm_fd = None -> a_view a Shared_buffer = None -> block_count g = 0 ->
  wp False mapp_buffer (spost (mapped_all (os_shm (e_os s) !! QEM_SMI_SHM_NAME) g a)) s.
Proof.
  intros H Hv Hn Hc. unfold mapp_buffer. change (Z.of_nat QEM_SMI_DATA_BUFFER_META_DATA_SIZE) with 8.
  eapply (wp_ssteps_cons g a).
  { eapply wp_mono; [by apply (wp_sopen g a s Shm_fd)|]. intros [] s1 [H1 _]; [exact H1|by eexists _, _]. }
  { done. }
  intros g1 a1 s1 (-> & o & Hnm & HG & ->) H1.
  cbn [run_steps]. eapply wp_seq; [by apply (wp_smap_meta _ _ _ o H1)|]. intros [] s2 H2.
  2: { destruct H2 as (a' & H2). by eapply wp_sfail. }
  destruct H2 as (s0 & h & H0 & Hh & ->). apply wp_bind.
  eapply wp_mono; [by eapply (wp_smap_all _ _ _ o h H0)|]. intros [] s3 H3.
  2: { destruct H3 as (g' & a' & H3). by eapply wp_sfail. }
  destruct H3 as (? & ? & (-> & ->) & H3). cbn [run_steps].
  unfold with_slot. px_run. left. split; [done|].
  destruct H3 as [Hr Ho Hs Hw Hos Hnames].
  pose proof (rel_set_data _ _ _ _ _ Hr) as Hd. cbn zeta in Hd.
  eexists _, _. split; [|split; [exact Hd|done..]]. exists o. eexists. done.
Qed.

(** *** The handshake *)

Context (fill : Z -> bytes).
Context (Hlock : sizeof_pthread_mutex_t <= Z.of_nat (length (B Mon_lock_fd))).
Context (Hread : sizeof_pthread_cond_t <= Z.of_nat (length (B Cond_read_fd))).
Context (Hwrite : sizeof_pthread_cond_t <= Z.of_nat (length (B Cond_write_fd))).

Lemma srel_index g a s i : srel g a s -> srel (set_index g i) a (set_index s i).
Proof. intros [H Ho Hs Hw Hos Hnm]. split; try done. by apply rel_set_index. Qed.

Lemma wp_createlocal_buffer g a s :
  srel g a s -> a_view a Local_buffer = None ->
  wp False (createlocal_buffer fill) (spost (fun g' a' =>
    g' = set_local (set_index g 0) (fill (shared_buffer_size g)) /\
    a' = a_set Local_buffer (Some 0%nat) a)) s.
Proof.
  intros H Hv. unfold createlocal_buffer. px_run. cbn [shared_buffer_size set_index].
  replace (shared_buffer_size s) with (shared_buffer_size g)
    by (pose proof (r_glob _ _ _ _ _ (sr_rel _ _ _ H)); glob_eq).
  eapply wp_ssteps_cons; [by apply wp_smalloc, Hv; apply srel_index|done|].
  intros g' a' s1 [-> ->] H1. by eapply wp_ssteps_nil.
Qed.

(** Opening the objects the client created. *)
Lemma wp_sopen_step g a s sl n :
  srel g a s -> shm_name sl = Some n -> a_view a sl = None ->
  wp False (acquire sl (shm_open n))
    (sstep g a (fun g' a' => g' = g /\ exists o, G sl = Some o /\ a' = a_set sl (Some o) a)) s.
Proof.
  intros H Hn Hv. eapply wp_mono; [by apply (wp_sopen g a)|]. intros [] s1 [H1 _].
  - destruct H1 as (g' & a' & (-> & o & _ & HG & ->) & H1). eexists _, _. split; [|exact H1]. eauto.
  - by eexists _, _.
Qed.

(** The globals [create_sync] acquires. *)
Definition server_slot (sl : slot) : bool :=
  sync_slot sl && bool_decide (sem_name sl = None).

Definition server_synced (g : env) (a : ast) (g' : env) (a' : ast) : Prop :=
  g' = g /\ a_data a' = a_data a /\
  (forall sl, server_slot sl = true -> is_Some (a_view a' sl)) /\
  (forall sl, server_slot sl = false -> a_view a' sl = a_view a sl).

Lemma wp_server_create_sync g a s :
  srel g a s -> (forall sl, server_slot sl = true -> a_view a sl = None) ->
  wp False server_create_sync (spost (server_synced g a)) s.
Proof.
  intros H Hv. unfold server_create_sync.
  assert (V : a_view a Mon_lock_fd = None /\ a_view a Cond_read_fd = None /\
              a_view a Cond_write_fd = None /\ a_view a Mon_lock = None /\
              a_view a Cond_read = None /\ a_view a Cond_write = None) by (by rewrite !Hv).
  destruct V as (V1 & V2 & V3 & V4 & V5 & V6).
  eapply wp_ssteps_cons; [by apply wp_sopen_step|done|]. intros ? ? s1 (-> & o1 & G1 & ->) H1.
  eapply wp_ssteps_cons; [by apply (wp_sopen_step _ _ _ _ _ H1)|done|].
  intros ? ? s2 (-> & o2 & G2 & ->) H2.
  eapply wp_ssteps_cons; [by apply (wp_sopen_step _ _ _ _ _ H2)|done|].
  intros ? ? s3 (-> & o3 & G3 & ->) H3.
  eapply wp_ssteps_cons; [by eapply (wp_smap _ _ _ Mon_lock Mon_lock_fd o1 _ H3)|done|].
  intros ? ? s4 (-> & ->) H4.
  eapply wp_ssteps_cons; [by eapply (wp_smap _ _ _ Cond_read Cond_read_fd o2 _ H4)|done|].
  intros ? ? s5 (-> & ->) H5.
  eapply wp_ssteps_cons; [by eapply (wp_smap _ _ _ Cond_write Cond_write_fd o3 _ H5)|done|].
  intros ? ? s6 (-> & ->) H6.
  eapply wp_ssteps_nil; [exact H6|]. split_and!; [done|..].
  - cbn. by rewrite !andb_true_r.
  - by intros []; eauto.
  - by intros [].
Qed.

Lemma wp_snext (P : env -> ast -> Prop) (Q : server_pc -> env -> Prop) r s k :
  spost P r s -> (forall g a, P g a -> srel g a s -> wp False k Q s) ->
  (forall c, c <> 0 -> sclosed s -> Q (VRet c) s) ->
  wp False (if negb (r =? 0) then mret (VRet r) else k) Q s.
Proof.
  intros [(-> & g & a & HP & H)|(Hr & H)] Hk Hf; cbn; [by eapply Hk|].
  rewrite (proj2 (Z.eqb_neq _ _)) by done. cbn. px_run. by apply Hf.
Qed.

(** A consumer connected to the client: it has everything open, and the value of
    the server's semaphore is one more. *)
Record sconnected (name : option nat) (g0 : env) (s : env) : Prop := {
  sc_name : name <> None;
  sc_magic : le_val (slice 8 4 (B Shm_fd)) = QEM_SMI_HANDSHAKE_MAGIC;
  sc_glob : (error_code s, block_count s, block_size s, local_buffer_index s, local_bytes s,
             next_block s) =
            (QEM_SMI_CONNECTED, bc, bs, bs, fill (bc * bs + 8), next_block g0);
  sc_map : exists h o, slots s Shared_buffer = Ref h /\
             held s !! h = Some (RMap o (bc * bs + 8)) /\ G Shm_fd = Some o;
  sc_os : osrel Within G B (supd Server_sem (K Server_sem + 1) K) (e_os s);
  sc_frame : shrinks w0 (e_os s)
}.

Definition hs_post (name : option nat) (g0 : env) (p : server_pc) (s : env) : Prop :=
  match p with
  | VRet c => if decide (c = 0) then sconnected name g0 s else sclosed s
  | _ => False
  end.

Lemma wp_server_handshake g a s k :
  4 <= bc * bs -> srel g a s -> block_count g = 0 -> a_view a Server_sem = Some k ->
  (forall sl, sem_name sl = None -> a_view a sl = None) ->
  wp False (server_handshake fill) (hs_post (os_shm (e_os s) !! QEM_SMI_SHM_NAME) g) s.
Proof.
  intros Hmin H Hc0 Hk Hv. unfold server_handshake.
  set (nm := os_shm (e_os s) !! QEM_SMI_SHM_NAME).
  assert (Hcl : forall c s', c <> 0 -> sclosed s' -> hs_post nm g (VRet c) s')
    by (intros c s' Hne ?; cbn; by rewrite decide_False).
  eapply wp_seq; [apply (wp_mapp_buffer g a s H); first [done|by apply Hv]|]. intros r1 s1 P1.
  eapply wp_snext; [exact P1| |intros; by apply Hcl]. clear P1.
  intros ? ? (o & d & Hnm & HG & -> & ->) H1.
  eapply wp_seq; [apply (wp_createlocal_buffer _ _ _ H1); cbn; by apply (Hv Local_buffer)|].
  intros r2 s2 P2. eapply wp_snext; [exact P2| |intros; by apply Hcl]. clear P2.
  intros ? ? [-> ->] H2.
  eapply wp_seq; [apply (wp_server_create_sync _ _ _ H2); by intros []; cbn; intros [=]; apply Hv|].
  intros r3 s3 P3. eapply wp_snext; [exact P3| |intros; by apply Hcl]. clear P3.
  intros ? a3 (-> & Hd & Hsl & Hkeep) H3. px_run.
  pose proof (sr_rel _ _ _ H3) as R3.
  rewrite (r_data _ _ _ _ _ R3) by (rewrite Hd; cbn; done).
  assert (Hvs : a_view a3 Shared_buffer = Some o) by (by rewrite Hkeep).
  destruct (h_some _ _ _ _ _ (r_handles _ _ _ _ _ R3) _ _ Hvs) as (h & Hs & Hh).
  rewrite Hs. cbn [fst snd].
  assert (Hobj : os_objs (e_os s3) !! o = Some (B Shm_fd)).
  { eapply (sr_os _ _ _ H3); [done|]. by apply HG. }
  pose proof length_shm as Hls.
  eapply wp_map_read_at; [exact Hh|done|cbn; lia|smi_layout; lia|].
  case_bool; cbn [negb].
  2: { eapply wp_seq; [by eapply (wp_sdisconnect _ _ _ H3)|]. intros [] s4 [H4 _]. px_run.
       by apply Hcl. }
  assert (Hvk : a_view a3 Server_sem = Some k) by (by rewrite Hkeep).
  destruct (h_some _ _ _ _ _ (r_handles _ _ _ _ _ R3) _ _ Hvk) as (h' & Hs' & Hh').
  px_run. rewrite Hs'. unfold sem_post, sem_add, the_sem. px_run. eapply wp_find; [exact Hh'|].
  cbn [res]. px_run. cbn. rewrite decide_True by done.
  assert (HGk : G Server_sem = Some k) by (apply (sr_within _ _ _ H3); [right; by eexists|done]).
  assert (Hgl : (block_count s3, block_size s3, next_block s3, local_bytes s3) =
                (bc, bs, next_block g, fill (bc * bs + 8)))
    by (pose proof (r_glob _ _ _ _ _ R3); glob_eq).
  split; cbn; try done.
  - intros Hx. discriminate (eq_trans (eq_sym Hnm) Hx).
  - congruence.
  - by exists h, o.
  - rewrite (alter_Some _ _ _ _ (o_sem _ _ _ _ _ (sr_os _ _ _ H3) Server_sem _ _ eq_refl HGk)).
    by eapply os_sem_set; [apply H3|..].
  - destruct (sr_frame _ _ _ H3). by split.
Qed.
End server.

(** ** The two ends together *)

Lemma wp_disconnect_calm g a s junk :
  rel True Within g a s -> error_code g <> QEM_SMI_CONNECTED ->
  wp False (disconnect junk) (fun _ s' => client_down s' /\ calm (e_os s) (e_os s')) s.
Proof.
  intros H Hc.
  assert (Hcs : error_code s <> QEM_SMI_CONNECTED)
    by (replace (error_code s) with (error_code g)
          by (pose proof (r_glob _ _ _ _ _ H) as Hg; glob_eq); done).
  pose proof (wp_disconnect True Within junk g a s H Hc) as Hw.
  assert (Hk : match disconnect junk s with Done (_, s') => calm (e_os s) (e_os s') | _ => True end).
  { unfold disconnect, qem_smi_client_disconnect, mbind, C_bind, gets, mret, C_ret.
    rewrite decide_False by done. pose proof (keeps_client_release s) as Hr.
    by destruct (client_release s) as [[[] s']| |]. }
  unfold wp in *. destruct (disconnect junk s) as [[[] s']| |]; try done. split; [|done].
  destruct Hw as [Hw _]. by destruct (closed_down _ Within _ _ ltac:(done) Hw).
Qed.

Section handshake.
Context (bc bs junk : Z) (cfill sfill : Z -> bytes) (cmax smax : Z).
Context (Hbc : 0 <= bc < 2 ^ 16) (Hbs : 0 <= bs < 2 ^ 32) (Hmin : 4 <= bc * bs)
        (Hsize : bc * bs + 8 < 2 ^ 32) (Hsmax : 0 <= smax < 2 ^ 32).

(** The contents of the ring: zeros, then the magic number of the handshake. *)
Definition ring_data (magic : bool) : bytes :=
  let zeros := replicate (Z.to_nat (bc * bs)) 0 in
  if magic then splice 0 (le 4 QEM_SMI_HANDSHAKE_MAGIC) zeros else zeros.

(** The objects the client created. *)
Record created (G : view) (B : slot -> bytes) : Prop := {
  cr_all sl : is_Some (G sl);
  cr_shm : exists magic, B Shm_fd = metadata bc bs (ring_data magic);
  cr_lock : sizeof_pthread_mutex_t <= Z.of_nat (length (B Mon_lock_fd));
  cr_read : sizeof_pthread_cond_t <= Z.of_nat (length (B Cond_read_fd));
  cr_write : sizeof_pthread_cond_t <= Z.of_nat (length (B Cond_write_fd))
}.

(** The client initialised, with or without the magic number written. *)
Record cup (magic : bool) (code : QEM_SMI_STATUS_CODE_E) (G : view) (B : slot -> bytes)
    (K : slot -> Z) (s : env) : Prop := {
  cu_rel : exists g a, rel True Within g a s /\ a_view a = G /\ a_obj a = B /\ a_sem a = K /\
    a_data a = true /\ shared_buffer_size g = bc * bs + 8 /\ error_code g = code;
  cu_glob : (local_bytes s, local_buffer_index s, next_block s) = (cfill bs, 0, 0);
  cu_sync : (os_lock (e_os s), os_waits_write (e_os s), os_waits_read (e_os s)) =
            (None, false, false);
  cu_created : created G B;
  cu_shm : B Shm_fd = metadata bc bs (ring_data magic)
}.

(** The consumer before the handshake: it has at most the semaphores open. *)
Record spre (G V : view) (s : env) : Prop := {
  sp_handles : handles (shared_buffer_size s) false V (slots s) (held s);
  sp_sems sl : sem_name sl = None -> V sl = None;
  sp_within sl o : V sl = Some o -> G sl = Some o;
  sp_count : block_count s = 0;
  sp_next : next_block s = 0
}.

(** The consumer after it. *)
Record sconn (G : view) (s : env) : Prop := {
  sn_glob : (error_code s, block_count s, block_size s, local_buffer_index s, local_bytes s,
             next_block s) =
            (QEM_SMI_CONNECTED, bc, bs, bs, sfill (bc * bs + 8), 0);
  sn_map : exists h o, slots s Shared_buffer = Ref h /\
             held s !! h = Some (RMap o (bc * bs + 8)) /\ G Shm_fd = Some o
}.

Definition srv_ok (G : view) (p : server_run) (s : env) : Prop :=
  match p with
  | WInit => exists V, spre G V s /\ forall sl, V sl = None
  | WConnect =>
      (exists V, spre G V s /\ forall sl, V sl = None) /\ error_code s = QEM_SMI_NOT_CONNECTED
  | WRun (VServer n) => (exists V, spre G V s /\ forall sl, V sl = None) /\ 0 <= n <= smax
  | WRun (VClient n) =>
      (exists V, spre G V s /\ V Client_sem = None /\ is_Some (V Server_sem)) /\ 0 <= n <= smax
  | WRun VWait =>
      exists V, spre G V s /\ is_Some (V Client_sem) /\ is_Some (V Server_sem)
  | WRun (VRet c) =>
      if decide (c = 0) then sconn G s else idle s /\ error_code s = QEM_SMI_UNINIT
  end.

Definition srv_connected (p : server_run) : bool :=
  match p with WRun (VRet c) => c =? 0 | _ => false end.

Definition cli_ok (G : view) (B : slot -> bytes) (K : slot -> Z) (srv : server_run)
    (p : client_run) (s : env) : Prop :=
  match p with
  | KInit => idle s /\ next_block s = 0 /\ (forall sl, G sl = None) /\ srv_connected srv = false
  | KConnect =>
      (cup false QEM_SMI_NOT_CONNECTED G B K s /\ K Server_sem = 0 \/ client_down s) /\
      srv_connected srv = false
  | KRun (CWait _) =>
      cup true QEM_SMI_NOT_CONNECTED G B K s /\
      K Server_sem = (if srv_connected srv then 1 else 0)
  | KRun (CRet c) =>
      (c = 0 /\ cup true QEM_SMI_CONNECTED G B K s /\ srv_connected srv = true) \/
      (c = -1 /\ client_down s /\ srv_connected srv = false)
  | KRun (CFlush _) => False
  end.

Definition conn_inv (m : conn) : Prop :=
  exists G B K,
    osrel Within G B K (cn_os m) /\
    ((forall sl, G sl = None) \/ created G B) /\
    srv_ok G (cn_srv m) (cn_senv m) /\
    cli_ok G B K (cn_srv m) (cn_cli m) (set_os (cn_cenv m) (cn_os m)).

(** *** Steps of the consumer *)

Lemma spre_srel G V B K s w :
  spre G V s -> osrel Within G B K w ->
  srel G B K w (set_os s w) (mk_ast V false false B K) (set_os s w).
Proof.
  intros [Hh Hs Hw Hc Hn] Ho.
  assert (Hfd : forall sl fd o, fd_of sl = Some fd -> V sl = Some o -> False).
  { intros sl fd o Hfd Hv. rewrite Hs in Hv; [done|]. by destruct sl. }
  split; cbn; try done; [|naive_solver].
  split; cbn; try done; [|by intros sl fd o H1 H2; destruct (Hfd sl fd o)].
  eapply osrel_within; [exact Ho|naive_solver|].
  by intros sl fd o H1 H2; destruct (Hfd sl fd o).
Qed.

Lemma srel_spre G B K w g a s :
  srel G B K w g a s -> a_mf a = false -> (forall sl, sem_name sl = None -> a_view a sl = None) ->
  block_count g = 0 -> next_block g = 0 -> spre G (a_view a) s.
Proof.
  intros H Hmf Hv Hc Hn. pose proof (sr_rel _ _ _ _ _ _ _ H) as R.
  assert (Hg : (shared_buffer_size s, block_count s, next_block s) =
               (shared_buffer_size g, block_count g, next_block g))
    by (pose proof (r_glob _ _ _ _ _ R); glob_eq).
  injection Hg as Hg1 Hg2 Hg3. split; try congruence.
  - rewrite Hg1, <- Hmf. apply R.
  - done.
  - intros sl o Ho. apply (sr_within _ _ _ _ _ _ _ H); [|done].
    destruct (sem_name sl) eqn:E; [right; by eexists|]. by rewrite Hv in Ho.
Qed.

(** What a step of the consumer does to the system. *)
Record sys_step (G : view) (B : slot -> bytes) (K' : slot -> Z) (w w' : os) : Prop := {
  ss_os : osrel Within G B K' w';
  ss_frame : shrinks w w'
}.

Lemma calm_sys G B K w w' : osrel Within G B K w -> calm w w' -> sys_step G B K w w'.
Proof. intros H Hc. split; [by eapply calm_osrel|by apply calm_shrinks]. Qed.

Definition srv_post (G : view) (B : slot -> bytes) (K : slot -> Z) (w : os)
    (p : server_run) (s : env) : Prop :=
  srv_ok G p s /\ exists K', sys_step G B K' w (e_os s) /\
    if srv_connected p
    then os_shm w !! QEM_SMI_SHM_NAME <> None /\
         le_val (slice 8 4 (B Shm_fd)) = QEM_SMI_HANDSHAKE_MAGIC /\
         K' Server_sem = K Server_sem + 1
    else K' Server_sem = K Server_sem.

Lemma wp_open_sem G V B K w s sl n attempt again next :
  spre G V s -> osrel Within G B K w -> sem_name sl = Some n -> V sl = None ->
  0 <= attempt <= smax -> srv_connected (WRun next) = false ->
  (forall i, srv_connected (WRun (again i)) = false) ->
  (forall i s', spre G V s' -> 0 <= i <= smax -> srv_ok G (WRun (again i)) s') ->
  (forall o s', spre G (vset sl (Some o) V) s' -> srv_ok G (WRun next) s') ->
  wp False (open_sem smax sl n attempt again next)
    (fun p => srv_post G B K w (WRun p)) (set_os s w).
Proof.
  intros Hp Ho Hn Hv Hat Hnc Hac Hagain Hnext.
  pose proof (spre_srel _ _ _ _ _ _ Hp Ho) as H.
  assert (Hcalm : forall p s', srv_connected (WRun p) = false -> srv_ok G (WRun p) s' ->
    calm w (e_os s') -> srv_post G B K w (WRun p) s').
  { intros p s' Hf Hok Hc. split; [done|]. exists K. rewrite Hf. split; [by apply calm_sys|done]. }
  unfold open_sem. destruct (Z.ltb_spec attempt smax); [|destruct (Z.eqb_spec attempt smax)].
  - eapply wp_seq; [by apply (wp_ssem _ _ _ _ _ _ _ _ _ H)|].
    intros [] s1 [H1 Hc]; px_run; apply Hcalm; try done.
    + destruct H1 as (? & ? & (-> & o & _ & HG & ->) & H1). apply (Hnext o).
      eapply (srel_spre _ _ _ _ _ _ _ H1); [done| |apply Hp|apply Hp].
      intros x Hx. cbn. unfold vset. slot_cases; [congruence|by apply Hp].
    + rewrite wrap_small by lia. apply Hagain; [|lia].
      by apply (srel_spre _ _ _ _ _ _ _ H1); [|apply Hp..].
  - eapply wp_seq; [by apply (wp_sdisconnect _ _ _ _ _ _ _ H)|]. intros [] s1 [(Hi & Hc1 & _) Hc].
    px_run. by apply Hcalm.
  - exfalso. lia.
Qed.

(** The contents the consumer reads its metadata from. *)
Lemma length_ring_data magic : Z.of_nat (length (ring_data magic)) = bc * bs.
Proof.
  unfold ring_data. destruct magic; [rewrite length_splice|]; rewrite ?length_le, length_replicate;
    lia.
Qed.

Lemma hs_srv G B K w g p s :
  next_block g = 0 ->
  hs_post G B K w bc bs sfill (os_shm w !! QEM_SMI_SHM_NAME) g p s ->
  srv_post G B K w (WRun p) s.
Proof.
  intros Hn H. destruct p as [| | |c]; try done. unfold srv_post. cbn in *. case_decide as Hc.
  - subst c. destruct H as [Hnm Hmg Hg Hm Ho Hsh]. split.
    + split; [by rewrite <- Hn|done].
    + eexists. split; [by split|]. split_and!; [done..|]. by rewrite supd_eq.
  - destruct H as (Hi & Hu & Ho & Hsh). split; [done|]. exists K.
    rewrite (proj2 (Z.eqb_neq _ _)) by done. by split.
Qed.

Lemma wp_handshake_step G V B K w s :
  spre G V s -> osrel Within G B K w -> created G B -> is_Some (V Server_sem) ->
  wp False (server_handshake sfill) (fun p => srv_post G B K w (WRun p)) (set_os s w).
Proof.
  intros Hp Ho [Hall [mg Hshm] Hl Hr Hw] [k Hk].
  eapply wp_mono.
  - eapply (wp_server_handshake G B K w bc bs (ring_data mg) Hbc Hbs Hsize Hshm
      (length_ring_data mg) sfill Hl Hr Hw); [done|by apply spre_srel|apply Hp|done|apply Hp].
  - intros p s' H. eapply hs_srv; [|exact H]. apply Hp.
Qed.

(** Taking the client's semaphore does not change what the handshake says. *)
Lemma srv_post_sems G B K v w m p s :
  srv_post G B (supd Client_sem v K) (set_sems w m) p s -> srv_post G B K w p s.
Proof.
  intros (Hok & K' & [Ho [H1 H2 H3]] & Hc). split; [done|]. exists K'. split; [by split|].
  by destruct (srv_connected p).
Qed.

Lemma wp_srv_step G B K w p a s :
  osrel Within G B K w -> (forall sl, G sl = None) \/ created G B ->
  srv_ok G p s -> (forall c, p <> WRun (VRet c)) ->
  wp False (server_run_code sfill smax p a) (srv_post G B K w) (set_os s w).
Proof.
  intros Ho Hcr Hok Hp.
  assert (Hcalm : forall p s', srv_connected p = false -> srv_ok G p s' ->
    e_os s' = w -> srv_post G B K w p s').
  { intros p' s' Hf Hok' Hc. split; [done|]. exists K. rewrite Hf, Hc. by split. }
  destruct p as [| |[n|n| |c]]; cbn [server_run_code server_code].
  - destruct Hok as (V & Hs & Hv). unfold qem_smi_init. px_run. apply Hcalm; [done| |done].
    split; [|done]. exists V. split; [|done]. destruct Hs. by split.
  - destruct Hok as [(V & Hs & Hv) Hc]. unfold qem_smi_connect. px_run. cbn. rewrite Hc.
    rewrite decide_True by done. px_run. apply Hcalm; [done| |done]. split; [|lia].
    exists V. split; [|done]. destruct Hs. by split.
  - destruct Hok as [(V & Hs & Hv) Hn]. apply wp_bind. eapply wp_mono.
    + eapply (wp_open_sem G V); try done.
      * intros i s' Hs' Hi. split; [by exists V|done].
      * intros o s' Hs'. split; [|lia]. eexists. split; [exact Hs'|].
        rewrite vset_eq, vset_ne by done. by split; [apply Hv|eexists].
    + intros p' s' H'. by px_run.
  - destruct Hok as [(V & Hs & Hv & Hv') Hn]. apply wp_bind. eapply wp_mono.
    + eapply (wp_open_sem G V); try done.
      * intros i s' Hs' Hi. split; [by exists V|done].
      * intros o s' Hs'. eexists. split; [exact Hs'|]. rewrite vset_eq, vset_ne by done.
        by split; [eexists|].
    + intros p' s' H'. by px_run.
  - destruct Hok as (V & Hs & [k Hk] & Hv'). apply wp_bind.
    assert (HG : G Client_sem = Some k) by (by apply Hs).
    destruct Hcr as [Hno|Hcr]; [by rewrite Hno in HG|].
    assert (Hh : wp False (server_handshake sfill) (fun p s' =>
      wp False (mret (WRun p)) (srv_post G B K w) s') (set_os s w)).
    { eapply wp_mono; [by apply (wp_handshake_step G V B K w s)|]. intros p' s' H'. by px_run. }
    destruct a; [|exact Hh..]. unfold server_wait, sem_add, the_sem. px_run.
    destruct (h_some _ _ _ _ _ (sp_handles _ _ _ Hs) _ _ Hk) as (h & Hsl & Hh').
    cbn [slots set_os]. rewrite Hsl. eapply wp_find; [exact Hh'|]. cbn [res]. px_run. cbn.
    rewrite (alter_Some _ _ _ _ (o_sem _ _ _ _ _ Ho Client_sem _ _ eq_refl HG)).
    eapply wp_mono; [eapply (wp_handshake_step G V B _ _ s Hs); 
      [exact (os_sem_set _ _ _ _ _ Client_sem _ _ (K Client_sem + -1) Ho eq_refl HG)|done..]|].
    intros p' s' H'. px_run. eapply srv_post_sems. exact H'.
  - by destruct (Hp c).
Qed.

(** *** Steps of the client *)

Lemma osrel_weaken V B K w : osrel Exact V B K w -> osrel Within V B K w.
Proof.
  intros H. split; try apply H; intros sl n Hn; right;
    [exact (o_shm_names _ _ _ _ _ H sl n Hn)|exact (o_sem_names _ _ _ _ _ H sl n Hn)].
Qed.

Lemma rel_weaken F g a s : rel F Exact g a s -> rel True Within g a s.
Proof. intros [? ? ? ? ? ?]. split; try done. by apply osrel_weaken. Qed.

Lemma wp_sem_add F N g a s sl n k d :
  rel F N g a s -> sem_name sl = Some n -> a_view a sl = Some k ->
  wp False (v ← gets (fun s => slots s sl); sem_add v d)
    (fun _ s' => rel F N g (a_val sl (a_sem a sl + d) a) s') s.
Proof.
  intros H Hn Hv. destruct (h_some _ _ _ _ _ (r_handles _ _ _ _ _ H) _ _ Hv) as (h & Hs & Hh).
  unfold sem_add, the_sem. px_run. rewrite Hs. eapply wp_find; [exact Hh|].
  replace (res _ sl k) with (RSem k) by by destruct sl. px_run.
  destruct H as [Hg Hh' Ho Hz Hf Hd].
  rewrite (alter_Some _ _ _ _ (o_sem _ _ _ _ _ Ho _ _ _ Hn Hv)).
  split; cbn; try done. by eapply os_sem_set.
Qed.

(** What a step of the client leaves, for the consumer at [srv]. *)
Definition cli_post (G : view) (srv : server_run) (p : client_run) (s : env) : Prop :=
  exists G' B K, osrel Within G' B K (e_os s) /\
    ((forall sl, G' sl = None) \/ created G' B) /\
    (forall s', srv_ok G srv s' -> srv_ok G' srv s') /\ cli_ok G' B K srv p s.

Lemma srv_ok_mono G G' srv s :
  (forall sl, G sl = None) -> srv_connected srv = false -> srv_ok G srv s -> srv_ok G' srv s.
Proof.
  intros HG Hc.
  assert (Hpre : forall V s, spre G V s -> forall sl, V sl = None).
  { intros V s' H sl. destruct (V sl) as [o|] eqn:E; [|done].
    by rewrite <- (HG sl), (sp_within _ _ _ H _ _ E). }
  assert (Hn : forall V s, spre G V s -> spre G' V s).
  { intros V s' H. pose proof (Hpre V s' H) as HV. destruct H. split; try done.
    intros sl o Ho. by rewrite HV in Ho. }
  destruct srv as [| |[n|n| |c]]; cbn.
  - intros (V & ? & ?). eauto.
  - intros [(V & ? & ?) ?]. eauto.
  - intros [(V & ? & ?) ?]. eauto.
  - intros [(V & H & _ & [k Hk]) _]. by rewrite (Hpre V s H) in Hk.
  - intros (V & H & _ & [k Hk]). by rewrite (Hpre V s H) in Hk.
  - cbn in Hc. apply Z.eqb_neq in Hc. by rewrite !decide_False by done.
Qed.

Lemma down_osrel s B K : client_down s -> osrel Within (fun _ => None) B K (e_os s).
Proof. intros (_ & _ & Hs & Hk). split; try done; intros; left; eauto. Qed.

Lemma wp_cli_init G srv s x :
  idle s -> next_block s = 0 -> (forall sl, G sl = None) -> srv_connected srv = false ->
  wp False (client_code bc bs junk cfill cmax KInit x) (cli_post G srv) s.
Proof.
  intros Hi Hn HG Hc. cbn [client_code].
  eapply wp_seq; [apply (wp_client_init True Exact ltac:(done) bc bs junk cfill ltac:(lia) ltac:(lia)
    Hsize s Hi ltac:(done))|]. intros r s1 H1. px_run.
  destruct H1 as [(-> & g & a & HP & H)|(-> & _ & H)].
  - destruct HP as (Hv & Hd & Ho & Hs1 & Hs2 & Hg & _ & _ & Hl1 & Hl2 & Hl3).
    pose proof (rel_weaken _ _ _ _ H) as H'.
    assert (Hcr : created (a_view a) (a_obj a)).
    { split; [done|by exists false|..].
      - destruct (Hv Mon_lock) as [o Hvo]. exact (r_sized _ _ _ _ _ H Mon_lock _ _ eq_refl Hvo).
      - destruct (Hv Cond_read) as [o Hvo]. exact (r_sized _ _ _ _ _ H Cond_read _ _ eq_refl Hvo).
      - destruct (Hv Cond_write) as [o Hvo].
        exact (r_sized _ _ _ _ _ H Cond_write _ _ eq_refl Hvo). }
    exists (a_view a), (a_obj a), (a_sem a). split_and!; [apply H'|by right|..].
    + intros s'. by apply srv_ok_mono.
    + split; [left|done]. split; [|done].
      assert (Hgs : (error_code s1, shared_buffer_size s1, local_bytes s1, local_buffer_index s1,
                     next_block s1) =
                    (error_code g, shared_buffer_size g, local_bytes g, local_buffer_index g,
                     next_block g) /\
                    (os_lock (e_os s1), os_waits_write (e_os s1), os_waits_read (e_os s1)) =
                    (os_lock (e_os g), os_waits_write (e_os g), os_waits_read (e_os g)))
        by (pose proof (r_glob _ _ _ _ _ H); split; glob_eq).
      destruct Hgs as [Hgs Hgl]. rewrite Hg in Hgs. rewrite Hl1, Hl2, Hl3 in Hgl.
      split; [|congruence|done|done|done].
      exists g, a. split_and!; try done; congruence.
  - destruct (closed_down _ Exact _ _ ltac:(done) H) as [Hcd _].
    exists (fun _ => None), (fun _ => []), (fun _ => 0).
    split_and!; [by apply down_osrel|by left| |split; [by right|done]].
    intros s'. by apply srv_ok_mono.
Qed.

Lemma down_rel s :
  client_down s ->
  rel True Within s (mk_ast (fun _ => None) false false (fun _ => []) (fun _ => 0)) s.
Proof.
  intros Hd. pose proof Hd as (_ & [Hs Hh] & _). split; try done; [|by apply down_osrel].
  split; cbn; [done|..].
  - intros sl _. rewrite Hs. by destruct sl.
  - intros sl sl' h. rewrite Hs. by destruct sl.
  - intros h. rewrite Hh, lookup_empty. by intros [].
Qed.

(** The client's disconnection, in the state of the other end. *)
Lemma wp_cli_down G B K srv g a s :
  rel True Within g a s -> error_code g <> QEM_SMI_CONNECTED ->
  osrel Within G B K (e_os s) -> (forall sl, G sl = None) \/ created G B ->
  srv_connected srv = false ->
  wp False (disconnect junk) (fun _ s' => cli_post G srv (KRun (CRet (-1))) s') s.
Proof.
  intros H Hc Ho Hcr Hs. eapply wp_mono; [by apply (wp_disconnect_calm g a)|].
  intros [] s' [Hd Hk]. exists G, B, K. split_and!; [by eapply calm_osrel|done|done|]. by right.
Qed.

Lemma wp_connect_test G B K srv g a s n :
  rel True Within g a s -> error_code g = QEM_SMI_NOT_CONNECTED ->
  osrel Within G B K (e_os s) -> (forall sl, G sl = None) \/ created G B ->
  srv_connected srv = false ->
  (cli_ok G B K srv (KRun (CWait n)) s) ->
  wp False (connect_test junk cmax n (-1)) (fun p => cli_post G srv (KRun p)) s.
Proof.
  intros H Hc Ho Hcr Hs Hok. unfold connect_test, connect_end. destruct (n <? cmax); cbn.
  - px_run. by exists G, B, K.
  - px_run. eapply wp_seq; [apply (wp_cli_down G B K srv g a); [done|by rewrite Hc|done..]|].
    intros [] s' H'. by px_run.
Qed.

Lemma wp_cli_connect_down G B K srv s x :
  client_down s -> osrel Within G B K (e_os s) -> (forall sl, G sl = None) \/ created G B ->
  srv_connected srv = false ->
  wp False (client_code bc bs junk cfill cmax KConnect x) (cli_post G srv) s.
Proof.
  intros Hd Ho Hcr Hs. pose proof Hd as (Hu & _). cbn. unfold qem_smi_client_connect. px_run.
  rewrite Hu, decide_False by done. px_run.
  pose proof (wp_cli_down G B K srv s _ s (down_rel s Hd) ltac:(by rewrite Hu) Ho Hcr Hs) as Hw.
  unfold wp, disconnect, mbind, C_bind, mret, C_ret in *.
  by destruct (qem_smi_client_disconnect junk s) as [[[] s']| |].
Qed.

Lemma metadata_magic data off :
  off = QEM_SMI_DATA_BUFFER_META_DATA_SIZE -> (4 <= length data)%nat ->
  splice off (le 4 QEM_SMI_HANDSHAKE_MAGIC) (metadata bc bs data) =
  metadata bc bs (splice 0 (le 4 QEM_SMI_HANDSHAKE_MAGIC) data).
Proof.
  intros -> Hl. unfold metadata, splice. smi_layout. rewrite !app_assoc.
  rewrite take_app_length', drop_app_ge by (rewrite ?length_app, ?length_le; lia).
  by rewrite take_0, <- !app_assoc, !length_app, !length_le.
Qed.

Lemma wp_cli_connect_up G B K srv s x :
  cup false QEM_SMI_NOT_CONNECTED G B K s -> K Server_sem = 0 -> srv_connected srv = false ->
  wp False (client_code bc bs junk cfill cmax KConnect x) (cli_post G srv) s.
Proof.
  intros [(g & a & H & HG & HB & HK & Hd & Hsz & Hc) Hgl Hsy Hcr Hshm] HK0 Hs.
  cbn. unfold qem_smi_client_connect. px_run.
  assert (Hcs : error_code s = QEM_SMI_NOT_CONNECTED)
    by (rewrite <- Hc; pose proof (r_glob _ _ _ _ _ H); glob_eq).
  rewrite Hcs, decide_True by done. px_run. rewrite (r_data _ _ _ _ _ H Hd). cbn [fst snd].
  destruct (cr_all _ _ Hcr Shared_buffer) as [o Ho]. rewrite <- HG in Ho.
  destruct (h_some _ _ _ _ _ (r_handles _ _ _ _ _ H) _ _ Ho) as (h & Hsl & _). rewrite Hsl.
  apply wp_bind. eapply wp_mono.
  { apply (wp_map_write True Within g a s o h _ _ H Ho Hsl). rewrite length_le, Hsz. cbn. lia. }
  intros [] s1 (H1 & _ & _). 
  destruct (cr_all _ _ Hcr Client_sem) as [k Hk]. rewrite <- HG in Hk.
  px_run. apply wp_bind.
  eapply wp_mono; [exact (wp_sem_add True Within _ _ _ Client_sem _ k 1 H1 eq_refl Hk)|].
  intros [] s2 H2.
  apply (wp_mono _ _ (fun p => cli_post G srv (KRun p))); [|intros p s3 H3; by px_run].
  assert (Hshm' : splice QEM_SMI_DATA_BUFFER_META_DATA_SIZE (le 4 QEM_SMI_HANDSHAKE_MAGIC)
                    (a_obj a Shm_fd) = metadata bc bs (ring_data true)).
  { rewrite HB, Hshm, metadata_magic; [done|done|]. pose proof (length_ring_data false). lia. }
  match type of H2 with rel _ _ _ ?a2 _ => set (a2' := a2) in H2 end.
  assert (Hcr' : created G (a_obj a2')).
  { destruct Hcr as [C1 C2 C3 C4 C5]. split; [done|exists true; cbn; by rewrite supd_eq|..];
      cbn; by rewrite HB. }
  assert (Hgl2 : (local_bytes s2, local_buffer_index s2, next_block s2) =
                 (local_bytes s, local_buffer_index s, next_block s) /\
                 (os_lock (e_os s2), os_waits_write (e_os s2), os_waits_read (e_os s2)) =
                 (os_lock (e_os s), os_waits_write (e_os s), os_waits_read (e_os s))).
  { pose proof (eq_trans (r_glob _ _ _ _ _ H2) (eq_sym (r_glob _ _ _ _ _ H))). split; glob_eq. }
  destruct Hgl2 as [Hgl2 Hsy2].
  apply (wp_connect_test G (a_obj a2') (a_sem a2') srv g a2');
    [done|done|rewrite <- HG; apply H2|by right|done|].
  split; [|change (a_sem a Server_sem = if srv_connected srv then 1 else 0); by rewrite HK, HK0, Hs]. split; [|congruence|congruence|done|].
  - exists g, a2'. split_and!; done.
  - cbn. by rewrite supd_eq.
Qed.

(** The answer of a wait says whether the consumer is connected. *)
Lemma sem_free_val G K g a s w :
  rel True Within g a (set_os s w) -> a_view a = G -> a_sem a = K -> is_Some (G Server_sem) ->
  sem_free s Server_sem w = (0 <? K Server_sem).
Proof.
  intros H HG HK [k Hk]. rewrite <- HG in Hk.
  destruct (h_some _ _ _ _ _ (r_handles _ _ _ _ _ H) _ _ Hk) as (h & Hs & Hh). cbn in Hs, Hh.
  unfold sem_free. rewrite Hs, Hh. pose proof (o_sem _ _ _ _ _ (r_os _ _ _ _ _ H) Server_sem _ _ eq_refl Hk) as Hv.
  cbn in Hv. by rewrite Hv, HK.
Qed.

Lemma wp_cli_wait G B K srv s w n x :
  cli_ok G B K srv (KRun (CWait n)) (set_os s w) ->
  answer_ok (sem_free s Server_sem w) x = true ->
  wp False (client_code bc bs junk cfill cmax (KRun (CWait n)) x) (cli_post G srv) (set_os s w).
Proof.
  intros Hok Hx. pose proof Hok as [Hup HKs].
  pose proof Hup as [(g & a & H & HG & HB & HK & Hd & Hsz & Hc) Hgl Hsy Hcr Hshm].
  rewrite (sem_free_val G K g a s w H HG HK (cr_all _ _ Hcr Server_sem)) in Hx.
  assert (Ho : osrel Within G B K w) by (rewrite <- HG, <- HB, <- HK; apply H).
  cbn [client_code]. destruct x; cbn [connect_wait]; cbn in Hx.
  - destruct (srv_connected srv) eqn:Hs; [|by rewrite HKs in Hx].
    destruct (cr_all _ _ Hcr Server_sem) as [k Hk]. rewrite <- HG in Hk.
    px_run. apply wp_bind.
    eapply wp_mono; [exact (wp_sem_add True Within _ _ _ Server_sem _ k (-1) H eq_refl Hk)|].
    intros [] s1 H1. unfold connect_end. cbn. px_run.
    assert (Hgl1 : (local_bytes s1, local_buffer_index s1, next_block s1) =
                   (local_bytes s, local_buffer_index s, next_block s) /\
                   (os_lock (e_os s1), os_waits_write (e_os s1), os_waits_read (e_os s1)) =
                   (os_lock w, os_waits_write w, os_waits_read w)).
    { pose proof (eq_trans (r_glob _ _ _ _ _ H1) (eq_sym (r_glob _ _ _ _ _ H))).
      split; glob_eq. }
    destruct Hgl1 as [Hgl1 Hsy1]. cbn in Hgl, Hsy.
    exists G, B, (supd Server_sem (K Server_sem + -1) K). split_and!; [|by right|done|].
    + cbn. rewrite <- HG, <- HB, <- HK. apply H1.
    + left. split; [done|]. split; [|done]. split; [|cbn; congruence|cbn; congruence|done|done].
      eexists _, _. split; [exact (rel_code _ _ _ _ _ QEM_SMI_CONNECTED H1)|].
      cbn. rewrite HK. by split_and!.
  - destruct (srv_connected srv) eqn:Hs; [by rewrite HKs in Hx|].
    apply wp_bind. apply (wp_mono _ _ (fun p => cli_post G srv (KRun p))); [|intros p s3 H3; by px_run].
    apply (wp_connect_test G B K srv g a); try done. by right.
  - px_run. exists G, B, K. split_and!; [done|by right|done|done].
Qed.

(** *** The invariant *)

Lemma cup_env magic code G B K K' c w w' :
  cup magic code G B K (set_os c w) -> sys_step G B K' w w' ->
  cup magic code G B K' (set_os c w').
Proof.
  intros [(g & a & H & HG & HB & HK & Hd & Hsz & Hc) Hgl Hsy Hcr Hshm] [Ho [_ _ Hsh]].
  split; [|done| |done|done].
  - exists g, (mk_ast G (a_mf a) true B K'). subst G B K. split_and!; try done.
    destruct H as [Hg Hh Hr Hz Hf Hda]. split; try done.
    + etrans; [|exact Hg]. unfold glob. cbn. congruence.
    + intros _. by apply Hda.
  - cbn in *. congruence.
Qed.

Lemma down_env c w w' : client_down (set_os c w) -> shrinks w w' -> client_down (set_os c w').
Proof.
  intros (Hc & Hi & Hs & Hk) [H1 H2 _]. split_and!; [done|done|..].
  - intros sl n Hn. specialize (Hs sl n Hn). cbn in *.
    destruct (os_shm w' !! n) eqn:E; [|done]. by rewrite (lookup_weaken _ _ _ _ E H1) in Hs.
  - intros sl n Hn. specialize (Hk sl n Hn). cbn in *.
    destruct (os_sem w' !! n) eqn:E; [|done]. by rewrite (lookup_weaken _ _ _ _ E H2) in Hk.
Qed.

(** Without the magic number the consumer refuses the connection. *)
Lemma no_magic : le_val (slice 8 4 (metadata bc bs (ring_data false))) <> QEM_SMI_HANDSHAKE_MAGIC.
Proof.
  unfold metadata, ring_data. smi_layout. rewrite !app_assoc.
  replace (Z.to_nat (bc * bs)) with (4 + (Z.to_nat (bc * bs) - 4))%nat by lia.
  rewrite replicate_add, slice_app_mid; [done|by rewrite !length_app, !length_le|done].
Qed.

Lemma cli_ok_sys G B K K' srv srv' p c w w' :
  cli_ok G B K srv p (set_os c w) -> osrel Within G B K w -> srv_connected srv = false ->
  sys_step G B K' w w' ->
  (if srv_connected srv'
   then os_shm w !! QEM_SMI_SHM_NAME <> None /\
        le_val (slice 8 4 (B Shm_fd)) = QEM_SMI_HANDSHAKE_MAGIC /\
        K' Server_sem = K Server_sem + 1
   else K' Server_sem = K Server_sem) ->
  cli_ok G B K' srv' p (set_os c w').
Proof.
  intros Hok Ho Hs Hst Hk.
  assert (Hdown : client_down (set_os c w) -> srv_connected srv' = false).
  { intros (_ & _ & Hn & _). destruct (srv_connected srv'); [|done].
    by destruct Hk as [[] _]; apply (Hn Shm_fd). }
  destruct p as [| |[n|p|r]]; cbn in *.
  - destruct Hok as (? & ? & HG & _). split_and!; try done.
    destruct (srv_connected srv'); [|done]. destruct Hk as [[] _].
    destruct (o_shm_names _ _ _ _ _ Ho Shm_fd _ eq_refl) as [E|E]; [done|]. by rewrite E.
  - destruct Hok as [[[Hup HK]|Hd] _].
    + destruct (srv_connected srv') eqn:E.
      { destruct Hk as (_ & Hm & _). rewrite (cu_shm _ _ _ _ _ _ Hup) in Hm. by apply no_magic in Hm. }
      split; [left|done]. split; [by eapply cup_env|congruence].
    + split; [right|by apply Hdown]. eapply down_env; [done|apply Hst].
  - destruct Hok as [Hup HK]. split; [by eapply cup_env|]. rewrite Hs in HK.
    destruct (srv_connected srv'); [|congruence]. destruct Hk as (_ & _ & ->). by rewrite HK.
  - done.
  - destruct Hok as [(-> & _ & ?)|(-> & Hd & _)]; [congruence|]. right.
    split_and!; [done|eapply down_env; [done|apply Hst]|by apply Hdown].
Qed.

Lemma conn_do_inv who x m r :
  conn_inv m -> conn_do bc bs junk cfill sfill cmax smax who x m = Some r ->
  exists m', r = Done m' /\ conn_inv m'.
Proof.
  intros (G & B & K & Ho & Hcr & Hsok & Hcok) Hd. unfold conn_do in Hd. destruct who.
  - destruct (client_can m x) eqn:Hcan; [|done]. injection Hd as <-.
    assert (Hw : wp False (client_code bc bs junk cfill cmax (cn_cli m) x)
                   (cli_post G (cn_srv m)) (set_os (cn_cenv m) (cn_os m))).
    { unfold client_can in Hcan. destruct (cn_cli m) as [| |[n|p|r]]; cbn in Hcok; try done.
      - destruct Hcok as (? & ? & ? & ?). by apply (wp_cli_init G).
      - destruct Hcok as [[[? ?]|?] ?].
        + by apply (wp_cli_connect_up G B K).
        + by apply (wp_cli_connect_down G B K).
      - by eapply wp_cli_wait. }
    unfold wp in Hw. destruct (client_code _ _ _ _ _ _ _ _) as [[p s']| |]; try done.
    destruct Hw as (G' & B' & K' & Ho' & Hcr' & Hs' & Hc').
    eexists. split; [done|]. exists G', B', K'. cbn. rewrite set_os_id. auto.
  - destruct (server_can m x) eqn:Hcan; [|done]. injection Hd as <-.
    assert (Hnr : forall c, cn_srv m <> WRun (VRet c))
      by (intros c E; unfold server_can in Hcan; by rewrite E in Hcan).
    pose proof (wp_srv_step G B K (cn_os m) (cn_srv m) x (cn_senv m) Ho Hcr Hsok Hnr) as Hw.
    unfold wp in Hw. destruct (server_run_code _ _ _ _ _) as [[p s']| |]; try done.
    destruct Hw as (Hs' & K' & Hst & Hk). eexists. split; [done|]. exists G, B, K'. cbn.
    split_and!; [apply Hst|done|done|].
    eapply cli_ok_sys; [done|done| |done|done].
    destruct (cn_srv m) as [| |[]]; try done. by destruct (Hnr code).
Qed.
End handshake.

(** ** Runs *)

Section runs.
Context (bc bs : nat) (junk : Z) (cfill sfill : Z -> bytes) (cmax smax : Z).

(** Play the steps of the two processes, with the answers of their waits. *)
Fixpoint conn_play (steps : list (bool * wait_answer)) (m : conn) : option conn :=
  match steps with
  | [] => Some m
  | (who, x) :: steps =>
      match conn_do (Z.of_nat bc) (Z.of_nat bs) junk cfill sfill cmax smax who x m with
      | Some (Done m) => conn_play steps m
      | _ => None
      end
  end.

Definition conn_start (w : os) : conn := mk_conn KInit WInit (env_init w) (env_init w) w.

(** A system in which none of the names of the interface exist. *)
Definition clean (w : os) : Prop :=
  (forall sl n, shm_name sl = Some n -> os_shm w !! n = None) /\
  (forall sl n, sem_name sl = Some n -> os_sem w !! n = None).

(** The ring the two processes share, when they mapped the same object. *)
Definition mapping (s : env) : option nat :=
  match slots s Shared_buffer with
  | Ref h => match held s !! h with Some (RMap o _) => Some o | _ => None end
  | _ => None
  end.

Definition ring_of (m : conn) : option ring :=
  let c := cn_cenv m in let v := cn_senv m in let w := cn_os m in
  match mapping c, mapping v with
  | Some o, Some o' =>
      if (o =? o')%nat then
        mem ← os_objs w !! o;
        Some (mk_ring mem (os_lock w) (os_waits_write w) (os_waits_read w)
                (error_code c) (local_bytes c) (local_buffer_index c) (next_block c)
                (error_code v) (local_bytes v) (local_buffer_index v) (next_block v))
      else None
  | _, _ => None
  end.

(** The sizes the configuration must have for a connection. *)
Definition conn_ok : Prop :=
  (0 < bc <= 16)%nat /\ (4 <= bc * bs)%nat /\ Z.of_nat (8 + bc * bs) < 2 ^ 32 /\
  0 <= smax < 2 ^ 32 /\
  (forall n, length (cfill n) = Z.to_nat n) /\ (forall n, length (sfill n) = Z.to_nat n).

Abbreviation inv := (conn_inv (Z.of_nat bc) (Z.of_nat bs) cfill sfill smax).

Lemma conn_start_inv w : clean w -> inv (conn_start w).
Proof.
  intros [H1 H2]. exists (fun _ => None), (fun _ => []), (fun _ => 0).
  split_and!; [|by left| |done].
  - split; try done; intros sl n Hn; left; eauto.
  - exists (fun _ => None). split; [|done]. split; try done. split; cbn; try done.
    + intros sl _. by destruct sl.
    + intros sl sl' h. by destruct sl.
    + intros h. rewrite lookup_empty. by intros [].
Qed.

Lemma conn_play_inv steps : forall m m',
  conn_ok -> inv m -> conn_play steps m = Some m' -> inv m'.
Proof.
  induction steps as [|[who x] steps IH]; intros m m' Hok Hi Hp; cbn in Hp; [by simplify_eq|].
  destruct (conn_do _ _ _ _ _ _ _ who x m) as [r|] eqn:Hd; [|done].
  pose proof Hok as (? & ? & ? & ? & _).
  destruct (conn_do_inv (Z.of_nat bc) (Z.of_nat bs) junk cfill sfill cmax smax
    ltac:(lia) ltac:(nia) ltac:(lia) ltac:(lia) ltac:(lia) who x m r Hi Hd) as (m1 & -> & Hi1).
  by eapply IH.
Qed.

Lemma inv_mapping magic code G B K c w :
  cup (Z.of_nat bc) (Z.of_nat bs) cfill magic code G B K (set_os c w) ->
  exists o, mapping c = Some o /\ G Shm_fd = Some o /\ os_objs w !! o = Some (B Shm_fd) /\
    error_code c = code.
Proof.
  intros [(g & a & H & HG & HB & HK & Hd & Hsz & Hc) _ _ Hcr _].
  destruct (cr_all _ _ _ _ Hcr Shared_buffer) as [o Ho]. rewrite <- HG in Ho. exists o.
  pose proof (o_map _ _ _ _ _ (r_os _ _ _ _ _ H) Shared_buffer _ _ eq_refl Ho) as Hfd.
  destruct (h_some _ _ _ _ _ (r_handles _ _ _ _ _ H) _ _ Ho) as (h & Hs & Hh). cbn in Hs, Hh.
  split_and!.
  - unfold mapping. by rewrite Hs, Hh.
  - by rewrite <- HG.
  - rewrite <- HB. exact (o_obj _ _ _ _ _ (r_os _ _ _ _ _ H) Shm_fd _ _ eq_refl Hfd).
  - rewrite <- Hc. pose proof (r_glob _ _ _ _ _ H) as Hg. cbn in Hg. glob_eq.
Qed.

Lemma inv_ring m :
  conn_ok -> inv m -> cn_cli m = KRun (CRet 0) ->
  exists data, sizes_ok bc bs data (cfill (Z.of_nat bs)) (sfill (Z.of_nat (bc * bs + 8))) /\
    ring_of m = Some (mc_ring (start bc bs data (cfill (Z.of_nat bs))
                                 (sfill (Z.of_nat (bc * bs + 8))))).
Proof.
  intros (Hbc & Hmin & Hsz & Hsm & Hcf & Hsf) (G & B & K & Ho & Hcr & Hs & Hc) Hm.
  rewrite Hm in Hc. destruct Hc as [(_ & Hup & Hcon)|(? & _)]; [|done].
  exists (ring_data (Z.of_nat bc) (Z.of_nat bs) true). split.
  - pose proof (length_ring_data (Z.of_nat bc) (Z.of_nat bs) ltac:(lia) true) as Hl.
    unfold sizes_ok. rewrite Hcf, Hsf. split_and!; lia || nia.
  - destruct (cn_srv m) as [| |[n|n| |c]] eqn:Hsrv; try done. cbn in Hcon. apply Z.eqb_eq in Hcon.
    subst c. cbn in Hs. destruct Hs as [Hsg (h & o & Hsl & Hh & HG)].
    destruct (inv_mapping _ _ _ _ _ _ _ Hup) as (o' & Hmp & HG' & Hobj & Hcode).
    assert (o' = o) as -> by congruence.
    unfold ring_of. rewrite Hmp. unfold mapping. rewrite Hsl, Hh, Nat.eqb_refl.
    rewrite Hobj, (cu_shm _ _ _ _ _ _ _ _ _ Hup), Hcode. cbn.
    pose proof (cu_glob _ _ _ _ _ _ _ _ _ Hup) as Hg. cbn in Hg.
    pose proof (cu_sync _ _ _ _ _ _ _ _ _ Hup) as Hy. cbn in Hy.
    injection Hg as -> -> ->. injection Hy as -> -> ->. injection Hsg as -> _ _ -> -> ->.
    unfold metadata. repeat f_equal. lia.
Qed.
End runs.



(** An example: the consumer starts first and retries, the client is interrupted and
    times out once. *)
Definition handshake_steps : list (bool * wait_answer) :=
  [(false, Got); (false, Got); (false, Got); (true, Got); (false, Got); (true, Got);
   (true, Interrupted); (true, TimedOut); (false, Got); (false, Got); (true, Got)].

Definition handshake_fill (n : Z) : bytes := replicate (Z.to_nat n) 7.

Abbreviation handshake_run :=
  (conn_play 2 4 0 handshake_fill handshake_fill 5 5 handshake_steps (conn_start (os_empty []))).

Lemma handshake_ok : conn_ok 2 4 handshake_fill handshake_fill 5.
Proof. unfold conn_ok, handshake_fill. split_and!; try lia; intros; by rewrite length_replicate. Qed.

Lemma handshake_clean : clean (os_empty []).
Proof. split; intros sl n _; apply lookup_empty. Qed.


