(* ===== verification/SmiTrace.v ===== *)
(** * The shared memory backend

    [qem_trace_smi.c]: a session is sent through the shared memory interface as a
    version number, the size of a record, the records, and a record of zeros; the
    last block is flushed.  The interface is seen here through what [SmiRing] and
    [SmiHandshake] prove of it: a connected client's [qem_smi_client_send] and
    [qem_smi_client_flush] return 0 and extend the stream the consumer receives.
    The consumer's loop is the one of [Tests/PPC/test_smi_client.c]. *)

From S2P Require Import Prelude TraceDef Trace Stdio Sink SmiDef SmiRing SmiRingProof.

(** ** State *)

(** [smi_up]: the client of the interface is connected; [smi_calls]: the calls
    made to it, in order. *)
Record smi_state := mk_smi_state {
  qem_tracing_state : Z;
  qem_time_start : Z;
  connected : Z;
  smi_up : bool;
  smi_calls : list action;
  smi_world : world
}.

Section setters.
Context (s : smi_state).
Definition set_tracing (v : Z) : smi_state :=
  mk_smi_state v (qem_time_start s) (connected s) (smi_up s) (smi_calls s) (smi_world s).
Definition set_time (v : Z) : smi_state :=
  mk_smi_state (qem_tracing_state s) v (connected s) (smi_up s) (smi_calls s) (smi_world s).
Definition set_connected (v : Z) : smi_state :=
  mk_smi_state (qem_tracing_state s) (qem_time_start s) v (smi_up s) (smi_calls s) (smi_world s).
Definition set_up (v : bool) : smi_state :=
  mk_smi_state (qem_tracing_state s) (qem_time_start s) (connected s) v (smi_calls s) (smi_world s).
Definition set_calls (v : list action) : smi_state :=
  mk_smi_state (qem_tracing_state s) (qem_time_start s) (connected s) (smi_up s) v (smi_world s).
Definition set_world (v : world) : smi_state :=
  mk_smi_state (qem_tracing_state s) (qem_time_start s) (connected s) (smi_up s) (smi_calls s) v.
End setters.

(** The backend has no open stream. *)
#[export] Instance smi_stdio : HasStdio smi_state := {|
  io_world := smi_world;
  io_set_world := fun w s => set_world s w;
  io_fd := fun _ => None;
  io_set_fd := fun _ s => s
|}.

(** ** The interface *)

(** [qem_smi_client_init] and [qem_smi_client_connect]: the connection is made
    ([handshake_starts_ring]), or an error is returned. *)
Definition smi_connect : C smi_state Z :=
  a ← libc next_answer;
  if a =? 0 then modify (fun s => set_up s true) ;; mret 0 else mret (-1).

Definition smi_send (buffer : bytes) : C smi_state Z :=
  up ← gets smi_up;
  if (up : bool) then
    modify (fun s => set_calls s
      (smi_calls s ++ [ASend (Some buffer) (Z.of_nat (length buffer))])) ;;
    mret 0
  else libc (QEM_TRACE_ERROR "You must connect the SMI before calling send" 0 0) ;; mret (-1).

Definition smi_flush : C smi_state Z :=
  up ← gets smi_up;
  if (up : bool) then
    modify (fun s => set_calls s (smi_calls s ++ [AFlush])) ;;
    mret 0
  else libc (QEM_TRACE_ERROR "You must connect the SMI before calling flush" 0 0) ;; mret (-1).

(** ** Functions *)

Section code.
Context (cfg : config).

Let sz : nat := sizeof_qem_trace_t cfg.

Definition check_smi (msg : string) (m : C smi_state Z) : C smi_state () :=
  error ← m;
  when (negb (error =? 0)) (libc (QEM_TRACE_ERROR msg error 1)).

Definition qem_init_tracing : C smi_state () :=
  c ← gets connected;
  when (c =? 0)
    (check_smi "[QEMU] Error while connecting SMI (step 1)" smi_connect ;;
     modify (fun s => set_connected s 1)) ;;
  check_smi "Error while connecting SMI (step 2)" (smi_send (le 4 QEM_SMI_STREAM_VERSION)) ;;
  check_smi "Error while connecting SMI (step 3)" (smi_send (le 4 (Z.of_nat sz))) ;;
  libc (QEM_TRACE_INFO "Init SMI sequence sent" 0).

Definition qem_close_tracing : C smi_state () :=
  check_smi "Error while closing SMI (step 3)" (smi_send (replicate sz 0)) ;;
  smi_flush ;;
  libc (QEM_TRACE_INFO "END SMI sequence sent" 0).

Definition qem_trace_enable (type : Z) : C smi_state () :=
  st ← gets qem_tracing_state;
  if st =? type then mret ()
  else
    when (st =? 0) qem_init_tracing ;;
    modify (fun s => set_tracing s (u8 type)).

Definition qem_trace_disable (type : Z) : C smi_state () :=
  st ← gets qem_tracing_state;
  if st =? 0 then mret ()
  else
    let st := u8 (Z.land st (Z.lnot type)) in
    modify (fun s => set_tracing s st) ;;
    when (st =? 0) qem_close_tracing.

Definition qem_trace_start_timer (now : Z) : C smi_state () :=
  modify (fun s => set_time s (u64 now)).

Definition qem_trace_get_timer (now : Z) : C smi_state () :=
  start ← gets qem_time_start;
  libc (print ("[QEMU] Elapsed time = " +:+ fmt_u (u64 (u64 now - start)) +:+ newline)%string).

Definition qem_trace_output (virt_addr phys_addr core time flg : Z) : C smi_state () :=
  check_smi "Could not send trace with SMI"
    (smi_send (pack cfg (new_trace cfg phys_addr core time flg))).

Definition smi_init (w : world) : smi_state := mk_smi_state 0 0 0 false [] w.

Definition smi_op (o : op) : C smi_state () :=
  match o with
  | OpEnable ty => qem_trace_enable ty
  | OpDisable ty => qem_trace_disable ty
  | OpOutput va pa core time flg => qem_trace_output va pa core time flg
  end.

Fixpoint smi_ops (os : list op) : C smi_state () :=
  match os with
  | [] => mret ()
  | o :: os => smi_op o ;; smi_ops os
  end.

(** ** The consumer *)

(** The record that ends a session. *)
Definition is_end (t : qem_trace_t) : bool := (address t =? 0) && (timestamp t =? 0).

(** Receiving records until the end of the session; [None] when the stream ends
    before.  The fuel is the length of the stream. *)
Fixpoint read_records (fuel : nat) (st : bytes) (p : nat) : option (list qem_trace_t * nat) :=
  match fuel with
  | O => None
  | S fuel =>
      if (p + sz <=? length st)%nat then
        let t := unpack cfg (slice p sz st) in
        if is_end t then Some ([], (p + sz)%nat)
        else r ← read_records fuel st (p + sz); Some (t :: r.1, r.2)
      else None
  end.

(** One iteration of the loop of the consumer, with blocks of [bs] bytes. *)
Definition read_session (bs : nat) (st : bytes) (p : nat) : option (list qem_trace_t * nat) :=
  if (p + 8 <=? length st)%nat then
    if (le_val (slice p 4 st) =? QEM_SMI_STREAM_VERSION)
       && (le_val (slice (p + 4) 4 st) =? Z.of_nat sz)
    then
      r ← read_records (S (length st)) st (p + 8);
      Some (r.1, (r.2 + gap bs r.2)%nat)
    else None
  else None.

Fixpoint read_sessions (fuel bs : nat) (st : bytes) (p : nat) : list (list qem_trace_t) :=
  match fuel with
  | O => []
  | S fuel =>
      match read_session bs st p with
      | Some (ts, p) => ts :: read_sessions fuel bs st p
      | None => []
      end
  end.

(** The stream of the calls made so far, and the sessions the consumer finds in
    it. *)
Definition smi_stream (bs : nat) (s : smi_state) : bytes := (spec_actions bs (smi_calls s)).1.1.

Definition smi_sessions (bs : nat) (s : smi_state) : list (list qem_trace_t) :=
  read_sessions (S (length (smi_stream bs s))) bs (smi_stream bs s) 0.
End code.

(** ** What the consumer reads *)

Section reading.
Context (cfg : config) (bs : nat) (Hbs : (0 < bs)%nat).
Abbreviation sz := (sizeof_qem_trace_t cfg).
Abbreviation packs ts := (concat (map (pack cfg) ts)).

(** The bytes of a session: while it is open, and once it is closed, up to the end
    of its last block. *)
Definition open_bytes (ts : list qem_trace_t) : bytes :=
  le 4 QEM_SMI_STREAM_VERSION ++ le 4 (Z.of_nat sz) ++ packs ts.

Definition closed_bytes (ts : list qem_trace_t) : bytes := open_bytes ts ++ replicate sz 0.

Definition session_bytes (ts : list qem_trace_t) : bytes :=
  closed_bytes ts ++ replicate (gap bs (length (closed_bytes ts))) 0.

(** The records that can be told from the end of a session. *)
Definition carried (t : qem_trace_t) : Prop := trace_ok cfg t /\ is_end t = false.

Lemma le_val_zeros n : le_val (replicate n 0) = 0.
Proof.
  induction n as [|n IH]; [done|]. unfold le_val in *. cbn. by rewrite IH, Z.shiftl_0_l.
Qed.

Lemma slice_replicate {A} (x : A) o n k :
  (o + n <= k)%nat -> slice o n (replicate k x) = replicate n x.
Proof.
  intros. unfold slice. rewrite drop_replicate, take_replicate. f_equal. lia.
Qed.

Lemma is_end_zeros : is_end (unpack cfg (replicate sz 0)) = true.
Proof.
  unfold is_end, unpack, sizeof_qem_trace_t. pose proof (addr_size_pos cfg).
  destruct (QEM_TRACE_GATHER_META cfg); cbn [address timestamp];
    by rewrite !slice_replicate, !le_val_zeros by lia.
Qed.

Lemma slice_at {A} (pre x rest : list A) p n :
  p = length pre -> n = length x -> slice p n (pre ++ x ++ rest) = x.
Proof. intros -> ->. by apply slice_app_mid. Qed.

Lemma read_records_end ts d : forall fuel pre rest,
  Forall carried ts -> (length ts < fuel)%nat -> length d = sz -> is_end (unpack cfg d) = true ->
  read_records cfg fuel (pre ++ packs ts ++ d ++ rest) (length pre) =
  Some (ts, (length pre + (length ts + 1) * sz)%nat).
Proof.
  clear Hbs. induction ts as [|t ts IH]; intros fuel pre rest Hok Hf Hd He; destruct fuel as [|fuel];
    [lia| |lia|].
  - cbn [map concat app read_records].
    rewrite (proj2 (Nat.leb_le _ _)) by (rewrite !length_app, Hd; lia).
    rewrite slice_at by done. rewrite He. do 2 f_equal. cbn. lia.
  - apply Forall_cons in Hok as [[Ht Hn] Hok]. cbn [map concat read_records].
    rewrite <- !app_assoc.
    rewrite (proj2 (Nat.leb_le _ _)) by (rewrite !length_app, length_pack; lia).
    rewrite slice_at by (by rewrite ?length_pack). rewrite unpack_pack, Hn by done.
    rewrite (app_assoc pre). replace (length pre + sz)%nat with (length (pre ++ pack cfg t))
      by (by rewrite length_app, length_pack).
    rewrite IH by (done || (cbn in Hf; lia)). cbn. do 2 f_equal. rewrite length_app, length_pack. lia.
Qed.

Lemma read_records_open ts : forall fuel pre,
  Forall carried ts -> read_records cfg fuel (pre ++ packs ts) (length pre) = None.
Proof.
  pose proof (sizeof_pos cfg).
  induction ts as [|t ts IH]; intros fuel pre Hok; destruct fuel as [|fuel]; [done| |done|].
  - cbn. by rewrite (proj2 (Nat.leb_gt _ _)) by (rewrite app_nil_r; lia).
  - apply Forall_cons in Hok as [[Ht He] Hok]. cbn [map concat read_records].
    rewrite (proj2 (Nat.leb_le _ _)) by (rewrite !length_app, length_pack; lia).
    rewrite slice_at by (by rewrite ?length_pack). rewrite unpack_pack, He by done.
    rewrite (app_assoc pre). replace (length pre + sz)%nat with (length (pre ++ pack cfg t))
      by (by rewrite length_app, length_pack).
    by rewrite IH.
Qed.

Lemma gap_shift k n : gap bs (k * bs + n) = gap bs n.
Proof. unfold gap. by rewrite Nat.add_comm, Nat.Div0.mod_add. Qed.

Lemma gap_fills n : exists k, (n + gap bs n = k * bs)%nat.
Proof.
  pose proof (Nat.div_mod_eq n bs) as Hd. pose proof (Nat.mod_upper_bound n bs ltac:(lia)) as Hm.
  unfold gap. destruct (decide (n mod bs = 0)%nat) as [E|E].
  - exists (n / bs)%nat. rewrite E, Nat.sub_0_r, Nat.Div0.mod_same. lia.
  - exists (n / bs + 1)%nat. rewrite Nat.mod_small by lia. lia.
Qed.

Lemma session_fills ts : exists k, length (session_bytes ts) = (k * bs)%nat.
Proof.
  destruct (gap_fills (length (closed_bytes ts))) as [k Hk]. exists k.
  unfold session_bytes. by rewrite length_app, length_replicate.
Qed.

Lemma sessions_fill tss : exists k, length (concat (map session_bytes tss)) = (k * bs)%nat.
Proof.
  induction tss as [|ts tss [k IH]]; [by exists 0%nat|]. destruct (session_fills ts) as [k' Hk].
  exists (k' + k)%nat. cbn. rewrite length_app, Hk, IH. lia.
Qed.

Lemma read_header pre rest :
  let st := pre ++ le 4 QEM_SMI_STREAM_VERSION ++ le 4 (Z.of_nat sz) ++ rest in
  read_session cfg bs st (length pre) =
  r ← read_records cfg (S (length st)) st (length pre + 8); Some (r.1, (r.2 + gap bs r.2)%nat).
Proof.
  clear Hbs. intros st. unfold read_session.
  rewrite (proj2 (Nat.leb_le _ _)) by (subst st; rewrite !length_app, !length_le; lia).
  assert (H1 : slice (length pre) 4 st = le 4 QEM_SMI_STREAM_VERSION)
    by (by apply slice_at; rewrite ?length_le).
  assert (H2 : slice (length pre + 4) 4 st = le 4 (Z.of_nat sz)).
  { subst st. rewrite app_assoc. apply slice_at; by rewrite ?length_app, ?length_le. }
  rewrite H1, H2, !le_val_le_small by (pose proof (sizeof_le cfg); unfold QEM_SMI_STREAM_VERSION; cbn; lia).
  by rewrite !Z.eqb_refl.
Qed.

Lemma read_session_closed ts pre rest :
  Forall carried ts -> (exists k, length pre = (k * bs)%nat) ->
  read_session cfg bs (pre ++ session_bytes ts ++ rest) (length pre) =
  Some (ts, length (pre ++ session_bytes ts)).
Proof.
  intros Hok [k Hk]. set (st := pre ++ _).
  assert (Hst : st = pre ++ le 4 QEM_SMI_STREAM_VERSION ++ le 4 (Z.of_nat sz) ++
    (packs ts ++ replicate sz 0 ++ replicate (gap bs (length (closed_bytes ts))) 0 ++ rest)).
  { subst st. unfold session_bytes, closed_bytes, open_bytes. by rewrite <- !app_assoc. }
  rewrite Hst, read_header, <- Hst.
  assert (Hrec : read_records cfg (S (length st)) st (length pre + 8) =
                 Some (ts, (length pre + 8 + (length ts + 1) * sz)%nat)).
  { rewrite Hst at 2. rewrite (app_assoc pre), (app_assoc (pre ++ _)).
    replace (length pre + 8)%nat
      with (length ((pre ++ le 4 QEM_SMI_STREAM_VERSION) ++ le 4 (Z.of_nat sz)))
      by (rewrite !length_app, !length_le; lia).
    apply read_records_end; [done| |apply length_replicate|apply is_end_zeros].
    rewrite Hst, !length_app, length_concat_pack. pose proof (sizeof_pos cfg). nia. }
  rewrite Hrec. cbn [mbind option_bind fst snd]. do 2 f_equal.
  unfold session_bytes. rewrite !length_app, length_replicate.
  assert (Hl : length (closed_bytes ts) = (8 + (length ts + 1) * sz)%nat).
  { unfold closed_bytes, open_bytes.
    rewrite !length_app, !length_le, length_concat_pack, length_replicate. lia. }
  rewrite Hl, Hk. rewrite <- (Nat.add_assoc (k * bs) 8), gap_shift. lia.
Qed.

Lemma read_session_open ts pre :
  Forall carried ts -> read_session cfg bs (pre ++ open_bytes ts) (length pre) = None.
Proof.
  intros Hok. unfold open_bytes. rewrite read_header, (app_assoc pre), (app_assoc (pre ++ _)).
  replace (length pre + 8)%nat
    with (length ((pre ++ le 4 QEM_SMI_STREAM_VERSION) ++ le 4 (Z.of_nat sz)))
    by (rewrite !length_app, !length_le; lia).
  by rewrite read_records_open.
Qed.

(** The consumer finds the closed sessions, and not the open one. *)
Lemma read_sessions_spec tss : forall pre tl fuel,
  Forall (Forall carried) tss -> (exists k, length pre = (k * bs)%nat) ->
  (tl = [] \/ exists ts, Forall carried ts /\ tl = open_bytes ts) -> (length tss < fuel)%nat ->
  read_sessions cfg fuel bs (pre ++ concat (map session_bytes tss) ++ tl) (length pre) = tss.
Proof.
  induction tss as [|ts tss IH]; intros pre tl fuel Hok Hpre Htl Hf; destruct fuel as [|fuel];
    [lia| |lia|]; cbn [map concat read_sessions].
  - destruct Htl as [->|(ts & Hts & ->)].
    + unfold read_session. by rewrite (proj2 (Nat.leb_gt _ _)) by (rewrite !app_nil_r; lia).
    + cbn [app]. by rewrite read_session_open.
  - apply Forall_cons in Hok as [Hts Hok]. rewrite <- !app_assoc, read_session_closed by done.
    f_equal. rewrite (app_assoc pre). apply IH; [done| |done|cbn in Hf; lia].
    destruct Hpre as [k Hk], (session_fills ts) as [k' Hk']. exists (k + k')%nat.
    rewrite length_app, Hk, Hk'. lia.
Qed.
End reading.

(** ** Refinement of the abstract machine *)

Section proofs.
Context (cfg : config) (bs : nat) (Hbs : (0 < bs)%nat) (E : Prop).
Abbreviation sz := (sizeof_qem_trace_t cfg).

Record smi_rel (sp : spec_state) (s : smi_state) : Prop := {
  mr_tracing : qem_tracing_state s = sp_tracing sp;
  mr_tracing_ok : tracing_ok (sp_tracing sp);
  mr_faults : may_fail E (smi_world s);
  mr_up : if connected s =? 0 then smi_calls s = [] /\ sp_tracing sp = 0 else smi_up s = true;
  mr_stream : smi_stream bs s = concat (map (session_bytes cfg bs) (sp_closed sp)) ++
    (if sp_tracing sp =? 0 then [] else open_bytes cfg (sp_open sp));
  mr_ok : Forall (Forall (carried cfg)) (sp_closed sp) /\ Forall (carried cfg) (sp_open sp)
}.

Lemma connected_up sp s :
  smi_rel sp s -> sp_tracing sp <> 0 -> (connected s =? 0) = false /\ smi_up s = true.
Proof.
  intros H H0. pose proof (mr_up _ _ H) as Hu. destruct (connected s =? 0); [tauto|done].
Qed.

Lemma stream_send s d n :
  smi_stream bs (set_calls s (smi_calls s ++ [ASend (Some d) n])) = smi_stream bs s ++ d.
Proof.
  unfold smi_stream, spec_actions. cbn. rewrite foldl_app. cbn.
  by destruct (foldl _ _ _) as [[st p0] p1].
Qed.

Lemma stream_flush s :
  smi_stream bs (set_calls s (smi_calls s ++ [AFlush])) =
  smi_stream bs s ++ replicate (gap bs (length (smi_stream bs s))) 0.
Proof.
  unfold smi_stream, spec_actions. cbn. rewrite foldl_app. cbn.
  by destruct (foldl _ _ _) as [[st p0] p1].
Qed.

(** What sending on a connected interface does. *)
Record sent (d : bytes) (s s' : smi_state) : Prop := {
  st_same : (qem_tracing_state s', connected s', smi_up s') =
            (qem_tracing_state s, connected s, smi_up s);
  st_faults : may_fail E (smi_world s');
  st_stream : smi_stream bs s' = smi_stream bs s ++ d
}.

Lemma wp_smi_send msg d s :
  smi_up s = true -> may_fail E (smi_world s) ->
  wp E (check_smi msg (smi_send d)) (fun _ s' => sent d s s') s.
Proof.
  intros Hup Hw. unfold check_smi, smi_send. apply wp_bind. wp_step. rewrite Hup.
  do 2 wp_step. rewrite when_false. wp_step. split; [done|done|apply stream_send].
Qed.

Lemma sent_trans d d' s1 s2 s3 : sent d s1 s2 -> sent d' s2 s3 -> sent (d ++ d') s1 s3.
Proof.
  intros [H1 H2 H3] [H4 H5 H6]. split; [congruence|done|]. by rewrite H6, H3, app_assoc.
Qed.

Lemma sent_info msg d s0 s :
  sent d s0 s -> wp E (libc (QEM_TRACE_INFO msg 0)) (fun _ s' => sent d s0 s') s.
Proof. intros [H1 H2 H3]. apply wp_libc, wp_info; [done|]. intros w Hw _. by split. Qed.

Lemma wp_init_header s :
  smi_up s = true -> may_fail E (smi_world s) ->
  wp E (check_smi "Error while connecting SMI (step 2)" (smi_send (le 4 QEM_SMI_STREAM_VERSION)) ;;
        check_smi "Error while connecting SMI (step 3)" (smi_send (le 4 (Z.of_nat sz))) ;;
        libc (QEM_TRACE_INFO "Init SMI sequence sent" 0))
    (fun _ s' => sent (open_bytes cfg []) s s') s.
Proof.
  intros Hup Hw. eapply wp_seq; [by apply wp_smi_send|]. intros [] s1 H1.
  assert (Hup1 : smi_up s1 = true) by (pose proof (st_same _ _ _ H1); congruence).
  eapply wp_seq; [apply wp_smi_send; [done|apply H1]|]. intros [] s2 H2.
  unfold open_bytes. cbn [map concat]. rewrite app_nil_r. apply sent_info. by eapply sent_trans.
Qed.

Lemma init_refines s sp :
  smi_rel sp s -> sp_tracing sp = 0 ->
  wp E (qem_init_tracing cfg) (fun _ s' =>
    may_fail E (smi_world s') /\ (connected s' =? 0) = false /\ smi_up s' = true /\
    smi_stream bs s' = smi_stream bs s ++ open_bytes cfg []) s.
Proof.
  intros H H0. unfold qem_init_tracing. wp_step. pose proof (mr_up _ _ H) as Hup.
  assert (Hend : forall s1, may_fail E (smi_world s1) -> (connected s1 =? 0) = false ->
    smi_up s1 = true -> smi_stream bs s1 = smi_stream bs s ->
    wp E (check_smi "Error while connecting SMI (step 2)" (smi_send (le 4 QEM_SMI_STREAM_VERSION)) ;;
        check_smi "Error while connecting SMI (step 3)" (smi_send (le 4 (Z.of_nat sz))) ;;
        libc (QEM_TRACE_INFO "Init SMI sequence sent" 0)) (fun _ s' =>
    may_fail E (smi_world s') /\ (connected s' =? 0) = false /\ smi_up s' = true /\
    smi_stream bs s' = smi_stream bs s ++ open_bytes cfg []) s1).
  { intros s1 Hw Hc Hu Hs. eapply wp_mono; [by apply wp_init_header|].
    intros [] s2 [H1 H2 H3]. injection H1 as _ -> ->. by rewrite H3, Hs. }
  apply wp_bind, wp_when; intros Hc; rewrite Hc in Hup.
  - unfold check_smi at 1, smi_connect. do 3 apply wp_bind.
    apply wp_libc, wp_next_answer; [apply (mr_faults _ _ H)|]. intros a w Ha Hw _.
    destruct (Z.eqb_spec a 0) as [->|Hne]; cycle 1.
    { wp_step. apply wp_libc, wp_error_critical. by apply Ha. }
    apply wp_bind. do 2 wp_step. rewrite when_false. do 2 wp_step. by apply Hend.
  - apply Hend; [apply (mr_faults _ _ H)|done..].
Qed.

Lemma close_refines s ts :
  smi_up s = true -> may_fail E (smi_world s) ->
  (exists pre k, smi_stream bs s = pre ++ open_bytes cfg ts /\ length pre = (k * bs)%nat) ->
  wp E (qem_close_tracing cfg) (fun _ s' =>
    (qem_tracing_state s', connected s', smi_up s') =
      (qem_tracing_state s, connected s, smi_up s) /\ may_fail E (smi_world s') /\
    forall pre, smi_stream bs s = pre ++ open_bytes cfg ts ->
      smi_stream bs s' = pre ++ session_bytes cfg bs ts) s.
Proof.
  intros Hup Hw (pre & k & Hs & Hk). unfold qem_close_tracing.
  eapply wp_seq; [by apply wp_smi_send|]. intros [] s1 [H1 H2 H3].
  unfold smi_flush. apply wp_bind. wp_step. injection H1 as Ht Hc Hu. rewrite Hu, Hup.
  do 2 wp_step. apply wp_libc, wp_info; [done|]. intros w' Hw' _. cbn.
  split; [congruence|]. split; [done|]. intros pre' Hs'.
  assert (pre' = pre) as -> by (rewrite Hs in Hs'; by apply app_inv_tail in Hs').
  change (smi_stream bs (set_world _ w'))
    with (smi_stream bs (set_calls s1 (smi_calls s1 ++ [AFlush]))).
  rewrite stream_flush, H3, Hs. unfold session_bytes, closed_bytes. rewrite <- !app_assoc.
  do 4 f_equal. by rewrite length_app, Hk, gap_shift.
Qed.

Lemma smi_enable_refines ty sp s :
  smi_rel sp s -> ttype ty ->
  wp E (qem_trace_enable cfg ty) (fun _ => smi_rel (spec_enable ty sp)) s.
Proof.
  intros H Hty. pose proof (ttype_range _ Hty) as Hr. unfold qem_trace_enable, spec_enable.
  wp_step. rewrite (mr_tracing _ _ H).
  destruct (Z.eqb_spec (sp_tracing sp) ty) as [Heq|Hne].
  { wp_step. subst ty. case_bool; [lia|]. by destruct sp. }
  pose proof (mr_stream _ _ H) as Hs. destruct (mr_ok _ _ H) as [Hok1 Hok2].
  assert (Hty0 : (ty =? 0) = false) by lia.
  apply wp_bind, wp_when; intros H0; rewrite H0 in *.
  - eapply wp_mono; [apply (init_refines s sp); [done|by apply Z.eqb_eq]|].
    intros _ s1 (Hw & Hc & Hu & Hs1). wp_step. rewrite wrap_small by lia.
    split; cbn; rewrite ?Hc, ?Hty0; try done.
    + unfold tracing_ok. lia.
    + change (smi_stream bs (set_tracing s1 ty)) with (smi_stream bs s1).
      by rewrite Hs1, Hs, app_nil_r.
  - wp_step. rewrite wrap_small by lia. pose proof (mr_up _ _ H) as Hu. apply Z.eqb_neq in H0.
    split; cbn; rewrite ?Hty0; try done.
    + unfold tracing_ok. lia.
    + apply (mr_faults _ _ H).
    + destruct (connected s =? 0); [tauto|done].
Qed.

Lemma smi_disable_refines ty sp s :
  smi_rel sp s -> ttype ty ->
  wp E (qem_trace_disable cfg ty) (fun _ => smi_rel (spec_disable ty sp)) s.
Proof.
  intros H Hty. unfold qem_trace_disable, spec_disable. wp_step. rewrite (mr_tracing _ _ H).
  destruct (Z.eqb_spec (sp_tracing sp) 0) as [H0|H0]; [by wp_step|].
  pose proof (land_lnot_tracing _ _ (mr_tracing_ok _ _ H) Hty). rewrite wrap_small by lia.
  set (st := Z.land (sp_tracing sp) (Z.lnot ty)) in *. wp_step.
  destruct (connected_up _ _ H H0) as [Hc Hup]. pose proof (mr_stream _ _ H) as Hs.
  rewrite (proj2 (Z.eqb_neq _ _) H0) in Hs. destruct (mr_ok _ _ H) as [Hok1 Hok2].
  apply wp_when; intros Hst; rewrite Hst.
  - eapply wp_mono; [apply (close_refines (set_tracing s st) (sp_open sp)); [done|apply (mr_faults _ _ H)|]|].
    { destruct (sessions_fill cfg bs Hbs (sp_closed sp)) as [k Hk]. by eexists _, k. }
    intros [] s1 (He & Hw & Hs1). injection He as Ht Hcn Hup1. apply Z.eqb_eq in Hst.
    split; cbn; try done.
    + by rewrite Ht.
    + by rewrite Hcn, Hc, Hup1.
    + rewrite (Hs1 _ Hs), map_app, concat_app. cbn. by rewrite !app_nil_r.
    + by rewrite Forall_app, Forall_singleton.
  - split; cbn; rewrite ?Hst, ?Hc; try done. apply (mr_faults _ _ H).
Qed.

Lemma smi_output_refines va pa core time flg sp s :
  smi_rel sp s -> sp_tracing sp <> 0 -> carried cfg (new_trace cfg pa core time flg) ->
  wp E (qem_trace_output cfg va pa core time flg)
    (fun _ => smi_rel (spec_output (new_trace cfg pa core time flg) sp)) s.
Proof.
  intros H H0 Hc. pose proof (mr_ok _ _ H) as [Hok1 Hok2].
  destruct (connected_up _ _ H H0) as [Hcn Hup]. unfold qem_trace_output.
  eapply wp_mono; [apply wp_smi_send; [done|apply (mr_faults _ _ H)]|].
  intros [] s1 [H1 H2 H3]. injection H1 as Ht Hcn' Hup'. split; cbn; try done.
  - by rewrite Ht, (mr_tracing _ _ H).
  - apply (mr_tracing_ok _ _ H).
  - by rewrite Hcn', Hcn, Hup'.
  - rewrite H3, (mr_stream _ _ H). rewrite (proj2 (Z.eqb_neq _ _) H0). unfold open_bytes.
    by rewrite map_app, concat_app, <- !app_assoc; cbn; rewrite app_nil_r.
  - by rewrite Forall_app, Forall_singleton.
Qed.

Lemma smi_op_refines max o sp s :
  smi_rel sp s -> op_ok max o sp -> op_carries cfg (carried cfg) o ->
  wp E (smi_op cfg o) (fun _ => smi_rel (spec_op cfg o sp)) s.
Proof.
  intros H Ho Hc. destruct o; cbn in *.
  - destruct Ho. by apply smi_enable_refines.
  - by apply smi_disable_refines.
  - by apply smi_output_refines.
Qed.

Lemma smi_ops_refines max os : forall sp s,
  smi_rel sp s -> ops_ok cfg max os sp -> Forall (op_carries cfg (carried cfg)) os ->
  wp E (smi_ops cfg os) (fun _ => smi_rel (spec_ops cfg os sp)) s.
Proof.
  induction os as [|o os IH]; intros sp s H Hok Hc; cbn; [done|].
  destruct Hok as [Ho Hos]. apply Forall_cons in Hc as [Hc Hcs].
  eapply wp_seq; [by eapply smi_op_refines|]. intros a s1 H1. by apply IH.
Qed.

Lemma smi_init_rel w : may_fail E w -> smi_rel spec_init (smi_init w).
Proof. intros Hw. by split. Qed.

Lemma concat_sessions_length tss :
  (length tss <= length (concat (map (session_bytes cfg bs) tss)))%nat.
Proof.
  induction tss as [|ts tss IH]; [done|]. cbn. rewrite length_app.
  unfold session_bytes at 1, closed_bytes at 1, open_bytes at 1.
  rewrite !length_app, length_le. lia.
Qed.

Lemma smi_sessions_closed sp s : smi_rel sp s -> smi_sessions cfg bs s = sp_closed sp.
Proof.
  intros H. destruct (mr_ok _ _ H) as [Hok1 Hok2]. unfold smi_sessions.
  rewrite (mr_stream _ _ H). apply (read_sessions_spec cfg bs Hbs (sp_closed sp) []); [done| | |].
  - by exists 0%nat.
  - case_bool; [by left|]. right. eauto.
  - rewrite length_app. pose proof (concat_sessions_length (sp_closed sp)). lia.
Qed.
End proofs.

(** The shared memory backend as a trace sink; the number of sessions is not
    bounded. *)
#[export] Program Instance smi_sink cfg bs (Hbs : (0 < bs)%nat) (max : Z) :
    TraceSink cfg smi_state := {
  sink_run o s s' := smi_op cfg o s = Done ((), s');
  sink_rel := smi_rel cfg bs False;
  sink_max := max;
  sink_carries := carried cfg;
  sink_tracing := qem_tracing_state;
  sink_sessions := smi_sessions cfg bs
}.
Next Obligation.
  intros cfg bs Hbs max sp s o s' H Ho Hc Hrun.
  exact (wp_Done _ _ _ _ _ _ (smi_op_refines cfg bs Hbs False max o sp s H Ho Hc) Hrun).
Qed.
Next Obligation.
  intros cfg bs Hbs max sp s o H Ho Hc.
  destruct (wp_total _ _ _ (smi_op_refines cfg bs Hbs False max o sp s H Ho Hc)) as ([] & s' & ? & _).
  eauto.
Qed.
Next Obligation.
  intros cfg bs Hbs max sp s H. by apply (smi_sessions_closed cfg bs Hbs False).
Qed.
Next Obligation. intros cfg bs Hbs max sp s H. apply (mr_tracing _ _ _ _ _ H). Qed.

(** ** Through the ring *)

(** The calls of the client, without those of the consumer and the scheduling. *)
Definition client_call (a : action) : bool :=
  match a with ASend _ _ | AFlush => true | _ => false end.

Lemma stream_app bs acts acts' :
  (spec_actions bs acts).1.1 `prefix_of` (spec_actions bs (acts ++ acts')).1.1.
Proof.
  induction acts' as [|a acts' IH] using rev_ind; [by rewrite app_nil_r|].
  etrans; [exact IH|]. rewrite app_assoc. unfold spec_actions at 2. rewrite foldl_app. cbn.
  fold (spec_actions bs (acts ++ acts')). destruct (spec_actions bs (acts ++ acts')) as [[st p0] p1]. cbn.
  destruct a as [[d|] n| | |[out|] n| | |]; cbn; try done; by apply prefix_app_r.
Qed.

Lemma stream_client bs acts :
  (spec_actions bs acts).1.1 = (spec_actions bs (filter (fun a => client_call a = true) acts)).1.1.
Proof.
  induction acts as [|a acts IH] using rev_ind; [done|].
  rewrite filter_app. unfold spec_actions in *. rewrite !foldl_app. cbn.
  destruct (foldl _ _ acts) as [[st p0] p1], (foldl _ _ (filter _ acts)) as [[st' p0'] p1'].
  cbn in IH. subst st'. destruct a as [[d|] n| | |[out|] n| | |]; done.
Qed.

(** ** Properties *)

(** C9: with a connection and no fault of the C library, every sequence of API
    calls on the shared memory backend returns, and the consumer's loop finds in
    the stream exactly the closed sessions, record for record and in order: the
    header and end marker of a session, the flush and [qem_smi_post_server_flush]
    keep the two sides on the same block.  A record is taken for the end marker if
    its address and time are zero, so those records are excluded. *)
Theorem smi_backend_lossless cfg bs max w os :
  (0 < bs)%nat -> w_faults w = [] -> ops_ok cfg max os spec_init ->
  Forall (op_carries cfg (carried cfg)) os ->
  let sp := spec_ops cfg os spec_init in
  exists s, smi_ops cfg os (smi_init w) = Done ((), s) /\
    qem_tracing_state s = sp_tracing sp /\ smi_sessions cfg bs s = sp_closed sp.
Proof.
  intros Hbs Hw Hok Hc sp.
  destruct (wp_total _ _ _ (smi_ops_refines cfg bs Hbs False max os spec_init _
    (smi_init_rel cfg bs False w ltac:(by unfold may_fail)) Hok Hc)) as ([] & s & Hrun & H).
  exists s. split; [done|]. split; [apply (mr_tracing _ _ _ _ _ H)|].
  by apply (smi_sessions_closed cfg bs Hbs False).
Qed.

Lemma carried_small : Forall (op_carries (cfg_small true false) (carried (cfg_small true false))) ops_small.
Proof. repeat constructor; cbn; try apply new_trace_ok; by vm_compute. Qed.

Lemma smi_backend_lossless_witness :
  exists s, smi_ops (cfg_small true false) ops_small (smi_init world0) = Done ((), s) /\
    map (map address) (smi_sessions (cfg_small true false) 64 s) = [[4096; 4100; 4104; 4108]; [8192]].
Proof.
  destruct (smi_backend_lossless (cfg_small true false) 64 2 world0 ops_small) as (s & Hs & _ & Hr).
  - lia.
  - reflexivity.
  - decide_now.
  - exact carried_small.
  - exists s. split; [exact Hs|]. rewrite Hr. reflexivity.
Defined.

(** C2: end to end.  Let the client make, in any interleaving with the consumer and
    the scheduler, the calls the backend makes (or the first ones of them): what a
    completed [qem_smi_receive] returns is the part of the backend's stream at the
    consumer's position, the stream whose sessions are those of the abstract
    machine. *)
Theorem smi_end_to_end cfg bc bs max w os s junk data sl rl acts m c out :
  ops_ok cfg max os spec_init -> Forall (op_carries cfg (carried cfg)) os ->
  smi_ops cfg os (smi_init w) = Done ((), s) ->
  sizes_ok bc bs data sl rl -> Forall (action_ok bs) acts ->
  filter (fun a => client_call a = true) acts `prefix_of` smi_calls s ->
  ring_play bc bs junk acts (start bc bs data sl rl) = Some m -> mc_rcv m = RRet c out ->
  let p := (spec_actions bs acts).1.2 in
  out = slice p (length out) (smi_stream bs s) /\
  (p + length out <= length (smi_stream bs s))%nat /\
  smi_sessions cfg bs s = sp_closed (spec_ops cfg os spec_init).
Proof.
  intros Hok Hc Hrun Hsz Hacts [rest Hpre] Hp Hm p.
  assert (Hbs : (0 < bs)%nat) by apply Hsz.
  assert (Hs : (spec_actions bs acts).1.1 `prefix_of` smi_stream bs s).
  { rewrite stream_client. unfold smi_stream. rewrite Hpre. apply stream_app. }
  destruct (spec_actions bs acts) as [[st p0] p1] eqn:He. cbn in Hs, p. subst p.
  destruct (stream_received _ _ _ _ _ _ _ _ _ _ _ _ _ Hsz Hacts Hp Hm He) as [Hle Hout].
  destruct Hs as [tl Hs]. rewrite Hs, length_app. split_and!; [|lia|].
  - by rewrite slice_app_l.
  - pose proof (smi_ops_refines cfg bs Hbs True max os spec_init _
      (smi_init_rel cfg bs True w ltac:(done)) Hok Hc) as Hwp.
    exact (smi_sessions_closed cfg bs Hbs True _ _ (wp_Done _ _ _ _ _ _ Hwp Hrun)).
Qed.

(** One record through two blocks of eight bytes: the client is sending the record
    when the consumer receives the version of the stream. *)
Definition wire_ops : list op := [OpEnable 3; OpOutput 0 4096 1 7 0x100; OpDisable 3].

Definition wire_acts : list action :=
  [ASend (Some [1; 0; 0; 0]) 4; ASnd; ASend (Some [16; 0; 0; 0]) 4; ASnd;
   ASend (Some [0; 16; 0; 0; 7; 0; 0; 0; 0; 0; 0; 0; 1; 1; 0; 0]) 16]
  ++ replicate 8 ASnd ++ [ARecv (Some [9; 9; 9; 9]) 4] ++ replicate 9 ARcv.

Abbreviation wire_run :=
  (ring_play 2 8 0xABCD0000 wire_acts (start 2 8 (replicate 16 7) (replicate 8 7) (replicate 8 7))).

Lemma wire_sizes : sizes_ok 2 8 (replicate 16 7) (replicate 8 7) (replicate 8 7).
Proof. unfold sizes_ok. repeat split; cbn; lia. Qed.

Lemma wire_ok : Forall (action_ok 8) wire_acts.
Proof.
  unfold wire_acts. cbn [app replicate].
  repeat (apply Forall_cons; split; [first [exact I|by eexists]|]). apply Forall_nil_2.
Qed.

Lemma smi_end_to_end_witness :
  exists s m, smi_ops (cfg_small true false) wire_ops (smi_init world0) = Done ((), s) /\
    wire_run = Some m /\ mc_rcv m = RRet 0 [1; 0; 0; 0] /\
    [1; 0; 0; 0] = slice 0 4 (smi_stream 8 s).
Proof.
  assert (Hs : match wire_run with
    | Some m => mc_rcv m = RRet 0 [1; 0; 0; 0] | None => False end) by (vm_compute; reflexivity).
  assert (Ho : match smi_ops (cfg_small true false) wire_ops (smi_init world0) with
    | Done (_, s) => filter (fun a => client_call a = true) wire_acts = take 3 (smi_calls s)
    | _ => False end) by (vm_compute; reflexivity).
  destruct wire_run as [m|] eqn:Hm; [|contradiction].
  destruct (smi_ops _ wire_ops _) as [[[] s]| |] eqn:Hrun; [|contradiction..].
  exists s, m. split; [reflexivity|]. split; [reflexivity|]. split; [exact Hs|].
  refine (proj1 (smi_end_to_end (cfg_small true false) 2 8 1 world0 wire_ops s _ _ _ _ wire_acts m
    0 [1; 0; 0; 0] _ _ Hrun wire_sizes wire_ok _ Hm Hs)).
  - decide_now.
  - repeat constructor; cbn; try apply new_trace_ok; by vm_compute.
  - rewrite Ho. exists (drop 3 (smi_calls s)). by rewrite take_drop.
Defined.

(** The end marker is not distinguished from a record: the consumer takes the
    first record whose address and time are zero for the end of the session, whatever
    was output after it, so that the records before it are returned as a complete
    session. *)
Theorem zero_record_ends_session cfg bs ts t rest :
  Forall (carried cfg) ts -> trace_ok cfg t -> is_end t = true ->
  exists p, read_session cfg bs (open_bytes cfg (ts ++ t :: rest)) 0 = Some (ts, p).
Proof.
  intros Hts Ht He. unfold open_bytes. rewrite map_app, concat_app. cbn [map concat].
  set (tl := concat (map (pack cfg) ts) ++ pack cfg t ++ concat (map (pack cfg) rest)).
  pose proof (read_header cfg bs [] tl) as Hh. cbn [app length] in Hh. rewrite Hh.
  rewrite (app_assoc (le 4 QEM_SMI_STREAM_VERSION)).
  assert (Hl : length (le 4 QEM_SMI_STREAM_VERSION ++ le 4 (Z.of_nat (sizeof_qem_trace_t cfg))) = 8%nat)
    by (by rewrite length_app, !length_le).
  subst tl. rewrite (eq_sym Hl : (0 + 8)%nat = _), read_records_end; [eexists; reflexivity|done| | |].
  - rewrite !length_app, !length_le, length_concat_pack. pose proof (sizeof_pos cfg). nia.
  - apply length_pack.
  - by rewrite unpack_pack.
Qed.

(** The output of an access to address 0 at time 0 hides the next record. *)
Lemma zero_record_ends_session_witness :
  let cfg := cfg_small true false in
  let t pa time := new_trace cfg pa 1 time 0x100 in
  exists p, read_session cfg 64 (open_bytes cfg [t 4096 0; t 0 0; t 4100 1]) 0 = Some ([t 4096 0], p).
Proof.
  intros cfg t. apply (zero_record_ends_session cfg 64 [t 4096 0] (t 0 0) [t 4100 1]).
  - repeat constructor; cbn; try apply new_trace_ok; by vm_compute.
  - apply new_trace_ok.
  - reflexivity.
Defined.
