(* ===== verification/PrintBackend.v ===== *)
(** * The standard output backend

    [qem_trace_print.c]: a record is printed as it is output, an event prefix,
    [ST] or [LD], and a line with one letter per field of the flag word.  The
    theorems relate the printed letters to the access the flag word encodes. *)

From S2P Require Import Prelude Bits TraceDef Trace Stdio Sink.

(** ** State *)

Record print_state := mk_print_state {
  qem_tracing_state : Z;
  qem_time_start : Z;
  pr_world : world
}.

Definition set_tracing (s : print_state) (v : Z) : print_state :=
  mk_print_state v (qem_time_start s) (pr_world s).
Definition set_time (s : print_state) (v : Z) : print_state :=
  mk_print_state (qem_tracing_state s) v (pr_world s).
Definition set_world (s : print_state) (v : world) : print_state :=
  mk_print_state (qem_tracing_state s) (qem_time_start s) v.

#[export] Instance print_stdio : HasStdio print_state := {|
  io_world := pr_world;
  io_set_world := fun w s => set_world s w;
  io_fd := fun _ => None;
  io_set_fd := fun _ s => s
|}.

Definition print_init (w : world) : print_state := mk_print_state 0 0 w.

(** ** Functions *)

Definition qem_trace_enable (type : Z) : C print_state () :=
  modify (fun s => set_tracing s (u8 type)).

Definition qem_trace_disable (type : Z) : C print_state () :=
  modify (fun s => set_tracing s (u8 (Z.land (qem_tracing_state s) (Z.lnot type)))).

Definition qem_trace_start_timer (now : Z) : C print_state () :=
  modify (fun s => set_time s (u64 now)).

Definition qem_trace_get_timer (now : Z) : C print_state () :=
  start ← gets qem_time_start;
  libc (print ("[QEMU] Elapsed time = " +:+ fmt_u (u64 (u64 now - start)) +:+ newline)%string).

(** [%08x] of an [unsigned int]. *)
Definition hex_digit (n : Z) : ascii :=
  if n <? 10 then digit n else ascii_of_nat (Z.to_nat (87 + n)).

Definition fmt_08x (n : Z) : string :=
  foldr (fun i s => String (hex_digit (Z.land (Z.shiftr n (4 * i)) 15)) s) ""%string
    [7; 6; 5; 4; 3; 2; 1; 0].

Section code.
Context (cfg : config).

Let d : trace_def := def_of cfg.

(** The nested conditional at the head of [qem_trace_output]; [has m] is
    [(flags & m) == m]. *)
Definition event_prefix (flg : Z) : string :=
  let has m := bits_eq flg m m in
  let inv_flush := Z.lor d.(QEM_TRACE_EVENT_INVALIDATE) d.(QEM_TRACE_EVENT_FLUSH) in
  if has d.(QEM_TRACE_EVENT_DCBZ) then "D "
  else if has d.(QEM_TRACE_EVENT_PREFETCH) then "P "
  else if has d.(QEM_TRACE_EVENT_UNLOCK) then "U "
  else if has d.(QEM_TRACE_EVENT_LOCK) then "L "
  else if has inv_flush then "FL/INV "
  else if has d.(QEM_TRACE_EVENT_INVALIDATE) then "INV "
  else if has d.(QEM_TRACE_EVENT_FLUSH) then "FL "
  else if bit_any flg d.(QEM_TRACE_DATA_TYPE_INST) then "I " else "D ".

(** The character arguments of the last [printf], in order. *)
Definition letters (flg : Z) : list ascii :=
  let flag m (t f : ascii) := if bit_any flg m then t else f in
  let ev := bits_eq flg d.(QEM_TRACE_EVENT_MASK) in
  let gr := bits_eq flg d.(QEM_TRACE_GRANULARITY_MASK) in
  let sz := bits_eq flg d.(QEM_TRACE_DATA_SIZE_MASK) in
  let lv := bits_eq flg d.(QEM_TRACE_CACHE_LEVEL_MASK) in
  [flag d.(QEM_TRACE_ACCESS_TYPE_WRITE) "W" "R";
   flag d.(QEM_TRACE_DATA_TYPE_INST) "I" "D";
   flag d.(QEM_TRACE_PL_USER) "U" "K";
   if ev d.(QEM_TRACE_EVENT_DCBZ) then "D"
   else if ev d.(QEM_TRACE_EVENT_PREFETCH) then "P"
   else if ev d.(QEM_TRACE_EVENT_UNLOCK) then "U"
   else if ev d.(QEM_TRACE_EVENT_LOCK) then "L"
   else if ev (Z.lor d.(QEM_TRACE_EVENT_INVALIDATE) d.(QEM_TRACE_EVENT_FLUSH)) then "B"
   else if ev d.(QEM_TRACE_EVENT_INVALIDATE) then "I"
   else if ev d.(QEM_TRACE_EVENT_FLUSH) then "F" else "A";
   if gr d.(QEM_TRACE_GRANULARITY_SET) then "S"
   else if gr d.(QEM_TRACE_GRANULARITY_WAY) then "W"
   else if gr d.(QEM_TRACE_GRANULARITY_GLOBAL) then "G" else "L";
   if sz d.(QEM_TRACE_DATA_SIZE_16_BITS) then "H"
   else if sz d.(QEM_TRACE_DATA_SIZE_32_BITS) then "W"
   else if sz d.(QEM_TRACE_DATA_SIZE_64_BITS) then "D" else "B";
   flag d.(QEM_TRACE_COHERENCY_REQ) "Y" "N";
   if lv d.(QEM_TRACE_CACHE_LEVEL_ALL) then "A"
   else if lv d.(QEM_TRACE_CACHE_LEVEL_3) then "3"
   else if lv d.(QEM_TRACE_CACHE_LEVEL_2) then "2" else "1";
   flag d.(QEM_TRACE_CACHE_INHIBIT_ON) "Y" "N";
   flag d.(QEM_TRACE_CACHE_WT_ON) "E" "D";
   flag d.(QEM_TRACE_EVENT_EXCLUSIVE) "Y" "N"]%char.

(** The labels of the character fields in the format string. *)
Definition labels : list string :=
  [" | RW: "; " | ID: "; " | PL: "; " | E: "; " | G: "; " | S: "; " | CR: "; " | CL: ";
   " | CI: "; " | WT: "; " | EX: "].

Fixpoint labelled (ls : list string) (cs : list ascii) : string :=
  match ls, cs with
  | l :: ls, c :: cs => (l +:+ String c (labelled ls cs))%string
  | _, _ => newline
  end.

(** The numbers at the start of the last [printf]. *)
Definition line_head (virt_addr phys_addr core time : Z) : string :=
  ("| V 0x" +:+ fmt_08x (u32 virt_addr) +:+ " | P 0x" +:+ fmt_08x (u32 phys_addr) +:+
   " | Core " +:+ fmt_d (i32 core) +:+ " | Time " +:+ fmt_u (u64 time))%string.

(** The text of the last [printf].  The addresses are formatted with [%08x]: with
    [QEM_TRACE_TARGET_64] the arguments have 64 bits, and the call is undefined. *)
Definition trace_line (virt_addr phys_addr core time flg : Z) : option string :=
  if QEM_TRACE_TARGET_64 cfg then None
  else Some (line_head virt_addr phys_addr core time +:+ labelled labels (letters flg))%string.

Definition qem_trace_output (virt_addr phys_addr core time flg : Z) : C print_state () :=
  let flg := u32 flg in
  libc (print (event_prefix flg)) ;;
  libc (print (if bit_any flg d.(QEM_TRACE_ACCESS_TYPE_WRITE) then "ST " else "LD ")) ;;
  line ← access_ (trace_line virt_addr phys_addr core time flg);
  libc (print line).

Definition print_op (o : op) : C print_state () :=
  match o with
  | OpEnable ty => qem_trace_enable ty
  | OpDisable ty => qem_trace_disable ty
  | OpOutput va pa core time flg => qem_trace_output va pa core time flg
  end.

Fixpoint print_ops (os : list op) : C print_state () :=
  match os with
  | [] => mret ()
  | o :: os => print_op o ;; print_ops os
  end.
End code.

(** ** What is printed *)

Definition event_text (e : event) (inst : bool) : string :=
  match e with
  | EvAccess => if inst then "I " else "D "
  | EvFlush => "FL " | EvInvalidate => "INV " | EvFlushInvalidate => "FL/INV "
  | EvLock => "L " | EvUnlock => "U " | EvPrefetch => "P " | EvDcbz => "D "
  end.

Definition yes_no (b : bool) : ascii := if b then "Y" else "N".

Definition event_letter (e : event) : ascii :=
  match e with
  | EvAccess => "A" | EvFlush => "F" | EvInvalidate => "I" | EvFlushInvalidate => "B"
  | EvLock => "L" | EvUnlock => "U" | EvPrefetch => "P" | EvDcbz => "D"
  end.
Definition gran_letter (g : granularity) : ascii :=
  match g with GrLine => "L" | GrSet => "S" | GrWay => "W" | GrGlobal => "G" end.
Definition size_letter (s : data_size) : ascii :=
  match s with Size8 => "B" | Size16 => "H" | Size32 => "W" | Size64 => "D" end.
Definition level_letter (l : cache_level) : ascii :=
  match l with Level1 => "1" | Level2 => "2" | Level3 => "3" | LevelAll => "A" end.

(** One letter per field of the access. *)
Definition access_letters (a : access) : list ascii :=
  [(if acc_write a then "W" else "R")%char; (if acc_inst a then "I" else "D")%char;
   (if acc_user a then "U" else "K")%char; event_letter (acc_event a);
   gran_letter (acc_granularity a); size_letter (acc_size a); yes_no (acc_coherency a);
   level_letter (acc_level a); yes_no (acc_inhibit a); (if acc_wt a then "E" else "D")%char;
   yes_no (acc_exclusive a)].

Lemma letters_decode cfg flg : letters cfg flg = access_letters (decode (def_of cfg) flg).
Proof.
  unfold letters, access_letters, decode, decode_event, decode_gran, decode_size, decode_level.
  cbn [acc_write acc_inst acc_user acc_event acc_granularity acc_size acc_coherency acc_level
       acc_inhibit acc_wt acc_exclusive].
  repeat (apply (f_equal2 cons); [repeat case_match; reflexivity|]). reflexivity.
Qed.

Lemma access_letters_inj a b : access_letters a = access_letters b -> a = b.
Proof.
  destruct a as [rw id pl ev gr sz co lv ci wt ex], b as [rw' id' pl' ev' gr' sz' co' lv' ci' wt' ex'].
  unfold access_letters. cbn. intros H. injection H as H1 H2 H3 H4 H5 H6 H7 H8 H9 H10 H11.
  f_equal; match goal with
  | |- ?x = ?y => match goal with H : context [x] |- _ => destruct x, y; (reflexivity || discriminate H) end
  end.
Qed.

(** The prefix tests fewer bits than the mask of the events, from the code with
    most bits down, and still selects the event. *)
Lemma event_prefix_decode cfg w :
  QEM_TRACE_GATHER_META cfg = true ->
  event_prefix cfg w =
  event_text (decode_event qem_trace_def_meta w) (bit_any w qem_trace_def_meta.(QEM_TRACE_DATA_TYPE_INST)).
Proof.
  intros Hm. unfold event_prefix, decode_event, def_of, bits_eq. rewrite Hm.
  assert (Hsub : forall m, Z.land 0x3800 m = m -> Z.land w m = Z.land (Z.land w 0x3800) m)
    by (intros m He; by rewrite <- Z.land_assoc, He).
  pose proof (land_mask 11 3 w ltac:(lia) ltac:(lia)) as He.
  change (Z.shiftl (Z.ones 3) 11) with 0x3800 in He.
  pose proof (field_range 11 3 w ltac:(lia)) as Hk. set (k := field 11 3 w) in *. clearbody k.
  cbn [qem_trace_def_meta QEM_TRACE_EVENT_DCBZ QEM_TRACE_EVENT_PREFETCH QEM_TRACE_EVENT_UNLOCK
       QEM_TRACE_EVENT_LOCK QEM_TRACE_EVENT_INVALIDATE QEM_TRACE_EVENT_FLUSH QEM_TRACE_EVENT_MASK].
  change (Z.lor 0x1000 0x800) with 0x1800.
  rewrite (Hsub 0x3000), (Hsub 0x2800), (Hsub 0x2000), (Hsub 0x1800), (Hsub 0x1000), (Hsub 0x800), He
    by reflexivity.
  below_cases 8%nat Hk; reflexivity.
Qed.

(** What a call prints, last first. *)
Definition op_text (cfg : config) (o : op) : list string :=
  match o with
  | OpOutput va pa core time flg =>
      let flg := u32 flg in
      [(line_head va pa core time +:+ labelled labels (access_letters (decode (def_of cfg) flg)))%string;
       (if acc_write (decode (def_of cfg) flg) then "ST " else "LD ")%string; event_prefix cfg flg]
  | _ => []
  end.

Lemma print_op_spec cfg max o sp s :
  QEM_TRACE_TARGET_64 cfg = false -> qem_tracing_state s = sp_tracing sp ->
  tracing_ok (sp_tracing sp) -> op_ok max o sp ->
  exists s', print_op cfg o s = Done ((), s') /\
    qem_tracing_state s' = sp_tracing (spec_op cfg o sp) /\
    tracing_ok (sp_tracing (spec_op cfg o sp)) /\
    w_out (pr_world s') = op_text cfg o ++ w_out (pr_world s).
Proof.
  intros Ht Hs Hr Ho. destruct o as [ty|ty|va pa core time flg]; cbn in *.
  - destruct Ho as [Hty%ttype_range _]. eexists. split; [reflexivity|].
    cbn. rewrite wrap_small by lia. split; [done|]. split; [unfold tracing_ok; lia|done].
  - eexists. split; [reflexivity|]. cbn. rewrite Hs. unfold spec_disable.
    pose proof (land_lnot_tracing _ _ Hr Ho). rewrite wrap_small by lia.
    destruct (Z.eqb_spec (sp_tracing sp) 0) as [H0|H0]; [rewrite H0; by split|].
    destruct (Z.eqb_spec (Z.land (sp_tracing sp) (Z.lnot ty)) 0) as [->|]; split; cbn; done || lia.
  - unfold qem_trace_output, trace_line. rewrite Ht, letters_decode.
    eexists. split; [reflexivity|]. by split_and!.
Qed.

Lemma print_ops_spec cfg max os : forall sp s,
  QEM_TRACE_TARGET_64 cfg = false -> qem_tracing_state s = sp_tracing sp ->
  tracing_ok (sp_tracing sp) -> ops_ok cfg max os sp ->
  exists s', print_ops cfg os s = Done ((), s') /\
    qem_tracing_state s' = sp_tracing (spec_ops cfg os sp) /\
    w_out (pr_world s') = concat (rev (map (op_text cfg) os)) ++ w_out (pr_world s).
Proof.
  induction os as [|o os IH]; intros sp s Ht Hs Hr Hok; [by exists s|].
  destruct Hok as [Ho Hos].
  destruct (print_op_spec _ _ _ _ _ Ht Hs Hr Ho) as (s1 & Hrun & Hs1 & Hr1 & Hw).
  destruct (IH _ _ Ht Hs1 Hr1 Hos) as (s2 & Hrun2 & Hs2 & Hw2).
  exists s2. cbn [print_ops map rev]. split; [|split; [done|]].
  - unfold mbind, C_bind. by rewrite Hrun.
  - rewrite Hw2, Hw, concat_app, <- app_assoc. cbn. by rewrite app_nil_r.
Qed.

(** ** A guest on the standard output backend *)

(** The hooks of the events run, their calls go to the backend; the text printed, or
    [None] if something is undefined. *)
Fixpoint printed {G Ev} (cfg : config) (code : Ev -> Z -> C G (list op)) (es : list Ev) (g : G)
    (s : print_state) : option (list string) :=
  match es with
  | [] => Some (rev (w_out (pr_world s)))
  | e :: es =>
      match code e (qem_tracing_state s) g with
      | Done (ops, g) =>
          match print_ops cfg ops s with
          | Done (_, s) => printed cfg code es g s
          | _ => None
          end
      | _ => None
      end
  end.

(** The build of the tests that print. *)
Definition cfg_print : config := {|
  QEM_TRACE_ENABLED := true; QEM_TRACE_TYPE := QEM_TRACE_PRINT;
  QEM_TRACE_TARGET_64 := false; QEM_TRACE_PHYSICAL_ADDRESS := true;
  QEM_TRACE_GATHER_META := true; QEM_TRACE_BUFFER_SIZE := Z.to_nat 10000;
  QEM_TRACE_MT_BUFFER_EN := true; QEM_SMI_BLOCK_COUNT := 8;
  QEM_SMI_BLOCK_SIZE := 10000000
|}.

Definition text_of (lines : list string) : string := String.concat "" lines.

(** ** Properties *)

(** With meta-data, a record is printed as the prefix of its event ([I] or [D] for
    an access), [ST] or [LD], and a line whose letters are those of the fields of
    the access the flag word encodes; and the letters determine the access. *)
Theorem print_output_faithful cfg s va pa core time a :
  QEM_TRACE_GATHER_META cfg = true -> QEM_TRACE_TARGET_64 cfg = false ->
  exists s',
    qem_trace_output cfg va pa core time (encode (def_of cfg) a) s = Done ((), s') /\
    w_out (pr_world s') =
      [(line_head va pa core time +:+ labelled labels (access_letters a))%string;
       (if acc_write a then "ST " else "LD ")%string; event_text (acc_event a) (acc_inst a)]
        ++ w_out (pr_world s) /\
    forall b, access_letters b = access_letters a -> b = a.
Proof.
  intros Hm Ht. assert (Hd : def_of cfg = qem_trace_def_meta) by (unfold def_of; by rewrite Hm).
  unfold qem_trace_output, trace_line. rewrite Ht, Hd.
  rewrite (wrap_small 32 (encode _ a)) by apply encode_meta_range.
  pose proof (decode_encode_meta a) as Hdec. set (w := encode qem_trace_def_meta a) in *.
  rewrite letters_decode, Hd, Hdec, event_prefix_decode by done.
  change (decode_event _ w) with (acc_event (decode qem_trace_def_meta w)).
  change (bit_any w (QEM_TRACE_DATA_TYPE_INST _)) with (acc_inst (decode qem_trace_def_meta w)).
  change (bit_any w (QEM_TRACE_ACCESS_TYPE_WRITE _)) with (acc_write (decode qem_trace_def_meta w)).
  rewrite Hdec. eexists. split; [reflexivity|]. split; [reflexivity|].
  intros b. apply access_letters_inj.
Qed.

Lemma print_output_faithful_witness :
  let a := mk_access true false true EvAccess GrLine Size32 true Level1 false true false in
  exists s', qem_trace_output (cfg_small true false) 4096 8192 1 7
      (encode (def_of (cfg_small true false)) a) (print_init world0) = Done ((), s') /\
    length (w_out (pr_world s')) = 3%nat.
Proof.
  intros a. destruct (print_output_faithful (cfg_small true false) (print_init world0) 4096 8192 1 7 a)
    as (s' & Hs & Ho & _); [reflexivity..|].
  exists s'. split; [exact Hs|]. rewrite Ho. reflexivity.
Defined.

(** Without meta-data the masks of the granularity, the size and the cache level
    are zero, and their first test always succeeds: every record is printed with
    granularity set, size half-word and all cache levels, whatever it was. *)
Theorem print_nometa_letters cfg flg :
  QEM_TRACE_GATHER_META cfg = false ->
  letters cfg flg !! 4%nat = Some "S"%char /\ letters cfg flg !! 5%nat = Some "H"%char /\
  letters cfg flg !! 7%nat = Some "A"%char.
Proof.
  intros Hm. unfold letters, def_of, bits_eq. rewrite Hm. cbn.
  rewrite !Z.land_0_r. done.
Qed.

Lemma print_nometa_letters_witness :
  letters (cfg_small false false) 0 !! 4%nat = Some "S"%char.
Proof. exact (proj1 (print_nometa_letters (cfg_small false false) 0 eq_refl)). Defined.


