(* ===== verification/I386.v ===== *)
(** * The i386 target

    [QEMTrace/arch/i386]: the page table walk [qem_get_phys_addr_mem_tracing], the
    flag words, and the helpers called for every instruction, load and store; the
    hooks of [target/i386/translate.c] that insert the calls and those of
    [include/exec/cpu_ldst_template.h], which [target/i386/seg_helper.c] turns on; and, as the reference
    for the walk, QEMU's own [x86_cpu_get_phys_page_debug] ([target/i386/helper.c]).
    The target is the 32-bit one: [target_ulong] has 32 bits.

    Physical memory is what QEMU's memory core returns for a physical address, a
    function from addresses to bytes. *)

From S2P Require Import Prelude Bits TraceDef Trace Sink Guest.

(** ** State *)

Record CPUX86State := mk_x86 {
  cr0 : Z;
  cr3 : Z;
  cr4 : Z;
  cs_selector : Z;
  hflags_smm : bool;
  a20_mask : Z;
  cpu_index : Z
}.

Definition memory := Z -> Z.

(** A little-endian load of [n] bytes. *)
Definition ld_phys (n : nat) (mem : memory) (a : Z) : Z :=
  le_val (map (fun i => u8 (mem (a + Z.of_nat i))) (seq 0 n)).

Abbreviation ldl_phys := (ld_phys 4).
Abbreviation ldq_phys := (ld_phys 8).

Definition CR0_PG_MASK := 0x80000000.
Definition CR4_PSE_MASK := 0x10.
Definition CR4_PAE_MASK := 0x20.
Definition PG_PRESENT_MASK := 0x1.
Definition PG_PSE_MASK := 0x80.
Definition PG_ADDRESS_MASK := 0x000ffffffffff000.

(** ** The walk of the tracer *)

Section walk.
Context (env : CPUX86State) (mem : memory).

(** [cache_inhibit] is the variable the pointer argument points to; the result
    pairs the address with its value on return. *)
Definition qem_get_phys_addr_mem_tracing (cache_inhibit addr : Z) : Z * Z :=
  if negb (bit_any (cr0 env) CR0_PG_MASK) then (addr, 0)
  else
    let l1 := Z.shiftr addr 22 in
    let l2 := Z.shiftr (Z.land addr 0x3FFFFF) 12 in
    let pgd := Z.land (cr3 env) 0xFFFFF000 in
    let pde := ldl_phys mem (u32 (pgd + l1 * 4)) in
    if bit_any pde PG_PRESENT_MASK then
      if bit_any pde PG_PSE_MASK && bit_any (cr4 env) CR4_PSE_MASK then
        (Z.lor (Z.land pde 0xFFC00000) (Z.land addr 0x003FFFFF), Z.land pde 0x00000010)
      else
        let pte := ldl_phys mem (u32 (Z.land pde 0xFFFFF000 + l2 * 4)) in
        if bit_any pte PG_PRESENT_MASK then
          (Z.lor (Z.land pte 0xFFFFF000) (Z.land addr 0x00000FFF),
           Z.lor (Z.land pte 0x00000040) (Z.land pde 0x00000010))
        else (0, cache_inhibit)
    else (addr, 0).

(** The walk [helper_qem_instld_trace] has of its own. *)
Definition instld_walk (current_eip : Z) : Z * Z :=
  if negb (bit_any (cr0 env) CR0_PG_MASK) then (current_eip, 0)
  else
    let l1 := Z.shiftr current_eip 22 in
    let l2 := Z.shiftr (Z.land current_eip 0x3FFFFF) 12 in
    let pgd := Z.land (cr3 env) 0xFFFFF000 in
    let pde := ldl_phys mem (u32 (pgd + l1 * 4)) in
    if bit_any pde PG_PRESENT_MASK then
      if bit_any pde PG_PSE_MASK && bit_any (cr4 env) CR4_PSE_MASK then
        (Z.lor (Z.land pde 0xFFC00000) (Z.land current_eip 0x003FFFFF), Z.land pde 0x00000010)
      else
        let pte := ldl_phys mem (u32 (Z.land pde 0xFFFFF000 + l2 * 4)) in
        if bit_any pte PG_PRESENT_MASK then
          (Z.lor (Z.land pte 0xFFFFF000) (Z.land current_eip 0x00000FFF),
           Z.lor (Z.land pte 0x00000040) (Z.land pde 0x00000010))
        else (0, 0)
    else (0, 0).

(** ** The walk of QEMU *)

Definition x86_get_a20_mask : Z := if hflags_smm env then -1 else a20_mask env.

(** The end of the function, for an entry [pte] of a page of [page_size] bytes. *)
Definition page_of (pte page_size addr : Z) : Z :=
  let pte := Z.land pte (Z.land PG_ADDRESS_MASK (Z.lnot (page_size - 1))) in
  let page_offset := u32 (Z.land (Z.land addr (Z.lnot 0xfff)) (page_size - 1)) in
  Z.lor pte page_offset.

(** [None] is the result -1. *)
Definition x86_cpu_get_phys_page_debug (addr : Z) : option Z :=
  let a20 := x86_get_a20_mask in
  if negb (bit_any (cr0 env) CR0_PG_MASK) then Some (page_of (Z.land addr a20) 4096 addr)
  else if bit_any (cr4 env) CR4_PAE_MASK then
    let pdpe_addr := u32 (Z.land (Z.land (cr3 env) 0xFFFFFFE0 + Z.land (Z.shiftr addr 27) 0x18) a20) in
    let pdpe := ldq_phys mem pdpe_addr in
    if negb (bit_any pdpe PG_PRESENT_MASK) then None
    else
      let pde_addr := u32 (Z.land (Z.land pdpe PG_ADDRESS_MASK
                             + Z.shiftl (Z.land (Z.shiftr addr 21) 0x1ff) 3) a20) in
      let pde := ldq_phys mem pde_addr in
      if negb (bit_any pde PG_PRESENT_MASK) then None
      else if bit_any pde PG_PSE_MASK then Some (page_of pde 0x200000 addr)
      else
        let pte_addr := u32 (Z.land (Z.land pde PG_ADDRESS_MASK
                               + Z.shiftl (Z.land (Z.shiftr addr 12) 0x1ff) 3) a20) in
        let pte := ldq_phys mem pte_addr in
        if negb (bit_any pte PG_PRESENT_MASK) then None else Some (page_of pte 4096 addr)
  else
    let pde_addr := u32 (Z.land (Z.land (cr3 env) 0xFFFFF000 + Z.land (Z.shiftr addr 20) 0xffc) a20) in
    let pde := ldl_phys mem pde_addr in
    if negb (bit_any pde PG_PRESENT_MASK) then None
    else if bit_any pde PG_PSE_MASK && bit_any (cr4 env) CR4_PSE_MASK then
      let pte := Z.lor pde (Z.shiftl (Z.land pde 0x1fe000) (32 - 13)) in
      Some (page_of (Z.land pte a20) 0x400000 addr)
    else
      let pte_addr := u32 (Z.land (Z.land pde 0xFFFFF000 + Z.land (Z.shiftr addr 10) 0xffc) a20) in
      let pte := ldl_phys mem pte_addr in
      if negb (bit_any pte PG_PRESENT_MASK) then None
      else Some (page_of (Z.land pte a20) 4096 addr).
End walk.

(** ** Flags and helpers *)

Section helpers.
Context (cfg : config).

Let d : trace_def := def_of cfg.

Definition qem_get_flags_mem_tracing (env : CPUX86State)
    (trace_type access_type data_type granularity data_size phys_addr : Z) : Z :=
  let flags := (access_type .| data_type .| trace_type .| granularity)%c in
  let flags := Z.lor flags (if bit_any (cs_selector env) 0x0003
                            then d.(QEM_TRACE_PL_USER) else d.(QEM_TRACE_PL_KERNEL)) in
  Z.lor flags
    (if data_size =? 0 then d.(QEM_TRACE_DATA_SIZE_8_BITS)
     else if data_size =? 1 then d.(QEM_TRACE_DATA_SIZE_16_BITS)
     else if data_size =? 2 then d.(QEM_TRACE_DATA_SIZE_32_BITS)
     else if data_size =? 3 then d.(QEM_TRACE_DATA_SIZE_64_BITS)
     else d.(QEM_TRACE_DATA_SIZE_8_BITS)).

(** Bit 30 of [cr0] is cache disable. *)
Definition inhibit_flag (env : CPUX86State) (cache_inhibit : Z) : Z :=
  if negb (Z.lor (Z.land (cr0 env) (Z.shiftl 1 30)) cache_inhibit =? 0)
  then d.(QEM_TRACE_CACHE_INHIBIT_ON) else d.(QEM_TRACE_CACHE_INHIBIT_OFF).

Section event.
(** The processor and the memory when the helper runs, the time stamp counter, and
    the value of the uninitialised [cache_inhibit]. *)
Context (env : CPUX86State) (mem : memory) (tsc junk : Z).

Definition helper_qem_instld_trace (st current_eip size : Z) : list op :=
  when_traced st QEM_TRACE_ITRACE
    (let '(phys_addr, cache_inhibit) := instld_walk env mem current_eip in
     let flags := (d.(QEM_TRACE_EVENT_ACCESS) .| d.(QEM_TRACE_ACCESS_TYPE_READ)
                   .| d.(QEM_TRACE_DATA_TYPE_INST) .| d.(QEM_TRACE_GRANULARITY_NONE))%c in
     let flags := Z.lor flags (inhibit_flag env cache_inhibit) in
     let flags := Z.lor flags (if bit_any (cs_selector env) 0x0003
                               then d.(QEM_TRACE_PL_USER) else d.(QEM_TRACE_PL_KERNEL)) in
     let flags := Z.lor flags
       (if size =? 1 then d.(QEM_TRACE_DATA_SIZE_8_BITS)
        else if size =? 2 then d.(QEM_TRACE_DATA_SIZE_16_BITS)
        else if size =? 4 then d.(QEM_TRACE_DATA_SIZE_32_BITS)
        else if size =? 8 then d.(QEM_TRACE_DATA_SIZE_64_BITS)
        else d.(QEM_TRACE_DATA_SIZE_8_BITS)) in
     [OpOutput current_eip phys_addr (cpu_index env) (rdtsc_time tsc) flags]).

(** The body of the two data helpers, which differ in [access_type]. *)
Definition data_trace (access_type addr data_size : Z) : list op :=
  let '(phys_addr, cache_inhibit) :=
    if QEM_TRACE_PHYSICAL_ADDRESS cfg
    then qem_get_phys_addr_mem_tracing env mem junk addr
    else (addr, junk) in
  let flags := qem_get_flags_mem_tracing env d.(QEM_TRACE_EVENT_ACCESS) access_type
                 d.(QEM_TRACE_DATA_TYPE_DATA) d.(QEM_TRACE_GRANULARITY_NONE) data_size phys_addr in
  let flags := Z.lor flags (inhibit_flag env cache_inhibit) in
  [OpOutput addr phys_addr (cpu_index env) (rdtsc_time tsc) flags].

Definition helper_qem_datald_trace (st addr data_size : Z) : list op :=
  when_traced st QEM_TRACE_DTRACE (data_trace d.(QEM_TRACE_ACCESS_TYPE_READ) addr data_size).

Definition helper_qem_datast_trace (st addr data_size : Z) : list op :=
  when_traced st QEM_TRACE_DTRACE (data_trace d.(QEM_TRACE_ACCESS_TYPE_WRITE) addr data_size).
End event.

Definition helper_qem_start_trace (type : Z) : list op := [OpEnable type].
Definition helper_qem_stop_trace (type : Z) : list op := [OpDisable type].

(** ** The hooks of the translator *)

(** A guest instruction or access, as the translated code runs it: [idx] is the
    memory operation of the translator, whose two low bits are the size. *)
Inductive x86_kind :=
  | XFetch (pc_start : Z)
  | XLoad (idx a0 : Z)
  | XStore (idx a0 : Z)
  | XKernelLoad (data : Z) (ptr : Z)
  | XKernelStore (data : Z) (ptr : Z)
  | XOpcode (b : Z).

Record x86_event := mk_x86_event {
  ev_env : CPUX86State;
  ev_mem : memory;
  ev_tsc : Z;
  ev_junk : Z;
  ev_kind : x86_kind
}.

Definition MO_SIZE := 3.

(** The instruction hook passes size 0. *)
Definition gen_qem_instld_trace (e : x86_event) (st cur_eip size : Z) : list op :=
  helper_qem_instld_trace (ev_env e) (ev_mem e) (ev_tsc e) st cur_eip size.

Definition gen_op_ld_v (e : x86_event) (st idx a0 : Z) : list op :=
  helper_qem_datald_trace (ev_env e) (ev_mem e) (ev_tsc e) (ev_junk e) st a0 (Z.land idx MO_SIZE).

Definition gen_op_st_v (e : x86_event) (st idx a0 : Z) : list op :=
  helper_qem_datast_trace (ev_env e) (ev_mem e) (ev_tsc e) (ev_junk e) st a0 (Z.land idx MO_SIZE).

(** The accesses of segment descriptors and task states, which helpers of the segment
    unit make with the functions of a template that is instantiated at each size of
    data; the access itself follows the call. *)
Definition SHIFT (DATA_SIZE : Z) : option Z :=
  if DATA_SIZE =? 1 then Some 0 else if DATA_SIZE =? 2 then Some 1
  else if DATA_SIZE =? 4 then Some 2 else if DATA_SIZE =? 8 then Some 3 else None.

Definition cpu_ld_kernel_ra (e : x86_event) (st DATA_SIZE ptr : Z) : list op :=
  match SHIFT DATA_SIZE with
  | Some shift => helper_qem_datald_trace (ev_env e) (ev_mem e) (ev_tsc e) (ev_junk e) st ptr shift
  | None => []
  end.

Definition cpu_st_kernel_ra (e : x86_event) (st DATA_SIZE ptr : Z) : list op :=
  match SHIFT DATA_SIZE with
  | Some shift => helper_qem_datast_trace (ev_env e) (ev_mem e) (ev_tsc e) (ev_junk e) st ptr shift
  | None => []
  end.

(** The custom opcodes of [disas_insn]; the two timer opcodes make no call of the
    tracing API. *)
Definition disas_insn (b : Z) : list op :=
  if b =? 0x1A6 then helper_qem_start_trace QEM_TRACE_ALLTRACE
  else if b =? 0x1A7 then helper_qem_stop_trace QEM_TRACE_ALLTRACE
  else [].

Definition x86_code (e : x86_event) (st : Z) : C unit (list op) :=
  mret match ev_kind e with
  | XFetch pc_start => gen_qem_instld_trace e st pc_start 0
  | XLoad idx a0 => gen_op_ld_v e st idx a0
  | XStore idx a0 => gen_op_st_v e st idx a0
  | XKernelLoad n ptr => cpu_ld_kernel_ra e st n ptr
  | XKernelStore n ptr => cpu_st_kernel_ra e st n ptr
  | XOpcode b => disas_insn b
  end.
End helpers.

(** ** The two walks *)

(** The masks of the code, as fields. *)
Ltac mask_fields :=
  repeat match goal with
  | |- context [4294963200] => change 4294963200 with (Z.shiftl (Z.ones 20) 12)
  | |- context [4290772992] => change 4290772992 with (Z.shiftl (Z.ones 10) 22)
  | |- context [4194303] => change 4194303 with (Z.ones 22)
  | |- context [4095] => change 4095 with (Z.ones 12)
  | |- context [4092] => change 4092 with (Z.shiftl (Z.ones 10) 2)
  | |- context [2088960] => change 2088960 with (Z.shiftl (Z.ones 8) 13)
  | |- context [4503599627366400] => change 4503599627366400 with (Z.shiftl (Z.ones 40) 12)
  end.

Lemma pde_index addr : 0 <= addr < 2 ^ 32 -> Z.shiftr addr 22 * 4 = Z.land (Z.shiftr addr 20) 0xffc.
Proof.
  intros Ha. change 4 with (2 ^ 2). rewrite <- Z.shiftl_mul_pow2 by lia. mask_fields. bits.
Qed.

Lemma pte_index addr :
  Z.shiftr (Z.land addr 0x3FFFFF) 12 * 4 = Z.land (Z.shiftr addr 10) 0xffc.
Proof. change 4 with (2 ^ 2). rewrite <- Z.shiftl_mul_pow2 by lia. mask_fields. bits. Qed.

Lemma ld_phys_range n mem a : 0 <= ld_phys n mem a < 2 ^ (Z.of_nat n * 8).
Proof.
  unfold ld_phys, le_val. set (bs := map _ _).
  replace n with (length bs) by (subst bs; by rewrite length_map, length_seq).
  apply little_endian_to_Z_bound; [lia|]. apply Forall_forall. intros x Hx.
  apply list_elem_of_In, in_map_iff in Hx as (i & <- & _). apply wrap_range. lia.
Qed.

Lemma page_4k pte addr :
  0 <= pte < 2 ^ 32 -> 0 <= addr < 2 ^ 32 ->
  u32 (Z.lor (page_of pte 4096 addr) (Z.land addr 0xfff))
  = Z.lor (Z.land pte 0xFFFFF000) (Z.land addr 0xFFF).
Proof. intros Hp Ha. unfold page_of, PG_ADDRESS_MASK. change (4096 - 1) with 4095. mask_fields. bits. Qed.

(** A page of four megabytes; the address bits above 32 of PSE-36 are cut off. *)
Lemma page_4m pde addr :
  0 <= pde < 2 ^ 32 -> 0 <= addr < 2 ^ 32 ->
  u32 (Z.lor (page_of (Z.lor pde (Z.shiftl (Z.land pde 0x1fe000) (32 - 13))) 0x400000 addr)
         (Z.land addr 0xfff))
  = Z.lor (Z.land pde 0xFFC00000) (Z.land addr 0x003FFFFF).
Proof.
  intros Hp Ha. unfold page_of, PG_ADDRESS_MASK. change (0x400000 - 1) with 4194303.
  change (32 - 13) with 19. mask_fields. bits.
Qed.

Lemma land_m1 x : Z.land x (-1) = x.
Proof. apply Z.land_m1_r. Qed.

(** The walk of an unmapped address: the address itself if there is no directory
    entry, 0 if there is no table entry. *)
Definition unmapped (env : CPUX86State) (mem : memory) (addr : Z) : Z :=
  if bit_any (ldl_phys mem (u32 (Z.land (cr3 env) 0xFFFFF000 + Z.shiftr addr 22 * 4))) PG_PRESENT_MASK
  then 0 else addr.

Lemma walk_page_debug env mem ci addr :
  0 <= addr < 2 ^ 32 -> x86_get_a20_mask env = -1 -> bit_any (cr4 env) CR4_PAE_MASK = false ->
  (qem_get_phys_addr_mem_tracing env mem ci addr).1 =
  match x86_cpu_get_phys_page_debug env mem addr with
  | Some page => u32 (Z.lor page (Z.land addr 0xfff))
  | None => unmapped env mem addr
  end.
Proof.
  intros Ha Ha20 Hpae. unfold qem_get_phys_addr_mem_tracing, x86_cpu_get_phys_page_debug, unmapped.
  rewrite Ha20, Hpae, !land_m1, <- pde_index, <- pte_index by done.
  set (pde := ldl_phys mem (u32 (_ + Z.shiftr addr 22 * 4))).
  pose proof (ld_phys_range 4 mem (u32 (Z.land (cr3 env) 0xFFFFF000 + Z.shiftr addr 22 * 4))) as Hpde.
  fold pde in Hpde. change (Z.of_nat 4 * 8) with 32 in Hpde. clearbody pde.
  set (pte := ldl_phys mem (u32 (Z.land pde _ + _))).
  pose proof (ld_phys_range 4 mem (u32 (Z.land pde 0xFFFFF000 +
    Z.shiftr (Z.land addr 0x3FFFFF) 12 * 4))) as Hpte.
  fold pte in Hpte. change (Z.of_nat 4 * 8) with 32 in Hpte. clearbody pte.
  destruct (bit_any (cr0 env) CR0_PG_MASK); cbn [negb]; cycle 1.
  { cbn [fst]. rewrite page_4k by done. mask_fields. bits. }
  destruct (bit_any pde PG_PRESENT_MASK); cbn [negb]; [|done].
  destruct (bit_any pde PG_PSE_MASK && bit_any (cr4 env) CR4_PSE_MASK); cbn [negb].
  { cbn [fst]. by rewrite page_4m. }
  destruct (bit_any pte PG_PRESENT_MASK); cbn [negb fst]; [by rewrite page_4k|done].
Qed.

(** The walk of the instruction helper is the one of the data helpers, except that an
    address without directory entry is given as 0. *)
Lemma instld_walk_data env mem addr :
  instld_walk env mem addr =
  if bit_any (cr0 env) CR0_PG_MASK &&
     negb (bit_any (ldl_phys mem (u32 (Z.land (cr3 env) 0xFFFFF000 + Z.shiftr addr 22 * 4)))
             PG_PRESENT_MASK)
  then (0, 0) else qem_get_phys_addr_mem_tracing env mem 0 addr.
Proof.
  unfold instld_walk, qem_get_phys_addr_mem_tracing. cbn zeta.
  destruct (bit_any (cr0 env) CR0_PG_MASK); cbn [negb andb]; [|done].
  destruct (bit_any (ldl_phys mem _) PG_PRESENT_MASK); done.
Qed.

(** ** What the helpers record *)

(** The access a load or store of the guest is. *)
Definition x86_access (env : CPUX86State) (write inst : bool) (size : data_size) (ci : Z) : access :=
  mk_access write inst (bit_any (cs_selector env) 3) EvAccess GrLine size false Level1
    (bit_any (cr0 env) (Z.shiftl 1 30) || negb (ci =? 0)) false false.

Lemma inhibit_flag_code cfg env ci :
  inhibit_flag cfg env ci =
  inhibit_code (def_of cfg) (bit_any (cr0 env) (Z.shiftl 1 30) || negb (ci =? 0)).
Proof. unfold inhibit_flag, inhibit_code, bit_any, ite. by rewrite lor_eq_0, negb_andb. Qed.

Lemma data_flags cfg env write data_size phys ci :
  Z.lor (qem_get_flags_mem_tracing cfg env (def_of cfg).(QEM_TRACE_EVENT_ACCESS)
           (rw_code (def_of cfg) write) (def_of cfg).(QEM_TRACE_DATA_TYPE_DATA)
           (def_of cfg).(QEM_TRACE_GRANULARITY_NONE) data_size phys)
    (inhibit_flag cfg env ci)
  = encode (def_of cfg) (x86_access env write false (size_of_op data_size) ci).
Proof.
  rewrite inhibit_flag_code. unfold qem_get_flags_mem_tracing, encode, x86_access. cbn [acc_write
    acc_inst acc_user acc_event acc_granularity acc_size acc_coherency acc_level acc_inhibit
    acc_wt acc_exclusive].
  set (ib := inhibit_code _ _). set (rw := rw_code _ _).
  destruct (zero_codes cfg) as (E1 & E2 & E3 & E4 & E5 & E6 & E7 & E8 & E9).
  unfold id_code, event_code, gran_code, coherency_code, level_code, wt_code, exclusive_code, ite.
  rewrite E1, E3, E4, E5, E6, E7, E8, E9, !Z.lor_0_r. f_equal. f_equal.
  unfold size_of_op. repeat (case_match; try done; try lia).
Qed.

Lemma inst_flags cfg env ci :
  Z.lor (Z.lor (Z.lor (((def_of cfg).(QEM_TRACE_EVENT_ACCESS) .| (def_of cfg).(QEM_TRACE_ACCESS_TYPE_READ)
     .| (def_of cfg).(QEM_TRACE_DATA_TYPE_INST) .| (def_of cfg).(QEM_TRACE_GRANULARITY_NONE))%c)
     (inhibit_flag cfg env ci))
     (if bit_any (cs_selector env) 0x0003
      then (def_of cfg).(QEM_TRACE_PL_USER) else (def_of cfg).(QEM_TRACE_PL_KERNEL)))
     (def_of cfg).(QEM_TRACE_DATA_SIZE_8_BITS)
  = encode (def_of cfg) (x86_access env false true Size8 ci).
Proof.
  rewrite inhibit_flag_code. unfold encode, x86_access. cbn [acc_write
    acc_inst acc_user acc_event acc_granularity acc_size acc_coherency acc_level acc_inhibit
    acc_wt acc_exclusive].
  set (ib := inhibit_code _ _).
  destruct (zero_codes cfg) as (E1 & E2 & E3 & E4 & E5 & E6 & E7 & E8 & E9).
  unfold rw_code, id_code, pl_code, event_code, gran_code, size_code, coherency_code, level_code,
    wt_code, exclusive_code, ite.
  rewrite E1, E2, E4, E5, E6, E7, E8, E9, !Z.lor_0_r, !Z.lor_0_l.
  rewrite <- !Z.lor_assoc. f_equal. rewrite Z.lor_comm, <- !Z.lor_assoc. done.
Qed.

(** The records of the three kinds of events. *)
Lemma load_record cfg e st idx a0 :
  gen_op_ld_v cfg e st idx a0 =
  when_traced st QEM_TRACE_DTRACE
    (let '(pa, ci) := if QEM_TRACE_PHYSICAL_ADDRESS cfg
       then qem_get_phys_addr_mem_tracing (ev_env e) (ev_mem e) (ev_junk e) a0 else (a0, ev_junk e) in
     [OpOutput a0 pa (cpu_index (ev_env e)) (rdtsc_time (ev_tsc e))
       (encode (def_of cfg) (x86_access (ev_env e) false false (size_of_op (Z.land idx 3)) ci))]).
Proof.
  unfold gen_op_ld_v, helper_qem_datald_trace, data_trace. f_equal. repeat case_match; simplify_eq;
    do 2 f_equal; apply (data_flags cfg _ false).
Qed.

Lemma store_record cfg e st idx a0 :
  gen_op_st_v cfg e st idx a0 =
  when_traced st QEM_TRACE_DTRACE
    (let '(pa, ci) := if QEM_TRACE_PHYSICAL_ADDRESS cfg
       then qem_get_phys_addr_mem_tracing (ev_env e) (ev_mem e) (ev_junk e) a0 else (a0, ev_junk e) in
     [OpOutput a0 pa (cpu_index (ev_env e)) (rdtsc_time (ev_tsc e))
       (encode (def_of cfg) (x86_access (ev_env e) true false (size_of_op (Z.land idx 3)) ci))]).
Proof.
  unfold gen_op_st_v, helper_qem_datast_trace, data_trace. f_equal. repeat case_match; simplify_eq;
    do 2 f_equal; apply (data_flags cfg _ true).
Qed.

Lemma fetch_record cfg e st pc :
  gen_qem_instld_trace cfg e st pc 0 =
  when_traced st QEM_TRACE_ITRACE
    (let '(pa, ci) := instld_walk (ev_env e) (ev_mem e) pc in
     [OpOutput pc pa (cpu_index (ev_env e)) (rdtsc_time (ev_tsc e))
       (encode (def_of cfg) (x86_access (ev_env e) false true Size8 ci))]).
Proof.
  unfold gen_qem_instld_trace, helper_qem_instld_trace. f_equal. case_match.
  do 2 f_equal. apply inst_flags.
Qed.

(** The accesses of the segment unit are recorded as those of the translated code. *)
Lemma kernel_records cfg e st n ptr :
  cpu_ld_kernel_ra cfg e st n ptr = match SHIFT n with Some k => gen_op_ld_v cfg e st k ptr | None => [] end /\
  cpu_st_kernel_ra cfg e st n ptr = match SHIFT n with Some k => gen_op_st_v cfg e st k ptr | None => [] end.
Proof. unfold cpu_ld_kernel_ra, cpu_st_kernel_ra, SHIFT. split; by repeat case_match; simplify_eq. Qed.

Lemma x86_well_guarded cfg : well_guarded (x86_code cfg).
Proof.
  intros e st g ops g' Hrun. unfold x86_code in Hrun. injection Hrun as <- _.
  destruct (ev_kind e) as [pc|idx a0|idx a0|n ptr|n ptr|b].
  - rewrite fetch_record. case_match. apply when_traced_guarded.
  - rewrite load_record. case_match. apply when_traced_guarded.
  - rewrite store_record. case_match. apply when_traced_guarded.
  - rewrite (proj1 (kernel_records _ _ _ _ _)). destruct (SHIFT n) as [k|]; [|exact I].
    rewrite load_record. case_match. apply when_traced_guarded.
  - rewrite (proj2 (kernel_records _ _ _ _ _)). destruct (SHIFT n) as [k|]; [|exact I].
    rewrite store_record. case_match. apply when_traced_guarded.
  - unfold disas_insn, helper_qem_start_trace, helper_qem_stop_trace, guarded, ttype.
    repeat case_match; simplify_eq; auto.
Qed.

Lemma x86_coded cfg e st : emits (coded cfg) (x86_code cfg e st).
Proof.
  intros g ops g' Hrun. unfold x86_code in Hrun. injection Hrun as <- _.
  assert (Hw : forall ty va pa core time a,
    Forall (coded cfg) (when_traced st ty [OpOutput va pa core time (encode (def_of cfg) a)])).
  { intros. unfold when_traced. case_match; repeat constructor. by eexists. }
  destruct (ev_kind e) as [pc|idx a0|idx a0|n ptr|n ptr|b].
  - rewrite fetch_record. by case_match.
  - rewrite load_record. by case_match.
  - rewrite store_record. by case_match.
  - rewrite (proj1 (kernel_records _ _ _ _ _)). destruct (SHIFT n); [|done].
    rewrite load_record. by case_match.
  - rewrite (proj2 (kernel_records _ _ _ _ _)). destruct (SHIFT n); [|done].
    rewrite store_record. by case_match.
  - unfold disas_insn. repeat case_match; by repeat constructor.
Qed.

(** ** Properties *)

(** C35: without PAE and with the A20 line enabled, the tracer's page table walk agrees
    with QEMU's own: it gives the physical page of QEMU and the offset in the page,
    cut to 32 bits (so the upper bits of a PSE-36 page are lost); where QEMU finds no
    page it gives the virtual address (no directory entry) or 0 (no table entry). *)
Theorem x86_walk_page_debug env mem ci addr :
  0 <= addr < 2 ^ 32 -> x86_get_a20_mask env = -1 -> bit_any (cr4 env) CR4_PAE_MASK = false ->
  (qem_get_phys_addr_mem_tracing env mem ci addr).1 =
  match x86_cpu_get_phys_page_debug env mem addr with
  | Some page => u32 (Z.lor page (Z.land addr 0xfff))
  | None => unmapped env mem addr
  end.
Proof. apply walk_page_debug. Qed.

(** A directory at 0x1000 whose entry 1 is a table at 0x2000; its entry 3 maps
    0x403000 to the page 0xABCDE000, which is dirty. *)
Definition x86_env (pae : bool) : CPUX86State :=
  mk_x86 0x80000001 0x1000 (if pae then 0x20 else 0) 0x8 false (-1) 1.

Definition put32 (a v : Z) (mem : memory) : memory :=
  fun x => if (a <=? x) && (x <? a + 4) then Z.shiftr v (8 * (x - a)) else mem x.

Definition x86_mem : memory := put32 0x1004 0x2003 (put32 0x200C 0xABCDE043 (fun _ => 0)).

Lemma x86_walk_page_debug_witness :
  (qem_get_phys_addr_mem_tracing (x86_env false) x86_mem 0 0x403123).1 = 0xABCDE123.
Proof.
  rewrite (x86_walk_page_debug (x86_env false) x86_mem 0 0x403123).
  - vm_compute. reflexivity.
  - lia.
  - reflexivity.
  - reflexivity.
Defined.

(** A load or store that is traced is recorded with the physical address of
    QEMU's walk, the time stamp counter, the processor and a flag word that decodes to
    the access: its direction, the privilege of the code segment, its size and whether
    the cache is inhibited. *)
Theorem x86_access_recorded cfg e st (write : bool) idx a0 page :
  QEM_TRACE_GATHER_META cfg = true -> QEM_TRACE_PHYSICAL_ADDRESS cfg = true ->
  QEM_TRACE_TARGET_64 cfg = false -> bit_any st QEM_TRACE_DTRACE = true ->
  0 <= a0 < 2 ^ 32 -> 0 <= ev_tsc e < 2 ^ 64 -> 0 <= cpu_index (ev_env e) < 2 ^ 32 ->
  x86_get_a20_mask (ev_env e) = -1 -> bit_any (cr4 (ev_env e)) CR4_PAE_MASK = false ->
  x86_cpu_get_phys_page_debug (ev_env e) (ev_mem e) a0 = Some page ->
  exists pa core time flg,
    (if write then gen_op_st_v cfg e st idx a0 else gen_op_ld_v cfg e st idx a0)
      = [OpOutput a0 pa core time flg] /\
    let t := new_trace cfg pa core time flg in
    address t = u32 (Z.lor page (Z.land a0 0xfff)) /\ timestamp t = ev_tsc e /\
    Z.land (flags t) 0xFF = cpu_index (ev_env e) mod 256 /\
    exists ci, decode (def_of cfg) (flags t) =
      x86_access (ev_env e) write false (size_of_op (Z.land idx 3)) ci.
Proof.
  intros Hm Hp H64 Hst Ha Ht Hc Ha20 Hpae Hpage.
  pose proof (walk_page_debug (ev_env e) (ev_mem e) (ev_junk e) a0 Ha Ha20 Hpae) as Hw.
  rewrite Hpage in Hw. rewrite store_record, load_record, Hp. unfold when_traced. rewrite Hst.
  destruct (qem_get_phys_addr_mem_tracing _ _ _ _) as [pa ci]. cbn [fst] in Hw.
  exists pa, (cpu_index (ev_env e)), (rdtsc_time (ev_tsc e)),
    (encode (def_of cfg) (x86_access (ev_env e) write false (size_of_op (Z.land idx 3)) ci)).
  split; [by destruct write|]. cbn zeta.
  destruct (new_trace_decode cfg pa (cpu_index (ev_env e)) (rdtsc_time (ev_tsc e))
    (x86_access (ev_env e) write false (size_of_op (Z.land idx 3)) ci) Hm Hc) as [Hd Hf].
  rewrite Hf. split_and!; [| |done|by exists ci].
  - unfold new_trace, addr_size. rewrite Hm, H64. cbn [address]. rewrite Hw.
    change (Z.of_nat 4 * 8) with 32. apply wrap_wrap.
  - unfold new_trace. rewrite Hm. cbn [timestamp]. by rewrite rdtsc_time_id, wrap_small.
Qed.

Lemma x86_access_recorded_witness :
  let e := mk_x86_event (x86_env false) x86_mem 77 0 (XStore 2 0x403123) in
  exists pa core time flg,
    gen_op_st_v (cfg_small true false) e 1 2 0x403123 = [OpOutput 0x403123 pa core time flg] /\
    address (new_trace (cfg_small true false) pa core time flg) = 0xABCDE123.
Proof.
  intros e.
  destruct (x86_access_recorded (cfg_small true false) e 1 true 2 0x403123 0xABCDE000)
    as (pa & core & time & flg & He & Ha & _); [first [reflexivity|subst e; cbn; lia]..|].
  exists pa, core, time, flg. split; [exact He|]. rewrite Ha. reflexivity.
Defined.

(** For a page of four kilobytes the cache is reported as inhibited when the dirty
    bit (6) of the table entry is set, and its cache disable bit (4) is not looked at:
    with caching enabled in [cr0] and in the directory entry, the flag of the record is
    the dirty bit of the page. *)
Theorem x86_inhibit_is_dirty env mem ci addr pde pte :
  bit_any (cr0 env) CR0_PG_MASK = true -> bit_any (cr0 env) (Z.shiftl 1 30) = false ->
  ldl_phys mem (u32 (Z.land (cr3 env) 0xFFFFF000 + Z.shiftr addr 22 * 4)) = pde ->
  Z.land pde 0x91 = 1 ->
  ldl_phys mem (u32 (Z.land pde 0xFFFFF000 + Z.shiftr (Z.land addr 0x3FFFFF) 12 * 4)) = pte ->
  Z.testbit pte 0 = true ->
  acc_inhibit (x86_access env true false Size8
    (qem_get_phys_addr_mem_tracing env mem ci addr).2) = Z.testbit pte 6.
Proof.
  intros Hpg Hcd Hpde Hflags Hpte Hp. unfold qem_get_phys_addr_mem_tracing.
  rewrite Hpg, Hpde, Hpte. cbn [negb].
  assert (Hb : forall m, Z.land 0x91 m = m -> bit_any pde m = negb (Z.land 1 m =? 0))
    by (intros m Hm; unfold bit_any; by rewrite <- Hflags, <- Z.land_assoc, Hm).
  rewrite (Hb PG_PRESENT_MASK eq_refl), (Hb PG_PSE_MASK eq_refl). cbn [andb negb Z.land Z.eqb].
  assert (Hpp : bit_any pte PG_PRESENT_MASK = true) by (by rewrite <- Hp, <- (bit_any_pow2 pte 0)).
  rewrite Hpp.
  unfold x86_access. cbn [acc_inhibit snd]. rewrite Hcd. cbn [orb].
  replace (Z.land pde 16) with 0 by (pose proof (Hb 16 eq_refl) as H16; unfold bit_any in H16;
    cbn in H16; apply negb_false_iff, Z.eqb_eq in H16; done).
  rewrite Z.lor_0_r. rewrite <- (bit_any_pow2 pte 6) by lia. done.
Qed.

Lemma x86_inhibit_is_dirty_witness :
  acc_inhibit (x86_access (x86_env false) true false Size8
    (qem_get_phys_addr_mem_tracing (x86_env false) x86_mem 0 0x403123).2) = true.
Proof.
  rewrite (x86_inhibit_is_dirty (x86_env false) x86_mem 0 0x403123 0x2003 0xABCDE043);
    vm_compute; reflexivity.
Defined.

(** The walk does not look at the PAE bit of [cr4]: with three-level page tables it
    reads the page directory pointer as a directory of 32-bit entries, and its result is
    not the physical address QEMU translates to. *)
Theorem x86_walk_ignores_pae :
  (forall env mem ci addr b,
    qem_get_phys_addr_mem_tracing
      (mk_x86 (cr0 env) (cr3 env) (Z.lor (Z.land (cr4 env) (Z.lnot CR4_PAE_MASK)) (if b : bool then CR4_PAE_MASK else 0))
         (cs_selector env) (hflags_smm env) (a20_mask env) (cpu_index env)) mem ci addr
    = qem_get_phys_addr_mem_tracing env mem ci addr) /\
  exists env mem addr page,
    bit_any (cr4 env) CR4_PAE_MASK = true /\
    x86_cpu_get_phys_page_debug env mem addr = Some page /\
    forall ci, (qem_get_phys_addr_mem_tracing env mem ci addr).1 <> u32 (Z.lor page (Z.land addr 0xfff)).
Proof.
  split.
  - intros env mem ci addr b. unfold qem_get_phys_addr_mem_tracing. cbn [cr0 cr3 cr4].
    replace (bit_any _ CR4_PSE_MASK) with (bit_any (cr4 env) CR4_PSE_MASK); [done|].
    unfold bit_any. do 2 f_equal. rewrite Z.land_lor_distr_l, <- Z.land_assoc.
    by destruct b; rewrite Z.lor_0_r.
  - exists (x86_env true), (put32 0x1000 0x2001 (put32 0x2010 0x3001 (put32 0x3018 0x5001 (fun _ => 0)))),
      0x403123, 0x5000.
    split; [reflexivity|]. split; [vm_compute; reflexivity|]. intros ci. by vm_compute.
Qed.
