(* ===== verification/X86Mmu.v ===== *)
(** * The memory management unit of the i386 target

    [x86_cpu_handle_mmu_fault] and [get_hphys] of [target/i386/excp_helper.c]: the
    translation QEMU runs when an access of the guest misses the software TLB.  It walks
    the page tables (with or without physical address extension), checks the
    protection, sets the accessed and dirty bits in the tables and either enters the
    page in the TLB or raises a page fault; with nested paging each guest physical address
    goes through [get_hphys].  The target is the 32-bit one, so the parts of the two
    functions for long mode are not compiled.

    The theorems relate the walk of the tracer, which runs after the access, to the
    translation the access went through. *)

From S2P Require Import Prelude Bits TraceDef Trace Sink Guest I386.

(** ** State *)

(** The registers the two functions read, beside those of [CPUX86State]. *)
Record mmu_regs := mk_mmu_regs {
  regs : CPUX86State;
  efer : Z;
  hflags_lma : bool;
  hflags2 : Z;
  pkru : Z;
  nested_pg_mode : Z;
  nested_cr3 : Z;
  vm_vmcb : Z;
  intercept_exceptions : Z
}.

(** A call of [tlb_set_page_with_attrs]. *)
Record tlb_page := mk_tlb_page {
  tlb_vaddr : Z;
  tlb_paddr : Z;
  tlb_prot : Z;
  tlb_mmu_idx : Z;
  tlb_size : Z
}.

(** What they change. *)
Record mmu_state := mk_mmu_state {
  mem : memory;
  tlb : list tlb_page;
  cr2 : Z;
  error_code : Z;
  exception_index : Z
}.

(** The function returns, or leaves the guest of a virtual machine ([cpu_vmexit] does not
    return). *)
Inductive mmu_result :=
  | Returned (ret : Z)
  | Vmexit (exit_info_1 : Z).

Abbreviation X := (C mmu_state).

Definition PG_RW_MASK := 0x2.
Definition PG_USER_MASK := 0x4.
Definition PG_ACCESSED_MASK := 0x20.
Definition PG_DIRTY_MASK := 0x40.
Definition PG_PSE_PAT_MASK := 0x1000.
Definition PHYS_ADDR_MASK := 0xFFFFFFFFF.
Definition PG_HI_RSVD_MASK := Z.land PG_ADDRESS_MASK (Z.lnot PHYS_ADDR_MASK).
Definition PG_HI_USER_MASK := 0x7ff0000000000000.
Definition PG_NX_MASK := Z.shiftl 1 63.
Definition PG_PKRU_MASK := Z.shiftl 15 59.
Definition PG_ERROR_P_MASK := 0x01.
Definition PG_ERROR_W_BIT := 1.
Definition PG_ERROR_U_MASK := 0x04.
Definition PG_ERROR_RSVD_MASK := 0x08.
Definition PG_ERROR_I_D_MASK := 0x10.
Definition PG_ERROR_PK_MASK := 0x20.
Definition PAGE_READ := 0x1.
Definition PAGE_WRITE := 0x2.
Definition PAGE_EXEC := 0x4.
Definition CR0_WP_MASK := 0x10000.
Definition CR4_SMEP_MASK := 0x100000.
Definition CR4_PKE_MASK := 0x400000.
Definition MSR_EFER_NXE := 0x800.
Definition HF2_NPT_MASK := 0x40.
Definition MMU_KSMAP_IDX := 0.
Definition MMU_USER_IDX := 1.
Definition MMU_KNOSMAP_IDX := 2.
Definition MMU_DATA_LOAD := 0.
Definition MMU_DATA_STORE := 1.
Definition MMU_INST_FETCH := 2.
Definition EXCP0E_PAGE := 14.
Definition SVM_NPT_PAE := 0x1.
Definition SVM_NPT_NXE := 0x4.
Definition SVM_NPTEXIT_P := 0x1.
Definition SVM_NPTEXIT_RW := 0x2.
Definition SVM_NPTEXIT_US := 0x4.
Definition SVM_NPTEXIT_RSVD := 0x8.
Definition SVM_NPTEXIT_ID := 0x10.
Definition SVM_NPTEXIT_GPA := 0x100000000.
Definition SVM_NPTEXIT_GPT := 0x200000000.
(** [offsetof(struct vmcb, control.exit_info_2)]; the structure is packed. *)
Definition exit_info_2_offset := 0x80.
Definition TARGET_PAGE_MASK := Z.lnot 0xfff.

(** ** Physical memory *)

Definition set_mem (f : memory -> memory) (s : mmu_state) : mmu_state :=
  mk_mmu_state (f (mem s)) (tlb s) (cr2 s) (error_code s) (exception_index s).

Definition x86_ldl_phys (a : Z) : X Z := gets (fun s => ldl_phys (mem s) a).
Definition x86_ldq_phys (a : Z) : X Z := gets (fun s => ldq_phys (mem s) a).
Definition x86_stl_phys_notdirty (a val : Z) : X () := modify (set_mem (put32 a (u32 val))).
Definition x86_stq_phys (a val : Z) : X () :=
  modify (set_mem (fun m => put32 (a + 4) (Z.shiftr val 32) (put32 a (u32 val) m))).

(** [assert]. *)
Definition assert_ (b : bool) : X () := if b then mret () else exit_ 134.

(** Set the accessed bit of a directory entry, in memory too. *)
Definition touch (a entry : Z) : X Z :=
  if bit_any entry PG_ACCESSED_MASK then mret entry
  else
    let entry := Z.lor entry PG_ACCESSED_MASK in
    x86_stl_phys_notdirty a entry;; mret entry.

Section handler.
Context (env : mmu_regs).

Abbreviation cr0 := (cr0 (regs env)).
Abbreviation cr3 := (cr3 (regs env)).
Abbreviation cr4 := (cr4 (regs env)).

(** ** Nested paging *)

Section nested.
(** [prot] is the variable the argument points to, if it is not [NULL]; the caller
    continues with the address and the variable. *)
Context (gphys access_type : Z) (prot : option Z) (k : Z -> option Z -> X mmu_result).

Definition npt_fault (exit_info_1 : Z) : X mmu_result :=
  x86_stq_phys (vm_vmcb env + exit_info_2_offset) gphys;;
  let exit_info_1 := Z.lor exit_info_1 SVM_NPTEXIT_US in
  let exit_info_1 :=
    if access_type =? MMU_DATA_STORE then Z.lor exit_info_1 SVM_NPTEXIT_RW
    else if access_type =? MMU_INST_FETCH then Z.lor exit_info_1 SVM_NPTEXIT_ID
    else exit_info_1 in
  mret (Vmexit (Z.lor exit_info_1
    (match prot with Some _ => SVM_NPTEXIT_GPA | None => SVM_NPTEXIT_GPT end))).

Definition npt_fault_protect (exit_info_1 : Z) : X mmu_result :=
  npt_fault (Z.lor exit_info_1 SVM_NPTEXIT_P).
Definition npt_fault_rsvd : X mmu_result := npt_fault_protect SVM_NPTEXIT_RSVD.

Definition npt_check_protect_pse36 (rsvd_mask pte ptep page_size : Z) : X mmu_result :=
  if bit_any pte rsvd_mask then npt_fault_rsvd
  else
    let ptep := Z.lxor ptep PG_NX_MASK in
    if negb (bit_any ptep PG_USER_MASK) then npt_fault_protect 0
    else if bit_any ptep PG_NX_MASK && (access_type =? MMU_INST_FETCH) then npt_fault_protect 0
    else
      prot ← (if bit_any ptep PG_NX_MASK
              then p ← access_ prot; mret (Some (Z.land p (Z.lnot PAGE_EXEC)))
              else mret prot);
      if negb (bit_any ptep PG_RW_MASK) && (access_type =? MMU_DATA_STORE) then npt_fault_protect 0
      else
        prot ← (if negb (bit_any ptep PG_RW_MASK)
                then p ← access_ prot; mret (Some (Z.land p (Z.lnot PAGE_WRITE)))
                else mret prot);
        let pte := Z.land pte (Z.land PG_ADDRESS_MASK (Z.lnot (page_size - 1))) in
        let page_offset := u32 (Z.land gphys (page_size - 1)) in
        k (pte + page_offset) prot.

Definition npt_check_protect (rsvd_mask pte ptep page_size : Z) : X mmu_result :=
  npt_check_protect_pse36
    (Z.lor rsvd_mask (Z.land (Z.land (page_size - 1) PG_ADDRESS_MASK) (Z.lnot PG_PSE_PAT_MASK)))
    pte ptep page_size.

Definition npt_pae (rsvd_mask : Z) : X mmu_result :=
  let pdpe_addr := u32 (Z.land (nested_cr3 env) (Z.lnot 0x1f) + Z.land (Z.shiftr gphys 27) 0x18) in
  pdpe ← x86_ldq_phys pdpe_addr;
  if negb (bit_any pdpe PG_PRESENT_MASK) then npt_fault 0
  else
    let rsvd_mask := Z.lor rsvd_mask PG_HI_USER_MASK in
    if bit_any pdpe (Z.lor rsvd_mask PG_NX_MASK) then npt_fault_rsvd
    else
      let ptep := Z.lor (Z.lor PG_NX_MASK PG_USER_MASK) PG_RW_MASK in
      let pde_addr := u32 (Z.land pdpe PG_ADDRESS_MASK
                           + Z.shiftl (Z.land (Z.shiftr gphys 21) 0x1ff) 3) in
      pde ← x86_ldq_phys pde_addr;
      if negb (bit_any pde PG_PRESENT_MASK) then npt_fault 0
      else if bit_any pde rsvd_mask then npt_fault_rsvd
      else
        let ptep := Z.land ptep (Z.lxor pde PG_NX_MASK) in
        if bit_any pde PG_PSE_MASK then npt_check_protect rsvd_mask pde ptep 0x200000
        else
          pde ← touch pde_addr pde;
          let pte_addr := u32 (Z.land pde PG_ADDRESS_MASK
                               + Z.shiftl (Z.land (Z.shiftr gphys 12) 0x1ff) 3) in
          pte ← x86_ldq_phys pte_addr;
          if negb (bit_any pte PG_PRESENT_MASK) then npt_fault 0
          else if bit_any pte rsvd_mask then npt_fault_rsvd
          else npt_check_protect rsvd_mask pte (Z.land ptep (Z.lxor pte PG_NX_MASK)) 4096.

Definition npt_2level : X mmu_result :=
  let pde_addr := u32 (Z.land (nested_cr3 env) (Z.lnot 0xfff) + Z.land (Z.shiftr gphys 20) 0xffc) in
  pde ← x86_ldl_phys pde_addr;
  if negb (bit_any pde PG_PRESENT_MASK) then npt_fault 0
  else
    let ptep := Z.lor pde PG_NX_MASK in
    if bit_any pde PG_PSE_MASK && bit_any cr4 CR4_PSE_MASK then
      npt_check_protect_pse36 0x200000
        (Z.lor pde (Z.shiftl (Z.land pde 0x1fe000) (32 - 13))) ptep 0x400000
    else
      pde ← touch pde_addr pde;
      let pte_addr := u32 (Z.land pde 0xFFFFF000 + Z.land (Z.shiftr gphys 10) 0xffc) in
      pte ← x86_ldl_phys pte_addr;
      if negb (bit_any pte PG_PRESENT_MASK) then npt_fault 0
      else npt_check_protect 0 pte (Z.land ptep (Z.lor pte PG_NX_MASK)) 4096.

Definition get_hphys : X mmu_result :=
  if negb (bit_any (hflags2 env) HF2_NPT_MASK) then k gphys prot
  else
    let rsvd_mask := Z.lor PG_HI_RSVD_MASK
      (if bit_any (nested_pg_mode env) SVM_NPT_NXE then 0 else PG_NX_MASK) in
    if bit_any (nested_pg_mode env) SVM_NPT_PAE then npt_pae rsvd_mask else npt_2level.
End nested.

(** ** The translation *)

Section translate.
Context (addr is_write1 mmu_idx : Z).

Abbreviation is_user := (mmu_idx =? MMU_USER_IDX).
Abbreviation is_write := (bit_any is_write1 1).
Abbreviation a20 := (x86_get_a20_mask (regs env)).
(** The bit of [prot] the access needs. *)
Abbreviation need := (Z.shiftl 1 is_write1).

Definition raise_page_fault (error : Z) (s : mmu_state) : mmu_state :=
  mk_mmu_state (mem s) (tlb s) (cr2 s) error EXCP0E_PAGE.
Definition set_cr2 (s : mmu_state) : mmu_state :=
  mk_mmu_state (mem s) (tlb s) (u32 addr) (error_code s) (exception_index s).

Definition do_fault (error : Z) : X mmu_result :=
  let error := Z.lor error (Z.shiftl (Z.b2z is_write) PG_ERROR_W_BIT) in
  let error := if is_user then Z.lor error PG_ERROR_U_MASK else error in
  let error :=
    if (is_write1 =? 2) && ((bit_any (efer env) MSR_EFER_NXE && bit_any cr4 CR4_PAE_MASK)
                            || bit_any cr4 CR4_SMEP_MASK)
    then Z.lor error PG_ERROR_I_D_MASK else error in
  (if bit_any (intercept_exceptions env) (Z.shiftl 1 EXCP0E_PAGE)
   then x86_stq_phys (vm_vmcb env + exit_info_2_offset) addr
   else modify set_cr2);;
  modify (raise_page_fault error);;
  mret (Returned 1).

Definition do_fault_protect (error : Z) : X mmu_result := do_fault (Z.lor error PG_ERROR_P_MASK).
Definition do_fault_rsvd (error : Z) : X mmu_result := do_fault_protect (Z.lor error PG_ERROR_RSVD_MASK).

Definition tlb_set_page_with_attrs (p : tlb_page) (s : mmu_state) : mmu_state :=
  mk_mmu_state (mem s) (p :: tlb s) (cr2 s) (error_code s) (exception_index s).

Definition do_mapping (pte page_size prot : Z) : X mmu_result :=
  let pte := Z.land pte a20 in
  let pte := Z.land pte (Z.land PG_ADDRESS_MASK (Z.lnot (page_size - 1))) in
  let page_offset := u32 (Z.land addr (page_size - 1)) in
  get_hphys (pte + page_offset) is_write1 (Some prot) (fun paddr prot =>
    prot ← access_ prot;
    let vaddr := u32 (Z.land addr TARGET_PAGE_MASK) in
    let paddr := Z.land paddr TARGET_PAGE_MASK in
    assert_ (bit_any prot need);;
    modify (tlb_set_page_with_attrs (mk_tlb_page vaddr paddr prot mmu_idx page_size));;
    mret (Returned 0)).

(** The protection of the page, from the bits all levels of the walk grant. *)
Definition page_prot (ptep : Z) : Z :=
  let prot :=
    if negb (mmu_idx =? MMU_KSMAP_IDX) || negb (bit_any ptep PG_USER_MASK) then
      Z.lor PAGE_READ
        (if bit_any ptep PG_RW_MASK || (negb is_user && negb (bit_any cr0 CR0_WP_MASK))
         then PAGE_WRITE else 0)
    else 0 in
  if negb (bit_any ptep PG_NX_MASK)
     && (is_user || negb (bit_any cr4 CR4_SMEP_MASK && bit_any ptep PG_USER_MASK))
  then Z.lor prot PAGE_EXEC else prot.

(** What the protection key of the page grants, if protection keys apply. *)
Definition pkru_prot (pte ptep : Z) : option Z :=
  if bit_any cr4 CR4_PKE_MASK && hflags_lma env && bit_any ptep PG_USER_MASK
     && negb (pkru env =? 0) then
    let pk := Z.shiftr (Z.land pte PG_PKRU_MASK) 59 in
    let pkru_ad := Z.land (Z.shiftr (pkru env) (pk * 2)) 1 in
    let pkru_wd := Z.land (Z.shiftr (pkru env) (pk * 2)) 2 in
    let all := Z.lor (Z.lor PAGE_READ PAGE_WRITE) PAGE_EXEC in
    Some (if negb (pkru_ad =? 0) then Z.land all (Z.lnot (Z.lor PAGE_READ PAGE_WRITE))
          else if negb (pkru_wd =? 0) && (is_user || bit_any cr0 CR0_WP_MASK)
          then Z.land all (Z.lnot PAGE_WRITE) else all)
  else None.

(** From [yes, it can!] on. *)
Definition do_enter (pte pte_addr page_size prot : Z) : X mmu_result :=
  let is_dirty := is_write && negb (bit_any pte PG_DIRTY_MASK) in
  pte ← (if negb (bit_any pte PG_ACCESSED_MASK) || is_dirty then
           let pte := Z.lor pte PG_ACCESSED_MASK in
           let pte := if is_dirty then Z.lor pte PG_DIRTY_MASK else pte in
           x86_stl_phys_notdirty pte_addr pte;; mret pte
         else mret pte);
  prot ← (if negb (bit_any pte PG_DIRTY_MASK)
          then assert_ (negb is_write);; mret (Z.land prot (Z.lnot PAGE_WRITE))
          else mret prot);
  do_mapping pte page_size prot.

Definition do_check_protect_pse36 (rsvd_mask pte pte_addr ptep page_size : Z) : X mmu_result :=
  if bit_any pte rsvd_mask then do_fault_rsvd 0
  else
    let ptep := Z.lxor ptep PG_NX_MASK in
    if is_user && negb (bit_any ptep PG_USER_MASK) then do_fault_protect 0
    else
      let prot := page_prot ptep in
      match pkru_prot pte ptep with
      | Some pkru_prot =>
          let prot := Z.land prot pkru_prot in
          if negb (bit_any pkru_prot need) then
            assert_ (negb (is_write1 =? 2));; do_fault_protect PG_ERROR_PK_MASK
          else if negb (bit_any prot need) then do_fault_protect 0
          else do_enter pte pte_addr page_size prot
      | None =>
          if negb (bit_any prot need) then do_fault_protect 0
          else do_enter pte pte_addr page_size prot
      end.

Definition do_check_protect (rsvd_mask pte pte_addr ptep page_size : Z) : X mmu_result :=
  do_check_protect_pse36
    (Z.lor rsvd_mask (Z.land (Z.land (page_size - 1) PG_ADDRESS_MASK) (Z.lnot PG_PSE_PAT_MASK)))
    pte pte_addr ptep page_size.

(** The address of a table entry, through nested paging; the result is kept in a
    [target_ulong]. *)
Definition entry_addr (a : Z) (k : Z -> X mmu_result) : X mmu_result :=
  get_hphys (u32 (Z.land a a20)) MMU_DATA_STORE None (fun a _ => k (u32 a)).

Definition walk_pae (rsvd_mask : Z) : X mmu_result :=
  entry_addr (Z.land cr3 0xFFFFFFE0 + Z.land (Z.shiftr addr 27) 0x18) (fun pdpe_addr =>
  pdpe ← x86_ldq_phys pdpe_addr;
  if negb (bit_any pdpe PG_PRESENT_MASK) then do_fault 0
  else
    let rsvd_mask := Z.lor rsvd_mask PG_HI_USER_MASK in
    if bit_any pdpe (Z.lor rsvd_mask PG_NX_MASK) then do_fault_rsvd 0
    else
      let ptep := Z.lor (Z.lor PG_NX_MASK PG_USER_MASK) PG_RW_MASK in
      entry_addr (Z.land pdpe PG_ADDRESS_MASK
                  + Z.shiftl (Z.land (Z.shiftr addr 21) 0x1ff) 3) (fun pde_addr =>
      pde ← x86_ldq_phys pde_addr;
      if negb (bit_any pde PG_PRESENT_MASK) then do_fault 0
      else if bit_any pde rsvd_mask then do_fault_rsvd 0
      else
        let ptep := Z.land ptep (Z.lxor pde PG_NX_MASK) in
        if bit_any pde PG_PSE_MASK then do_check_protect rsvd_mask pde pde_addr ptep 0x200000
        else
          pde ← touch pde_addr pde;
          entry_addr (Z.land pde PG_ADDRESS_MASK
                      + Z.shiftl (Z.land (Z.shiftr addr 12) 0x1ff) 3) (fun pte_addr =>
          pte ← x86_ldq_phys pte_addr;
          if negb (bit_any pte PG_PRESENT_MASK) then do_fault 0
          else if bit_any pte rsvd_mask then do_fault_rsvd 0
          else do_check_protect rsvd_mask pte pte_addr
                 (Z.land ptep (Z.lxor pte PG_NX_MASK)) 4096))).

Definition walk_2level : X mmu_result :=
  entry_addr (Z.land cr3 0xFFFFF000 + Z.land (Z.shiftr addr 20) 0xffc) (fun pde_addr =>
  pde ← x86_ldl_phys pde_addr;
  if negb (bit_any pde PG_PRESENT_MASK) then do_fault 0
  else
    let ptep := Z.lor pde PG_NX_MASK in
    if bit_any pde PG_PSE_MASK && bit_any cr4 CR4_PSE_MASK then
      do_check_protect_pse36 0x200000
        (Z.lor pde (Z.shiftl (Z.land pde 0x1fe000) (32 - 13))) pde_addr ptep 0x400000
    else
      pde ← touch pde_addr pde;
      entry_addr (Z.land pde 0xFFFFF000 + Z.land (Z.shiftr addr 10) 0xffc) (fun pte_addr =>
      pte ← x86_ldl_phys pte_addr;
      if negb (bit_any pte PG_PRESENT_MASK) then do_fault 0
      else do_check_protect 0 pte pte_addr (Z.land ptep (Z.lor pte PG_NX_MASK)) 4096)).

Definition x86_cpu_handle_mmu_fault : X mmu_result :=
  if negb (bit_any cr0 CR0_PG_MASK) then
    do_mapping addr 4096 (Z.lor (Z.lor PAGE_READ PAGE_WRITE) PAGE_EXEC)
  else
    let rsvd_mask := Z.lor PG_HI_RSVD_MASK
      (if bit_any (efer env) MSR_EFER_NXE then 0 else PG_NX_MASK) in
    if bit_any cr4 CR4_PAE_MASK then walk_pae rsvd_mask else walk_2level.
End translate.
End handler.

(** ** Table entries in memory *)

(** The bits of a little-endian word are those of its bytes. *)
Lemma ld_phys_S n m a : ld_phys (S n) m a = Z.lor (u8 (m a)) (Z.shiftl (ld_phys n m (a + 1)) 8).
Proof.
  unfold ld_phys, le_val. cbn [seq map little_endian_to_Z]. rewrite Z.add_0_r. f_equal. f_equal. f_equal.
  rewrite <- seq_shift, map_map. apply map_ext. intros i. do 2 f_equal. lia.
Qed.

Lemma ld_phys_bit n m a j :
  0 <= j < Z.of_nat n * 8 -> Z.testbit (ld_phys n m a) j = Z.testbit (m (a + j / 8)) (j mod 8).
Proof.
  revert a j. induction n as [|n IH]; intros a j Hj; [lia|].
  rewrite ld_phys_S, Z.lor_spec, testbit_shiftl, testbit_wrap by lia.
  destruct (Z.ltb_spec j 8).
  - rewrite (Z.testbit_neg_r _ (j - 8)), andb_false_r, orb_false_r by lia.
    rewrite Z.div_small, Z.mod_small, Z.add_0_r by lia. done.
  - rewrite IH by lia. destruct (Z.leb_spec 0 j); [|lia]. cbn.
    replace j with (j - 8 + 1 * 8) at 3 4 by lia.
    rewrite Z.div_add, Z.mod_add by lia. f_equal. f_equal. lia.
Qed.

(** Two entries that differ in the accessed and dirty bits only, and two memories that
    differ in these bits of aligned entries only. *)
Definition same_entry (e e' : Z) : Prop := forall j, j <> 5 -> j <> 6 -> Z.testbit e' j = Z.testbit e j.

Definition touched (w : nat) (m m' : memory) : Prop := forall x j,
  0 <= j < 8 -> ~ (x mod Z.of_nat w = 0 /\ (j = 5 \/ j = 6)) -> Z.testbit (m' x) j = Z.testbit (m x) j.

#[export] Instance touched_equiv w : Equivalence (touched w).
Proof.
  split.
  - by intros m x j.
  - intros m m' H x j Hj Hn. symmetry. by apply H.
  - intros m1 m2 m3 H1 H2 x j Hj Hn. by rewrite (H2 x j), (H1 x j).
Qed.

#[export] Instance same_entry_equiv : Equivalence same_entry.
Proof.
  split.
  - by intros e j.
  - intros e e' H j H5 H6. symmetry. by apply H.
  - intros e1 e2 e3 H1 H2 j H5 H6. by rewrite (H2 j), (H1 j).
Qed.

Lemma touched_entry w m m' a :
  (0 < w)%nat -> touched w m m' -> a mod Z.of_nat w = 0 -> same_entry (ld_phys w m a) (ld_phys w m' a).
Proof.
  intros Hw H Ha j H5 H6. destruct (Z.lt_ge_cases j 0); [by rewrite !Z.testbit_neg_r|].
  destruct (Z.lt_ge_cases j (Z.of_nat w * 8)).
  - rewrite !ld_phys_bit by lia. apply H; [apply Z.mod_pos_bound; lia|]. intros [Hm Hj].
    assert (Hq : 0 <= j / 8 < Z.of_nat w) by (split; [apply Z.div_pos|apply Z.div_lt_upper_bound]; lia).
    apply Z.mod_divide in Ha as [q ->]; [|lia].
    rewrite Z.add_comm, Z.mod_add, Z.mod_small in Hm by lia.
    pose proof (Z.div_mod j 8). lia.
  - by rewrite !(testbit_above (Z.of_nat w * 8) _ j (ld_phys_range _ _ _)) by lia.
Qed.

(** A mask that leaves the two bits out sees no difference. *)
Lemma same_entry_land e e' k :
  same_entry e e' -> Z.land k 0x60 = 0 -> Z.land e' k = Z.land e k.
Proof.
  intros H Hk. apply Z.bits_inj'. intros j Hj. rewrite !Z.land_spec.
  assert (Hb : forall i, Z.testbit 0x60 i = true -> Z.testbit k i = false).
  { intros i Hi. pose proof (Z.land_spec k 0x60 i) as E. rewrite Hk, Z.bits_0, Hi, andb_true_r in E. done. }
  destruct (decide (j = 5)) as [->|]; [by rewrite (Hb 5), !andb_false_r|].
  destruct (decide (j = 6)) as [->|]; [by rewrite (Hb 6), !andb_false_r|].
  by rewrite H.
Qed.

Lemma same_entry_any e e' k :
  same_entry e e' -> Z.land k 0x60 = 0 -> bit_any e' k = bit_any e k.
Proof. intros H Hk. unfold bit_any. by rewrite (same_entry_land e e'). Qed.

#[export] Instance same_entry_land_proper : Proper (same_entry ==> same_entry ==> same_entry) Z.land.
Proof. intros a a' Ha b b' Hb j H5 H6. by rewrite !Z.land_spec, (Ha j), (Hb j). Qed.
#[export] Instance same_entry_lor_proper : Proper (same_entry ==> same_entry ==> same_entry) Z.lor.
Proof. intros a a' Ha b b' Hb j H5 H6. by rewrite !Z.lor_spec, (Ha j), (Hb j). Qed.
#[export] Instance same_entry_lxor_proper : Proper (same_entry ==> same_entry ==> same_entry) Z.lxor.
Proof. intros a a' Ha b b' Hb j H5 H6. by rewrite !Z.lxor_spec, (Ha j), (Hb j). Qed.

Lemma same_entry_lor e k : Z.ldiff k 0x60 = 0 -> 0 <= k -> same_entry e (Z.lor e k).
Proof.
  intros Hk Hp j H5 H6. rewrite Z.lor_spec.
  pose proof (Z.ldiff_spec k 0x60 j) as E. rewrite Hk, Z.bits_0 in E.
  replace (Z.testbit 0x60 j) with false in E; [by rewrite andb_true_r in E; rewrite <- E, orb_false_r|].
  destruct (Z.lt_ge_cases j 0); [by rewrite Z.testbit_neg_r|].
  destruct (Z.lt_ge_cases j 7); [|by rewrite (testbit_above 7) by lia].
  assert (Hj : 0 <= j < Z.of_nat 7) by lia. by below_cases 7%nat Hj.
Qed.

(** A store of an entry with one of the bits set, in place of the entry. *)
Lemma touched_put32 w m a e :
  (4 <= w)%nat -> a mod Z.of_nat w = 0 ->
  (forall j, 0 <= j < 32 -> j <> 5 -> j <> 6 -> Z.testbit e j = Z.testbit (ld_phys w m a) j) ->
  touched w m (put32 a (u32 e) m).
Proof.
  intros Hw Ha He x j Hj Hn. unfold put32.
  destruct (Z.leb_spec a x) as [Hax|]; [|done]. destruct (Z.ltb_spec x (a + 4)) as [Hx|]; [|done].
  cbn [andb]. rewrite testbit_shiftr, testbit_wrap by lia.
  destruct (Z.leb_spec 0 j); [|lia]. destruct (Z.ltb_spec (j + 8 * (x - a)) 32); [|lia].
  cbn [andb]. rewrite He.
  - rewrite ld_phys_bit by lia. replace (j + 8 * (x - a)) with (j + (x - a) * 8) by lia.
    rewrite Z.div_add, Z.mod_add, Z.div_small, Z.mod_small by lia. f_equal. f_equal. lia.
  - lia.
  - intros E. apply Hn. split; [|lia]. replace x with a by lia. done.
  - intros E. apply Hn. split; [|lia]. replace x with a by lia. done.
Qed.

Lemma put32_bit n m a v j :
  (4 <= n)%nat -> 0 <= j < 32 -> Z.testbit (ld_phys n (put32 a (u32 v) m) a) j = Z.testbit v j.
Proof.
  intros Hn Hj. rewrite ld_phys_bit by lia. unfold put32.
  pose proof (Z.div_mod j 8). pose proof (Z.mod_pos_bound j 8).
  destruct (Z.leb_spec a (a + j / 8)); [|lia]. destruct (Z.ltb_spec (a + j / 8) (a + 4)); [|lia].
  cbn [andb]. rewrite testbit_shiftr, testbit_wrap by lia.
  destruct (Z.leb_spec 0 (j mod 8)); [|lia].
  replace (j mod 8 + 8 * (a + j / 8 - a)) with j by lia. by destruct (Z.ltb_spec j 32); [|lia].
Qed.

(** Addresses of entries are aligned. *)
Lemma land_aligned k x m : 0 <= k -> Z.land m (Z.ones k) = 0 -> Z.land x m mod 2 ^ k = 0.
Proof. intros Hk Hm. rewrite <- Z.land_ones, <- Z.land_assoc, Hm by done. apply Z.land_0_r. Qed.

Lemma shiftl_aligned k x : 0 <= k -> Z.shiftl x k mod 2 ^ k = 0.
Proof. intros Hk. rewrite Z.shiftl_mul_pow2 by done. apply Z.mod_mul. lia. Qed.

Lemma entry_aligned k x y :
  0 <= k <= 32 -> x mod 2 ^ k = 0 -> y mod 2 ^ k = 0 -> u32 (x + y) mod 2 ^ k = 0.
Proof.
  intros Hk Hx Hy. unfold wrap. rewrite <- Z.land_ones, <- (Z.land_ones _ 32), <- Z.land_assoc by lia.
  replace (Z.land (Z.ones 32) (Z.ones k)) with (Z.ones k).
  - rewrite Z.land_ones, Z.add_mod, Hx, Hy by lia. done.
  - bits.
Qed.

(** ** What the page tables grant

    The reference: the page and the protection that the tables give for an address in a mode,
    as a function of the registers and of memory. *)

(** The entry of a page: whether an entry on the way to it has reserved bits, its own reserved
    bits, the permissions that all the levels grant, and the size of the page. *)
Record leaf := mk_leaf {
  lf_bad : bool; lf_rsvd : Z; lf_pte : Z; lf_ptep : Z; lf_size : Z
}.

Section rights.
Context (env : mmu_regs) (mmu_idx addr : Z).

(** The bits of an entry that must be 0 when it maps a page of the size. *)
Definition size_rsvd (page_size : Z) : Z :=
  Z.land (Z.land (page_size - 1) PG_ADDRESS_MASK) (Z.lnot PG_PSE_PAT_MASK).

Definition table_walk (m : memory) : option leaf :=
  if bit_any (cr4 (regs env)) CR4_PAE_MASK then
    let rsvd := Z.lor (Z.lor PG_HI_RSVD_MASK
      (if bit_any (efer env) MSR_EFER_NXE then 0 else PG_NX_MASK)) PG_HI_USER_MASK in
    let pdpe := ldq_phys m (u32 (Z.land (cr3 (regs env)) 0xFFFFFFE0 + Z.land (Z.shiftr addr 27) 0x18)) in
    if negb (bit_any pdpe PG_PRESENT_MASK) then None
    else
      let bad := bit_any pdpe (Z.lor rsvd PG_NX_MASK) in
      let pde := ldq_phys m (u32 (Z.land pdpe PG_ADDRESS_MASK
                   + Z.shiftl (Z.land (Z.shiftr addr 21) 0x1ff) 3)) in
      if negb (bit_any pde PG_PRESENT_MASK) then None
      else
        let bad := bad || bit_any pde rsvd in
        let ptep := Z.land (Z.lor (Z.lor PG_NX_MASK PG_USER_MASK) PG_RW_MASK) (Z.lxor pde PG_NX_MASK) in
        if bit_any pde PG_PSE_MASK
        then Some (mk_leaf bad (Z.lor rsvd (size_rsvd 0x200000)) pde ptep 0x200000)
        else
          let pte := ldq_phys m (u32 (Z.land pde PG_ADDRESS_MASK
                       + Z.shiftl (Z.land (Z.shiftr addr 12) 0x1ff) 3)) in
          if negb (bit_any pte PG_PRESENT_MASK) then None
          else Some (mk_leaf (bad || bit_any pte rsvd) (Z.lor rsvd (size_rsvd 4096)) pte
                       (Z.land ptep (Z.lxor pte PG_NX_MASK)) 4096)
  else
    let pde := ldl_phys m (u32 (Z.land (cr3 (regs env)) 0xFFFFF000 + Z.land (Z.shiftr addr 20) 0xffc)) in
    if negb (bit_any pde PG_PRESENT_MASK) then None
    else
      let ptep := Z.lor pde PG_NX_MASK in
      if bit_any pde PG_PSE_MASK && bit_any (cr4 (regs env)) CR4_PSE_MASK
      then Some (mk_leaf false 0x200000 (Z.lor pde (Z.shiftl (Z.land pde 0x1fe000) 19)) ptep 0x400000)
      else
        let pte := ldl_phys m (u32 (Z.land pde 0xFFFFF000 + Z.land (Z.shiftr addr 10) 0xffc)) in
        if negb (bit_any pte PG_PRESENT_MASK) then None
        else Some (mk_leaf false (Z.lor 0 (size_rsvd 4096)) pte (Z.land ptep (Z.lor pte PG_NX_MASK)) 4096).

(** The protection of a page, from its entry and the permissions of the levels. *)
Definition leaf_prot (rsvd pte ptep : Z) : option Z :=
  if bit_any pte rsvd then None
  else
    let ptep := Z.lxor ptep PG_NX_MASK in
    if (mmu_idx =? MMU_USER_IDX) && negb (bit_any ptep PG_USER_MASK) then None
    else Some (match pkru_prot env mmu_idx pte ptep with
               | Some p => Z.land (page_prot env mmu_idx ptep) p
               | None => page_prot env mmu_idx ptep
               end).

Definition leaf_rights (l : leaf) : option (Z * Z) :=
  if lf_bad l then None
  else pair (page_of (lf_pte l) (lf_size l) addr) <$> leaf_prot (lf_rsvd l) (lf_pte l) (lf_ptep l).

Definition x86_rights (m : memory) : option (Z * Z) :=
  if negb (bit_any (cr0 (regs env)) CR0_PG_MASK)
  then Some (page_of addr 4096 addr, Z.lor (Z.lor PAGE_READ PAGE_WRITE) PAGE_EXEC)
  else table_walk m ≫= leaf_rights.

(** ** The accessed and dirty bits do not matter *)

(** The width of an entry, in bytes. *)
Definition entry_size : nat := if bit_any (cr4 (regs env)) CR4_PAE_MASK then 8 else 4.

Definition leaf_ok (l : leaf) : Prop :=
  Z.land (lf_rsvd l) 0x60 = 0 /\ exists k, 12 <= k <= 22 /\ lf_size l = 2 ^ k.

Definition same_leaf (l l' : leaf) : Prop :=
  lf_bad l' = lf_bad l /\ lf_rsvd l' = lf_rsvd l /\ lf_size l' = lf_size l
  /\ same_entry (lf_pte l) (lf_pte l') /\ same_entry (lf_ptep l) (lf_ptep l').

Lemma table_walk_ok m l : table_walk m = Some l -> leaf_ok l.
Proof.
  unfold table_walk. set (rsvd := Z.lor (Z.lor _ _) PG_HI_USER_MASK).
  assert (Hr : Z.land rsvd 0x60 = 0) by (subst rsvd; by case_match).
  intros H. repeat (case_match; try discriminate H); injection H as <-; unfold leaf_ok; cbn [lf_rsvd lf_size];
    rewrite ?Z.land_lor_distr_l, ?Hr; (split; [reflexivity|]);
    [by exists 21|by exists 12|by exists 22|by exists 12].
Qed.

Lemma table_walk_touched m m' :
  touched entry_size m m' -> option_Forall2 same_leaf (table_walk m) (table_walk m').
Proof.
  intros Ht. unfold table_walk, entry_size in *. set (rsvd := Z.lor (Z.lor _ _) PG_HI_USER_MASK).
  assert (Hr : Z.land rsvd 0x60 = 0) by (subst rsvd; by destruct (bit_any (efer env) MSR_EFER_NXE)).
  destruct (bit_any (cr4 _) CR4_PAE_MASK).
  - set (p := u32 (Z.land (cr3 _) _ + _)).
    assert (Hp : p mod 2 ^ 3 = 0) by (apply entry_aligned; [lia|by apply land_aligned..]).
    pose proof (touched_entry 8 m m' p ltac:(lia) Ht Hp) as Sp.
    rewrite (same_entry_any _ _ PG_PRESENT_MASK Sp), (same_entry_land _ _ PG_ADDRESS_MASK Sp) by done.
    rewrite (same_entry_any _ _ (Z.lor rsvd PG_NX_MASK) Sp) by (by rewrite Z.land_lor_distr_l, Hr).
    case_match; [constructor|]. set (a := u32 (Z.land (ldq_phys m p) _ + _)).
    assert (Ha : a mod 2 ^ 3 = 0)
      by (apply entry_aligned; [lia|by apply land_aligned|by apply shiftl_aligned]).
    pose proof (touched_entry 8 m m' a ltac:(lia) Ht Ha) as Sa.
    rewrite !(same_entry_any _ _ _ Sa), (same_entry_land _ _ PG_ADDRESS_MASK Sa) by done.
    case_match; [constructor|]. case_match.
    { constructor. split_and!; [done..| |]; cbn [lf_pte lf_ptep]; [done|]. by do 2 f_equiv. }
    set (b := u32 (Z.land (ldq_phys m a) _ + _)).
    assert (Hb : b mod 2 ^ 3 = 0)
      by (apply entry_aligned; [lia|by apply land_aligned|by apply shiftl_aligned]).
    pose proof (touched_entry 8 m m' b ltac:(lia) Ht Hb) as Sb.
    rewrite !(same_entry_any _ _ _ Sb) by done. case_match; constructor.
    split_and!; [done..| |]; cbn [lf_pte lf_ptep]; [done|].
    repeat (done || f_equiv).
  - set (a := u32 (Z.land (cr3 _) _ + _)).
    assert (Ha : a mod 2 ^ 2 = 0) by (apply entry_aligned; [lia|by apply land_aligned..]).
    pose proof (touched_entry 4 m m' a ltac:(lia) Ht Ha) as Sa.
    rewrite !(same_entry_any _ _ _ Sa), (same_entry_land _ _ 0xFFFFF000 Sa) by done.
    case_match; [constructor|]. case_match.
    { constructor. rewrite (same_entry_land _ _ 0x1fe000 Sa) by done.
      split_and!; [done..| |]; cbn [lf_pte lf_ptep]; by f_equiv. }
    set (b := u32 (Z.land (ldl_phys m a) _ + _)).
    assert (Hb : b mod 2 ^ 2 = 0) by (apply entry_aligned; [lia|by apply land_aligned..]).
    pose proof (touched_entry 4 m m' b ltac:(lia) Ht Hb) as Sb.
    rewrite (same_entry_any _ _ _ Sb) by done. case_match; constructor.
    split_and!; [done..| |]; cbn [lf_pte lf_ptep]; [done|].
    repeat (done || f_equiv).
Qed.

(** A page has the same address and the same protection. *)
Lemma leaf_page_same l l' :
  leaf_ok l -> same_leaf l l' -> page_of (lf_pte l') (lf_size l') addr = page_of (lf_pte l) (lf_size l) addr.
Proof.
  intros (_ & k & Hk & Ek) (_ & _ & -> & Hp & _). unfold page_of. rewrite Ek.
  rewrite (same_entry_land _ _ _ Hp); [done|]. replace (2 ^ k - 1) with (Z.ones k) by (rewrite Z.ones_equiv; lia).
  unfold PG_ADDRESS_MASK. mask_fields. change 0x60 with (Z.shiftl (Z.ones 2) 5). bits.
Qed.

Lemma leaf_prot_same rsvd pte pte' ptep ptep' :
  Z.land rsvd 0x60 = 0 -> same_entry pte pte' -> same_entry ptep ptep' ->
  leaf_prot rsvd pte' ptep' = leaf_prot rsvd pte ptep.
Proof.
  intros Hr Hp Hpp. unfold leaf_prot, page_prot, pkru_prot.
  assert (Hx : same_entry (Z.lxor ptep PG_NX_MASK) (Z.lxor ptep' PG_NX_MASK)) by (by f_equiv).
  rewrite (same_entry_any _ _ _ Hp), (same_entry_land _ _ PG_PKRU_MASK Hp), !(same_entry_any _ _ _ Hx) by done.
  done.
Qed.

Lemma rights_touched m m' : touched entry_size m m' -> x86_rights m' = x86_rights m.
Proof.
  intros Ht. unfold x86_rights. case_match; [done|].
  pose proof (table_walk_touched m m' Ht) as Hw. inversion Hw as [l l' Hs El El'|]; [|done].
  cbn [mbind option_bind]. symmetry in El. pose proof (table_walk_ok _ _ El) as Hok.
  unfold leaf_rights. rewrite (leaf_page_same l l') by done. destruct Hs as (-> & -> & _ & Hp & Hpp).
  by rewrite (leaf_prot_same _ (lf_pte l) _ (lf_ptep l)) by (done || apply Hok).
Qed.

(** The debug walk finds the same entry; it does not look at the protection. *)
Lemma table_walk_debug m :
  x86_get_a20_mask (regs env) = -1 -> bit_any (cr0 (regs env)) CR0_PG_MASK = true ->
  x86_cpu_get_phys_page_debug (regs env) m addr
  = (fun l => page_of (lf_pte l) (lf_size l) addr) <$> table_walk m.
Proof.
  intros Ha20 Hpg. unfold x86_cpu_get_phys_page_debug, table_walk.
  rewrite Hpg, Ha20, !land_m1. cbn [negb]. by repeat case_match.
Qed.

Lemma rights_debug m page q :
  x86_get_a20_mask (regs env) = -1 -> x86_rights m = Some (page, q) ->
  x86_cpu_get_phys_page_debug (regs env) m addr = Some page.
Proof.
  intros Ha20. unfold x86_rights. destruct (bit_any (cr0 _) CR0_PG_MASK) eqn:Hpg; cbn [negb].
  - rewrite table_walk_debug by done. destruct (table_walk m) as [l|]; [|done].
    cbn [mbind option_bind]. unfold leaf_rights. case_match; [done|].
    intros (q' & _ & E)%fmap_Some. by injection E as -> _.
  - intros [= <- _]. unfold x86_cpu_get_phys_page_debug. by rewrite Hpg, Ha20, land_m1.
Qed.

(** The debug walk does not see the accessed and dirty bits. *)
Lemma debug_touched m m' :
  x86_get_a20_mask (regs env) = -1 -> touched entry_size m m' ->
  x86_cpu_get_phys_page_debug (regs env) m' addr = x86_cpu_get_phys_page_debug (regs env) m addr.
Proof.
  intros Ha20 Ht. destruct (bit_any (cr0 (regs env)) CR0_PG_MASK) eqn:Hpg.
  - rewrite !table_walk_debug by done. pose proof (table_walk_touched m m' Ht) as Hw.
    inversion Hw as [l l' Hs El El'|]; [|done]. symmetry in El.
    cbn. f_equal. apply leaf_page_same; [|done]. by eapply table_walk_ok.
  - unfold x86_cpu_get_phys_page_debug. by rewrite Hpg.
Qed.
End rights.

(** ** What the translation does *)

Section spec.
Context (env : mmu_regs) (addr is_write1 mmu_idx : Z).
Context (Hnpt : bit_any (hflags2 env) HF2_NPT_MASK = false).
Context (Ha20 : x86_get_a20_mask (regs env) = -1).
Context (Haddr : 0 <= addr < 2 ^ 32) (Hw : 0 <= is_write1 <= 2).

Abbreviation need := (Z.shiftl 1 is_write1).
Abbreviation width := (entry_size env).

Lemma get_hphys_off gphys acc prot k s : get_hphys env gphys acc prot k s = k gphys prot s.
Proof. unfold get_hphys. by rewrite Hnpt. Qed.

Lemma entry_addr_off a k s : entry_addr env a k s = k (u32 a) s.
Proof. unfold entry_addr. by rewrite get_hphys_off, Ha20, land_m1, wrap_wrap. Qed.

(** The state after a fault with the error code [error]. *)
Definition fault_error (error : Z) : Z :=
  let error := Z.lor error (Z.shiftl (Z.b2z (bit_any is_write1 1)) PG_ERROR_W_BIT) in
  let error := if mmu_idx =? MMU_USER_IDX then Z.lor error PG_ERROR_U_MASK else error in
  if (is_write1 =? 2) && ((bit_any (efer env) MSR_EFER_NXE && bit_any (cr4 (regs env)) CR4_PAE_MASK)
                          || bit_any (cr4 (regs env)) CR4_SMEP_MASK)
  then Z.lor error PG_ERROR_I_D_MASK else error.

Definition faulted (error : Z) (s s' : mmu_state) : Prop :=
  Z.land error 0x16 = 0 /\ tlb s' = tlb s /\ error_code s' = fault_error error /\ exception_index s' = EXCP0E_PAGE /\
  (bit_any (intercept_exceptions env) (Z.shiftl 1 EXCP0E_PAGE) = false ->
   cr2 s' = addr /\ mem s' = mem s).

Lemma do_fault_run error s :
  Z.land error 0x16 = 0 ->
  exists s', do_fault env addr is_write1 mmu_idx error s = Done (Returned 1, s') /\ faulted error s s'.
Proof.
  intros He. unfold do_fault, faulted. destruct (bit_any (intercept_exceptions env) _) eqn:E;
    (eexists; split; [reflexivity|]); cbn; split_and!; try done.
  intros _. split; [apply wrap_small, Haddr|done].
Qed.

(** The page of the TLB for an entry. *)
Definition page_address (pte page_size : Z) : Z :=
  Z.land (Z.land pte (Z.land PG_ADDRESS_MASK (Z.lnot (page_size - 1)))
          + u32 (Z.land addr (page_size - 1))) TARGET_PAGE_MASK.

Definition entered (pte page_size q : Z) (s s' : mmu_state) : Prop :=
  exists prot, bit_any prot need = true /\ prot_le prot q /\
  tlb s' = mk_tlb_page (Z.land addr TARGET_PAGE_MASK) (page_address pte page_size) prot mmu_idx page_size :: tlb s.

Lemma do_mapping_run pte page_size prot s :
  bit_any prot need = true ->
  exists s', do_mapping env addr is_write1 mmu_idx pte page_size prot s = Done (Returned 0, s') /\
    mem s' = mem s /\ entered pte page_size prot s s'.
Proof.
  intros Hp. unfold do_mapping. rewrite get_hphys_off, Ha20, land_m1.
  rewrite (access_bind _ prot) by done. unfold assert_. rewrite Hp.
  eexists. split; [reflexivity|]. split; [done|]. exists prot. split; [done|].
  split; [apply Z.land_diag|]. cbn. repeat f_equal.
  apply wrap_small. replace TARGET_PAGE_MASK with (Z.lnot (Z.ones 12)) by done.
  rewrite <- Z.ldiff_land, Z.ldiff_ones_r, Z.shiftl_mul_pow2, Z.shiftr_div_pow2 by lia.
  pose proof (Z.div_mod addr (2 ^ 12)). pose proof (Z.mod_pos_bound addr (2 ^ 12)). lia.
Qed.

(** Clearing the write permission does not take away what a load or fetch needs. *)
Lemma need_not_write prot :
  bit_any is_write1 1 = false -> bit_any prot need = true ->
  bit_any (Z.land prot (Z.lnot PAGE_WRITE)) need = true.
Proof.
  intros Hn. unfold bit_any. rewrite <- Z.land_assoc.
  assert (is_write1 = 0 \/ is_write1 = 1 \/ is_write1 = 2) as [E|[E|E]] by lia;
    rewrite E in *; by try discriminate Hn.
Qed.

(** The entry of the page, with the bits that the access sets, is in memory. *)
Lemma do_enter_run w pte pte_addr page_size prot s :
  (4 <= w)%nat -> pte_addr mod Z.of_nat w = 0 ->
  (forall j, 0 <= j < 32 -> Z.testbit (ld_phys w (mem s) pte_addr) j = Z.testbit pte j) ->
  bit_any prot need = true ->
  exists s' pte', do_enter env addr is_write1 mmu_idx pte pte_addr page_size prot s = Done (Returned 0, s') /\
    touched w (mem s) (mem s') /\ same_entry pte pte' /\ entered pte' page_size prot s s' /\
    (is_write1 = 1 -> Z.testbit (ld_phys w (mem s') pte_addr) 6 = true).
Proof.
  intros Hw4 Hal Hpte Hp. unfold do_enter.
  set (wr := bit_any is_write1 1). set (dirty := wr && negb (bit_any pte PG_DIRTY_MASK)).
  set (b := negb (bit_any pte PG_ACCESSED_MASK) || dirty).
  set (k := if b then if dirty then 0x60 else 0x20 else 0).
  set (s1 := if b then set_mem (put32 pte_addr (u32 (Z.lor pte k))) s else s).
  assert (Hsame : same_entry pte (Z.lor pte k)) by (apply same_entry_lor; subst k; by destruct b, dirty).
  assert (Hdirty : wr = true -> bit_any (Z.lor pte k) PG_DIRTY_MASK = true).
  { intros Hwr. change PG_DIRTY_MASK with (Z.shiftl 1 6). rewrite bit_any_pow2, Z.lor_spec by lia.
    rewrite <- bit_any_pow2 by lia. subst k b dirty. rewrite Hwr.
    change (Z.shiftl 1 6) with PG_DIRTY_MASK. destruct (bit_any pte PG_DIRTY_MASK); [done|].
    cbn [negb andb orb]. by rewrite orb_true_r. }
  erewrite (bind_step _ _ _ (Z.lor pte k) s1).
  2: { subst s1 k. destruct b; [|by rewrite Z.lor_0_r].
       destruct dirty; [rewrite <- (Z.lor_assoc pte)|]; done. }
  assert (Hmem : touched w (mem s) (mem s1)).
  { subst s1. destruct b; [|done]. apply touched_put32; [done..|]. intros j Hj H5 H6.
    by rewrite (Hsame j H5 H6), Hpte. }
  assert (Hin : forall j, 0 <= j < 32 -> Z.testbit (ld_phys w (mem s1) pte_addr) j = Z.testbit (Z.lor pte k) j).
  { intros j Hj. subst s1 k. destruct b; [by apply put32_bit|]. rewrite Z.lor_0_r. by apply Hpte. }
  assert (Htlb : tlb s1 = tlb s) by (subst s1; by destruct b).
  set (prot' := if bit_any (Z.lor pte k) PG_DIRTY_MASK then prot else Z.land prot (Z.lnot PAGE_WRITE)).
  erewrite (bind_step _ _ _ prot' s1).
  2: { subst prot'. destruct (bit_any (Z.lor pte k) PG_DIRTY_MASK) eqn:E; [done|].
       unfold assert_. destruct wr; [discriminate (Hdirty eq_refl)|done]. }
  destruct (do_mapping_run (Z.lor pte k) page_size prot' s1) as (s' & Hrun & Hm' & prot1 & Hp1 & Hle & Ht).
  { subst prot'. destruct (bit_any (Z.lor pte k) PG_DIRTY_MASK) eqn:E; [done|].
    apply need_not_write; [|done]. destruct (bit_any is_write1 1) eqn:Ewr; [|done].
    discriminate (Hdirty eq_refl). }
  exists s', (Z.lor pte k). rewrite Hm'. split_and!; [done..| |].
  - exists prot1. split_and!; [done| |by rewrite Ht, Htlb]. eapply prot_le_trans; [exact Hle|].
    subst prot'. case_match; unfold prot_le; [apply Z.land_diag|].
    by rewrite <- Z.land_assoc, (Z.land_comm _ prot), Z.land_assoc, Z.land_diag.
  - intros Hone. rewrite Hin, <- bit_any_pow2 by lia. apply Hdirty. subst wr. by rewrite Hone.
Qed.

(** Whether a protection grants the access. *)
Definition grants (o : option Z) : bool :=
  match o with Some q => bit_any q need | None => false end.

(** What the end of the walk does with the entry [pte] of a page of protection [o]. *)
Inductive outcome_of (w : nat) (o : option Z) (pte pte_addr page_size : Z) (s : mmu_state) :
    Z -> mmu_state -> Prop :=
  | refused e s' :
      Z.testbit e 0 = true -> faulted e s s' -> grants o = false ->
      outcome_of w o pte pte_addr page_size s 1 s'
  | granted q pte' s' :
      touched w (mem s) (mem s') -> same_entry pte pte' -> entered pte' page_size q s s' -> o = Some q ->
      (is_write1 = 1 -> Z.testbit (ld_phys w (mem s') pte_addr) 6 = true) ->
      outcome_of w o pte pte_addr page_size s 0 s'.

Lemma refused_run w o pte pte_addr page_size e s :
  Z.testbit e 0 = true -> Z.land e 0x16 = 0 -> grants o = false ->
  exists r s', do_fault env addr is_write1 mmu_idx e s = Done (Returned r, s') /\
    outcome_of w o pte pte_addr page_size s r s'.
Proof.
  intros He Hb Ho. destruct (do_fault_run e s Hb) as (s' & Hrun & Hf). exists 1, s'. split; [done|].
  by apply (refused _ _ _ _ _ _ e).
Qed.

(** A protection key does not forbid to fetch. *)
Lemma pkru_fetch pte ptep p :
  pkru_prot env mmu_idx pte ptep = Some p -> bit_any p need = false -> (is_write1 =? 2) = false.
Proof.
  unfold pkru_prot. intros Hp Hn. destruct (Z.eqb_spec is_write1 2) as [E|]; [|done].
  rewrite E in Hn. by repeat case_match; simplify_eq.
Qed.

Lemma check_run w rsvd_mask pte pte_addr ptep page_size s :
  (4 <= w)%nat -> pte_addr mod Z.of_nat w = 0 ->
  (forall j, 0 <= j < 32 -> Z.testbit (ld_phys w (mem s) pte_addr) j = Z.testbit pte j) ->
  exists r s',
    do_check_protect_pse36 env addr is_write1 mmu_idx rsvd_mask pte pte_addr ptep page_size s
      = Done (Returned r, s') /\
    outcome_of w (leaf_prot env mmu_idx rsvd_mask pte ptep) pte pte_addr page_size s r s'.
Proof.
  intros Hw4 Hal Hpte. unfold do_check_protect_pse36, do_fault_rsvd, do_fault_protect, leaf_prot.
  assert (Hgo : forall prot, bit_any prot need = true -> exists r s',
    do_enter env addr is_write1 mmu_idx pte pte_addr page_size prot s = Done (Returned r, s') /\
    outcome_of w (Some prot) pte pte_addr page_size s r s').
  { intros prot Hp.
    destruct (do_enter_run w pte pte_addr page_size prot s) as (s' & pte' & Hrun & ? & ? & ? & ?);
      [done..|]. exists 0, s'. split; [done|]. by apply (granted _ _ _ _ _ _ prot pte'). }
  case_match; [by apply refused_run|]. case_match; [by apply refused_run|].
  destruct (pkru_prot _ _ _ _) as [p|] eqn:Hk.
  - destruct (bit_any p need) eqn:Hpn; cbn [negb].
    + destruct (bit_any (Z.land _ p) need) eqn:Hn; cbn [negb]; [by apply Hgo|by apply refused_run].
    + rewrite (pkru_fetch _ _ _ Hk Hpn). apply refused_run; [done..|]. cbn [grants].
      apply not_true_is_false. intros Hn. eapply bit_any_sub in Hn; [by rewrite Hpn in Hn|].
      unfold prot_le. by rewrite <- Z.land_assoc, Z.land_diag.
  - destruct (bit_any (page_prot _ _ _) need) eqn:Hn; cbn [negb]; [by apply Hgo|by apply refused_run].
Qed.

(** The accessed bit of a directory entry. *)
Lemma touch_run w a s :
  (4 <= w)%nat -> a mod Z.of_nat w = 0 ->
  exists e s', touch a (ld_phys w (mem s) a) s = Done (e, s') /\ touched w (mem s) (mem s') /\
    same_entry (ld_phys w (mem s) a) e /\ tlb s' = tlb s.
Proof.
  intros Hw4 Hal. unfold touch. case_match.
  - by exists (ld_phys w (mem s) a), s.
  - assert (Hs : same_entry (ld_phys w (mem s) a) (Z.lor (ld_phys w (mem s) a) PG_ACCESSED_MASK))
      by (by apply same_entry_lor).
    eexists _, _. split; [reflexivity|]. split_and!; [|done|done].
    apply touched_put32; [done..|]. intros j _. apply Hs.
Qed.

(** The page of an entry is the one of QEMU's debug walk. *)
Lemma page_address_of pte pte' k :
  12 <= k <= 22 -> same_entry pte pte' -> page_address pte' (2 ^ k) = page_of pte (2 ^ k) addr.
Proof.
  intros Hk Hs. unfold page_address, page_of.
  replace (2 ^ k - 1) with (Z.ones k) by (rewrite Z.ones_equiv; lia).
  rewrite (same_entry_land pte pte').
  2: done.
  2: { unfold PG_ADDRESS_MASK. mask_fields. change 0x60 with (Z.shiftl (Z.ones 2) 5). bits. }
  rewrite <- lor_add.
  - unfold PG_ADDRESS_MASK, TARGET_PAGE_MASK. mask_fields. bits.
  - unfold PG_ADDRESS_MASK. mask_fields. bits.
Qed.

(** The walk of the tracer finds the dirty bit. *)
Definition tracer_dirty (m : memory) : Prop :=
  bit_any (cr4 (regs env)) CR4_PAE_MASK = false ->
  forall ci, Z.testbit (qem_get_phys_addr_mem_tracing (regs env) m ci addr).2 6 = true.

Abbreviation debug m := (x86_cpu_get_phys_page_debug (regs env) m addr).

Abbreviation walk m := (table_walk env addr m).
Abbreviation rights m := (x86_rights env mmu_idx addr m).

(** The translation, from the state [s]: a page fault, or the page that the tables grant. *)
Inductive translated (s : mmu_state) : Z -> mmu_state -> Prop :=
  | page_fault e s1 s' :
      tlb s1 = tlb s -> touched width (mem s) (mem s1) -> faulted e s1 s' ->
      grants (snd <$> rights (mem s)) = false ->
      (Z.testbit e 0 = false -> debug (mem s) = None) ->
      (debug (mem s) = None -> Z.testbit e 0 = false \/ Z.testbit e 3 = true) ->
      translated s 1 s'
  | page_entered page prot q k s' :
      touched width (mem s) (mem s') -> rights (mem s) = Some (page, q) -> prot_le prot q ->
      bit_any prot need = true -> 12 <= k <= 22 ->
      tlb s' = mk_tlb_page (Z.land addr TARGET_PAGE_MASK) page prot mmu_idx (2 ^ k) :: tlb s ->
      (is_write1 = 1 -> bit_any (cr0 (regs env)) CR0_PG_MASK = true -> k = 12 -> tracer_dirty (mem s')) ->
      translated s 0 s'.

Section paging.
Context (Hpg : bit_any (cr0 (regs env)) CR0_PG_MASK = true).

Lemma rights_walk m : rights m = walk m ≫= leaf_rights env mmu_idx addr.
Proof. unfold x86_rights. by rewrite Hpg. Qed.

Lemma missing_run s s1 :
  tlb s1 = tlb s -> touched width (mem s) (mem s1) -> walk (mem s) = None ->
  exists r s', do_fault env addr is_write1 mmu_idx 0 s1 = Done (Returned r, s') /\ translated s r s'.
Proof.
  intros Ht Hm Hd. destruct (do_fault_run 0 s1 eq_refl) as (s' & Hrun & Hf). exists 1, s'. split; [done|].
  apply (page_fault _ 0 s1); rewrite ?table_walk_debug, ?rights_walk, ?Hd by done; auto.
Qed.

Lemma reserved_run s s1 :
  tlb s1 = tlb s -> touched width (mem s) (mem s1) ->
  (forall l, walk (mem s) = Some l -> lf_bad l = true) ->
  exists r s', do_fault_rsvd env addr is_write1 mmu_idx 0 s1 = Done (Returned r, s') /\ translated s r s'.
Proof.
  intros Ht Hm Hbad. unfold do_fault_rsvd, do_fault_protect.
  destruct (do_fault_run (Z.lor (Z.lor 0 PG_ERROR_RSVD_MASK) PG_ERROR_P_MASK) s1 eq_refl) as (s' & Hrun & Hf).
  exists 1, s'. split; [done|]. apply (page_fault _ _ s1 _ Ht Hm Hf); [|done|by right].
  rewrite rights_walk. destruct (walk (mem s)) as [l|]; [|done]. cbn. unfold leaf_rights.
  by rewrite (Hbad l).
Qed.

(** The end of a walk that has found the entry of a page of [2 ^ k] bytes. *)
Lemma leaf_run s s1 rsvd pte pte0 pte_addr ptep ptep0 k :
  12 <= k <= 22 -> tlb s1 = tlb s -> touched width (mem s) (mem s1) ->
  pte_addr mod Z.of_nat width = 0 ->
  (forall j, 0 <= j < 32 -> Z.testbit (ld_phys width (mem s1) pte_addr) j = Z.testbit pte j) ->
  same_entry pte0 pte -> same_entry ptep0 ptep ->
  walk (mem s) = Some (mk_leaf false rsvd pte0 ptep0 (2 ^ k)) ->
  (k = 12 -> forall m, touched width (mem s) m ->
   Z.testbit (ld_phys width m pte_addr) 6 = true -> tracer_dirty m) ->
  exists r s',
    do_check_protect_pse36 env addr is_write1 mmu_idx rsvd pte pte_addr ptep (2 ^ k) s1
      = Done (Returned r, s') /\ translated s r s'.
Proof.
  intros Hk Ht Hm Hal Hpte Hsame Hsp Hd Hleaf.
  destruct (check_run width rsvd pte pte_addr ptep (2 ^ k) s1) as (r & s' & Hrun & Hout);
    [unfold entry_size; case_match; lia|done|done|].
  destruct (table_walk_ok _ _ _ _ Hd) as [Hr _]. cbn [lf_rsvd] in Hr.
  rewrite (leaf_prot_same _ _ rsvd pte0 pte ptep0 ptep Hr Hsame Hsp) in Hout.
  assert (Hrights : rights (mem s)
    = pair (page_of pte0 (2 ^ k) addr) <$> leaf_prot env mmu_idx rsvd pte0 ptep0)
    by (by rewrite rights_walk, Hd).
  exists r, s'. split; [done|].
  destruct Hout as [e s' He Hf Hg|q pte' s' Htm Hs' (prot & Hp & Hle & Htlb) Hq Hdirty].
  - apply (page_fault _ e s1); [done..| |by rewrite He|by rewrite table_walk_debug, Hd].
    rewrite Hrights. by destruct (leaf_prot _ _ _ _ _).
  - apply (page_entered _ (page_of pte0 (2 ^ k) addr) prot q k); [by etrans|by rewrite Hrights, Hq|done..| |].
    + rewrite Htlb, Ht, (page_address_of pte0); [done..|]. by etrans.
    + intros Hone _ Hsz. apply (Hleaf Hsz); [by etrans|by apply Hdirty].
Qed.

Lemma pse36_low pde j :
  0 <= j < 32 -> Z.testbit (Z.lor pde (Z.shiftl (Z.land pde 0x1fe000) 19)) j = Z.testbit pde j.
Proof.
  intros Hj. mask_fields. autorewrite with bits. bit_cases; rewrite ?andb_false_r, ?orb_false_r; done.
Qed.

Lemma walk_2level_run s :
  bit_any (cr4 (regs env)) CR4_PAE_MASK = false ->
  exists r s', walk_2level env addr is_write1 mmu_idx s = Done (Returned r, s') /\ translated s r s'.
Proof.
  intros Hpae. unfold walk_2level. rewrite entry_addr_off. cbn beta. unfold x86_ldl_phys.
  rewrite run_gets.
  assert (Hes : width = 4%nat) by (unfold entry_size; by rewrite Hpae).
  assert (Hd : walk (mem s) = walk (mem s)) by done.
  unfold table_walk in Hd at 2. rewrite Hpae in Hd.
  set (a := u32 (Z.land (cr3 _) _ + _)) in *.
  assert (Ha : a mod 2 ^ 2 = 0) by (apply entry_aligned; [lia|by apply land_aligned..]).
  destruct (bit_any (ldl_phys (mem s) a) PG_PRESENT_MASK) eqn:Hpre; cbn [negb] in *;
    [|by apply missing_run].
  destruct (bit_any (ldl_phys (mem s) a) PG_PSE_MASK && _) eqn:Hpse; cbn zeta in *.
  { change 0x400000 with (2 ^ 22). change (32 - 13) with 19 in *.
    eapply leaf_run; [lia|done|done|by rewrite Hes| |reflexivity|reflexivity|exact Hd|done].
    intros j Hj. by rewrite Hes, pse36_low. }
  destruct (touch_run 4 a s) as (pde & s1 & Hrun & Hm & Hpde & Htlb); [lia|done|].
  rewrite (bind_step _ _ _ _ _ Hrun), entry_addr_off. cbn beta. rewrite run_gets.
  rewrite (same_entry_land (ldl_phys (mem s) a) pde) by done.
  set (b := u32 (Z.land (ldl_phys (mem s) a) _ + _)) in *.
  assert (Hb : b mod 2 ^ 2 = 0) by (apply entry_aligned; [lia|by apply land_aligned..]).
  assert (Hpte : same_entry (ldl_phys (mem s) b) (ldl_phys (mem s1) b)) by (by apply touched_entry; [lia| |]).
  rewrite (same_entry_any (ldl_phys (mem s) b) (ldl_phys (mem s1) b)) by done.
  destruct (bit_any (ldl_phys (mem s) b) PG_PRESENT_MASK) eqn:Hpre'; cbn [negb] in *;
    [|apply missing_run; by rewrite ?Hes].
  unfold do_check_protect. change 4096 with (2 ^ 12).
  eapply leaf_run; [lia|done|by rewrite Hes|by rewrite Hes|by rewrite Hes|exact Hpte| |exact Hd|].
  { repeat (done || f_equiv). }
  intros _ m Htm Hbit _ ci. rewrite Hes in *. unfold qem_get_phys_addr_mem_tracing.
  rewrite Hpg, pde_index, pte_index by done. fold a.
  pose proof (touched_entry 4 (mem s) m a ltac:(lia) Htm Ha) as Sa.
  rewrite !(same_entry_any _ _ _ Sa), (same_entry_land _ _ 0xFFFFF000 Sa), Hpre, Hpse by done. fold b.
  pose proof (touched_entry 4 (mem s) m b ltac:(lia) Htm Hb) as Sb.
  rewrite (same_entry_any _ _ _ Sb), Hpre' by done. cbn [negb snd].
  by rewrite Z.lor_spec, Z.land_spec, Hbit.
Qed.

(** The reserved bits of the entries with physical address extension. *)
Abbreviation pae_rsvd := (Z.lor PG_HI_RSVD_MASK (if bit_any (efer env) MSR_EFER_NXE then 0 else PG_NX_MASK)).

Lemma walk_pae_run s :
  bit_any (cr4 (regs env)) CR4_PAE_MASK = true ->
  exists r s', walk_pae env addr is_write1 mmu_idx pae_rsvd s = Done (Returned r, s') /\ translated s r s'.
Proof.
  intros Hpae. unfold walk_pae. rewrite entry_addr_off. cbn beta. unfold x86_ldq_phys. rewrite run_gets.
  assert (Hes : width = 8%nat) by (unfold entry_size; by rewrite Hpae).
  assert (Hd : walk (mem s) = walk (mem s)) by done.
  unfold table_walk in Hd at 2. rewrite Hpae in Hd.
  assert (Hr : Z.land (Z.lor pae_rsvd PG_HI_USER_MASK) 0x60 = 0) by (by destruct (bit_any (efer env) MSR_EFER_NXE)).
  set (rsvd := Z.lor pae_rsvd PG_HI_USER_MASK) in *.
  set (p := u32 (Z.land (cr3 _) _ + _)) in *.
  assert (Hp : p mod 2 ^ 3 = 0) by (apply entry_aligned; [lia|by apply land_aligned..]).
  destruct (bit_any (ldq_phys (mem s) p) PG_PRESENT_MASK); cbn [negb] in *; [|by apply missing_run].
  destruct (bit_any (ldq_phys (mem s) p) (Z.lor _ PG_NX_MASK)); cbn zeta in *.
  { apply reserved_run; [done..|]. intros l. rewrite Hd. cbn [orb]. repeat case_match; by intros [= <-]. }
  rewrite entry_addr_off. cbn beta. rewrite run_gets. cbn [orb] in Hd.
  set (a := u32 (Z.land (ldq_phys (mem s) p) _ + _)) in *.
  assert (Ha : a mod 2 ^ 3 = 0)
    by (apply entry_aligned; [lia|by apply land_aligned|by apply shiftl_aligned]).
  destruct (bit_any (ldq_phys (mem s) a) PG_PRESENT_MASK); cbn [negb] in *; [|by apply missing_run].
  destruct (bit_any (ldq_phys (mem s) a) rsvd).
  { apply reserved_run; [done..|]. intros l. rewrite Hd. cbn [orb]. repeat case_match; by intros [= <-]. }
  cbn [orb] in Hd. destruct (bit_any (ldq_phys (mem s) a) PG_PSE_MASK).
  { unfold do_check_protect. change 0x200000 with (2 ^ 21) in *.
    eapply leaf_run; [lia|done|done|by rewrite Hes|by rewrite Hes|reflexivity|reflexivity|exact Hd|done]. }
  destruct (touch_run 8 a s) as (pde & s1 & Hrun & Hm & Hpde & Htlb); [lia|done|].
  rewrite (bind_step _ _ _ _ _ Hrun), entry_addr_off. cbn beta. rewrite run_gets.
  rewrite (same_entry_land (ldq_phys (mem s) a) pde) by done.
  set (b := u32 (Z.land (ldq_phys (mem s) a) _ + _)) in *.
  assert (Hb : b mod 2 ^ 3 = 0)
    by (apply entry_aligned; [lia|by apply land_aligned|by apply shiftl_aligned]).
  assert (Hpte : same_entry (ldq_phys (mem s) b) (ldq_phys (mem s1) b)) by (by apply touched_entry; [lia| |]).
  rewrite !(same_entry_any (ldq_phys (mem s) b) (ldq_phys (mem s1) b)) by done.
  destruct (bit_any (ldq_phys (mem s) b) PG_PRESENT_MASK); cbn [negb] in *;
    [|apply missing_run; by rewrite ?Hes].
  destruct (bit_any (ldq_phys (mem s) b) rsvd).
  { apply reserved_run; [by rewrite ?Hes..|]. intros l. rewrite Hd. by intros [= <-]. }
  unfold do_check_protect. change 4096 with (2 ^ 12).
  eapply leaf_run; [lia|done|by rewrite Hes|by rewrite Hes|by rewrite Hes|exact Hpte| |exact Hd|].
  { repeat (done || f_equiv). }
  intros _ m _ _ E. by rewrite E in Hpae.
Qed.
End paging.

Lemma handle_run s :
  exists r s', x86_cpu_handle_mmu_fault env addr is_write1 mmu_idx s = Done (Returned r, s') /\
    translated s r s'.
Proof.
  unfold x86_cpu_handle_mmu_fault. destruct (bit_any (cr0 (regs env)) CR0_PG_MASK) eqn:Hpg; cbn [negb].
  - destruct (bit_any (cr4 (regs env)) CR4_PAE_MASK) eqn:Hpae;
      [by apply walk_pae_run|by apply walk_2level_run].
  - set (all := Z.lor (Z.lor PAGE_READ PAGE_WRITE) PAGE_EXEC).
    destruct (do_mapping_run addr 4096 all s) as (s' & Hrun & Hm & prot & Hp & Hle & Ht).
    { unfold bit_any. assert (is_write1 = 0 \/ is_write1 = 1 \/ is_write1 = 2) as [E|[E|E]] by lia; by rewrite E. }
    exists 0, s'. split; [done|]. apply (page_entered _ (page_of addr 4096 addr) prot all 12).
    + by rewrite Hm.
    + unfold x86_rights. by rewrite Hpg.
    + done.
    + done.
    + lia.
    + rewrite Ht. do 2 f_equal. by apply (page_address_of addr addr 12).
    + intros _ E. by rewrite Hpg in E.
Qed.

(** The kernel reaches every page that is mapped, if it does not ask for write
    protection, for execution prevention or for protection keys. *)
Lemma walk_kernel_run s :
  bit_any (cr0 (regs env)) CR0_PG_MASK = true -> bit_any (cr0 (regs env)) CR0_WP_MASK = false ->
  cr4 (regs env) = 0 -> mmu_idx = MMU_KNOSMAP_IDX -> debug (mem s) <> None ->
  exists s', walk_2level env addr is_write1 mmu_idx s = Done (Returned 0, s').
Proof.
  intros Hpg Hwp Hcr4 Hidx Hd. unfold x86_cpu_get_phys_page_debug in Hd.
  rewrite Hpg, Hcr4, Ha20, !land_m1 in Hd.
  assert (H0 : forall k, bit_any 0 k = false) by done. rewrite !H0, andb_false_r in Hd. cbn [negb] in Hd.
  unfold walk_2level. rewrite entry_addr_off. cbn beta. unfold x86_ldl_phys. rewrite run_gets.
  rewrite Hcr4, H0, andb_false_r. set (a := u32 (Z.land (cr3 _) _ + _)) in *.
  assert (Ha : a mod 2 ^ 2 = 0) by (apply entry_aligned; [lia|by apply land_aligned..]).
  destruct (bit_any (ldl_phys (mem s) a) PG_PRESENT_MASK); cbn [negb] in *; [|done].
  destruct (touch_run 4 a s) as (pde & s1 & Hrun & Hm & Hpde & Htlb); [lia|done|].
  rewrite (bind_step _ _ _ _ _ Hrun), entry_addr_off. cbn beta. rewrite run_gets.
  rewrite (same_entry_land (ldl_phys (mem s) a) pde) by done.
  set (b := u32 (Z.land (ldl_phys (mem s) a) _ + _)) in *.
  assert (Hb : b mod 2 ^ 2 = 0) by (apply entry_aligned; [lia|by apply land_aligned..]).
  assert (Hpte : same_entry (ldl_phys (mem s) b) (ldl_phys (mem s1) b)) by (by apply touched_entry; [lia| |]).
  rewrite (same_entry_any (ldl_phys (mem s) b) (ldl_phys (mem s1) b)) by done.
  destruct (bit_any (ldl_phys (mem s) b) PG_PRESENT_MASK); cbn [negb] in *; [|done].
  unfold do_check_protect, do_check_protect_pse36, pkru_prot, page_prot. rewrite Hcr4, Hwp.
  rewrite (Z.land_comm (4096 - 1)). change (Z.lor 0 _) with 0.
  replace (bit_any (ldl_phys (mem s1) b) 0) with false by (unfold bit_any; by rewrite Z.land_0_r).
  replace (mmu_idx =? MMU_USER_IDX) with false by (by rewrite Hidx).
  replace (mmu_idx =? MMU_KSMAP_IDX) with false by (by rewrite Hidx).
  set (ptep := Z.lxor _ PG_NX_MASK).
  assert (Hnx : bit_any ptep PG_NX_MASK = false).
  { subst ptep. unfold PG_NX_MASK. rewrite bit_any_pow2, Z.lxor_spec, Z.land_spec, !Z.lor_spec by lia.
    change (Z.testbit (Z.shiftl 1 63) 63) with true. by rewrite !orb_true_r. }
  rewrite Hnx, !H0. cbn [andb orb negb]. rewrite !orb_true_r.
  set (prot := Z.lor (Z.lor PAGE_READ PAGE_WRITE) PAGE_EXEC).
  assert (Hp : bit_any prot need = true).
  { unfold bit_any. assert (is_write1 = 0 \/ is_write1 = 1 \/ is_write1 = 2) as [E|[E|E]] by lia; by rewrite E. }
  rewrite Hp. cbn [negb].
  destruct (do_enter_run 4 (ldl_phys (mem s1) b) b 4096 prot s1) as (s' & _ & Hgo & _);
    [lia|done|done|done|]. by exists s'.
Qed.

Lemma handle_kernel_run s :
  bit_any (cr0 (regs env)) CR0_PG_MASK = true -> bit_any (cr0 (regs env)) CR0_WP_MASK = false ->
  cr4 (regs env) = 0 -> mmu_idx = MMU_KNOSMAP_IDX -> debug (mem s) <> None ->
  exists s', x86_cpu_handle_mmu_fault env addr is_write1 mmu_idx s = Done (Returned 0, s').
Proof.
  intros Hpg Hwp Hcr4 Hidx Hd. unfold x86_cpu_handle_mmu_fault. rewrite Hpg, Hcr4. by apply walk_kernel_run.
Qed.
End spec.

(** The error code of a page fault. *)
Lemma fault_error_bits env w idx e :
  Z.land e 0x16 = 0 -> 0 <= w <= 2 ->
  let c := fault_error env w idx e in
  Z.testbit c 0 = Z.testbit e 0 /\ Z.testbit c 1 = (w =? 1) /\ Z.testbit c 2 = (idx =? MMU_USER_IDX) /\
  Z.testbit c 3 = Z.testbit e 3.
Proof.
  intros He Hw. cbn zeta. unfold fault_error.
  assert (Hb : forall i, Z.testbit 0x16 i = true -> Z.testbit e i = false).
  { intros i Hi. pose proof (Z.land_spec e 0x16 i) as E. rewrite He, Z.bits_0, Hi, andb_true_r in E. done. }
  pose proof (Hb 1 eq_refl) as H1. pose proof (Hb 2 eq_refl) as H2. clear Hb He.
  assert (w = 0 \/ w = 1 \/ w = 2) as [E|[E|E]] by lia; rewrite E;
    destruct (idx =? MMU_USER_IDX); cbn [andb Z.eqb]; try case_match;
    rewrite !Z.lor_spec, H1, H2; destruct (Z.testbit e 0), (Z.testbit e 3); done.
Qed.

(** What the hook of a load or store records, when the debug walk finds a page. *)
Lemma hook_recorded cfg env e st (write : bool) idx a0 page :
  QEM_TRACE_GATHER_META cfg = true -> QEM_TRACE_PHYSICAL_ADDRESS cfg = true ->
  QEM_TRACE_TARGET_64 cfg = false -> bit_any st QEM_TRACE_DTRACE = true ->
  x86_get_a20_mask env = -1 -> bit_any (cr4 env) CR4_PAE_MASK = false ->
  0 <= a0 < 2 ^ 32 -> 0 <= cpu_index env < 2 ^ 32 -> ev_env e = env ->
  x86_cpu_get_phys_page_debug env (ev_mem e) a0 = Some page ->
  exists pa time flg,
    (if write then gen_op_st_v cfg e st idx a0 else gen_op_ld_v cfg e st idx a0)
      = [OpOutput a0 pa (cpu_index env) time flg] /\
    let t := new_trace cfg pa (cpu_index env) time flg in
    address t = u32 (Z.lor page (Z.land a0 0xfff)) /\
    acc_write (decode (def_of cfg) (flags t)) = write /\
    (Z.testbit (qem_get_phys_addr_mem_tracing env (ev_mem e) (ev_junk e) a0).2 6 = true ->
     acc_inhibit (decode (def_of cfg) (flags t)) = true).
Proof.
  intros Hm Hp H64 Hst Ha20 Hpae Ha Hc He Hd.
  pose proof (walk_page_debug env (ev_mem e) (ev_junk e) a0 Ha Ha20 Hpae) as Hw. rewrite Hd in Hw.
  rewrite store_record, load_record, Hp, He. unfold when_traced. rewrite Hst.
  destruct (qem_get_phys_addr_mem_tracing _ _ _ _) as [pa ci]. cbn [fst snd] in *.
  eexists pa, _, (encode (def_of cfg) (x86_access env write false (size_of_op (Z.land idx 3)) ci)).
  split; [by destruct write|]. cbn zeta.
  destruct (new_trace_decode cfg pa (cpu_index env) (rdtsc_time (ev_tsc e))
    (x86_access env write false (size_of_op (Z.land idx 3)) ci) Hm Hc) as [Hdec _].
  rewrite Hdec. split_and!; [|done|].
  - unfold new_trace, addr_size. rewrite Hm, H64. cbn [address]. rewrite Hw.
    change (Z.of_nat 4 * 8) with 32. apply wrap_wrap.
  - intros Hci. cbn. destruct (Z.eqb_spec ci 0) as [->|]; [done|]. by rewrite orb_true_r.
Qed.

Lemma recorded_translation cfg env e st (write : bool) idx a0 mmu_idx s s' :
  QEM_TRACE_GATHER_META cfg = true -> QEM_TRACE_PHYSICAL_ADDRESS cfg = true ->
  QEM_TRACE_TARGET_64 cfg = false -> bit_any st QEM_TRACE_DTRACE = true ->
  bit_any (hflags2 env) HF2_NPT_MASK = false -> x86_get_a20_mask (regs env) = -1 ->
  bit_any (cr4 (regs env)) CR4_PAE_MASK = false ->
  0 <= a0 < 2 ^ 32 -> 0 <= cpu_index (regs env) < 2 ^ 32 ->
  x86_cpu_handle_mmu_fault env a0 (Z.b2z write) mmu_idx s = Done (Returned 0, s') ->
  ev_env e = regs env -> ev_mem e = mem s' ->
  exists p pa time flg,
    tlb s' = p :: tlb s /\
    (if write then gen_op_st_v cfg e st idx a0 else gen_op_ld_v cfg e st idx a0)
      = [OpOutput a0 pa (cpu_index (regs env)) time flg] /\
    let t := new_trace cfg pa (cpu_index (regs env)) time flg in
    address t = u32 (Z.lor (tlb_paddr p) (Z.land a0 0xfff)) /\
    acc_write (decode (def_of cfg) (flags t)) = write /\
    (write = true -> bit_any (cr0 (regs env)) CR0_PG_MASK = true -> tlb_size p = 4096 ->
     acc_inhibit (decode (def_of cfg) (flags t)) = true).
Proof.
  intros Hm Hp H64 Hst Hnpt Ha20 Hpae Ha Hc Hrun He Hmem.
  destruct (handle_run env a0 (Z.b2z write) mmu_idx Hnpt Ha20 Ha ltac:(destruct write; cbn; lia) s)
    as (r & s2 & Hrun2 & Htr). rewrite Hrun in Hrun2. injection Hrun2 as <- <-.
  inversion Htr as [|page prot q k s2 Htm Hd _ _ Hk Htlb Hdirty]; subst.
  apply rights_debug in Hd; [|done]. rewrite <- (debug_touched _ _ _ _ Ha20 Htm), <- Hmem in Hd.
  destruct (hook_recorded cfg (regs env) e st write idx a0 page Hm Hp H64 Hst Ha20 Hpae Ha Hc He Hd)
    as (pa & time & flg & Hop & Hadr & Hwr & Hci).
  eexists _, pa, time, flg. split; [done|]. split; [done|]. split; [done|]. split; [done|].
  cbn [tlb_size]. intros -> Hpg Hsz. apply Hci. rewrite Hmem. apply Hdirty; [done..| |done].
  by apply (Z.pow_inj_r 2); [lia|lia|lia|].
Qed.

(** ** Properties *)


(** A directory at 0x1000, a table at 0x2000 and a page of the user that is read-only. *)
Definition mmu_env (pae : bool) : mmu_regs := mk_mmu_regs (x86_env pae) 0 false 0 0 0 0 0 0.
Definition mmu_start (m : memory) : mmu_state := mk_mmu_state m [] 0 0 0.




(** With nested paging, a page table of the guest may lie in a page that the host has
    marked as not executable.  The walk reads its entries through [get_hphys] with a null
    pointer for the protection, and [get_hphys] writes through it. *)
Theorem x86_nested_null_prot :
  exists env s,
    bit_any (hflags2 env) HF2_NPT_MASK = true /\
    forall is_write1 mmu_idx, x86_cpu_handle_mmu_fault env 0x403123 is_write1 mmu_idx s = Undefined.
Proof.
  exists (mk_mmu_regs (x86_env false) 0 false HF2_NPT_MASK 0 (Z.lor SVM_NPT_PAE SVM_NPT_NXE) 0x8000 0 0).
  exists (mmu_start (put32 0x8000 0x9001 (put32 0x9000 0xA007 (put32 0xA008 0x1007 (put32 0xA00C 0x80000000
    (fun _ => 0)))))).
  split; [reflexivity|]. intros is_write1 mmu_idx. vm_compute. reflexivity.
Qed.
