(* ===== verification/ArmMmu.v ===== *)
(** * ARM address translation in QEMU

    What the ARM tracer calls of [target/arm/helper.c]: [get_phys_addr], which the
    tracing patch exports, its two short-descriptor walks [get_phys_addr_v5] and
    [get_phys_addr_v6], and the functions that describe a translation regime.  The
    long-descriptor walk ([ArmLpae]) and the protection units ([ArmPmsa]) are arguments
    here, and [ArmWalk] puts the parts together.

    The functions read the state of the processor; [abort_] is [g_assert_not_reached]
    and a failed assertion.  [DisasContext] supplies the MMU index. *)

From S2P Require Import Prelude Bits.

(** ** State *)

Inductive arm_feature :=
  | FEATURE_V6 | FEATURE_V6K | FEATURE_V7 | FEATURE_V8 | FEATURE_XSCALE | FEATURE_LPAE
  | FEATURE_PXN | FEATURE_EL2 | FEATURE_EL3 | FEATURE_AARCH64 | FEATURE_M | FEATURE_PMSA
  | FEATURE_M_SECURITY.

Inductive ARMMMUIdx :=
  | S12NSE0 | S12NSE1 | S1E2 | S1E3 | S1SE0 | S1SE1 | S2NS
  | MUser | MPriv | MUserNegPri | MPrivNegPri | MSUser | MSPriv | MSUserNegPri | MSPrivNegPri
  | S1NSE0 | S1NSE1.

#[export] Instance arm_feature_eq_dec : EqDecision arm_feature.
Proof. solve_decision. Defined.
#[export] Instance ARMMMUIdx_eq_dec : EqDecision ARMMMUIdx.
Proof. solve_decision. Defined.

Record TCR := mk_tcr { raw_tcr : Z; tcr_mask : Z; base_mask : Z }.

(** The fields the translation reads.  [sctlr_ns] and [sctlr_s] are the elements 1 and
    3 of [sctlr_el].  Memory is one byte, or a bus error, per security state and
    address.  An array that is allocated at start-up is a list, those of two banks are
    indexed by the security state, and [idau] is the callback of the attribution unit,
    which gives region, exemption, [ns] and [nsc] of an address. *)
Record CPUARMState := mk_arm {
  features : arm_feature -> bool;
  aarch64_ : bool;
  pstate : Z;
  uncached_cpsr : Z;
  sctlr_el : Z -> Z;
  tcr_el : Z -> TCR;
  vtcr_el2 : TCR;
  ttbr0_el : Z -> Z;
  ttbr1_el : Z -> Z;
  vttbr_el2 : Z;
  mair_el : Z -> Z;
  id_aa64mmfr0 : Z;
  hcr_el2 : Z;
  scr_el3 : Z;
  dacr_ns : Z;
  dacr_s : Z;
  fcseidr_ns : Z;
  fcseidr_s : Z;
  mpu_ctrl : bool -> Z;
  c6_region : list Z;
  pmsav5_data_ap : Z;
  pmsav5_insn_ap : Z;
  pmsav7_dregion : nat;
  drbar : list Z;
  drsr : list Z;
  dracr : list Z;
  pmsav8_rbar : bool -> list Z;
  pmsav8_rlar : bool -> list Z;
  sau_sregion : nat;
  sau_rbar : list Z;
  sau_rlar : list Z;
  sau_ctrl : Z;
  idau : option (Z -> Z * bool * bool * bool);
  arm_mem : bool -> Z -> option Z;
  arm_cpu_index : Z
}.

Definition sctlr_ns (env : CPUARMState) : Z := sctlr_el env 1.
Definition sctlr_s (env : CPUARMState) : Z := sctlr_el env 3.

Definition SCTLR_M := 0x1.
Definition SCTLR_S := 0x100.
Definition SCTLR_R := 0x200.
Definition SCTLR_XP := 0x800000.
Definition SCTLR_EE := 0x2000000.
Definition SCTLR_AFE := 0x20000000.
Definition HCR_VM := 0x1.
Definition HCR_PTW := 0x4.
Definition HCR_DC := 0x1000.
Definition HCR_TGE := 0x8000000.
Definition HCR_RW := 0x80000000.
Definition SCR_NS := 0x1.
Definition SCR_RW := 0x400.
Definition TTBCR_PD0 := 0x10.
Definition TTBCR_PD1 := 0x20.
Definition TTBCR_EAE := 0x80000000.
Definition MPU_CTRL_ENABLE := 0x1.
Definition MPU_CTRL_HFNMIENA := 0x2.

Definition PAGE_READ := 1.
Definition PAGE_WRITE := 2.
Definition PAGE_EXEC := 4.

(** [MMUAccessType]. *)
Definition MMU_DATA_LOAD := 0.
Definition MMU_DATA_STORE := 1.
Definition MMU_INST_FETCH := 2.

Abbreviation A := (C CPUARMState).

(** [abort] ends the process with the signal 6. *)
Definition abort_ {T} : A T := exit_ 134.

Definition arm_feature_ (f : arm_feature) : A bool := gets (fun env => features env f).

(** ** Translation regimes *)

Definition arm_is_secure_below_el3 : A bool :=
  el3 ← arm_feature_ FEATURE_EL3;
  if (el3 : bool) then scr ← gets scr_el3; mret (negb (bit_any scr SCR_NS)) else mret false.

(** For an exception level 1, 2 or 3. *)
Definition arm_el_is_aa64 (el : Z) : A bool :=
  aa64 ← arm_feature_ FEATURE_AARCH64;
  if el =? 3 then mret aa64
  else
    el3 ← arm_feature_ FEATURE_EL3;
    scr ← gets scr_el3;
    let aa64 := if (el3 : bool) then aa64 && bit_any scr SCR_RW else aa64 in
    if el =? 2 then mret aa64
    else
      el2 ← arm_feature_ FEATURE_EL2;
      secure ← arm_is_secure_below_el3;
      hcr ← gets hcr_el2;
      mret (if el2 && negb secure then aa64 && bit_any hcr HCR_RW else aa64).

Definition regime_el (mmu_idx : ARMMMUIdx) : A Z :=
  match mmu_idx with
  | S2NS | S1E2 => mret 2
  | S1E3 => mret 3
  | S1SE0 => aa64 ← arm_el_is_aa64 3; mret (if (aa64 : bool) then 1 else 3)
  | S1SE1 | S1NSE0 | S1NSE1 | MPrivNegPri | MUserNegPri | MPriv | MUser
  | MSPrivNegPri | MSUserNegPri | MSPriv | MSUser => mret 1
  | S12NSE0 | S12NSE1 => abort_
  end.

Definition regime_sctlr (mmu_idx : ARMMMUIdx) : A Z :=
  el ← regime_el mmu_idx;
  r ← gets (fun env => sctlr_el env el);
  mret (u32 r).

Definition regime_is_secure (mmu_idx : ARMMMUIdx) : bool :=
  match mmu_idx with
  | S1E3 | S1SE0 | S1SE1 | MSPrivNegPri | MSUserNegPri | MSPriv | MSUser => true
  | _ => false
  end.

(** The numbers of the M profile indices have the bit [ARM_MMU_IDX_M_NEGPRI] (2). *)
Definition idx_negpri (mmu_idx : ARMMMUIdx) : bool :=
  match mmu_idx with
  | S1E2 | S1E3 | S2NS | MUserNegPri | MPrivNegPri | MSUserNegPri | MSPrivNegPri => true
  | _ => false
  end.

Definition regime_translation_disabled (mmu_idx : ARMMMUIdx) : A bool :=
  m ← arm_feature_ FEATURE_M;
  if (m : bool) then
    ctrl ← gets (fun env => mpu_ctrl env (regime_is_secure mmu_idx));
    let ctrl := Z.land ctrl (Z.lor MPU_CTRL_ENABLE MPU_CTRL_HFNMIENA) in
    mret (if ctrl =? MPU_CTRL_ENABLE then idx_negpri mmu_idx
          else if ctrl =? Z.lor MPU_CTRL_ENABLE MPU_CTRL_HFNMIENA then false
          else true)
  else
    hcr ← gets hcr_el2;
    if decide (mmu_idx = S2NS) then mret (negb (bit_any hcr (Z.lor HCR_DC HCR_VM)))
    else
      tge ← (if bit_any hcr HCR_TGE then
               if negb (regime_is_secure mmu_idx)
               then el ← regime_el mmu_idx; mret (el =? 1)
               else mret false
             else mret false);
      if (tge : bool) then mret true
      else if bit_any hcr HCR_DC && (bool_decide (mmu_idx = S1NSE0) || bool_decide (mmu_idx = S1NSE1))
      then mret true
      else sctlr ← regime_sctlr mmu_idx; mret (negb (bit_any sctlr SCTLR_M)).

Definition regime_translation_big_endian (mmu_idx : ARMMMUIdx) : A bool :=
  sctlr ← regime_sctlr mmu_idx; mret (bit_any sctlr SCTLR_EE).

Definition regime_tcr (mmu_idx : ARMMMUIdx) : A TCR :=
  if decide (mmu_idx = S2NS) then gets vtcr_el2
  else el ← regime_el mmu_idx; gets (fun env => tcr_el env el).

Definition stage_1_mmu_idx (mmu_idx : ARMMMUIdx) : ARMMMUIdx :=
  match mmu_idx with S12NSE0 => S1NSE0 | S12NSE1 => S1NSE1 | i => i end.

Definition regime_ttbr (mmu_idx : ARMMMUIdx) (ttbrn : Z) : A Z :=
  if decide (mmu_idx = S2NS) then gets vttbr_el2
  else
    el ← regime_el mmu_idx;
    gets (fun env => if ttbrn =? 0 then ttbr0_el env el else ttbr1_el env el).

Definition regime_using_lpae_format (mmu_idx : ARMMMUIdx) : A bool :=
  el ← regime_el mmu_idx;
  aa64 ← (if el =? 2 then mret true else arm_el_is_aa64 el);
  if (aa64 : bool) then mret true
  else
    lpae ← arm_feature_ FEATURE_LPAE;
    if (lpae : bool) then tcr ← regime_tcr mmu_idx; mret (bit_any (raw_tcr tcr) TTBCR_EAE)
    else mret false.

Definition regime_is_user (mmu_idx : ARMMMUIdx) : A bool :=
  match mmu_idx with
  | S1SE0 | S1NSE0 | MUser | MSUser | MUserNegPri | MSUserNegPri => mret true
  | S12NSE0 | S12NSE1 => abort_
  | _ => mret false
  end.

(** ** Access permissions *)

Definition ap_to_rw_prot (mmu_idx : ARMMMUIdx) (ap domain_prot : Z) : A Z :=
  is_user ← regime_is_user mmu_idx;
  if domain_prot =? 3 then mret (Z.lor PAGE_READ PAGE_WRITE)
  else if ap =? 0 then
    v7 ← arm_feature_ FEATURE_V7;
    if (v7 : bool) then mret 0
    else
      sctlr ← regime_sctlr mmu_idx;
      let sr := Z.land sctlr (Z.lor SCTLR_S SCTLR_R) in
      mret (if sr =? SCTLR_S then (if (is_user : bool) then 0 else PAGE_READ)
            else if sr =? SCTLR_R then PAGE_READ else 0)
  else if ap =? 1 then mret (if (is_user : bool) then 0 else Z.lor PAGE_READ PAGE_WRITE)
  else if ap =? 2 then mret (if (is_user : bool) then PAGE_READ else Z.lor PAGE_READ PAGE_WRITE)
  else if ap =? 3 then mret (Z.lor PAGE_READ PAGE_WRITE)
  else if ap =? 4 then mret 0
  else if ap =? 5 then mret (if (is_user : bool) then 0 else PAGE_READ)
  else if ap =? 6 then mret PAGE_READ
  else if ap =? 7 then v6k ← arm_feature_ FEATURE_V6K; mret (if (v6k : bool) then PAGE_READ else 0)
  else abort_.

Definition simple_ap_to_rw_prot_is_user (ap : Z) (is_user : bool) : A Z :=
  if ap =? 0 then mret (if is_user then 0 else Z.lor PAGE_READ PAGE_WRITE)
  else if ap =? 1 then mret (Z.lor PAGE_READ PAGE_WRITE)
  else if ap =? 2 then mret (if is_user then 0 else PAGE_READ)
  else if ap =? 3 then mret PAGE_READ
  else abort_.

Definition simple_ap_to_rw_prot (mmu_idx : ARMMMUIdx) (ap : Z) : A Z :=
  is_user ← regime_is_user mmu_idx; simple_ap_to_rw_prot_is_user ap is_user.

(** ** Results of a walk *)

(** Without [ARMFault_None], which is the absence of a fault. *)
Inductive ARMFaultType :=
  | ARMFault_AccessFlag | ARMFault_Alignment | ARMFault_Background | ARMFault_Domain
  | ARMFault_Permission | ARMFault_Translation | ARMFault_AddressSize | ARMFault_SyncExternal
  | ARMFault_SyncExternalOnWalk | ARMFault_SyncParity | ARMFault_SyncParityOnWalk
  | ARMFault_AsyncParity | ARMFault_AsyncExternal | ARMFault_Debug | ARMFault_TLBConflict
  | ARMFault_Lockdown | ARMFault_Exclusive | ARMFault_ICacheMaint | ARMFault_QEMU_NSCExec
  | ARMFault_QEMU_SFault.

Record ARMMMUFaultInfo := mk_fi { fi_type : ARMFaultType; fi_level : Z; fi_domain : Z }.

Record ARMCacheAttrs := mk_attrs { attrs : Z; shareability : Z }.

(** What [get_phys_addr] leaves behind: its result (a fault or none), what it stored
    through [phys_ptr], through [prot] and through [cacheattrs], [None] if nothing.  The
    permissions are those of a translation that succeeds or of a protection unit.  The
    page size and the transaction attributes are not kept. *)
Record xlat := mk_xlat {
  x_fault : option ARMMMUFaultInfo;
  x_phys : option Z;
  x_prot : option Z;
  x_attrs : option ARMCacheAttrs
}.

(** A walk that may fault: [inl] is the jump to [do_fault]. *)
Abbreviation walk T := (A (ARMMMUFaultInfo + T)).

Definition walk_bind {T U} (m : walk T) (k : T -> walk U) : walk U :=
  r ← m; match r with inl fi => mret (inl fi) | inr a => k a end.

Notation "x <-? m ; k" := (walk_bind m (fun x => k)) (at level 100, m at next level, right associativity).

Definition do_fault {T} (ty : ARMFaultType) (level domain : Z) : walk T :=
  mret (inl (mk_fi ty level domain)).

(** The results of a short-descriptor walk.  Nobody reads the permissions a walk has
    stored when it fails, so they are left out. *)
Definition walk_xlat (r : ARMMMUFaultInfo + Z * Z) : xlat :=
  match r with
  | inl fi => mk_xlat (Some fi) None None None
  | inr (phys_addr, prot) => mk_xlat None (Some phys_addr) (Some prot) None
  end.

Definition extract32 (value start len : Z) : Z := Z.land (Z.shiftr value start) (Z.ones len).

Section translate.
(** [target_ulong] has [W] bits.  [get_phys_addr_lpae] is the long-descriptor walk,
    [get_phys_addr_pmsa] the lookup in a protection unit; [junk] is the value of an
    uninitialised variable. *)
Context (W : Z).
Context (get_phys_addr_lpae : Z -> Z -> ARMMMUIdx -> A xlat).
Context (get_phys_addr_pmsa : Z -> Z -> ARMMMUIdx -> A xlat).
Context (junk : Z).

(** ** The short-descriptor walks *)

Definition get_level1_table_address (mmu_idx : ARMMMUIdx) (address : Z) : A (option Z) :=
  tcr ← regime_tcr mmu_idx;
  if bit_any address (tcr_mask tcr) then
    if bit_any (raw_tcr tcr) TTBCR_PD1 then mret None
    else
      ttbr ← regime_ttbr mmu_idx 1;
      mret (Some (Z.lor (u32 (Z.land ttbr 0xffffc000)) (Z.land (Z.shiftr address 18) 0x3ffc)))
  else
    if bit_any (raw_tcr tcr) TTBCR_PD0 then mret None
    else
      ttbr ← regime_ttbr mmu_idx 0;
      mret (Some (Z.lor (u32 (Z.land ttbr (base_mask tcr))) (Z.land (Z.shiftr address 18) 0x3ffc))).

(** [inl] is the fault type left in [fi]. *)
Definition S1_ptw_translate (mmu_idx : ARMMMUIdx) (addr : Z) : A (ARMFaultType + Z) :=
  s2_off ← (if decide (mmu_idx = S1NSE0 \/ mmu_idx = S1NSE1)
            then regime_translation_disabled S2NS else mret true);
  if (s2_off : bool) then mret (inr addr)
  else
    hcr ← gets hcr_el2;
    r ← get_phys_addr_lpae addr MMU_DATA_LOAD S2NS;
    match x_fault r with
    | Some fi => mret (inl (fi_type fi))
    | None =>
        if bit_any hcr HCR_PTW && (Z.land (default 0 (attrs <$> x_attrs r)) 0xf0 =? 0)
        then mret (inl ARMFault_Permission)
        else mret (inr (default junk (x_phys r)))
    end.

(** The memory core: four bytes, little- or big-endian. *)
Definition address_space_ldl (be secure : bool) (addr : Z) : A (option Z) :=
  gets (fun env =>
    bytes ← mapM (fun i => arm_mem env secure (addr + Z.of_nat i)) (seq 0 4);
    Some (u32 (le_val (if be then rev bytes else bytes)))).

Definition arm_ldl_ptw (addr : Z) (is_secure : bool) (mmu_idx : ARMMMUIdx)
    : A (ARMFaultType + Z) :=
  r ← S1_ptw_translate mmu_idx addr;
  match r with
  | inl ty => mret (inl ty)
  | inr addr =>
      be ← regime_translation_big_endian mmu_idx;
      data ← address_space_ldl be is_secure addr;
      mret match data with
           | Some data => inr data
           | None => inl ARMFault_SyncExternalOnWalk
           end
  end.

(** A descriptor, or the jump to [do_fault]. *)
Definition ldl_desc (table : Z) (mmu_idx : ARMMMUIdx) (level domain : Z) : walk Z :=
  r ← arm_ldl_ptw table (regime_is_secure mmu_idx) mmu_idx;
  match r with inl ty => do_fault ty level domain | inr desc => mret (inr desc) end.

Definition level1_desc (mmu_idx : ARMMMUIdx) (address : Z) : walk Z :=
  table ← get_level1_table_address mmu_idx address;
  match table with
  | None => do_fault ARMFault_Translation 1 0
  | Some table => ldl_desc table mmu_idx 1 0
  end.

Definition regime_dacr (mmu_idx : ARMMMUIdx) : A Z :=
  el ← regime_el mmu_idx;
  gets (fun env => u32 (if el =? 1 then dacr_ns env else dacr_s env)).

(** The second level of [get_phys_addr_v5]: address and access permissions. *)
Definition v5_page (mmu_idx : ARMMMUIdx) (address desc type domain : Z) : walk (Z * Z) :=
  let table := if type =? 1
    then Z.lor (Z.land desc 0xfffffc00) (Z.land (Z.shiftr address 10) 0x3fc)
    else Z.lor (Z.land desc 0xfffff000) (Z.land (Z.shiftr address 8) 0xffc) in
  desc <-? ldl_desc table mmu_idx 2 domain;
  let kind := Z.land desc 3 in
  if kind =? 0 then do_fault ARMFault_Translation 2 domain
  else if kind =? 1 then
    mret (inr (Z.lor (Z.land desc 0xffff0000) (Z.land address 0xffff),
               Z.land (Z.shiftr desc (4 + Z.land (Z.shiftr address 13) 6)) 3))
  else if kind =? 2 then
    mret (inr (Z.lor (Z.land desc 0xfffff000) (Z.land address 0xfff),
               Z.land (Z.shiftr desc (4 + Z.land (Z.shiftr address 9) 6)) 3))
  else if type =? 1 then
    xscale ← arm_feature_ FEATURE_XSCALE;
    v6 ← arm_feature_ FEATURE_V6;
    if (xscale : bool) || (v6 : bool)
    then mret (inr (Z.lor (Z.land desc 0xfffff000) (Z.land address 0xfff), Z.land (Z.shiftr desc 4) 3))
    else do_fault ARMFault_Translation 2 domain
  else mret (inr (Z.lor (Z.land desc 0xfffffc00) (Z.land address 0x3ff), Z.land (Z.shiftr desc 4) 3)).

(** Physical address and permissions. *)
Definition get_phys_addr_v5 (address access_type : Z) (mmu_idx : ARMMMUIdx) : walk (Z * Z) :=
  desc <-? level1_desc mmu_idx address;
  let type := Z.land desc 3 in
  let domain := Z.land (Z.shiftr desc 5) 0x0f in
  dacr ← regime_dacr mmu_idx;
  let domain_prot := Z.land (Z.shiftr dacr (domain * 2)) 3 in
  if type =? 0 then do_fault ARMFault_Translation 1 domain
  else
    let level := if type =? 2 then 1 else 2 in
    if (domain_prot =? 0) || (domain_prot =? 2) then do_fault ARMFault_Domain level domain
    else
      pa <-? (if type =? 2
              then mret (inr (Z.lor (Z.land desc 0xfff00000) (Z.land address 0x000fffff),
                              Z.land (Z.shiftr desc 10) 3))
              else v5_page mmu_idx address desc type domain);
      let '(phys_addr, ap) := pa in
      prot ← ap_to_rw_prot mmu_idx ap domain_prot;
      let prot := Z.lor prot (if prot =? 0 then 0 else PAGE_EXEC) in
      if bit_any prot (Z.shiftl 1 access_type) then mret (inr (phys_addr, prot))
      else do_fault ARMFault_Permission level domain.

(** The descriptor of [get_phys_addr_v6]: address, access permissions, [xn] and [pxn]. *)
Definition v6_section (address desc : Z) : Z * Z * Z * Z :=
  let phys_addr :=
    if bit_any desc (Z.shiftl 1 18) then
      (Z.lor (Z.land desc 0xff000000) (Z.land address 0x00ffffff)
       .| Z.shiftl (extract32 desc 20 4) 32 .| Z.shiftl (extract32 desc 5 4) 36)%c
    else Z.lor (Z.land desc 0xfff00000) (Z.land address 0x000fffff) in
  (phys_addr, Z.lor (Z.land (Z.shiftr desc 10) 3) (Z.land (Z.shiftr desc 13) 4),
   Z.land desc (Z.shiftl 1 4), Z.land desc 1).

Definition v6_page (mmu_idx : ARMMMUIdx) (address desc domain : Z) : walk (Z * Z * Z * Z) :=
  has_pxn ← arm_feature_ FEATURE_PXN;
  let pxn := if (has_pxn : bool) then Z.land (Z.shiftr desc 2) 1 else 0 in
  let table := Z.lor (Z.land desc 0xfffffc00) (Z.land (Z.shiftr address 10) 0x3fc) in
  desc <-? ldl_desc table mmu_idx 2 domain;
  let ap := Z.lor (Z.land (Z.shiftr desc 4) 3) (Z.land (Z.shiftr desc 7) 4) in
  let kind := Z.land desc 3 in
  if kind =? 0 then do_fault ARMFault_Translation 2 domain
  else if kind =? 1 then
    mret (inr (Z.lor (Z.land desc 0xffff0000) (Z.land address 0xffff), ap,
               Z.land desc (Z.shiftl 1 15), pxn))
  else
    mret (inr (Z.lor (Z.land desc 0xfffff000) (Z.land address 0xfff), ap, Z.land desc 1, pxn)).

(** The permissions of [get_phys_addr_v6]. *)
Definition v6_prot (mmu_idx : ARMMMUIdx) (access_type ap xn pxn domain_prot level domain : Z)
    : walk Z :=
  if domain_prot =? 3 then mret (inr (PAGE_READ .| PAGE_WRITE .| PAGE_EXEC)%c)
  else
    priv ← (if pxn =? 0 then mret false else user ← regime_is_user mmu_idx; mret (negb user));
    let xn := if (priv : bool) then 1 else xn in
    if negb (xn =? 0) && (access_type =? MMU_INST_FETCH) then do_fault ARMFault_Permission level domain
    else
      v6k ← arm_feature_ FEATURE_V6K;
      afe ← (if (v6k : bool) then sctlr ← regime_sctlr mmu_idx; mret (bit_any sctlr SCTLR_AFE)
             else mret false);
      prot <-? (if (afe : bool) then
                  if Z.land ap 1 =? 0 then do_fault ARMFault_AccessFlag level domain
                  else p ← simple_ap_to_rw_prot mmu_idx (Z.shiftr ap 1); mret (inr p)
                else p ← ap_to_rw_prot mmu_idx ap domain_prot; mret (inr p));
      let prot := if negb (prot =? 0) && (xn =? 0) then Z.lor prot PAGE_EXEC else prot in
      if bit_any prot (Z.shiftl 1 access_type) then mret (inr prot)
      else do_fault ARMFault_Permission level domain.

Definition get_phys_addr_v6 (address access_type : Z) (mmu_idx : ARMMMUIdx) : walk (Z * Z) :=
  desc <-? level1_desc mmu_idx address;
  let type := Z.land desc 3 in
  has_pxn ← arm_feature_ FEATURE_PXN;
  if (type =? 0) || ((type =? 3) && negb has_pxn) then do_fault ARMFault_Translation 1 0
  else
    let domain := if (type =? 1) || negb (bit_any desc (Z.shiftl 1 18))
                  then Z.land (Z.shiftr desc 5) 0x0f else 0 in
    dacr ← regime_dacr mmu_idx;
    let level := if type =? 1 then 2 else 1 in
    let domain_prot := Z.land (Z.shiftr dacr (domain * 2)) 3 in
    if (domain_prot =? 0) || (domain_prot =? 2) then do_fault ARMFault_Domain level domain
    else
      r <-? (if type =? 1 then v6_page mmu_idx address desc domain
             else mret (inr (v6_section address desc)));
      let '(phys_addr, ap, xn, pxn) := r in
      prot <-? v6_prot mmu_idx access_type ap xn pxn domain_prot level domain;
      mret (inr (phys_addr, prot)).

(** ** Cache attributes of two stages *)

Definition combine_cacheattr_nibble (s1 s2 : Z) : Z :=
  if (s1 =? 4) || (s2 =? 4) then 4
  else if (extract32 s1 2 2 =? 0) || (extract32 s1 2 2 =? 2) then s1
  else if extract32 s2 2 2 =? 2 then Z.lor (Z.shiftl 2 2) (extract32 s1 0 2)
  else s1.

Definition combine_cacheattrs (s1 s2 : ARMCacheAttrs) : ARMCacheAttrs :=
  let s1lo := extract32 (attrs s1) 0 4 in
  let s2lo := extract32 (attrs s2) 0 4 in
  let s1hi := extract32 (attrs s1) 4 4 in
  let s2hi := extract32 (attrs s2) 4 4 in
  let share :=
    if (shareability s1 =? 2) || (shareability s2 =? 2) then 2
    else if (shareability s1 =? 3) || (shareability s2 =? 3) then 3 else 0 in
  if (s1hi =? 0) || (s2hi =? 0) then
    mk_attrs (if (s1lo =? 0) || (s2lo =? 0) then 0
              else if (s1lo =? 4) || (s2lo =? 4) then 4
              else if (s1lo =? 8) || (s2lo =? 8) then 8 else 0xc) 2
  else
    let a := Z.lor (Z.shiftl (combine_cacheattr_nibble s1hi s2hi) 4)
               (combine_cacheattr_nibble s1lo s2lo) in
    mk_attrs a (if a =? 0x44 then 2 else share).

(** ** The dispatch *)

(** A translation of one stage. *)
Definition get_phys_addr_stage1 (address access_type : Z) (mmu_idx : ARMMMUIdx) : A xlat :=
  user ← regime_is_user mmu_idx;
  v8 ← arm_feature_ FEATURE_V8;
  address ← (if (address <? 0x02000000) && negb (bool_decide (mmu_idx = S2NS)) && negb v8 then
               el ← regime_el mmu_idx;
               fcse ← gets (if el =? 3 then fcseidr_s else fcseidr_ns);
               mret (wrap W (address + fcse))
             else mret address);
  pmsa ← arm_feature_ FEATURE_PMSA;
  if (pmsa : bool) then get_phys_addr_pmsa address access_type mmu_idx
  else
    off ← regime_translation_disabled mmu_idx;
    if (off : bool)
    then mret (mk_xlat None (Some address) (Some (PAGE_READ .| PAGE_WRITE .| PAGE_EXEC)%c) None)
    else
      lpae ← regime_using_lpae_format mmu_idx;
      if (lpae : bool) then get_phys_addr_lpae address access_type mmu_idx
      else
        sctlr ← regime_sctlr mmu_idx;
        r ← (if bit_any sctlr SCTLR_XP
             then get_phys_addr_v6 (u32 address) access_type mmu_idx
             else get_phys_addr_v5 (u32 address) access_type mmu_idx);
        mret (walk_xlat r).

(** [attrs] is what [cacheattrs] points to, zeroed by the caller. *)
Definition get_phys_addr (address access_type : Z) (mmu_idx : ARMMMUIdx) : A xlat :=
  el2 ← arm_feature_ FEATURE_EL2;
  if bool_decide (mmu_idx = S12NSE0 \/ mmu_idx = S12NSE1) && (el2 : bool) then
    s1 ← get_phys_addr_stage1 address access_type (stage_1_mmu_idx mmu_idx);
    let ipa := default junk (x_phys s1) in
    s2_off ← (if x_fault s1 is Some _ then mret true else regime_translation_disabled S2NS);
    if (s2_off : bool) then mret (mk_xlat (x_fault s1) (Some ipa) (x_prot s1) (x_attrs s1))
    else
      s2 ← get_phys_addr_lpae ipa access_type S2NS;
      hcr ← gets hcr_el2;
      let prot := p1 ← x_prot s1; p2 ← x_prot s2; Some (Z.land p1 p2) in
      let a1 := if bit_any hcr HCR_DC then mk_attrs 0xff 0
                else default (mk_attrs 0 0) (x_attrs s1) in
      mret (mk_xlat (x_fault s2) (x_phys s2) prot
              (if x_fault s2 is Some _ then x_attrs s1
               else Some (combine_cacheattrs a1 (default (mk_attrs 0 0) (x_attrs s2)))))
  else get_phys_addr_stage1 address access_type (stage_1_mmu_idx mmu_idx).
End translate.

(** ** The walks only read *)

(** [m] returns, leaves the processor as it is and gives a result with [P]. *)
Definition ro {T} (env : CPUARMState) (m : A T) (P : T -> Prop) : Prop :=
  exists a, m env = Done (a, env) /\ P a.

Definition regular (mmu_idx : ARMMMUIdx) : Prop := mmu_idx <> S12NSE0 /\ mmu_idx <> S12NSE1.

#[export] Instance regular_dec i : Decision (regular i).
Proof. unfold regular. apply _. Defined.

Create HintDb arm_ro.

Section ro.
Context (env : CPUARMState).

Lemma ro_ret {T} (a : T) (P : T -> Prop) : P a -> ro env (mret a) P.
Proof. by exists a. Qed.

Lemma ro_gets {T U} (f : CPUARMState -> T) (k : T -> A U) P :
  ro env (k (f env)) P -> ro env (gets f ≫= k) P.
Proof. done. Qed.

Lemma ro_gets_last {T} (f : CPUARMState -> T) (P : T -> Prop) : P (f env) -> ro env (gets f) P.
Proof. by eexists. Qed.

Lemma ro_bind {T U} (m : A T) (k : T -> A U) (P : T -> Prop) Q :
  ro env m P -> (forall a, P a -> ro env (k a) Q) -> ro env (m ≫= k) Q.
Proof.
  intros (a & Ha & HP) Hk. destruct (Hk a HP) as (b & Hb & HQ). exists b.
  unfold mbind, C_bind. by rewrite Ha.
Qed.

Lemma ro_walk_bind {T U} (m : walk T) (k : T -> walk U) (P : T -> Prop) (Q : _ + U -> Prop) :
  ro env m (fun r => match r with inr a => P a | inl _ => True end) -> (forall fi, Q (inl fi)) ->
  (forall a, P a -> ro env (k a) Q) -> ro env (walk_bind m k) Q.
Proof.
  intros Hm Hf Hk. unfold walk_bind. eapply ro_bind; [exact Hm|].
  intros [fi|a] Ha; [by apply ro_ret|by apply Hk].
Qed.

Lemma ro_mono {T} (m : A T) (P Q : T -> Prop) : ro env m P -> (forall a, P a -> Q a) -> ro env m Q.
Proof. intros (a & Ha & HP) H. exists a. auto. Qed.

Lemma ro_fault {T} ty level domain (P : _ + T -> Prop) :
  P (inl (mk_fi ty level domain)) -> ro env (do_fault ty level domain) P.
Proof. apply ro_ret. Qed.
End ro.

Ltac ro_step :=
  lazymatch goal with
  | |- ro _ (mret _) _ => apply ro_ret
  | |- ro _ (do_fault _ _ _) _ => apply ro_fault
  | |- ro _ (gets _ ≫= _) _ => apply ro_gets
  | |- ro _ (arm_feature_ _ ≫= _) _ => apply ro_gets
  | |- ro _ (gets _) _ => apply ro_gets_last
  | |- ro _ (arm_feature_ _) _ => apply ro_gets_last
  | |- ro _ (walk_bind _ _) _ =>
      first [eapply ro_walk_bind; [solve [eauto with arm_ro]|done|]
            |apply (ro_walk_bind _ _ _ (fun _ => True)); [|done|]]
  | |- ro _ (_ ≫= _) _ =>
      first [eapply ro_bind; [solve [eauto with arm_ro]|]
            |apply (ro_bind _ _ _ (fun _ => True))]
  | |- ro _ (if ?b then _ else _) _ => let E := fresh "E" in destruct b eqn:E
  | |- forall _, _ => intros ?
  | |- _ => solve [eauto with arm_ro]
  end.

Ltac ros := repeat ro_step.

Lemma ro_secure env : ro env arm_is_secure_below_el3 (fun _ => True).
Proof. unfold arm_is_secure_below_el3. ros; done. Qed.
#[export] Hint Resolve ro_secure : arm_ro.

Lemma ro_aa64 env el : ro env (arm_el_is_aa64 el) (fun _ => True).
Proof. unfold arm_el_is_aa64. ros; done. Qed.
#[export] Hint Resolve ro_aa64 : arm_ro.

Lemma ro_el env i : regular i -> ro env (regime_el i) (fun _ => True).
Proof. intros [? ?]. destruct i; try done; cbn; ros; done. Qed.
#[export] Hint Resolve ro_el : arm_ro.

Lemma ro_sctlr env i : regular i -> ro env (regime_sctlr i) (fun _ => True).
Proof. intros Hi. unfold regime_sctlr. ros; done. Qed.
#[export] Hint Resolve ro_sctlr : arm_ro.

Lemma ro_disabled env i : regular i -> ro env (regime_translation_disabled i) (fun _ => True).
Proof. intros Hi. unfold regime_translation_disabled. ros; done. Qed.
#[export] Hint Resolve ro_disabled : arm_ro.

Lemma regular_s2 : regular S2NS.
Proof. done. Qed.
#[export] Hint Resolve regular_s2 : arm_ro.

Lemma ro_big_endian env i : regular i -> ro env (regime_translation_big_endian i) (fun _ => True).
Proof. intros Hi. unfold regime_translation_big_endian. ros; done. Qed.
#[export] Hint Resolve ro_big_endian : arm_ro.

Lemma ro_tcr env i : regular i -> ro env (regime_tcr i) (fun _ => True).
Proof. intros Hi. unfold regime_tcr. ros; done. Qed.
#[export] Hint Resolve ro_tcr : arm_ro.

Lemma ro_ttbr env i n : regular i -> ro env (regime_ttbr i n) (fun _ => True).
Proof. intros Hi. unfold regime_ttbr. ros; done. Qed.
#[export] Hint Resolve ro_ttbr : arm_ro.

Lemma ro_lpae_format env i : regular i -> ro env (regime_using_lpae_format i) (fun _ => True).
Proof. intros Hi. unfold regime_using_lpae_format. ros; done. Qed.
#[export] Hint Resolve ro_lpae_format : arm_ro.

Lemma ro_is_user env i : regular i -> ro env (regime_is_user i) (fun _ => True).
Proof. intros [? ?]. destruct i; try done; cbn; ros; done. Qed.
#[export] Hint Resolve ro_is_user : arm_ro.

Lemma ro_dacr env i : regular i -> ro env (regime_dacr i) (fun _ => True).
Proof. intros Hi. unfold regime_dacr. ros; done. Qed.
#[export] Hint Resolve ro_dacr : arm_ro.

(** The access permissions are three bits (two in the simplified model), so no
    permission function aborts. *)
Lemma ro_ap env i ap dp :
  regular i -> 0 <= ap < 8 -> ro env (ap_to_rw_prot i ap dp) (fun _ => True).
Proof. intros Hi Hap. unfold ap_to_rw_prot. ros; try done. lia. Qed.
#[export] Hint Resolve ro_ap : arm_ro.

Lemma ro_simple_ap env i ap :
  regular i -> 0 <= ap < 4 -> ro env (simple_ap_to_rw_prot i ap) (fun _ => True).
Proof.
  intros Hi Hap. unfold simple_ap_to_rw_prot, simple_ap_to_rw_prot_is_user. ros; try done. lia.
Qed.
#[export] Hint Resolve ro_simple_ap : arm_ro.

(** ** What a short-descriptor walk gives *)

(** A physical address of forty bits, with the offset of the smallest page. *)
Definition page_ok (address pa : Z) : Prop := wrap 10 pa = wrap 10 address /\ wrap 40 pa = pa.

Lemma frame_page desc address n m :
  10 <= n -> 0 <= m -> n + m <= 40 ->
  page_ok address (Z.lor (Z.land desc (Z.shiftl (Z.ones m) n)) (Z.land address (Z.ones n))).
Proof. intros. split; bits. Qed.

Lemma frame_super desc address :
  page_ok address (Z.lor (Z.lor (Z.lor (Z.land desc (Z.shiftl (Z.ones 8) 24)) (Z.land address (Z.ones 24)))
    (Z.shiftl (extract32 desc 20 4) 32)) (Z.shiftl (extract32 desc 5 4) 36)).
Proof. unfold extract32. split; bits. Qed.

Lemma low_range x n : 0 <= n -> 0 <= Z.land x (Z.ones n) < 2 ^ n.
Proof. intros. rewrite Z.land_ones by done. apply Z.mod_pos_bound. lia. Qed.

Lemma ap_range x y : 0 <= Z.lor (Z.land x 3) (Z.land y 4) < 8.
Proof.
  change 3 with (Z.ones 2). change 4 with (Z.shiftl (Z.ones 1) 2).
  replace (Z.lor _ _) with (wrap 3 (Z.lor (Z.land x (Z.ones 2)) (Z.land y (Z.shiftl (Z.ones 1) 2)))) by bits.
  apply wrap_range. lia.
Qed.

Lemma ap_range_low x : 0 <= Z.land x 3 < 8.
Proof. pose proof (low_range x 2). change (Z.ones 2) with 3 in *. lia. Qed.

Lemma frame_1m desc address : page_ok address (Z.lor (Z.land desc 0xfff00000) (Z.land address 0xfffff)).
Proof. apply (frame_page desc address 20 12); lia. Qed.
Lemma frame_64k desc address : page_ok address (Z.lor (Z.land desc 0xffff0000) (Z.land address 0xffff)).
Proof. apply (frame_page desc address 16 16); lia. Qed.
Lemma frame_4k desc address : page_ok address (Z.lor (Z.land desc 0xfffff000) (Z.land address 0xfff)).
Proof. apply (frame_page desc address 12 20); lia. Qed.
Lemma frame_1k desc address : page_ok address (Z.lor (Z.land desc 0xfffffc00) (Z.land address 0x3ff)).
Proof. apply (frame_page desc address 10 22); lia. Qed.
#[export] Hint Resolve ap_range ap_range_low frame_1m frame_64k frame_4k frame_1k : arm_ro.

Definition walk_ok (address access_type : Z) (r : ARMMMUFaultInfo + Z * Z) : Prop :=
  match r with
  | inr (pa, prot) => page_ok address pa /\ bit_any prot (Z.shiftl 1 access_type) = true
  | inl _ => True
  end.

Section walks.
Context (W : Z) (get_phys_addr_lpae get_phys_addr_pmsa : Z -> Z -> ARMMMUIdx -> A xlat) (junk : Z).
Context (env : CPUARMState).
Hypothesis lpae_reads : forall a t i, regular i -> ro env (get_phys_addr_lpae a t i) (fun _ => True).

Lemma ro_table i a : regular i -> ro env (get_level1_table_address i a) (fun _ => True).
Proof. intros Hi. unfold get_level1_table_address. ros; done. Qed.

Lemma ro_ptw i a : regular i -> ro env (S1_ptw_translate get_phys_addr_lpae junk i a) (fun _ => True).
Proof.
  intros Hi. unfold S1_ptw_translate. apply (ro_bind _ _ _ (fun _ => True)).
  { ros; done. }
  intros off _. ro_step; [by ros|]. ro_step. eapply ro_bind; [by apply lpae_reads|].
  intros x _. destruct (x_fault x); ros; done.
Qed.

Lemma ro_ldl_ptw a b i :
  regular i -> ro env (arm_ldl_ptw get_phys_addr_lpae junk a b i) (fun _ => True).
Proof.
  intros Hi. unfold arm_ldl_ptw. eapply ro_bind; [by apply ro_ptw|].
  intros [ty|addr] _; [by ros|]. ros. unfold address_space_ldl. by ros.
Qed.

Lemma ro_desc a i l d :
  regular i -> ro env (ldl_desc get_phys_addr_lpae junk a i l d) (fun _ => True).
Proof.
  intros Hi. unfold ldl_desc. eapply ro_bind; [by apply ro_ldl_ptw|]. intros [ty|desc] _; by ros.
Qed.

Lemma ro_desc1 a i : regular i -> ro env (level1_desc get_phys_addr_lpae junk i a) (fun _ => True).
Proof.
  intros Hi. unfold level1_desc. eapply ro_bind; [by apply ro_table|].
  intros [t|] _; [by apply ro_desc|by ros].
Qed.
Hint Resolve ro_desc ro_desc1 : arm_ro.

(** A result of one of the helpers: the address fits the page, the permissions three
    bits. *)
Definition v5_ok (address : Z) (r : ARMMMUFaultInfo + Z * Z) : Prop :=
  match r with inr (pa, ap) => page_ok address pa /\ 0 <= ap < 8 | inl _ => True end.

Lemma sum_true {X Y} (r : X + Y) : True -> match r with inl _ => True | inr _ => True end.
Proof. by destruct r. Qed.

Lemma ro_v5_page i a desc type d :
  regular i -> ro env (v5_page get_phys_addr_lpae junk i a desc type d) (v5_ok a).
Proof.
  intros Hi. unfold v5_page. eapply (ro_walk_bind _ _ _ (fun _ => True)); [|done|].
  { eapply ro_mono; [by apply ro_desc|]. intros; by apply sum_true. }
  intros desc2 _. ros; unfold v5_ok; auto with arm_ro.
Qed.

Lemma ro_v5 i a t :
  regular i -> ro env (get_phys_addr_v5 get_phys_addr_lpae junk a t i) (walk_ok a t).
Proof.
  intros Hi. unfold get_phys_addr_v5. eapply (ro_walk_bind _ _ _ (fun _ => True)); [|done|].
  { eapply ro_mono; [by apply ro_desc1|]. intros; by apply sum_true. }
  intros desc _. eapply ro_bind; [by apply ro_dacr|]. intros dacr _.
  ro_step; [by ros|]. ro_step; [by ros|].
  eapply (ro_walk_bind _ _ _ (fun '(pa, ap) => page_ok a pa /\ 0 <= ap < 8)); [|done|].
  { ro_step; [|by apply ro_v5_page]. ros; auto with arm_ro. }
  intros [pa ap] [Hpa Hap]. eapply ro_bind; [by apply ro_ap|]. intros prot _. ros; done.
Qed.

Definition v6_ok (address : Z) (r : Z * Z * Z * Z) : Prop :=
  let '(pa, ap, xn, pxn) := r in page_ok address pa /\ 0 <= ap < 8.

Lemma v6_section_ok a desc : v6_ok a (v6_section a desc).
Proof.
  unfold v6_section, v6_ok. split; [|apply ap_range]. case_match; [apply frame_super|apply frame_1m].
Qed.

Lemma ro_v6_page i a desc d :
  regular i -> ro env (v6_page get_phys_addr_lpae junk i a desc d)
    (fun r => match r with inr x => v6_ok a x | inl _ => True end).
Proof.
  intros Hi. unfold v6_page. ro_step. eapply (ro_walk_bind _ _ _ (fun _ => True)); [|done|].
  { eapply ro_mono; [by apply ro_desc|]. intros; by apply sum_true. }
  intros desc2 _. ros; unfold v6_ok; auto with arm_ro.
Qed.

Lemma ro_v6_prot i t ap xn pxn dp l d :
  regular i -> 0 <= ap < 8 -> 0 <= t < 3 -> ro env (v6_prot i t ap xn pxn dp l d)
    (fun r => match r with inr p => bit_any p (Z.shiftl 1 t) = true | inl _ => True end).
Proof.
  intros Hi Hap Ht. assert (Hap' : 0 <= Z.shiftr ap 1 < 4).
  { rewrite Z.shiftr_div_pow2 by lia. change (2 ^ 1) with 2. split; [apply Z.div_pos; lia|].
    apply Z.div_lt_upper_bound; lia. }
  unfold v6_prot. ro_step.
  { ros. below_cases 3%nat Ht; done. }
  eapply (ro_bind _ _ _ (fun _ => True)); [by ros|]. intros priv _. ro_step; [by ros|].
  ro_step. eapply (ro_bind _ _ _ (fun _ => True)); [by ros|]. intros afe _.
  eapply (ro_walk_bind _ _ _ (fun _ => True)); [|done|].
  { ro_step; [ro_step; [by ros|]|]; by ros. }
  intros prot _. ros; done.
Qed.

Lemma ro_v6 i a t :
  regular i -> 0 <= t < 3 -> ro env (get_phys_addr_v6 get_phys_addr_lpae junk a t i) (walk_ok a t).
Proof.
  intros Hi Ht. unfold get_phys_addr_v6. eapply (ro_walk_bind _ _ _ (fun _ => True)); [|done|].
  { eapply ro_mono; [by apply ro_desc1|]. intros; by apply sum_true. }
  intros desc _. ro_step. ro_step; [by ros|]. eapply ro_bind; [by apply ro_dacr|]. intros dacr _.
  ro_step; [by ros|]. eapply (ro_walk_bind _ _ _ (v6_ok a)); [|done|].
  { ro_step; [by apply ro_v6_page|]. ros. apply v6_section_ok. }
  intros [[[pa ap] xn] pxn] [Hpa Hap].
  eapply (ro_walk_bind _ _ _ (fun p => bit_any p (Z.shiftl 1 t) = true)); [by apply ro_v6_prot|done|].
  intros prot Hp. by ros.
Qed.

(** ** The dispatch *)

Hypothesis pmsa_reads : forall a t i, regular i -> ro env (get_phys_addr_pmsa a t i) (fun _ => True).

Lemma ro_stage1 i a t :
  regular i -> 0 <= t < 3 ->
  ro env (get_phys_addr_stage1 W get_phys_addr_lpae get_phys_addr_pmsa junk a t i) (fun _ => True).
Proof.
  intros Hi Ht. unfold get_phys_addr_stage1. ro_step. intros user _. ro_step.
  eapply (ro_bind _ _ _ (fun _ => True)); [by ros|]. intros a' _. ro_step. ro_step; [by apply pmsa_reads|].
  eapply ro_bind; [by apply ro_disabled|]. intros off _. ro_step; [by ros|].
  eapply ro_bind; [by apply ro_lpae_format|]. intros lpae _. ro_step; [by apply lpae_reads|].
  eapply ro_bind; [by apply ro_sctlr|]. intros sctlr _.
  eapply (ro_bind _ _ _ (fun _ => True)); [|by ros].
  ro_step; eapply ro_mono; [by apply ro_v6|done|by apply ro_v5|done].
Qed.

Lemma regular_stage1 i : regular (stage_1_mmu_idx i).
Proof. by destruct i. Qed.

Lemma ro_get_phys_addr i a t :
  0 <= t < 3 ->
  ro env (get_phys_addr W get_phys_addr_lpae get_phys_addr_pmsa junk a t i) (fun _ => True).
Proof.
  intros Ht. unfold get_phys_addr. ro_step. ro_step; [|by apply ro_stage1, Ht; apply regular_stage1].
  eapply ro_bind; [by apply ro_stage1, Ht; apply regular_stage1|]. intros s1 _.
  apply (ro_bind _ _ _ (fun _ => True)); [destruct (x_fault s1); by ros|]. intros off _.
  ro_step; [by ros|]. eapply ro_bind; [by apply lpae_reads|]. intros s2 _. by ros.
Qed.

(** Without protection unit and long descriptors a walk says nothing about the
    cacheability of the page. *)
Lemma short_no_attrs i a t :
  regular i -> 0 <= t < 3 -> features env FEATURE_PMSA = false ->
  ro env (regime_using_lpae_format i) (fun b => b = false) ->
  ro env (get_phys_addr W get_phys_addr_lpae get_phys_addr_pmsa junk a t i)
    (fun x => x_attrs x = None).
Proof.
  intros Hi Ht Hpmsa Hlpae. unfold get_phys_addr. ro_step.
  rewrite bool_decide_false by (destruct Hi; tauto). cbn [andb].
  replace (stage_1_mmu_idx i) with i by (destruct Hi; by destruct i).
  unfold get_phys_addr_stage1. ro_step. intros user _. ro_step.
  eapply (ro_bind _ _ _ (fun _ => True)); [by ros|]. intros a' _. ro_step. rewrite Hpmsa.
  eapply ro_bind; [by apply ro_disabled|]. intros off _. ro_step; [by ros|].
  eapply ro_bind; [exact Hlpae|]. intros lpae ->.
  eapply ro_bind; [by apply ro_sctlr|]. intros sctlr _.
  eapply (ro_bind _ _ _ (fun _ => True)).
  - ro_step; eapply ro_mono; [by apply ro_v6|done|by apply ro_v5|done].
  - intros [fi|[pa prot]] _; by ros.
Qed.
End walks.

(** ** The result of a short-descriptor walk *)

(** A short-descriptor walk, of either format and for any table contents, returns
    without changing the processor; when it finds a page the physical address has at
    most forty bits and the page offset of the virtual one, and the permissions allow
    the access. *)
Theorem arm_walk_sound lpae junk env address access_type i (v6 : bool) :
  regular i -> 0 <= access_type < 3 ->
  (forall a t i, regular i -> ro env (lpae a t i) (fun _ => True)) ->
  exists r,
    (if v6 then get_phys_addr_v6 else get_phys_addr_v5) lpae junk address access_type i env
      = Done (r, env) /\
    match r with
    | inl _ => True
    | inr (pa, prot) => pa mod 2 ^ 10 = address mod 2 ^ 10 /\ 0 <= pa < 2 ^ 40 /\
        bit_any prot (Z.shiftl 1 access_type) = true
    end.
Proof.
  intros Hi Ht Hl.
  assert (Hro : ro env ((if v6 then get_phys_addr_v6 else get_phys_addr_v5) lpae junk address access_type i)
    (walk_ok address access_type)) by (destruct v6; [by apply ro_v6|by apply ro_v5]).
  destruct Hro as (r & Hr & Hok). exists r. split; [done|].
  destruct r as [fi|[pa prot]]; [done|]. destruct Hok as [[Ho Hb] Hp]. split; [done|]. split; [|done].
  rewrite <- Hb. apply wrap_range. lia.
Qed.

(** A processor with a short-descriptor table at 0x4000 whose section 1 maps 0x100000
    to 0x80000000, as normal write-back memory (TEX 1, C and B set), with the
    permissions of a client domain. *)
Definition arm_env (xp : bool) : CPUARMState :=
  mk_arm (fun f => bool_decide (f = FEATURE_V6 \/ f = FEATURE_V6K \/ f = FEATURE_EL3)) false 0 0x13
    (fun _ => Z.lor 0x5 (if xp then SCTLR_XP else 0)) (fun _ => mk_tcr 0 0 0xffffc000)
    (mk_tcr 0 0 0) (fun _ => 0x4000) (fun _ => 0) 0 (fun _ => 0) 0 0 0 1 1 0 0 (fun _ => 0)
    (replicate 8 0) 0 0 0 [] [] [] (fun _ => []) (fun _ => []) 0 [] [] 0 None
    (fun _ a => Some (if (0x4004 <=? a) && (a <? 0x4008)
                      then u8 (Z.shiftr 0x80001C0E (8 * (a - 0x4004))) else 0)) 2.

Definition no_walk : Z -> Z -> ARMMMUIdx -> A xlat := fun _ _ _ => mret (mk_xlat None None None None).

(** The result alone. *)
Definition arm_result {T} (m : A T) (env : CPUARMState) : option T :=
  match m env with Done (a, _) => Some a | _ => None end.

Lemma arm_result_Done {T} (m : A T) env env' a b :
  m env = Done (a, env') -> arm_result m env = Some b -> a = b.
Proof. unfold arm_result. intros ->. by intros [= <-]. Qed.

Lemma arm_walk_sound_witness :
  exists r, get_phys_addr_v6 no_walk 0 0x123456 1 S1SE1 (arm_env true) = Done (r, arm_env true) /\
    r = inr (0x80023456, 7).
Proof.
  destruct (arm_walk_sound no_walk 0 (arm_env true) 0x123456 1 S1SE1 true) as (r & Hr & _);
    [done|lia|intros; by eexists|]. exists r. split; [done|].
  apply (arm_result_Done _ _ _ _ _ Hr). by vm_compute.
Defined.
