(* ===== verification/ArmLpae.v ===== *)
(** * The long-descriptor walk of ARM

    [get_phys_addr_lpae] of [target/arm/helper.c] with the functions it calls: the
    permissions of the two stages, the check of a stage 2 set-up, the attributes of
    stage 2, and the eight-byte loads of the walk, which stage 2 translates in turn.

    A shift by as many bits as the operand has is undefined; [extract64] and [arm_pamax]
    assert their arguments. *)

From S2P Require Import Prelude Bits ArmMmu.

(** ** Constants and state *)

Definition SCTLR_WXN := 0x80000.
Definition SCTLR_UWXN := 0x100000.
Definition SCR_SIF := 0x200.
Definition HCR_CD := 0x100000000.
Definition TTBCR_N := 0x7.

Definition extract64 (value start length : Z) : A Z :=
  if (0 <=? start) && (0 <? length) && (length <=? 64 - start)
  then mret (extract32 value start length) else abort_.

(** A field of one bit. *)
Definition flag_bit (value n : Z) : bool := negb (extract32 value n 1 =? 0).

(** [x >> k] of a [w]-bit operand, and [(1ULL << k) - 1]. *)
Definition shift_right (w x k : Z) : A Z :=
  access_ (if (0 <=? k) && (k <? w) then Some (Z.shiftr x k) else None).
Definition low_mask (k : Z) : A Z :=
  access_ (if (0 <=? k) && (k <? 64) then Some (Z.ones k) else None).

Definition arm_is_el3_or_mon : A bool :=
  el3 ← arm_feature_ FEATURE_EL3;
  gets (fun env =>
    el3 && (if aarch64_ env then extract32 (pstate env) 2 2 =? 3
            else Z.land (uncached_cpsr env) 0x1f =? 0x16)).

Definition arm_is_secure : A bool :=
  mon ← arm_is_el3_or_mon; if (mon : bool) then mret true else arm_is_secure_below_el3.

Definition arm_pamax : A Z :=
  mmfr0 ← gets id_aa64mmfr0;
  match [32; 36; 40; 42; 44; 48] !! Z.to_nat (extract32 mmfr0 0 4) with
  | Some pamax => mret pamax
  | None => abort_
  end.

(** ** The control register of the tables *)

(** The register after a write, and after a reset. *)
Definition vmsa_ttbcr_raw_write (value : Z) : A TCR :=
  gets (fun env =>
    let maskshift := extract32 value 0 3 in
    let value :=
      if features env FEATURE_V8 then value
      else if features env FEATURE_LPAE && bit_any value TTBCR_EAE
      then Z.ldiff value (Z.shiftl 7 19 .| Z.shiftl 3 14 .| Z.shiftl 0xf 3)%c
      else if features env FEATURE_EL3 then Z.land value (TTBCR_PD1 .| TTBCR_PD0 .| TTBCR_N)%c
      else Z.land value TTBCR_N in
    mk_tcr value (u32 (Z.lnot (Z.shiftr 0xffffffff maskshift))) (u32 (Z.lnot (Z.shiftr 0x3fff maskshift)))).

Definition vmsa_ttbcr_reset : TCR := mk_tcr 0 0 0xffffc000.

(** ** Permissions and attributes *)

Definition get_S2prot (s2ap : Z) (xn : bool) : A Z :=
  let prot := Z.lor (if bit_any s2ap 1 then PAGE_READ else 0) (if bit_any s2ap 2 then PAGE_WRITE else 0) in
  if xn then mret prot
  else
    aa64 ← arm_el_is_aa64 2;
    mret (if (aa64 : bool) || bit_any prot PAGE_READ then Z.lor prot PAGE_EXEC else prot).

(** A bit of the system control register, on processors with the large extension. *)
Definition wxn_bit (have_wxn : bool) (mmu_idx : ARMMMUIdx) (mask : Z) : A bool :=
  if have_wxn then sctlr ← regime_sctlr mmu_idx; mret (bit_any sctlr mask) else mret false.

(** [xn] and [wxn] after the rules of the architecture. *)
Definition S1_never (mmu_idx : ARMMMUIdx) (is_aa64 is_user have_wxn : bool) (user_rw prot_rw : Z)
    (xn pxn wxn : bool) : A (bool * bool) :=
  v7 ← arm_feature_ FEATURE_V7;
  if is_aa64 then
    el ← regime_el mmu_idx;
    mret (if (el =? 1) && negb is_user then pxn || bit_any user_rw PAGE_WRITE else xn, wxn)
  else if (v7 : bool) then
    el ← regime_el mmu_idx;
    if (el =? 1) || (el =? 3) then
      if is_user then mret (xn || negb (bit_any user_rw PAGE_READ), wxn)
      else
        uwxn ← wxn_bit have_wxn mmu_idx SCTLR_UWXN;
        mret (xn || negb (bit_any prot_rw PAGE_READ) || pxn
              || ((uwxn : bool) && bit_any user_rw PAGE_WRITE), wxn)
    else mret (xn, wxn)
  else mret (false, false).

Definition get_S1prot (mmu_idx : ARMMMUIdx) (is_aa64 : bool) (ap : Z) (ns xn pxn : bool) : A Z :=
  is_user ← regime_is_user mmu_idx;
  if decide (mmu_idx = S2NS) then abort_
  else
    user_rw ← simple_ap_to_rw_prot_is_user ap true;
    prot_rw ← (if (is_user : bool) then mret user_rw else simple_ap_to_rw_prot_is_user ap false);
    secure ← (if ns then arm_is_secure else mret false);
    scr ← gets scr_el3;
    if (secure : bool) && bit_any scr SCR_SIF then mret prot_rw
    else
      have_wxn ← arm_feature_ FEATURE_LPAE;
      wxn ← wxn_bit have_wxn mmu_idx SCTLR_WXN;
      r ← S1_never mmu_idx is_aa64 is_user have_wxn user_rw prot_rw xn pxn wxn;
      let '(xn, wxn) := r in
      mret (if (xn : bool) || ((wxn : bool) && bit_any prot_rw PAGE_WRITE) then prot_rw
            else Z.lor prot_rw PAGE_EXEC).

Definition convert_stage2_attrs (s2attrs : Z) : A Z :=
  hcr ← gets hcr_el2;
  let hiattr := extract32 s2attrs 2 2 in
  let loattr := extract32 s2attrs 0 2 in
  let '(hiattr, loattr, hihint, lohint) :=
    if hiattr =? 0 then (hiattr, loattr, 0, 0)
    else if bit_any hcr HCR_CD then (1, 1, 0, 0)
    else (hiattr, loattr, if hiattr =? 1 then 0 else 3, if loattr =? 1 then 0 else 3) in
  mret (Z.shiftl hiattr 6 .| Z.shiftl hihint 4 .| Z.shiftl loattr 2 .| lohint)%c.

Definition check_s2_mmu_setup (is_aa64 : bool) (level inputsize stride : Z) : A bool :=
  if level <? 0 then mret false
  else
    let startsizecheck := inputsize - ((3 - level) * stride + (stride + 3)) in
    if (startsizecheck <? 1) || (stride + 4 <? startsizecheck) then mret false
    else if is_aa64 then
      pamax ← arm_pamax;
      bad ← (if stride =? 13 then mret ((level =? 0) || ((level =? 1) && (pamax <=? 42)))
             else if stride =? 11 then mret ((level =? 0) || ((level =? 1) && (pamax <=? 40)))
             else if stride =? 9 then mret ((level =? 0) && (pamax <=? 42))
             else abort_);
      if (bad : bool) then mret false
      else if pamax <? inputsize then
        el1 ← arm_el_is_aa64 1; mret (negb ((el1 : bool) || (40 <? inputsize)))
      else mret true
    else if stride =? 9 then mret (negb (level =? 0)) else abort_.

(** ** The translation regime *)

Record lpae_regime := mk_regime {
  lr_idx : ARMMMUIdx;
  lr_el : Z;
  lr_tcr : Z;
  lr_aarch64 : bool
}.

Definition lpae_regime_of (mmu_idx : ARMMMUIdx) : A lpae_regime :=
  tcr ← regime_tcr mmu_idx;
  el ← regime_el mmu_idx;
  aarch64 ← arm_el_is_aa64 el;
  mret (mk_regime mmu_idx el (raw_tcr tcr) aarch64).

Definition is_s2 (r : lpae_regime) : bool := bool_decide (lr_idx r = S2NS).

Definition tbi (r : lpae_regime) (address : Z) : Z :=
  if lr_aarch64 r then
    8 * (if 1 <? lr_el r then (if is_s2 r then 0 else extract32 (lr_tcr r) 20 1)
         else if flag_bit address 55 then extract32 (lr_tcr r) 38 1 else extract32 (lr_tcr r) 37 1)
  else 0.

Definition ttbr1_valid (r : lpae_regime) : bool :=
  if lr_aarch64 r then negb (1 <? lr_el r) else negb (lr_el r =? 2).

Definition addrsize (r : lpae_regime) : Z :=
  if lr_aarch64 r then 64 else if is_s2 r then 40 else 32.

Definition clamp_tsz (t : Z) : Z := Z.max (Z.min t 39) 16.

(** [t0sz] of a stage 2 in AArch32 is a signed field of four bits. *)
Definition t0sz (r : lpae_regime) : Z :=
  if lr_aarch64 r then clamp_tsz (extract32 (lr_tcr r) 0 6)
  else if is_s2 r then
    let v := extract32 (lr_tcr r) 0 4 in (if 8 <=? v then v - 16 else v) + 8
  else extract32 (lr_tcr r) 0 3.

Definition t1sz (r : lpae_regime) : Z :=
  let t := extract32 (lr_tcr r) 16 6 in if lr_aarch64 r then clamp_tsz t else t.

Section lpae.
Context (W : Z).

(** The table of the address: [false] for TTBR0, [true] for TTBR1. *)
Definition ttbr_select (r : lpae_regime) (address : Z) : A (option bool) :=
  in0 ← (if t0sz r =? 0 then mret false
         else v ← extract64 address (addrsize r - t0sz r) (t0sz r - tbi r address); mret (v =? 0));
  if (in0 : bool) then mret (Some false)
  else
    in1 ← (if ttbr1_valid r && negb (t1sz r =? 0) then
             v ← extract64 (wrap W (Z.lnot address)) (addrsize r - t1sz r) (t1sz r - tbi r address);
             mret (v =? 0)
           else mret false);
    mret (if (in1 : bool) then Some true
          else if t0sz r =? 0 then Some false
          else if (t1sz r =? 0) && ttbr1_valid r then Some true
          else None).

Definition epd (r : lpae_regime) (select : bool) : bool :=
  if select then flag_bit (lr_tcr r) 23 else (lr_el r <? 2) && flag_bit (lr_tcr r) 7.

Definition inputsize (r : lpae_regime) (select : bool) : Z :=
  addrsize r - (if select then t1sz r else t0sz r).

Definition stride (r : lpae_regime) (select : bool) : Z :=
  let tg := if select then extract32 (lr_tcr r) 30 2 else extract32 (lr_tcr r) 14 2 in
  if tg =? (if select then 3 else 1) then 13 else if tg =? (if select then 1 else 2) then 11 else 9.

(** [level] is still 0 or 1 when the set-up is refused. *)
Definition start_level (r : lpae_regime) (select : bool) : walk Z :=
  let level := if lr_aarch64 r then 0 else 1 in
  if is_s2 r then
    let sl0 := extract32 (lr_tcr r) 6 2 in
    let startlevel := u32 ((if negb (lr_aarch64 r) || (stride r select =? 9) then 2 else 3) - sl0) in
    ok ← check_s2_mmu_setup (lr_aarch64 r) (i32 startlevel) (inputsize r select) (stride r select);
    if (ok : bool) then mret (inr startlevel) else do_fault ARMFault_Translation level 0
  else mret (inr (4 - Z.quot (inputsize r select - 4) (stride r select))).

(** ** The walk *)

(** [ptw] is [S1_ptw_translate] in the regime of the walk, which translates the address
    of a descriptor with the walk of stage 2; the definitions below close the loop. *)
Context (ptw : Z -> A (ARMFaultType + Z)).

(** The memory core: eight bytes. *)
Definition address_space_ldq (be secure : bool) (addr : Z) : A (option Z) :=
  gets (fun env =>
    bytes ← mapM (fun i => arm_mem env secure (addr + Z.of_nat i)) (seq 0 8);
    Some (u64 (le_val (if be then rev bytes else bytes)))).

Definition arm_ldq_ptw (addr : Z) (is_secure : bool) (mmu_idx : ARMMMUIdx) : A (ARMFaultType + Z) :=
  r ← ptw addr;
  match r with
  | inl ty => mret (inl ty)
  | inr addr =>
      be ← regime_translation_big_endian mmu_idx;
      data ← address_space_ldq be is_secure addr;
      mret match data with
           | Some data => inr data
           | None => inl ARMFault_SyncExternalOnWalk
           end
  end.

(** The attributes of a block or page, with those of the tables above it. *)
Definition leaf_attrs (s2 nstable : bool) (descriptor tableattrs : Z) : Z :=
  let attrs := Z.lor (extract32 descriptor 2 10) (Z.shiftl (extract32 descriptor 52 12) 10) in
  if s2 then attrs
  else
    let attrs := (attrs .| Z.shiftl (extract32 tableattrs 0 2) 11
                  .| Z.shiftl (extract32 tableattrs 3 1) 5)%c in
    let attrs := if flag_bit tableattrs 2 then Z.ldiff attrs (Z.shiftl 1 4) else attrs in
    Z.lor attrs (Z.shiftl (Z.b2z nstable) 3).

(** The loop: physical address, attributes and level.  [n] is [3 - level], the number
    of tables that may still follow.  A fault of the load is reported as a translation
    fault: the jump to [do_fault] replaces its type. *)
Fixpoint lpae_loop (r : lpae_regime) (stride address : Z) (n : nat) (level descaddr indexmask tableattrs : Z)
    : walk (Z * Z * Z) :=
  index ← shift_right W address (stride * (4 - level));
  let descaddr := Z.ldiff (Z.lor descaddr (Z.land index indexmask)) 7 in
  let nstable := flag_bit tableattrs 4 in
  d ← arm_ldq_ptw descaddr (negb nstable) (lr_idx r);
  match d with
  | inl _ => do_fault ARMFault_Translation level 0
  | inr descriptor =>
      if negb (bit_any descriptor 1) || (negb (bit_any descriptor 2) && (level =? 3))
      then do_fault ARMFault_Translation level 0
      else
        grain ← low_mask (stride + 3);
        let descaddrmask := Z.ldiff (Z.ones (if lr_aarch64 r then 48 else 40)) grain in
        let descaddr := Z.land descriptor descaddrmask in
        let leaf : walk (Z * Z * Z) :=
          mask ← low_mask (stride * (4 - level) + 3);
          let page_size := wrap W (mask + 1) in
          let descaddr := Z.lor descaddr (Z.land address (wrap W (page_size - 1))) in
          mret (inr (descaddr, leaf_attrs (is_s2 r) nstable descriptor tableattrs, level)) in
        match n with
        | S n =>
            if bit_any descriptor 2 && (level <? 3)
            then lpae_loop r stride address n (level + 1) descaddr grain
                   (Z.lor tableattrs (extract32 descriptor 59 5))
            else leaf
        | O => leaf
        end
  end.

Definition lpae_prot (r : lpae_regime) (attrs : Z) : A Z :=
  let ap := extract32 attrs 4 2 in
  let xn := flag_bit attrs 12 in
  if is_s2 r then get_S2prot ap xn
  else get_S1prot (lr_idx r) (lr_aarch64 r) ap (flag_bit attrs 3) xn (flag_bit attrs 11).

Definition lpae_cacheattrs (r : lpae_regime) (attrs : Z) : A ARMCacheAttrs :=
  a ← (if is_s2 r then convert_stage2_attrs (extract32 attrs 0 4)
       else
         el ← regime_el (lr_idx r);
         mair ← gets (fun env => mair_el env el);
         extract64 mair (extract32 attrs 0 3 * 8) 8);
  mret (mk_attrs a (extract32 attrs 6 2)).

(** Address, permissions and attributes from the leaf of the walk. *)
Definition lpae_finish (r : lpae_regime) (access_type : Z) (leaf : Z * Z * Z) : walk (Z * Z * ARMCacheAttrs) :=
  let '(descaddr, attrs, level) := leaf in
  if negb (bit_any attrs (Z.shiftl 1 8)) then do_fault ARMFault_AccessFlag level 0
  else
    prot ← lpae_prot r attrs;
    if negb (bit_any prot (Z.shiftl 1 access_type)) then do_fault ARMFault_Permission level 0
    else ca ← lpae_cacheattrs r attrs; mret (inr (descaddr, prot, ca)).

Definition lpae_walk (address access_type : Z) (mmu_idx : ARMMMUIdx) : walk (Z * Z * ARMCacheAttrs) :=
  let address := wrap W address in
  r ← lpae_regime_of mmu_idx;
  select ← ttbr_select r address;
  let level := if lr_aarch64 r then 0 else 1 in
  match select with
  | None => do_fault ARMFault_Translation level 0
  | Some select =>
      ttbr ← regime_ttbr mmu_idx (Z.b2z select);
      if epd r select then do_fault ARMFault_Translation level 0
      else
        level <-? start_level r select;
        indexmask ← low_mask (inputsize r select - stride r select * (4 - level));
        let descaddr := Z.ldiff (extract32 ttbr 0 48) indexmask in
        let tableattrs := if regime_is_secure mmu_idx then 0 else Z.shiftl 1 4 in
        leaf <-? lpae_loop r (stride r select) address (Z.to_nat (3 - level)) level descaddr indexmask tableattrs;
        lpae_finish r access_type leaf
  end.

Definition lpae_xlat (w : ARMMMUFaultInfo + Z * Z * ARMCacheAttrs) : xlat :=
  match w with
  | inl fi => mk_xlat (Some fi) None None None
  | inr (descaddr, prot, ca) => mk_xlat None (Some descaddr) (Some prot) (Some ca)
  end.
End lpae.

(** A walk of stage 2 loads its descriptors at physical addresses; the one of stage 1
    has them translated by stage 2. *)
Definition get_phys_addr_lpae_s2 (W address access_type : Z) (mmu_idx : ARMMMUIdx) : A xlat :=
  w ← lpae_walk W (fun addr => mret (inr addr)) address access_type mmu_idx; mret (lpae_xlat w).

Definition get_phys_addr_lpae (W junk address access_type : Z) (mmu_idx : ARMMMUIdx) : A xlat :=
  w ← lpae_walk W (S1_ptw_translate (get_phys_addr_lpae_s2 W) junk mmu_idx) address access_type mmu_idx;
  mret (lpae_xlat w).

(** ** The walk returns *)

(** The processor of an AArch32 guest.  The fields [T1SZ] have three bits, which
    [vmsa_ttbcr_raw_write] sees to, and the reserved granule field of stage 2 is zero. *)
Record lpae_wf (env : CPUARMState) : Prop := mk_lpae_wf {
  wf_aa32 : features env FEATURE_AARCH64 = false;
  wf_t1sz : forall el, extract32 (raw_tcr (tcr_el env el)) 16 6 < 8;
  wf_granule : extract32 (raw_tcr (vtcr_el2 env)) 14 2 = 0
}.

Lemma extract_range x s n : 0 <= n -> 0 <= extract32 x s n < 2 ^ n.
Proof. apply low_range. Qed.

(** Before version 8 every write of the control register leaves a [T1SZ] of three
    bits, so the hypothesis [wf_t1sz] is an invariant of the guest's writes. *)
Lemma ttbcr_write_t1sz env value :
  features env FEATURE_V8 = false ->
  ro env (vmsa_ttbcr_raw_write value) (fun tcr => extract32 (raw_tcr tcr) 16 6 < 8).
Proof.
  intros H8. unfold vmsa_ttbcr_raw_write. ro_step. cbn [raw_tcr]. rewrite H8.
  assert (Hl : forall v, wrap 3 (extract32 v 16 6) = extract32 v 16 6 -> extract32 v 16 6 < 8).
  { intros v <-. apply wrap_range. lia. }
  apply Hl. unfold extract32. destruct (_ && _); [|destruct (features env FEATURE_EL3)].
  - change ((Z.shiftl 7 19 .| Z.shiftl 3 14 .| Z.shiftl 0xf 3)%c) with
      (Z.lor (Z.lor (Z.shiftl (Z.ones 3) 19) (Z.shiftl (Z.ones 2) 14)) (Z.shiftl (Z.ones 4) 3)). bits.
  - change ((TTBCR_PD1 .| TTBCR_PD0 .| TTBCR_N)%c) with
      (Z.lor (Z.lor (Z.shiftl (Z.ones 1) 5) (Z.shiftl (Z.ones 1) 4)) (Z.ones 3)). bits.
  - change TTBCR_N with (Z.ones 3). bits.
Qed.

Lemma ttbcr_reset_t1sz : extract32 (raw_tcr vmsa_ttbcr_reset) 16 6 < 8.
Proof. done. Qed.

Section aarch32.
Context (env : CPUARMState) (Hwf : lpae_wf env).

Lemma ro_extract64 v s l :
  0 <= s -> 0 < l -> l <= 64 - s -> ro env (extract64 v s l) (fun x => x = extract32 v s l).
Proof.
  intros. unfold extract64. rewrite (proj2 (Z.leb_le 0 s)), (proj2 (Z.ltb_lt 0 l)),
    (proj2 (Z.leb_le l (64 - s))) by lia. by apply ro_ret.
Qed.

Lemma ro_shift w x k : 0 <= k < w -> ro env (shift_right w x k) (fun _ => True).
Proof.
  intros [H1 H2]. unfold shift_right. apply Z.leb_le in H1 as ->. apply Z.ltb_lt in H2 as ->.
  by eexists.
Qed.

Lemma ro_mask k : 0 <= k < 64 -> ro env (low_mask k) (fun m => m = Z.ones k).
Proof.
  intros [H1 H2]. unfold low_mask. apply Z.leb_le in H1 as ->. apply Z.ltb_lt in H2 as ->.
  by eexists.
Qed.

Lemma ro_aa32 el : ro env (arm_el_is_aa64 el) (fun b => b = false).
Proof.
  unfold arm_el_is_aa64. apply ro_gets. rewrite (wf_aa32 env Hwf). ros; by repeat case_match.
Qed.

Lemma ro_is_secure : ro env arm_is_secure (fun _ => True).
Proof. unfold arm_is_secure, arm_is_el3_or_mon. ros; done. Qed.

Lemma ro_S2prot ap xn : ro env (get_S2prot ap xn) (fun _ => True).
Proof. unfold get_S2prot. ros; done. Qed.

Lemma ro_simple_user ap u : 0 <= ap < 4 -> ro env (simple_ap_to_rw_prot_is_user ap u) (fun _ => True).
Proof. intros. unfold simple_ap_to_rw_prot_is_user. ros; try done. lia. Qed.

Lemma ro_wxn b i m : regular i -> ro env (wxn_bit b i m) (fun _ => True).
Proof. intros. unfold wxn_bit. ros; done. Qed.

Lemma ro_never i a u h rw prw xn pxn wxn :
  regular i -> ro env (S1_never i a u h rw prw xn pxn wxn) (fun _ => True).
Proof. intros Hi. pose proof (ro_wxn h i). unfold S1_never. ros; auto. Qed.

Lemma ro_S1prot i a ap ns xn pxn :
  regular i -> i <> S2NS -> 0 <= ap < 4 -> ro env (get_S1prot i a ap ns xn pxn) (fun _ => True).
Proof.
  intros Hi Hs Hap. unfold get_S1prot. ro_step. intros u _. rewrite decide_False by done.
  eapply ro_bind; [by apply ro_simple_user|]. intros rw _. ro_step.
  { ro_step; [by ros|by apply ro_simple_user]. }
  intros prw _. ro_step. { ro_step; [apply ro_is_secure|by ros]. }
  intros s _. ro_step. ro_step; [by ros|]. ro_step. eapply ro_bind; [by apply ro_wxn|]. intros w _.
  eapply ro_bind; [by apply ro_never|]. intros [x y] _. by ros.
Qed.

(** *** The regime *)

Definition regime_ok (r : lpae_regime) : Prop :=
  lr_aarch64 r = false /\ regular (lr_idx r) /\
  (is_s2 r = true -> lr_el r = 2 /\ extract32 (lr_tcr r) 14 2 = 0) /\
  (is_s2 r = false -> extract32 (lr_tcr r) 16 6 < 8).

Lemma ro_regime_of i : regular i -> ro env (lpae_regime_of i) (fun r => regime_ok r /\ lr_idx r = i).
Proof.
  intros Hi. unfold lpae_regime_of, regime_tcr, regime_ok, is_s2. destruct (decide (i = S2NS)) as [->|Hn].
  - ro_step. cbn [regime_el]. eapply ro_bind; [by apply (ro_ret _ 2 (eq 2))|]. intros el <-.
    eapply ro_bind; [apply ro_aa32|]. intros a ->. ro_step. cbn. split_and!; try done.
    intros _. by split; [|apply wf_granule].
  - eapply (ro_bind _ _ _ (fun t => exists el, t = tcr_el env el)).
    { eapply ro_bind; [by apply ro_el|]. intros el _. ro_step. by eexists. }
    intros t [el ->]. eapply ro_bind; [by apply ro_el|]. intros el' _.
    eapply ro_bind; [apply ro_aa32|]. intros a ->. ro_step. cbn. rewrite bool_decide_false by done.
    split_and!; try done; [by destruct Hi..|]. intros _. by apply wf_t1sz.
Qed.

Lemma t0sz_range r : regime_ok r -> 0 <= t0sz r < if is_s2 r then 16 else 8.
Proof.
  intros (Ha & _). unfold t0sz. rewrite Ha. destruct (is_s2 r).
  - pose proof (extract_range (lr_tcr r) 0 4). case_match; lia.
  - pose proof (extract_range (lr_tcr r) 0 3). lia.
Qed.

Lemma t1sz_range r : regime_ok r -> ttbr1_valid r = true -> is_s2 r = false /\ 0 <= t1sz r < 8.
Proof.
  intros (Ha & _ & H2 & H1). unfold ttbr1_valid, t1sz. rewrite Ha. intros Hv.
  destruct (is_s2 r). { destruct H2 as [H2 _]; [done|]. by rewrite H2 in Hv. }
  pose proof (extract_range (lr_tcr r) 16 6). specialize (H1 eq_refl). lia.
Qed.

Lemma addrsize_eq r : regime_ok r -> addrsize r = if is_s2 r then 40 else 32.
Proof. intros (Ha & _). unfold addrsize. by rewrite Ha. Qed.

Lemma tbi_zero r a : regime_ok r -> tbi r a = 0.
Proof. intros (Ha & _). unfold tbi. by rewrite Ha. Qed.

Lemma ro_select W r a :
  regime_ok r -> ro env (ttbr_select W r a) (fun s => s = Some true -> ttbr1_valid r = true).
Proof.
  intros Hr. pose proof (t0sz_range r Hr). pose proof (t1sz_range r Hr). pose proof (addrsize_eq r Hr).
  unfold ttbr_select. rewrite (tbi_zero r a Hr). eapply (ro_bind _ _ _ (fun _ => True)).
  { ro_step; [by ros|]. eapply ro_bind; [apply ro_extract64; destruct (is_s2 r); lia|]. by ros. }
  intros in0 _. ro_step; [by ros|]. eapply (ro_bind _ _ _ (fun b => b = true -> ttbr1_valid r = true)).
  - ro_step; [|by ros]. apply andb_true_iff in E0 as [Hv Ht]. destruct H0 as [H2 H3]; [done|].
    rewrite H2 in *. eapply ro_bind; [apply ro_extract64; lia|]. by ros.
  - intros in1 Hin1. ro_step. destruct in1; [auto|]. destruct (t0sz r =? 0); [done|].
    destruct (t1sz r =? 0), (ttbr1_valid r); done.
Qed.

(** Where the walk starts: every shift it makes is by less than the width. *)
Definition shape (stride level : Z) : Prop :=
  9 <= stride <= 13 /\ 1 <= level <= 3 /\ stride * (4 - level) <= 28.

Lemma stride_range r s : 9 <= stride r s <= 13.
Proof. unfold stride. repeat case_match; lia. Qed.

Lemma start_s1 n s : 25 <= n <= 32 -> 9 <= s <= 13 ->
  shape s (4 - Z.quot (n - 4) s) /\ 0 <= n - s * (4 - (4 - Z.quot (n - 4) s)) < 64.
Proof.
  intros Hn Hs. rewrite Z.quot_div_nonneg by lia. unfold shape.
  pose proof (Z.div_mod (n - 4) s). pose proof (Z.mod_pos_bound (n - 4) s).
  assert (1 <= (n - 4) / s). { apply Z.div_le_lower_bound; lia. }
  assert ((n - 4) / s < 4). { apply Z.div_lt_upper_bound; lia. } nia.
Qed.

Lemma ro_check level n :
  ro env (check_s2_mmu_setup false level n 9)
    (fun ok => ok = true -> 1 <= level /\ 1 <= n - ((3 - level) * 9 + 12) <= 13).
Proof.
  unfold check_s2_mmu_setup. change (9 =? 9) with true. cbv iota. ros; try done; rewrite negb_true_iff in *; lia.
Qed.

Lemma sl0_level sl0 : 0 <= sl0 < 4 -> i32 (u32 (2 - sl0)) = 2 - sl0.
Proof. intros H. below_cases 4%nat H; by vm_compute. Qed.

Lemma ro_start r s :
  regime_ok r -> (s = true -> ttbr1_valid r = true) -> ro env (start_level r s)
    (fun l => match l with
              | inr l => shape (stride r s) l /\ 0 <= inputsize r s - stride r s * (4 - l) < 64
              | inl _ => True end).
Proof.
  intros Hr Hs. pose proof (t0sz_range r Hr). pose proof (t1sz_range r Hr). pose proof (addrsize_eq r Hr).
  pose proof (stride_range r s). unfold start_level. destruct (is_s2 r) eqn:E2.
  - destruct s; [by destruct H0; [auto|]|].
    assert (Hst : stride r false = 9). { unfold stride. destruct Hr as (_ & _ & Hr & _). by destruct Hr as [_ ->]. }
    destruct Hr as (Ha & _). rewrite Ha, Hst. cbn [negb orb].
    pose proof (extract_range (lr_tcr r) 6 2). set (sl0 := extract32 _ 6 2) in *. clearbody sl0.
    eapply ro_bind; [apply ro_check|]. intros ok Hok. ro_step; [|by ros]. ro_step.
    specialize (Hok eq_refl). rewrite sl0_level in Hok by lia. rewrite wrap_small by lia.
    unfold shape. lia.
  - ro_step. apply start_s1; [|done]. unfold inputsize.
    destruct s; [destruct H0; [auto|]|]; lia.
Qed.

(** *** The loop *)

(** The offset in a page of four kilobytes, and forty bits. *)
Definition long_ok (address pa : Z) : Prop := wrap 12 pa = wrap 12 address /\ wrap 40 pa = pa.

Lemma leaf_address d address g s :
  12 <= g -> 12 <= s <= 40 ->
  long_ok address (Z.lor (Z.land d (Z.ldiff (Z.ones 40) (Z.ones g))) (Z.land address (Z.ones s))).
Proof. intros. split; bits. Qed.

Lemma page_mask W s : 0 <= s < W -> wrap W (wrap W (Z.ones s + 1) - 1) = Z.ones s.
Proof.
  intros. rewrite Z.ones_equiv, Z.add_comm, <- Z.sub_1_r, Zplus_minus.
  assert (0 < 2 ^ s < 2 ^ W) by (split; [lia|apply Z.pow_lt_mono_r; lia]).
  rewrite !wrap_small; rewrite ?wrap_small; lia.
Qed.

Context (W : Z) (HW : 32 <= W).
Context (ptw : Z -> A (ARMFaultType + Z)).
Hypothesis ptw_reads : forall a, ro env (ptw a) (fun _ => True).

Lemma ro_ldq a b i : regular i -> ro env (arm_ldq_ptw ptw a b i) (fun _ => True).
Proof.
  intros Hi. unfold arm_ldq_ptw. eapply ro_bind; [by apply ptw_reads|].
  intros [ty|addr] _; [by ros|]. ros. unfold address_space_ldq. by ros.
Qed.

Lemma ro_loop r address s n level descaddr indexmask tableattrs :
  regime_ok r -> shape s level ->
  ro env (lpae_loop W ptw r s address n level descaddr indexmask tableattrs)
    (fun x => match x with inr (pa, _, _) => long_ok address pa | inl _ => True end).
Proof.
  intros (Ha & Hi & _). revert level descaddr indexmask tableattrs.
  induction n as [|n IH]; intros level descaddr indexmask tableattrs (H1 & H2 & H3); cbn [lpae_loop];
    (eapply ro_bind; [apply ro_shift; nia|]); intros index _;
    (eapply ro_bind; [by apply ro_ldq|]); intros [ty|d] _; try by ros.
  all: ro_step; [by ros|]; eapply ro_bind; [apply ro_mask; lia|]; intros g ->; rewrite Ha.
  2: ro_step; [apply andb_true_iff in E0 as [_ E0]; apply IH; unfold shape; nia|].
  all: eapply ro_bind; [apply ro_mask; nia|]; intros m ->; ro_step;
    rewrite page_mask by nia; apply leaf_address; nia.
Qed.

(** *** The walk *)

(** What a walk of a page gives: the offset and forty bits of the address, permissions
    that allow the access, and in stage 1 a byte of the attribute register. *)
Definition lpae_ok (address access_type : Z) (i : ARMMMUIdx) (w : ARMMMUFaultInfo + Z * Z * ARMCacheAttrs) : Prop :=
  match w with
  | inr (pa, prot, ca) =>
      long_ok address pa /\ bit_any prot (Z.shiftl 1 access_type) = true /\
      (i <> S2NS -> exists el n, regime_el i env = Done (el, env) /\ 0 <= n < 8 /\
        attrs ca = extract32 (mair_el env el) (n * 8) 8)
  | inl _ => True
  end.

Lemma ro_prot r at_ : regime_ok r -> ro env (lpae_prot r at_) (fun _ => True).
Proof.
  intros (_ & Hi & _). unfold lpae_prot, is_s2. pose proof (extract_range at_ 4 2).
  case_bool_decide; [apply ro_S2prot|by apply ro_S1prot; [..|lia]].
Qed.

Lemma ro_cacheattrs r at_ :
  regime_ok r -> ro env (lpae_cacheattrs r at_) (fun ca =>
    lr_idx r <> S2NS -> exists el n, regime_el (lr_idx r) env = Done (el, env) /\ 0 <= n < 8 /\
      attrs ca = extract32 (mair_el env el) (n * 8) 8).
Proof.
  intros (_ & Hi & _). unfold lpae_cacheattrs, is_s2. pose proof (extract_range at_ 0 3).
  case_bool_decide as Hs.
  - eapply (ro_bind _ _ _ (fun _ => True)); [|by ros]. unfold convert_stage2_attrs. ro_step.
    by repeat case_match; apply ro_ret.
  - destruct (ro_el env _ Hi) as (el & Hel & _).
    eapply (ro_bind _ _ _ (fun a => a = extract32 (mair_el env el) (extract32 at_ 0 3 * 8) 8)).
    + eapply ro_bind; [by exists el; split; [exact Hel|exact (eq_refl el)]|].
      intros ? ->. ro_step. apply ro_extract64; lia.
    + intros a ->. ro_step. intros _. exists el, (extract32 at_ 0 3). split_and!; try done; lia.
Qed.

Lemma ro_finish r t leaf address :
  regime_ok r -> long_ok address (leaf.1.1) ->
  ro env (lpae_finish r t leaf) (lpae_ok address t (lr_idx r)).
Proof.
  destruct leaf as [[pa at_] level]. intros Hr Hpa. unfold lpae_finish. ro_step; [by ros|].
  eapply ro_bind; [by apply ro_prot|]. intros prot _. ro_step; [by ros|].
  eapply ro_bind; [by apply ro_cacheattrs|]. intros ca Hca. ro_step. apply negb_false_iff in E0.
  by split_and!.
Qed.

Lemma long_wrap a pa : long_ok (wrap W a) pa -> long_ok a pa.
Proof. intros [H1 H2]. split; [|done]. rewrite H1. bits. Qed.

Lemma ro_lpae_walk a t i : regular i -> ro env (lpae_walk W ptw a t i) (lpae_ok (wrap W a) t i).
Proof.
  intros Hi. unfold lpae_walk. eapply ro_bind; [by apply ro_regime_of|]. intros r [Hr <-].
  eapply ro_bind; [by apply ro_select|]. intros [s|] Hs; [|by ros].
  eapply ro_bind; [by apply ro_ttbr|]. intros ttbr _. ro_step; [by ros|].
  eapply ro_walk_bind; [apply ro_start; [done|by intros ->; apply Hs]|done|]. intros l [Hsh Hm].
  eapply ro_bind; [by apply ro_mask|]. intros m ->.
  eapply (ro_walk_bind _ _ _ (fun leaf => long_ok (wrap W a) (leaf.1.1))); [|done|].
  - eapply ro_mono; [by apply ro_loop|]. by intros [|[[? ?] ?]].
  - intros leaf Hl. by apply ro_finish.
Qed.
End aarch32.

(** What the walk leaves behind. *)
Definition lpae_post (env : CPUARMState) (address access_type : Z) (i : ARMMMUIdx) (x : xlat) : Prop :=
  x_fault x = None ->
  exists pa prot ca, x = mk_xlat None (Some pa) (Some prot) (Some ca) /\
    lpae_ok env address access_type i (inr (pa, prot, ca)).

Lemma lpae_xlat_post env a t i w : lpae_ok env a t i w -> lpae_post env a t i (lpae_xlat w).
Proof.
  destruct w as [fi|[[pa prot] ca]]; [done|]. intros H _. by exists pa, prot, ca.
Qed.

Lemma ro_lpae_s2 env W a t i :
  lpae_wf env -> 32 <= W -> regular i ->
  ro env (get_phys_addr_lpae_s2 W a t i) (lpae_post env (wrap W a) t i).
Proof.
  intros Hwf HW Hi. unfold get_phys_addr_lpae_s2. eapply ro_bind.
  - apply ro_lpae_walk; [done..| |done]. intros. by apply ro_ret.
  - intros w Hw. ro_step. by apply lpae_xlat_post.
Qed.

Lemma ro_S1_ptw env W junk i a :
  lpae_wf env -> 32 <= W -> regular i ->
  ro env (S1_ptw_translate (get_phys_addr_lpae_s2 W) junk i a) (fun _ => True).
Proof.
  intros Hwf HW Hi. apply ro_ptw; [|done]. intros. eapply ro_mono; [by apply ro_lpae_s2|done].
Qed.

Lemma ro_lpae env W junk a t i :
  lpae_wf env -> 32 <= W -> regular i ->
  ro env (get_phys_addr_lpae W junk a t i) (lpae_post env (wrap W a) t i).
Proof.
  intros Hwf HW Hi. unfold get_phys_addr_lpae. eapply ro_bind.
  - apply ro_lpae_walk; [done..| |done]. intros. by apply ro_S1_ptw.
  - intros w Hw. ro_step. by apply lpae_xlat_post.
Qed.

(** ** The recursion of the source *)

(** The walk only looks at the results of the translation of its loads. *)
Section congruence.
Context (W : Z) (ptw ptw' : Z -> A (ARMFaultType + Z)).
Hypothesis same : forall a env, ptw a env = ptw' a env.

Lemma ldq_congr a b i env : arm_ldq_ptw ptw a b i env = arm_ldq_ptw ptw' a b i env.
Proof. apply bind_congr; [apply same|done]. Qed.

Lemma loop_congr r s address n level descaddr indexmask tableattrs env :
  lpae_loop W ptw r s address n level descaddr indexmask tableattrs env
  = lpae_loop W ptw' r s address n level descaddr indexmask tableattrs env.
Proof.
  revert level descaddr indexmask tableattrs env.
  induction n as [|n IH]; intros level descaddr indexmask tableattrs env; cbn [lpae_loop];
    (apply bind_congr; [done|]); intros index s1; (apply bind_congr; [apply ldq_congr|]);
    intros [ty|d] s2; try done.
  case_match; [done|]. apply bind_congr; [done|]. intros g s3. case_match; [apply IH|done].
Qed.

Lemma walk_congr a t i env : lpae_walk W ptw a t i env = lpae_walk W ptw' a t i env.
Proof.
  unfold lpae_walk. apply bind_congr; [done|]. intros r s1. apply bind_congr; [done|].
  intros [s|] s2; [|done]. apply bind_congr; [done|]. intros ttbr s3. case_match; [done|].
  apply bind_congr; [done|]. intros [fi|l] s4; [done|]. apply bind_congr; [done|]. intros m s5.
  apply bind_congr; [apply loop_congr|done].
Qed.
End congruence.

(** [get_phys_addr_lpae] calls [S1_ptw_translate], which calls it again for stage 2:
    the two definitions above are the solution of this equation. *)
Lemma lpae_recursive W junk a t i env :
  get_phys_addr_lpae W junk a t i env
  = (w ← lpae_walk W (S1_ptw_translate (get_phys_addr_lpae W junk) junk i) a t i; mret (lpae_xlat w)) env.
Proof.
  apply bind_congr; [|done]. apply walk_congr. intros a' s. unfold S1_ptw_translate at 1 2.
  apply bind_congr; [done|]. intros [] s1; [done|]. apply bind_congr; [done|]. intros hcr s2.
  apply bind_congr; [|done]. apply bind_congr; [|done]. by apply walk_congr.
Qed.
