(* ===== verification/ArmPmsa.v ===== *)
(** * The memory protection units of ARM

    The three generations of [target/arm/helper.c]: [get_phys_addr_pmsav5], with eight
    regions in coprocessor registers, [get_phys_addr_pmsav7], with prioritised regions
    and sub-regions, and [get_phys_addr_pmsav8] of the M profile, with the security
    attribution unit.  A protection unit does not translate: the physical address is the
    address.

    The page size they also compute, and the tests that only serve it (the overlap with
    the page, the consistency of neighbouring sub-regions), are left out, as in
    [ArmMmu].  An array is read within its bounds, or the read is undefined. *)

From S2P Require Import Prelude Bits ArmMmu.

Definition SCTLR_V := 0x2000.
Definition SCTLR_BR := 0x20000.
Definition MPU_CTRL_PRIVDEFENA := 0x4.

(** [a[n]] of an array of the processor. *)
Definition array (a : CPUARMState -> list Z) (n : nat) : A Z :=
  l ← gets a; access_ (l !! n).

Definition within (address low high : Z) : bool := (low <=? address) && (address <=? high).

(** ** The default map *)

Definition get_phys_addr_pmsav7_default (mmu_idx : ARMMMUIdx) (address : Z) : A Z :=
  m ← arm_feature_ FEATURE_M;
  if negb m then
    let prot := Z.lor PAGE_READ PAGE_WRITE in
    if within address 0xF0000000 0xFFFFFFFF then
      sctlr ← regime_sctlr mmu_idx;
      mret (if bit_any sctlr SCTLR_V then Z.lor prot PAGE_EXEC else prot)
    else mret (if within address 0x00000000 0x7FFFFFFF then Z.lor prot PAGE_EXEC else prot)
  else if within address 0x00000000 0x1fffffff || within address 0x20000000 0x3fffffff
       || within address 0x60000000 0x7fffffff || within address 0x80000000 0x9fffffff
  then mret (PAGE_READ .| PAGE_WRITE .| PAGE_EXEC)%c
  else if within address 0x40000000 0x5fffffff || within address 0xa0000000 0xbfffffff
       || within address 0xc0000000 0xdfffffff || within address 0xe0000000 0xffffffff
  then mret (Z.lor PAGE_READ PAGE_WRITE)
  else abort_.

Definition pmsav7_use_background_region (mmu_idx : ARMMMUIdx) (is_user : bool) : A bool :=
  if is_user then mret false
  else
    m ← arm_feature_ FEATURE_M;
    if (m : bool) then gets (fun env => bit_any (mpu_ctrl env (regime_is_secure mmu_idx)) MPU_CTRL_PRIVDEFENA)
    else sctlr ← regime_sctlr mmu_idx; mret (bit_any sctlr SCTLR_BR).

Definition m_is_ppb_region (address : Z) : A bool :=
  m ← arm_feature_ FEATURE_M; mret (m && (extract32 address 20 12 =? 0xe00)).

Definition m_is_system_region (address : Z) : A bool :=
  m ← arm_feature_ FEATURE_M; mret (m && (extract32 address 29 3 =? 0x7)).

(** The return of a lookup: the permissions decide. *)
Definition pmsa_return (address access_type prot : Z) : xlat :=
  mk_xlat (if bit_any prot (Z.shiftl 1 access_type) then None else Some (mk_fi ARMFault_Permission 1 0))
    (Some address) (Some prot) None.

Definition pmsa_fault (ty : ARMFaultType) (level address : Z) (prot : option Z) : xlat :=
  mk_xlat (Some (mk_fi ty level 0)) (Some address) prot None.

(** ** Version 7 *)

(** The body of the search: does the region match, with its sub-region enabled? *)
Definition pmsav7_match (address : Z) (n : nat) : A bool :=
  base ← array drbar n;
  sr ← array drsr n;
  let rsize := extract32 sr 1 5 in
  if negb (bit_any sr 0x1) then mret false
  else if rsize =? 0 then mret false
  else
    let rsize := rsize + 1 in
    let rmask := u32 (Z.shiftl 1 rsize - 1) in
    if bit_any base rmask then mret false
    else if (address <? base) || (u32 (base + rmask) <? address) then mret false
    else if 8 <=? rsize then
      let snd := Z.land (Z.shiftr (u32 (address - base)) (rsize - 3)) 0x7 in
      mret (extract32 sr (snd + 8) 1 =? 0)
    else mret true.

(** From the highest region down. *)
Fixpoint pmsav7_search (address : Z) (n : nat) : A (option nat) :=
  match n with
  | O => mret None
  | S n => hit ← pmsav7_match address n; if (hit : bool) then mret (Some n) else pmsav7_search address n
  end.

(** The permissions of a region: write, and read with execution. *)
Definition pmsav7_ap (is_user m : bool) (ap : Z) : Z :=
  let rx := Z.lor PAGE_READ PAGE_EXEC in
  if is_user then
    if ap =? 3 then Z.lor PAGE_WRITE rx
    else if (ap =? 2) || (ap =? 6) then rx
    else if (ap =? 7) && m then rx else 0
  else
    if (ap =? 1) || (ap =? 2) || (ap =? 3) then Z.lor PAGE_WRITE rx
    else if (ap =? 5) || (ap =? 6) then rx
    else if (ap =? 7) && m then rx else 0.

Definition get_phys_addr_pmsav7 (address access_type : Z) (mmu_idx : ARMMMUIdx) : A xlat :=
  is_user ← regime_is_user mmu_idx;
  off ← regime_translation_disabled mmu_idx;
  ppb ← m_is_ppb_region address;
  if (off : bool) || (ppb : bool) then
    prot ← get_phys_addr_pmsav7_default mmu_idx address; mret (pmsa_return address access_type prot)
  else
    dregion ← gets pmsav7_dregion;
    n ← pmsav7_search address dregion;
    match n with
    | None =>
        background ← pmsav7_use_background_region mmu_idx is_user;
        if negb background then mret (pmsa_fault ARMFault_Background 0 address (Some 0))
        else prot ← get_phys_addr_pmsav7_default mmu_idx address; mret (pmsa_return address access_type prot)
    | Some n =>
        acr ← array dracr n;
        system ← m_is_system_region address;
        m ← arm_feature_ FEATURE_M;
        let xn := (system : bool) || negb (extract32 acr 12 1 =? 0) in
        let prot := pmsav7_ap is_user m (extract32 acr 8 3) in
        mret (pmsa_return address access_type (if xn then Z.ldiff prot PAGE_EXEC else prot))
    end.

(** ** Version 8: the security attribution unit *)

Record V8M_SAttributes := mk_sattrs {
  sa_ns : bool;
  sa_nsc : bool;
  sa_sregion : Z;
  sa_srvalid : bool;
  sa_iregion : Z;
  sa_irvalid : bool
}.

Definition IREGION_NOTVALID := -1.

Definition v8m_is_sau_exempt (address access_type : Z) : A bool :=
  system ← m_is_system_region address;
  mret (((access_type =? MMU_INST_FETCH) && system)
        || within address 0xe0000000 0xe0002fff || within address 0xe000e000 0xe000efff
        || within address 0xe002e000 0xe002efff || within address 0xe0040000 0xe0041fff
        || within address 0xe00ff000 0xe00fffff).

(** The loop over the regions [r], [r + 1], ... ([n] of them); a second hit ends it. *)
Fixpoint sau_search (address : Z) (n r : nat) (a : V8M_SAttributes) : A V8M_SAttributes :=
  match n with
  | O => mret a
  | S n =>
      rlar ← array sau_rlar r;
      if bit_any rlar 1 then
        rbar ← array sau_rbar r;
        let base := Z.ldiff rbar 0x1f in
        let limit := Z.lor rlar 0x1f in
        if (base <=? address) && (address <=? limit) then
          if sa_srvalid a then mret (mk_sattrs false false 0 false (sa_iregion a) (sa_irvalid a))
          else
            let nsc := bit_any rlar 2 in
            sau_search address n (S r)
              (mk_sattrs (sa_ns a || negb nsc) (sa_nsc a || nsc) (u8 (Z.of_nat r)) true (sa_iregion a) (sa_irvalid a))
        else sau_search address n (S r) a
      else sau_search address n (S r) a
  end.

Definition v8m_security_lookup (address access_type : Z) (mmu_idx : ARMMMUIdx) : A V8M_SAttributes :=
  check ← gets idau;
  let '(idau_region, idau_exempt, idau_ns, idau_nsc) :=
    match check with Some f => f address | None => (IREGION_NOTVALID, false, true, true) end in
  let sattrs := mk_sattrs false false 0 false 0 false in
  if (access_type =? MMU_INST_FETCH) && (extract32 address 28 4 =? 0xf) then mret sattrs
  else
    exempt ← v8m_is_sau_exempt address access_type;
    if (idau_exempt : bool) || (exempt : bool)
    then mret (mk_sattrs (negb (regime_is_secure mmu_idx)) false 0 false 0 false)
    else
      let valid := negb (idau_region =? IREGION_NOTVALID) in
      let sattrs := mk_sattrs false false 0 false (if valid then u8 idau_region else 0) valid in
      ctrl ← gets sau_ctrl;
      if Z.land ctrl 3 =? 0 then mret sattrs
      else if Z.land ctrl 3 =? 2
      then mret (mk_sattrs true false 0 false (sa_iregion sattrs) (sa_irvalid sattrs))
      else
        sregion ← gets sau_sregion;
        a ← sau_search address sregion 0 sattrs;
        mret (if negb idau_ns && (sa_ns a || (negb idau_nsc && sa_nsc a))
              then mk_sattrs false idau_nsc (sa_sregion a) (sa_srvalid a) (sa_iregion a) (sa_irvalid a)
              else a).

(** ** Version 8: the regions *)

Inductive mpu_match := NoRegion | OneRegion (n : nat) | ManyRegions.

(** From the highest region down; a second hit ends the lookup. *)
Fixpoint pmsav8_search (secure : bool) (address : Z) (n : nat) (found : option nat) : A mpu_match :=
  match n with
  | O => mret match found with Some n => OneRegion n | None => NoRegion end
  | S n =>
      rbar ← array (fun env => pmsav8_rbar env secure) n;
      rlar ← array (fun env => pmsav8_rlar env secure) n;
      let base := Z.ldiff rbar 0x1f in
      let limit := Z.lor rlar 0x1f in
      if negb (bit_any rlar 0x1) then pmsav8_search secure address n found
      else if (address <? base) || (limit <? address) then pmsav8_search secure address n found
      else match found with
           | Some _ => mret ManyRegions
           | None => pmsav8_search secure address n (Some n)
           end
  end.

(** The permissions of a hit, [None] for the default map. *)
Definition pmsav8_prot (mmu_idx : ARMMMUIdx) (address : Z) (matchregion : option nat) : A Z :=
  match matchregion with
  | None => get_phys_addr_pmsav7_default mmu_idx address
  | Some n =>
      rbar ← array (fun env => pmsav8_rbar env (regime_is_secure mmu_idx)) n;
      system ← m_is_system_region address;
      prot ← simple_ap_to_rw_prot mmu_idx (extract32 rbar 1 2);
      let xn := (system : bool) || negb (extract32 rbar 0 1 =? 0) in
      mret (if negb (prot =? 0) && negb xn then Z.lor prot PAGE_EXEC else prot)
  end.

Definition pmsav8_mpu_lookup (address access_type : Z) (mmu_idx : ARMMMUIdx) : A xlat :=
  is_user ← regime_is_user mmu_idx;
  off ← regime_translation_disabled mmu_idx;
  ppb ← m_is_ppb_region address;
  background ← pmsav7_use_background_region mmu_idx is_user;
  if (off : bool) || (ppb : bool) || (background : bool) then
    prot ← pmsav8_prot mmu_idx address None; mret (pmsa_return address access_type prot)
  else
    dregion ← gets pmsav7_dregion;
    found ← pmsav8_search (regime_is_secure mmu_idx) address dregion None;
    match found with
    | ManyRegions => mret (pmsa_fault ARMFault_Permission 1 address (Some 0))
    | NoRegion => mret (pmsa_fault ARMFault_Background 0 address (Some 0))
    | OneRegion n => prot ← pmsav8_prot mmu_idx address (Some n); mret (pmsa_return address access_type prot)
    end.

Definition get_phys_addr_pmsav8 (address access_type : Z) (mmu_idx : ARMMMUIdx) : A xlat :=
  let secure := regime_is_secure mmu_idx in
  security ← arm_feature_ FEATURE_M_SECURITY;
  if (security : bool) then
    a ← v8m_security_lookup address access_type mmu_idx;
    if access_type =? MMU_INST_FETCH then
      if negb (Bool.eqb (sa_ns a) (negb secure)) then
        mret (pmsa_fault (if sa_nsc a then ARMFault_QEMU_NSCExec else ARMFault_QEMU_SFault) 0 address (Some 0))
      else pmsav8_mpu_lookup address access_type mmu_idx
    else if negb (sa_ns a) && negb secure then mret (pmsa_fault ARMFault_QEMU_SFault 0 address (Some 0))
    else pmsav8_mpu_lookup address access_type mmu_idx
  else pmsav8_mpu_lookup address access_type mmu_idx.

(** ** Version 5 *)

Definition pmsav5_match (address : Z) (n : nat) : A bool :=
  base ← array c6_region n;
  if Z.land base 1 =? 0 then mret false
  else
    let mask := u32 (Z.shiftl 1 (Z.land (Z.shiftr base 1) 0x1f)) in
    let mask := u32 (u32 (Z.shiftl mask 1) - 1) in
    mret (Z.ldiff (Z.lxor base address) mask =? 0).

Fixpoint pmsav5_search (address : Z) (n : nat) : A (option nat) :=
  match n with
  | O => mret None
  | S n => hit ← pmsav5_match address n; if (hit : bool) then mret (Some n) else pmsav5_search address n
  end.

(** The permissions, [None] for a fault; the access itself is not tested. *)
Definition pmsav5_ap (is_user : bool) (ap : Z) : option Z :=
  let prot := if ap =? 1 then (if is_user then None else Some (Z.lor PAGE_READ PAGE_WRITE))
    else if ap =? 2 then Some (if is_user then PAGE_READ else Z.lor PAGE_READ PAGE_WRITE)
    else if ap =? 3 then Some (Z.lor PAGE_READ PAGE_WRITE)
    else if ap =? 5 then (if is_user then None else Some PAGE_READ)
    else if ap =? 6 then Some PAGE_READ
    else None in
  (fun p => Z.lor p PAGE_EXEC) <$> prot.

Definition get_phys_addr_pmsav5 (address access_type : Z) (mmu_idx : ARMMMUIdx) : A xlat :=
  is_user ← regime_is_user mmu_idx;
  off ← regime_translation_disabled mmu_idx;
  if (off : bool)
  then mret (mk_xlat None (Some address) (Some (PAGE_READ .| PAGE_WRITE .| PAGE_EXEC)%c) None)
  else
    n ← pmsav5_search address 8;
    match n with
    | None => mret (pmsa_fault ARMFault_Background 0 address None)
    | Some n =>
        mask ← gets (if access_type =? MMU_INST_FETCH then pmsav5_insn_ap else pmsav5_data_ap);
        mret match pmsav5_ap is_user (Z.land (Z.shiftr mask (Z.of_nat n * 4)) 0xf) with
             | None => pmsa_fault ARMFault_Permission 1 address None
             | Some prot => mk_xlat None (Some address) (Some prot) None
             end
    end.

(** ** The dispatch *)

(** The callees take a 32-bit address. *)
Definition get_phys_addr_pmsa (address access_type : Z) (mmu_idx : ARMMMUIdx) : A xlat :=
  v8 ← arm_feature_ FEATURE_V8;
  v7 ← arm_feature_ FEATURE_V7;
  if (v8 : bool) then get_phys_addr_pmsav8 (u32 address) access_type mmu_idx
  else if (v7 : bool) then get_phys_addr_pmsav7 (u32 address) access_type mmu_idx
  else get_phys_addr_pmsav5 (u32 address) access_type mmu_idx.

(** ** The lookups return *)

(** The arrays have the number of elements the processor says. *)
Record pmsa_wf (env : CPUARMState) : Prop := mk_pmsa_wf {
  wf_c6 : length (c6_region env) = 8%nat;
  wf_v7 : features env FEATURE_V8 = false -> features env FEATURE_V7 = true ->
    length (drbar env) = pmsav7_dregion env /\ length (drsr env) = pmsav7_dregion env /\
    length (dracr env) = pmsav7_dregion env;
  wf_v8 : features env FEATURE_V8 = true -> forall secure,
    length (pmsav8_rbar env secure) = pmsav7_dregion env /\
    length (pmsav8_rlar env secure) = pmsav7_dregion env;
  wf_sau : features env FEATURE_M_SECURITY = true ->
    length (sau_rbar env) = sau_sregion env /\ length (sau_rlar env) = sau_sregion env
}.

(** No translation, no cache attributes; from version 7 on the permissions of a success
    allow the access. *)
Definition pmsa_ok (checked : bool) (address access_type : Z) (x : xlat) : Prop :=
  x_phys x = Some address /\ x_attrs x = None /\
  (x_fault x = None -> exists prot, x_prot x = Some prot /\
    (checked = true -> bit_any prot (Z.shiftl 1 access_type) = true)).

Lemma return_ok b address t prot : pmsa_ok b address t (pmsa_return address t prot).
Proof.
  unfold pmsa_return. split_and!; [done..|]. cbn. intros H. exists prot. split; [done|]. intros _.
  by destruct (bit_any prot _).
Qed.

Lemma fault_ok b ty l address prot t : pmsa_ok b address t (pmsa_fault ty l address prot).
Proof. done. Qed.

Lemma mpu_off_allows t : 0 <= t < 3 -> bit_any (Z.lor (Z.lor PAGE_READ PAGE_WRITE) PAGE_EXEC) (Z.shiftl 1 t) = true.
Proof. intros H. below_cases 3%nat H; done. Qed.

Section pmsa.
Context (env : CPUARMState) (Hwf : pmsa_wf env).

Lemma ro_array a n : (n < length (a env))%nat -> ro env (array a n) (fun _ => True).
Proof.
  intros H. unfold array. ro_step. apply lookup_lt_is_Some_2 in H as [x ->]. by eexists.
Qed.

Lemma ro_system a : ro env (m_is_system_region a) (fun _ => True).
Proof. unfold m_is_system_region. by ros. Qed.

Lemma ro_ppb a : ro env (m_is_ppb_region a) (fun _ => True).
Proof. unfold m_is_ppb_region. by ros. Qed.

Lemma ro_background i u : regular i -> ro env (pmsav7_use_background_region i u) (fun _ => True).
Proof. intros. unfold pmsav7_use_background_region. ros; done. Qed.

Lemma ro_default i a : regular i -> 0 <= a < 2 ^ 32 -> ro env (get_phys_addr_pmsav7_default i a) (fun _ => True).
Proof.
  intros Hi Ha. unfold get_phys_addr_pmsav7_default. ros; try done. exfalso.
  unfold within in *. lia.
Qed.
Hint Resolve ro_system ro_ppb ro_background ro_default : arm_ro.

(** *** Version 7 *)

Lemma ro_match7 a n :
  (n < length (drbar env))%nat -> (n < length (drsr env))%nat -> ro env (pmsav7_match a n) (fun _ => True).
Proof.
  intros. unfold pmsav7_match. eapply ro_bind; [by apply ro_array|]. intros base _.
  eapply ro_bind; [by apply ro_array|]. by ros.
Qed.

Lemma ro_search7 a n :
  (n <= length (drbar env))%nat -> (n <= length (drsr env))%nat ->
  ro env (pmsav7_search a n) (fun r => forall k, r = Some k -> (k < n)%nat).
Proof.
  induction n as [|n IH]; intros H1 H2; cbn; [by ros|]. eapply ro_bind; [apply ro_match7; lia|].
  intros [] _; [ro_step; intros k [= <-]; lia|]. eapply ro_mono; [apply IH; lia|].
  intros r Hr k Hk. specialize (Hr k Hk). lia.
Qed.

Lemma ro_pmsav7 i a t :
  regular i -> 0 <= a < 2 ^ 32 -> features env FEATURE_V8 = false -> features env FEATURE_V7 = true ->
  ro env (get_phys_addr_pmsav7 a t i) (pmsa_ok true a t).
Proof.
  intros Hi Ha H8 H7. destruct (wf_v7 env Hwf H8 H7) as (L1 & L2 & L3).
  unfold get_phys_addr_pmsav7. ro_step. intros u _. eapply ro_bind; [by apply ro_disabled|]. intros off _.
  eapply ro_bind; [apply ro_ppb|]. intros ppb _. ro_step.
  { eapply ro_bind; [by apply ro_default|]. intros prot _. ro_step. apply return_ok. }
  ro_step. eapply ro_bind; [apply ro_search7; lia|]. intros [n|] Hn.
  - specialize (Hn n eq_refl). eapply ro_bind; [apply ro_array; lia|]. intros acr _.
    eapply ro_bind; [apply ro_system|]. intros sys _. ro_step. ro_step. apply return_ok.
  - eapply ro_bind; [by apply ro_background|]. intros b _. ro_step; [by ros|].
    eapply ro_bind; [by apply ro_default|]. intros prot _. ro_step. apply return_ok.
Qed.

(** *** Version 8 *)

Lemma ro_sau a n r sa :
  (n + r <= length (sau_rbar env))%nat -> (n + r <= length (sau_rlar env))%nat ->
  ro env (sau_search a n r sa) (fun _ => True).
Proof.
  revert r sa. induction n as [|n IH]; intros r sa H1 H2; cbn [sau_search]; [by ros|].
  eapply ro_bind; [apply ro_array; lia|]. intros rlar _. ro_step; [|apply IH; lia].
  eapply ro_bind; [apply ro_array; lia|]. intros rbar _. ro_step; [|apply IH; lia].
  ro_step; [by ros|apply IH; lia].
Qed.

Lemma ro_exempt a t : ro env (v8m_is_sau_exempt a t) (fun _ => True).
Proof. unfold v8m_is_sau_exempt. by ros. Qed.

Lemma ro_security a t i :
  features env FEATURE_M_SECURITY = true -> ro env (v8m_security_lookup a t i) (fun _ => True).
Proof.
  intros Hs. destruct (wf_sau env Hwf Hs) as [L1 L2]. unfold v8m_security_lookup. ro_step.
  destruct (match idau env with Some f => f a | None => _ end) as [[[reg ex] ns] nsc].
  ro_step; [by ros|]. eapply ro_bind; [apply ro_exempt|]. intros e _. ro_step; [by ros|]. ro_step.
  ro_step; [by ros|]. ro_step; [by ros|]. ro_step. eapply ro_bind; [apply ro_sau; lia|]. by ros.
Qed.

Lemma ro_search8 secure a n found :
  (n <= length (pmsav8_rbar env secure))%nat -> (n <= length (pmsav8_rlar env secure))%nat ->
  (forall k, found = Some k -> k < length (pmsav8_rbar env secure))%nat ->
  ro env (pmsav8_search secure a n found)
    (fun r => forall k, r = OneRegion k -> (k < length (pmsav8_rbar env secure))%nat).
Proof.
  revert found. induction n as [|n IH]; intros found H1 H2 Hf; cbn [pmsav8_search].
  - ro_step. destruct found; intros k [= <-]. by apply Hf.
  - eapply ro_bind; [apply ro_array; lia|]. intros rbar _. eapply ro_bind; [apply ro_array; lia|].
    intros rlar _. ro_step; [apply IH; [lia..|done]|]. ro_step; [apply IH; [lia..|done]|].
    destruct found; [by ros|]. apply IH; [lia..|]. intros k [= <-]. lia.
Qed.

Lemma ro_prot8 i a n :
  regular i -> 0 <= a < 2 ^ 32 ->
  (forall k, n = Some k -> k < length (pmsav8_rbar env (regime_is_secure i)))%nat ->
  ro env (pmsav8_prot i a n) (fun _ => True).
Proof.
  intros Hi Ha Hn. unfold pmsav8_prot. destruct n as [n|]; [|by apply ro_default].
  eapply ro_bind; [apply ro_array; by apply Hn|]. intros rbar _. eapply ro_bind; [apply ro_system|].
  intros s _. eapply ro_bind; [apply ro_simple_ap; [done|apply (low_range _ 2); lia]|]. by ros.
Qed.

Lemma ro_lookup8 i a t :
  regular i -> 0 <= a < 2 ^ 32 -> features env FEATURE_V8 = true ->
  ro env (pmsav8_mpu_lookup a t i) (pmsa_ok true a t).
Proof.
  intros Hi Ha H8. destruct (wf_v8 env Hwf H8 (regime_is_secure i)) as [L1 L2].
  unfold pmsav8_mpu_lookup. ro_step. intros u _. eapply ro_bind; [by apply ro_disabled|]. intros off _.
  eapply ro_bind; [apply ro_ppb|]. intros ppb _. eapply ro_bind; [by apply ro_background|]. intros b _.
  ro_step. { eapply ro_bind; [by apply ro_prot8|]. intros prot _. ro_step. apply return_ok. }
  ro_step. eapply ro_bind; [apply ro_search8; [lia..|done]|]. intros [|n|] Hn; [by ros| |by ros].
  eapply ro_bind; [apply ro_prot8; [done..|]; intros k [= <-]; by apply Hn|].
  intros prot _. ro_step. apply return_ok.
Qed.

Lemma ro_pmsav8 i a t :
  regular i -> 0 <= a < 2 ^ 32 -> features env FEATURE_V8 = true ->
  ro env (get_phys_addr_pmsav8 a t i) (pmsa_ok true a t).
Proof.
  intros Hi Ha H8. pose proof (ro_lookup8 i a t Hi Ha H8). unfold get_phys_addr_pmsav8. ro_step.
  ro_step; [|done]. eapply ro_bind; [by apply ro_security|]. intros sa _.
  ro_step; (ro_step; [by ros|done]).
Qed.

(** *** Version 5 *)

Lemma ro_search5 a n :
  (n <= 8)%nat -> ro env (pmsav5_search a n) (fun _ => True).
Proof.
  pose proof (wf_c6 env Hwf). induction n as [|n IH]; intros Hn; cbn; [by ros|].
  eapply (ro_bind _ _ _ (fun _ => True)).
  - unfold pmsav5_match. eapply ro_bind; [apply ro_array; lia|]. by ros.
  - intros [] _; [by ros|apply IH; lia].
Qed.

Lemma ro_pmsav5 i a t : regular i -> ro env (get_phys_addr_pmsav5 a t i) (pmsa_ok false a t).
Proof.
  intros Hi. unfold get_phys_addr_pmsav5. ro_step. intros u _. eapply ro_bind; [by apply ro_disabled|].
  intros off _. ro_step; [by ros; split_and!; try done; eexists|].
  eapply ro_bind; [by apply ro_search5|]. intros [n|] _; [|by ros]. ro_step. ro_step.
  case_match; [|done]. split_and!; try done. by eexists.
Qed.

Lemma ro_pmsa i a t :
  regular i -> ro env (get_phys_addr_pmsa a t i)
    (pmsa_ok (features env FEATURE_V8 || features env FEATURE_V7) (u32 a) t).
Proof.
  intros Hi. pose proof (wrap_range 32 a). unfold get_phys_addr_pmsa. ro_step. ro_step.
  ro_step; [apply ro_pmsav8; [done|lia|done]|]. ro_step; [apply ro_pmsav7; [done|lia|done..]|].
  by apply ro_pmsav5.
Qed.
End pmsa.
