(* ===== verification/ArmWalk.v ===== *)
(** * ARM address translation, put together

    [get_phys_addr] with the walks of [ArmMmu], [ArmLpae] and [ArmPmsa], and what it
    gives on a well-formed AArch32 processor: it always returns, leaves the processor as
    it is, and a translation that succeeds keeps the offset in the page and allows the
    access. *)

From S2P Require Import Prelude Bits ArmMmu ArmLpae ArmPmsa.

Definition arm_get_phys_addr (W junk address access_type : Z) (mmu_idx : ARMMMUIdx) : A xlat :=
  get_phys_addr W (get_phys_addr_lpae W junk) get_phys_addr_pmsa junk address access_type mmu_idx.

Definition arm_wf (env : CPUARMState) : Prop := lpae_wf env /\ pmsa_wf env.

(** Every translation but that of the first protection units tests the access. *)
Definition checked (env : CPUARMState) : bool :=
  negb (features env FEATURE_PMSA) || (features env FEATURE_V8 || features env FEATURE_V7).

(** A success of the access to [address] (the modified one): address and permissions. *)
Definition stage_ok (env : CPUARMState) (W address access_type : Z) (x : xlat) : Prop :=
  x_fault x = None -> exists pa prot, x_phys x = Some pa /\ x_prot x = Some prot /\
    pa mod 2 ^ 10 = address mod 2 ^ 10 /\ 0 <= pa < 2 ^ Z.max W 40 /\
    (checked env = true -> bit_any prot (Z.shiftl 1 access_type) = true).

(** The address after the fast context switch extension. *)
Definition modified (env : CPUARMState) (address mva : Z) : Prop :=
  exists fcse, (fcse = 0 \/ fcse = fcseidr_ns env \/ fcse = fcseidr_s env) /\
    mva mod 2 ^ 10 = (address + fcse) mod 2 ^ 10.

Lemma single_bit_land p q t :
  0 <= t -> bit_any p (Z.shiftl 1 t) = true -> bit_any q (Z.shiftl 1 t) = true ->
  bit_any (Z.land p q) (Z.shiftl 1 t) = true.
Proof.
  intros Ht. rewrite Z.shiftl_1_l. unfold bit_any. rewrite !negb_true_iff, !Z.eqb_neq.
  intros Hp Hq H. assert (Hz : forall p, Z.land p (2 ^ t) <> 0 -> Z.testbit p t = true).
  { intros r Hr. destruct (Z.testbit r t) eqn:E; [done|]. destruct Hr. apply Z.bits_inj'.
    intros n Hn. rewrite Z.land_spec, Z.bits_0. destruct (decide (n = t)) as [->|Hne]; [by rewrite E|].
    rewrite Z.pow2_bits_false by lia. apply andb_false_r. }
  apply (f_equal (fun z => Z.testbit z t)) in H.
  rewrite !Z.land_spec, (Hz p Hp), (Hz q Hq), Z.pow2_bits_true, Z.bits_0 in H by lia. done.
Qed.

Lemma bits_range n m x : 0 <= n <= m -> wrap n x = x -> 0 <= x < 2 ^ m.
Proof.
  intros Hn Hx. pose proof (wrap_range n x). rewrite Hx in *.
  assert (2 ^ n <= 2 ^ m) by (apply Z.pow_le_mono_r; lia). lia.
Qed.

Lemma wrap_low n w x : 0 <= n <= w -> wrap n (wrap w x) = wrap n x.
Proof. intros. bits. Qed.

Section translation.
Context (W junk : Z) (env : CPUARMState).
Context (HW : 32 <= W) (Hwf : arm_wf env).

Lemma lpae_reads a t i : regular i -> ro env (get_phys_addr_lpae W junk a t i) (fun _ => True).
Proof. intros. eapply ro_mono; [apply ro_lpae; [apply Hwf|done..]|done]. Qed.

Lemma pmsa_reads a t i : regular i -> ro env (get_phys_addr_pmsa a t i) (fun _ => True).
Proof. intros. eapply ro_mono; [apply ro_pmsa; [apply Hwf|done]|done]. Qed.

Lemma ro_arm_walk a t i : 0 <= t < 3 -> ro env (arm_get_phys_addr W junk a t i) (fun _ => True).
Proof. intros. apply ro_get_phys_addr; [apply lpae_reads|apply pmsa_reads|done]. Qed.

(** *** One stage *)

Lemma stage_long a t i x : lpae_post env (wrap W a) t i x -> stage_ok env W a t x.
Proof.
  intros H Hf. destruct (H Hf) as (pa & prot & ca & -> & [H1 H2] & Hp & _). exists pa, prot.
  pose proof (bits_range 40 (Z.max W 40) pa). split_and!; try done; try lia.
  change (wrap 10 pa = wrap 10 a). rewrite <- (wrap_low 10 12 pa), H1, !wrap_low by lia. done.
Qed.

Lemma stage_short a t w : walk_ok (u32 a) t w -> stage_ok env W a t (walk_xlat w).
Proof.
  destruct w as [fi|[pa prot]]; [done|]. intros [[H1 H2] Hp] _. exists pa, prot.
  pose proof (bits_range 40 (Z.max W 40) pa). split_and!; try done; try lia.
  change (wrap 10 pa = wrap 10 a). rewrite H1. apply wrap_low. lia.
Qed.

Lemma stage_pmsa a t x :
  features env FEATURE_PMSA = true ->
  pmsa_ok (features env FEATURE_V8 || features env FEATURE_V7) (u32 a) t x -> stage_ok env W a t x.
Proof.
  intros Hp (H1 & _ & H3) Hf. destruct (H3 Hf) as (prot & H4 & H5). exists (u32 a), prot.
  pose proof (bits_range 32 (Z.max W 40) (u32 a)). rewrite wrap_low in * by lia.
  split_and!; try done; try lia.
  - apply (wrap_low 10 32). lia.
  - unfold checked. by rewrite Hp.
Qed.

Lemma stage_off a t :
  0 <= a < 2 ^ W -> 0 <= t < 3 ->
  stage_ok env W a t (mk_xlat None (Some a) (Some (PAGE_READ .| PAGE_WRITE .| PAGE_EXEC)%c) None).
Proof.
  intros Ha Ht _. assert (2 ^ W <= 2 ^ Z.max W 40) by (apply Z.pow_le_mono_r; lia).
  exists a. eexists. split_and!; try done; try lia. intros _. by apply mpu_off_allows.
Qed.

Lemma ro_mva a i :
  regular i -> 0 <= a < 2 ^ W ->
  ro env (if (a <? 0x02000000) && negb (bool_decide (i = S2NS)) && negb (features env FEATURE_V8) then
            el ← regime_el i;
            fcse ← gets (if el =? 3 then fcseidr_s else fcseidr_ns);
            mret (wrap W (a + fcse))
          else mret a) (fun mva => modified env a mva /\ 0 <= mva < 2 ^ W).
Proof.
  intros Hi Ha. ro_step.
  - eapply ro_bind; [by apply ro_el|]. intros el _. ro_step. ro_step.
    split; [|apply wrap_range; lia]. exists ((if el =? 3 then fcseidr_s else fcseidr_ns) env).
    split; [case_match; auto|]. apply (wrap_low 10 W). lia.
  - ro_step. split; [|done]. exists 0. split; [auto|]. by rewrite Z.add_0_r.
Qed.

Abbreviation stage1 := (get_phys_addr_stage1 W (get_phys_addr_lpae W junk) get_phys_addr_pmsa junk).

Lemma ro_stage1_ok a t i :
  regular i -> 0 <= a < 2 ^ W -> 0 <= t < 3 ->
  ro env (stage1 a t i) (fun x => exists mva, modified env a mva /\ stage_ok env W mva t x).
Proof.
  intros Hi Ha Ht. unfold get_phys_addr_stage1. ro_step. intros user _. ro_step.
  eapply ro_bind; [by apply ro_mva|]. intros mva [Hm Hr]. ro_step. ro_step.
  { eapply ro_mono; [apply ro_pmsa; [apply Hwf|done]|]. intros x Hx. exists mva. split; [done|].
    by apply stage_pmsa. }
  eapply ro_bind; [by apply ro_disabled|]. intros off _. ro_step.
  { ro_step. exists mva. split; [done|]. by apply stage_off. }
  eapply ro_bind; [by apply ro_lpae_format|]. intros lpae _. ro_step.
  { eapply ro_mono; [apply ro_lpae; [apply Hwf|done..]|]. intros x Hx. exists mva.
    split; [done|]. by apply (stage_long _ _ i). }
  eapply ro_bind; [by apply ro_sctlr|]. intros sctlr _.
  eapply (ro_bind _ _ _ (walk_ok (u32 mva) t)).
  - ro_step; [apply ro_v6|apply ro_v5]; try done; apply lpae_reads.
  - intros w Hw. ro_step. exists mva. split; [done|]. by apply stage_short.
Qed.

(** *** Two stages *)

Lemma ro_translation a t i :
  0 <= a < 2 ^ W -> 0 <= t < 3 ->
  ro env (arm_get_phys_addr W junk a t i) (fun x => exists mva, modified env a mva /\ stage_ok env W mva t x).
Proof.
  intros Ha Ht. unfold arm_get_phys_addr, get_phys_addr. ro_step.
  ro_step; [|apply ro_stage1_ok; [apply regular_stage1|done..]].
  eapply ro_bind; [apply ro_stage1_ok; [apply regular_stage1|done..]|]. intros s1 (mva & Hm & Hs1).
  apply (ro_bind _ _ _ (fun off => off = false -> x_fault s1 = None)).
  { destruct (x_fault s1); [by ros|]. eapply ro_mono; [by apply ro_disabled|done]. }
  intros off Hoff. ro_step.
  - ro_step. exists mva. split; [done|]. intros Hf. destruct (Hs1 Hf) as (pa & prot & H1 & H).
    exists pa, prot. cbn. by rewrite H1.
  - destruct (Hs1 (Hoff eq_refl)) as (ipa & p1 & H1 & H2 & H3 & H4 & H5). rewrite H1, H2. cbn [default].
    eapply ro_bind; [apply ro_lpae; [apply Hwf|done..]|]. intros s2 Hs2. apply stage_long in Hs2.
    ro_step. ro_step. exists mva. split; [done|]. intros Hf. cbn in Hf.
    destruct (Hs2 Hf) as (pa & p2 & E1 & E2 & E3 & E4 & E5). exists pa, (Z.land p1 p2). cbn.
    rewrite E1, E2. split_and!; try done; [by rewrite E3, <- H3|lia|lia|].
    intros Hc. apply single_bit_land; [lia|auto..].
Qed.

(** *** Cache attributes *)

(** Only the long-descriptor walk fills them in a regime of one stage. *)
Lemma no_attrs i a t :
  regular i -> 0 <= t < 3 ->
  features env FEATURE_PMSA = true \/ ro env (regime_using_lpae_format i) (fun b => b = false) ->
  ro env (arm_get_phys_addr W junk a t i) (fun x => x_attrs x = None).
Proof.
  intros Hi Ht Hw. destruct (features env FEATURE_PMSA) eqn:Hp.
  - unfold arm_get_phys_addr, get_phys_addr. ro_step.
    rewrite bool_decide_false by (destruct Hi; tauto). cbn [andb].
    replace (stage_1_mmu_idx i) with i by (destruct Hi; by destruct i).
    unfold get_phys_addr_stage1. ro_step. intros user _. ro_step.
    eapply (ro_bind _ _ _ (fun _ => True)); [by ros|]. intros a' _. ro_step. rewrite Hp.
    eapply ro_mono; [apply ro_pmsa; [apply Hwf|done]|]. by intros x (_ & H & _).
  - destruct Hw as [|Hw]; [done|]. apply short_no_attrs; try done. apply lpae_reads.
Qed.

(** A long-descriptor translation that succeeds gives a byte of the MAIR register. *)
Lemma long_attrs i a t :
  regular i -> i <> S2NS -> features env FEATURE_PMSA = false ->
  ro env (regime_translation_disabled i) (fun b => b = false) ->
  ro env (regime_using_lpae_format i) (fun b => b = true) ->
  ro env (arm_get_phys_addr W junk a t i) (fun x => x_fault x = None ->
    exists el n ca, x_attrs x = Some ca /\ regime_el i env = Done (el, env) /\ 0 <= n < 8 /\
      attrs ca = extract32 (mair_el env el) (n * 8) 8).
Proof.
  intros Hi Hs Hp Hon Hl. unfold arm_get_phys_addr, get_phys_addr. ro_step.
  rewrite bool_decide_false by (destruct Hi; tauto). cbn [andb].
  replace (stage_1_mmu_idx i) with i by (destruct Hi; by destruct i).
  unfold get_phys_addr_stage1. ro_step. intros user _. ro_step.
  eapply (ro_bind _ _ _ (fun _ => True)); [by ros|]. intros a' _. ro_step. rewrite Hp.
  eapply ro_bind; [exact Hon|]. intros off ->. eapply ro_bind; [exact Hl|]. intros lpae ->.
  eapply ro_mono; [apply ro_lpae; [apply Hwf|done..]|]. intros x Hx Hf.
  destruct (Hx Hf) as (pa & prot & ca & -> & _ & _ & H). destruct (H Hs) as (el & n & H1 & H2 & H3).
  by exists el, n, ca.
Qed.
End translation.

(** ** Properties *)

(** C39: on a well-formed AArch32 processor a translation, by short or long descriptors
    or a protection unit, of one or two stages and for any contents of memory, returns
    and leaves the processor unchanged.  When it succeeds the physical address has the
    offset of the virtual one (moved by the fast context switch extension) in the
    smallest page and at most forty bits, or those of the virtual address, and the
    permissions allow the access; only the protection units before version 7 do not test
    it. *)
Theorem arm_translation_sound W junk env address access_type i :
  arm_wf env -> 32 <= W -> 0 <= address < 2 ^ W -> 0 <= access_type < 3 ->
  exists x, arm_get_phys_addr W junk address access_type i env = Done (x, env) /\
    (x_fault x = None -> exists pa prot fcse,
      x_phys x = Some pa /\ x_prot x = Some prot /\
      (fcse = 0 \/ fcse = fcseidr_ns env \/ fcse = fcseidr_s env) /\
      pa mod 2 ^ 10 = (address + fcse) mod 2 ^ 10 /\ 0 <= pa < 2 ^ Z.max W 40 /\
      (checked env = true -> bit_any prot (Z.shiftl 1 access_type) = true)).
Proof.
  intros Hwf HW Ha Ht.
  destruct (ro_translation W junk env HW Hwf address access_type i Ha Ht) as (x & Hx & mva & Hm & Hok).
  exists x. split; [done|]. intros Hf. destruct (Hok Hf) as (pa & prot & H1 & H2 & H3 & H4 & H5).
  destruct Hm as (fcse & Hfc & Hmva). exists pa, prot, fcse. rewrite <- Hmva. auto 10.
Qed.

(** A processor with the large physical address extension and a long-descriptor table at
    0x4000, whose first block maps 1 GiB to 0x80000000 with the attributes of the byte 1
    of [mair]. *)
Definition lpae_env (mair : Z) : CPUARMState :=
  mk_arm (fun f => bool_decide (f = FEATURE_V6 \/ f = FEATURE_V6K \/ f = FEATURE_V7 \/ f = FEATURE_EL3
                                \/ f = FEATURE_LPAE)) false 0 0x13
    (fun _ => 0x5) (fun _ => mk_tcr 0x80000000 0 0) (mk_tcr 0 0 0) (fun _ => 0x4000) (fun _ => 0) 0
    (fun _ => mair) 0 0 0 1 1 0 0 (fun _ => 0)
    (replicate 8 0) 0 0 0 [] [] [] (fun _ => []) (fun _ => []) 0 [] [] 0 None
    (fun _ a => Some (if (0x4000 <=? a) && (a <? 0x4008)
                      then u8 (Z.shiftr 0x80000445 (8 * (a - 0x4000))) else 0)) 2.

Lemma lpae_env_wf mair : arm_wf (lpae_env mair).
Proof. by split; constructor. Qed.

Lemma arm_env_wf xp : arm_wf (arm_env xp).
Proof. by split; constructor. Qed.

Lemma arm_translation_sound_witness :
  exists x, arm_get_phys_addr 64 0 0x123456 1 S1SE1 (lpae_env 0xbbff) = Done (x, lpae_env 0xbbff) /\
    x = mk_xlat None (Some 0x80123456) (Some 7) (Some (mk_attrs 0xbb 0)).
Proof.
  destruct (arm_translation_sound 64 0 (lpae_env 0xbbff) 0x123456 1 S1SE1) as (x & Hx & _);
    [apply lpae_env_wf|lia..|]. exists x. split; [done|].
  apply (arm_result_Done _ _ _ _ _ Hx). by vm_compute.
Defined.
