(* ===== verification/Arm.v ===== *)
(** * The ARM target

    [QEMTrace/arch/arm]: [qem_arm_get_info_addr_mem_trace], which finds the physical
    address and the cache attributes of an access, the helpers called for every
    instruction, load and store, and the hooks of [target/arm/translate.c] that insert
    the calls. *)

From S2P Require Import Prelude Bits TraceDef Trace Sink Guest ArmMmu ArmLpae ArmPmsa ArmWalk.
From AAC_tactics Require Import AAC.

Section arm.
Context (cfg : config).

Let d : trace_def := def_of cfg.

(** [target_ulong] has [W] bits; [junk] is the value of an uninitialised variable. *)
Context (W junk : Z).

Abbreviation get_phys_addr := (arm_get_phys_addr W junk).

(** ** Address and attributes of an access *)

Record arm_info := mk_info {
  i_phys_addr : Z;
  i_write_through : Z;
  i_cache_inhibit : Z;
  i_coherency : Z;
  i_access_mode : Z
}.

(** The store of a [hwaddr], eight bytes, through a pointer to a [target_ulong]. *)
Definition store_hwaddr (phys : option Z) : A Z :=
  match phys with
  | Some pa => access_ (if W <? 64 then None else Some pa)
  | None => mret 0
  end.

Definition CPSR_M_USR (env : CPUARMState) : bool := Z.land (uncached_cpsr env) 0x1F =? 0x10.

Definition qem_arm_get_info_addr_mem_trace (addr real_access_type : Z) (mmu_idx : ARMMMUIdx)
    : A arm_info :=
  reg ← gets (fun env => if negb (CPSR_M_USR env) then sctlr_s env else sctlr_ns env);
  x ← get_phys_addr addr real_access_type mmu_idx;
  phys_addr ← store_hwaddr (x_phys x);
  let attrs := default 0 (attrs <$> x_attrs x) in
  disabled ← regime_translation_disabled mmu_idx;
  let cache_inhibit := if (disabled : bool) then 0 else Z.b2z (Z.land attrs 0xF =? 0x4) in
  let write_through := if (disabled : bool) then 1 else Z.b2z (Z.land attrs 0x7 <? 4) in
  access_mode ← gets (fun env => Z.b2z (negb (CPSR_M_USR env)));
  let cache_inhibit :=
    if (real_access_type =? MMU_DATA_LOAD) || (real_access_type =? MMU_DATA_STORE)
    then Z.lor cache_inhibit (Z.b2z (Z.shiftr (Z.land reg 0x4) 2 =? 0))
    else Z.lor cache_inhibit (Z.b2z (Z.shiftr (Z.land reg 0x1000) 12 =? 0)) in
  let phys_addr := if QEM_TRACE_PHYSICAL_ADDRESS cfg then phys_addr else addr in
  mret (mk_info phys_addr write_through cache_inhibit 1 access_mode).

(** ** The helpers *)

Definition GET_ENV_FLAGS (flags wt_enable cache_inhibit coherency size mode : Z) : Z :=
  let flags := Z.lor flags (if negb (mode =? 0) then d.(QEM_TRACE_PL_KERNEL) else d.(QEM_TRACE_PL_USER)) in
  let flags := Z.lor flags
    (if size =? 0 then d.(QEM_TRACE_DATA_SIZE_8_BITS)
     else if size =? 1 then d.(QEM_TRACE_DATA_SIZE_16_BITS)
     else if size =? 2 then d.(QEM_TRACE_DATA_SIZE_32_BITS)
     else if size =? 3 then d.(QEM_TRACE_DATA_SIZE_64_BITS)
     else d.(QEM_TRACE_DATA_SIZE_8_BITS)) in
  let flags := Z.lor flags
    (if coherency =? 1 then d.(QEM_TRACE_COHERENCY_REQ) else d.(QEM_TRACE_COHERENCY_NON_REQ)) in
  let flags := Z.lor flags
    (if cache_inhibit =? 1 then d.(QEM_TRACE_CACHE_INHIBIT_ON) else d.(QEM_TRACE_CACHE_INHIBIT_OFF)) in
  Z.lor flags
    (if wt_enable =? 1 then d.(QEM_TRACE_CACHE_WT_ON) else d.(QEM_TRACE_CACHE_WT_OFF)).

Definition helper_qem_instld_trace (st tsc current_eip size : Z) (mmu_idx : ARMMMUIdx)
    : A (list op) :=
  traced st QEM_TRACE_ITRACE
    (i ← qem_arm_get_info_addr_mem_trace current_eip MMU_INST_FETCH mmu_idx;
     let flags := (d.(QEM_TRACE_EVENT_ACCESS) .| d.(QEM_TRACE_ACCESS_TYPE_READ)
                   .| d.(QEM_TRACE_DATA_TYPE_INST))%c in
     let flags := GET_ENV_FLAGS flags (i_write_through i) (i_cache_inhibit i) (i_coherency i)
                    size (i_access_mode i) in
     core ← gets arm_cpu_index;
     mret [OpOutput current_eip (i_phys_addr i) core (rdtsc_time tsc) flags]).

Definition helper_qem_datald_trace (st tsc addr size : Z) (mmu_idx : ARMMMUIdx) (exclusive : Z)
    : A (list op) :=
  traced st QEM_TRACE_DTRACE
    (i ← qem_arm_get_info_addr_mem_trace addr MMU_DATA_LOAD mmu_idx;
     let flags := (d.(QEM_TRACE_EVENT_ACCESS) .| d.(QEM_TRACE_ACCESS_TYPE_READ)
                   .| d.(QEM_TRACE_DATA_TYPE_DATA))%c in
     let flags := if negb (exclusive =? 0) then Z.lor flags d.(QEM_TRACE_EVENT_EXCLUSIVE) else flags in
     let flags := GET_ENV_FLAGS flags (i_write_through i) (i_cache_inhibit i) (i_coherency i)
                    size (i_access_mode i) in
     core ← gets arm_cpu_index;
     mret [OpOutput addr (i_phys_addr i) core (rdtsc_time tsc) flags]).

Definition helper_qem_datast_trace (st tsc addr size : Z) (mmu_idx : ARMMMUIdx) (exclusive : Z)
    : A (list op) :=
  traced st QEM_TRACE_DTRACE
    (i ← qem_arm_get_info_addr_mem_trace addr MMU_DATA_STORE mmu_idx;
     let flags := (d.(QEM_TRACE_EVENT_ACCESS) .| d.(QEM_TRACE_ACCESS_TYPE_WRITE)
                   .| d.(QEM_TRACE_DATA_TYPE_DATA))%c in
     let flags := if negb (exclusive =? 0) then Z.lor flags d.(QEM_TRACE_EVENT_EXCLUSIVE) else flags in
     let flags := GET_ENV_FLAGS flags (i_write_through i) (i_cache_inhibit i) (i_coherency i)
                    size (i_access_mode i) in
     core ← gets arm_cpu_index;
     mret [OpOutput addr (i_phys_addr i) core (rdtsc_time tsc) flags]).

Definition helper_qem_start_trace (type : Z) : A (list op) := mret [OpEnable type].
Definition helper_qem_stop_trace (type : Z) : A (list op) := mret [OpDisable type].

(** ** The hooks of the translator *)

(** What the translator knows when it emits the call, and the counter when it runs. *)
Record arm_context := mk_ctx { sctlr_b : bool; mmu_idx : ARMMMUIdx; ctx_tsc : Z }.

Definition MO_SIZE := 3.
Definition MO_32 := 2.

(** Addresses of accesses below a word are swizzled in the BE32 mode. *)
Definition gen_aa32_addr (s : arm_context) (a32 op : Z) : Z :=
  let addr := u32 a32 in
  if sctlr_b s && (Z.land op MO_SIZE <? MO_32)
  then Z.lxor addr (4 - Z.shiftl 1 (Z.land op MO_SIZE)) else addr.

Definition gen_qem_instld_trace (s : arm_context) (st cur_eip size : Z) : A (list op) :=
  helper_qem_instld_trace st (ctx_tsc s) cur_eip size (mmu_idx s).
Definition gen_qem_datald_trace (s : arm_context) (st addr size : Z) : A (list op) :=
  helper_qem_datald_trace st (ctx_tsc s) addr size (mmu_idx s) 0.
Definition gen_qem_datald_ex_trace (s : arm_context) (st addr size : Z) : A (list op) :=
  helper_qem_datald_trace st (ctx_tsc s) addr size (mmu_idx s) 1.
Definition gen_qem_datast_trace (s : arm_context) (st addr size : Z) : A (list op) :=
  helper_qem_datast_trace st (ctx_tsc s) addr size (mmu_idx s) 0.
Definition gen_qem_datast_ex_trace (s : arm_context) (st addr size : Z) : A (list op) :=
  helper_qem_datast_trace st (ctx_tsc s) addr size (mmu_idx s) 1.

(** The 32-bit and the 64-bit functions make the same call. *)
Definition gen_aa32_ld (s : arm_context) (st a32 opc : Z) : A (list op) :=
  gen_qem_datald_trace s st (gen_aa32_addr s a32 opc) (Z.land opc MO_SIZE).
Definition gen_aa32_st (s : arm_context) (st a32 opc : Z) : A (list op) :=
  gen_qem_datast_trace s st (gen_aa32_addr s a32 opc) (Z.land opc MO_SIZE).

(** [opc] is the size with alignment and endianness bits above [MO_SIZE]. *)
Definition gen_load_exclusive (s : arm_context) (st addr size opc : Z) : A (list op) :=
  if size =? 3 then gen_qem_datald_ex_trace s st (gen_aa32_addr s addr opc) (Z.land opc MO_SIZE)
  else gen_qem_datald_ex_trace s st addr (Z.land opc MO_SIZE).

(** The store and its call are skipped when the monitor holds another address. *)
Definition gen_store_exclusive (s : arm_context) (st exclusive_addr addr opc : Z) : A (list op) :=
  if u32 addr =? exclusive_addr
  then gen_qem_datast_ex_trace s st (gen_aa32_addr s addr opc) (Z.land opc MO_SIZE)
  else mret [].

Definition disas_arm_insn (insn : Z) : A (list op) :=
  if insn =? QEM_TRACE_START_OP then helper_qem_start_trace QEM_TRACE_ALLTRACE
  else if insn =? QEM_TRACE_DSTART_OP then helper_qem_start_trace QEM_TRACE_DTRACE
  else if insn =? QEM_TRACE_ISTART_OP then helper_qem_start_trace QEM_TRACE_ITRACE
  else if insn =? QEM_TRACE_STOP_OP then helper_qem_stop_trace QEM_TRACE_ALLTRACE
  else if insn =? QEM_TRACE_DSTOP_OP then helper_qem_stop_trace QEM_TRACE_DTRACE
  else if insn =? QEM_TRACE_ISTOP_OP then helper_qem_stop_trace QEM_TRACE_ITRACE
  else mret [].

(** The two calls of a swap are two events. *)
Inductive arm_kind :=
  | AFetch (pc : Z)
  | ALoad (a32 opc : Z)
  | AStore (a32 opc : Z)
  | ALoadEx (addr size opc : Z)
  | AStoreEx (exclusive_addr addr opc : Z)
  | ASwapLoad (addr opc : Z)
  | ASwapStore (addr opc : Z)
  | AOpcode (insn : Z).

(** An event: what the guest did to the processor since the one before, and the code
    that calls the tracer. *)
Record arm_event := mk_arm_event {
  arm_step : CPUARMState -> CPUARMState;
  arm_ctx : arm_context;
  arm_what : arm_kind
}.

Definition arm_hook (s : arm_context) (k : arm_kind) (st : Z) : A (list op) :=
  match k with
  | AFetch pc => gen_qem_instld_trace s st pc MO_32
  | ALoad a32 opc => gen_aa32_ld s st a32 opc
  | AStore a32 opc => gen_aa32_st s st a32 opc
  | ALoadEx addr size opc => gen_load_exclusive s st addr size opc
  | AStoreEx ex addr opc => gen_store_exclusive s st ex addr opc
  | ASwapLoad addr opc => gen_qem_datald_ex_trace s st (gen_aa32_addr s addr opc) (Z.land opc MO_SIZE)
  | ASwapStore addr opc => gen_qem_datast_ex_trace s st (gen_aa32_addr s addr opc) (Z.land opc MO_SIZE)
  | AOpcode insn => disas_arm_insn insn
  end.

Definition arm_code (e : arm_event) (st : Z) : A (list op) :=
  modify (arm_step e);; arm_hook (arm_ctx e) (arm_what e) st.
End arm.

(** ** What the helpers record *)

(** The access of a record: [x] is the translation, [off] tells that the MMU is off. *)
Definition arm_access (env : CPUARMState) (x : xlat) (off write inst excl : bool) (size : Z) : access :=
  let a := default 0 (attrs <$> x_attrs x) in
  let reg := if CPSR_M_USR env then sctlr_ns env else sctlr_s env in
  mk_access write inst (CPSR_M_USR env) EvAccess GrLine (size_of_op size) true Level1
    (negb off && (Z.land a 0xF =? 4) || negb (Z.testbit reg (if inst then 12 else 2)))
    (off || (Z.land a 0x7 <? 4)) excl.

Lemma env_flags cfg flags wt ci size mode write inst excl :
  flags = (rw_code (def_of cfg) write .| id_code (def_of cfg) inst
           .| exclusive_code (def_of cfg) excl)%c ->
  GET_ENV_FLAGS cfg flags wt ci 1 size mode =
  encode (def_of cfg) (mk_access write inst (mode =? 0) EvAccess GrLine (size_of_op size) true Level1
    (ci =? 1) (wt =? 1) excl).
Proof.
  intros ->. unfold GET_ENV_FLAGS, encode. cbn [acc_write acc_inst acc_user acc_event
    acc_granularity acc_size acc_coherency acc_level acc_inhibit acc_wt acc_exclusive].
  destruct (zero_codes cfg) as (E1 & _ & _ & _ & E5 & _ & E7 & _).
  assert (Hs : (if size =? 0 then (def_of cfg).(QEM_TRACE_DATA_SIZE_8_BITS)
     else if size =? 1 then (def_of cfg).(QEM_TRACE_DATA_SIZE_16_BITS)
     else if size =? 2 then (def_of cfg).(QEM_TRACE_DATA_SIZE_32_BITS)
     else if size =? 3 then (def_of cfg).(QEM_TRACE_DATA_SIZE_64_BITS)
     else (def_of cfg).(QEM_TRACE_DATA_SIZE_8_BITS)) = size_code (def_of cfg) (size_of_op size)).
  { unfold size_of_op. repeat (case_match; try done; try lia). }
  rewrite Hs. unfold event_code, gran_code, level_code. rewrite E1, E5, E7.
  replace (if negb (mode =? 0) then _ else _) with (pl_code (def_of cfg) (mode =? 0))
    by (by destruct (mode =? 0)).
  unfold coherency_code, inhibit_code, wt_code, ite. change (1 =? 1) with true. cbv iota.
  aac_reflexivity.
Qed.

Lemma store_wide W x env : 64 <= W -> store_hwaddr W (x_phys x) env = Done (default 0 (x_phys x), env).
Proof.
  intros HW. unfold store_hwaddr. destruct (x_phys x); [|done]. by rewrite (proj2 (Z.ltb_ge W 64)).
Qed.

Section records.
Context (cfg : config) (W junk : Z) (env : CPUARMState).
Hypothesis wf : arm_wf env.
Hypothesis wide : 64 <= W.

Lemma sctlr_bit reg n : 0 <= n ->
  (Z.shiftr (Z.land reg (Z.shiftl 1 n)) n =? 0) = negb (Z.testbit reg n).
Proof.
  intros Hn. rewrite Z.shiftr_land, Z.shiftr_shiftl_l, Z.sub_diag by lia.
  change (Z.shiftl 1 0) with (Z.ones 1). rewrite Z.land_ones by lia. change (2 ^ 1) with 2.
  rewrite <- Z.bit0_mod, Z.shiftr_spec, Z.add_0_l by lia. by destruct (Z.testbit reg n).
Qed.

Lemma info_run addr t i :
  regular i -> 0 <= t < 3 ->
  exists x off, arm_get_phys_addr W junk addr t i env = Done (x, env) /\
    regime_translation_disabled i env = Done (off, env) /\
    qem_arm_get_info_addr_mem_trace cfg W junk addr t i env =
    let a := arm_access env x off false (t =? 2) false 0 in
    Done (mk_info (if QEM_TRACE_PHYSICAL_ADDRESS cfg then default 0 (x_phys x) else addr)
      (Z.b2z (acc_wt a)) (Z.b2z (acc_inhibit a)) 1 (Z.b2z (negb (acc_user a))), env).
Proof.
  intros Hi Ht.
  destruct (ro_arm_walk W junk env ltac:(lia) wf addr t i Ht) as (x & Hx & _).
  destruct (ro_disabled env i Hi) as (off & Hoff & _). exists x, off. split; [done|]. split; [done|].
  pose proof (store_wide W x env wide) as Hs.
  unfold qem_arm_get_info_addr_mem_trace.
  rewrite run_gets, (bind_step _ _ _ _ _ Hx), (bind_step _ _ _ _ _ Hs), (bind_step _ _ _ _ _ Hoff), run_gets.
  unfold arm_access. cbn [acc_wt acc_inhibit acc_user].
  apply (f_equal (fun i => Done (i, env))). f_equal.
  - by destruct off.
  - rewrite (sctlr_bit _ 2), (sctlr_bit _ 12) by lia.
    set (dev := _ =? 4). clearbody dev. set (reg := if negb _ then _ else _).
    replace (if CPSR_M_USR env then _ else _) with reg by (unfold reg; by destruct (CPSR_M_USR env)).
    clearbody reg. assert (t = 0 \/ t = 1 \/ t = 2) as [->|[->| ->]] by lia; cbn -[Z.testbit];
      (destruct (Z.testbit reg _)); by destruct off, dev.
Qed.

(** The flag word of a record is the code of the access. *)
Lemma info_flags x off write inst excl size flags :
  flags = (rw_code (def_of cfg) write .| id_code (def_of cfg) inst
           .| exclusive_code (def_of cfg) excl)%c ->
  let a := arm_access env x off false inst false 0 in
  GET_ENV_FLAGS cfg flags (Z.b2z (acc_wt a)) (Z.b2z (acc_inhibit a)) 1 size
    (Z.b2z (negb (acc_user a)))
  = encode (def_of cfg) (arm_access env x off write inst excl size).
Proof.
  intros Hf a. rewrite (env_flags _ _ _ _ _ _ write inst excl Hf). f_equal. unfold arm_access. subst a.
  f_equal.
  - cbn. by destruct (CPSR_M_USR env).
  - unfold arm_access. cbn [acc_inhibit]. by destruct (_ || _).
  - unfold arm_access. cbn [acc_wt]. by destruct (_ || _).
Qed.

Definition arm_pa (x : xlat) (addr : Z) : Z :=
  if QEM_TRACE_PHYSICAL_ADDRESS cfg then default 0 (x_phys x) else addr.

Lemma data_run (write : bool) st tsc addr size i excl :
  regular i -> bit_any st QEM_TRACE_DTRACE = true ->
  exists x off, arm_get_phys_addr W junk addr (Z.b2z write) i env = Done (x, env) /\
    regime_translation_disabled i env = Done (off, env) /\
    (if write then helper_qem_datast_trace else helper_qem_datald_trace)
      cfg W junk st tsc addr size i excl env =
    Done ([OpOutput addr (arm_pa x addr) (arm_cpu_index env) (rdtsc_time tsc)
      (encode (def_of cfg) (arm_access env x off write false (negb (excl =? 0)) size))], env).
Proof.
  intros Hi Hst. destruct (info_run addr (Z.b2z write) i Hi) as (x & off & Hx & Hoff & Hinfo);
    [by destruct write|]. exists x, off. split; [done|]. split; [done|].
  destruct (zero_codes cfg) as (E1 & E2 & E3 & _ & _ & _ & _ & _ & E9).
  destruct write; unfold helper_qem_datast_trace, helper_qem_datald_trace, traced; rewrite Hst;
    (rewrite (bind_step _ _ _ _ _ Hinfo)); (rewrite run_gets); cbn [i_phys_addr i_write_through
      i_cache_inhibit i_coherency i_access_mode];
    apply (f_equal (fun f => Done ([OpOutput _ _ _ _ f], env))); apply info_flags;
    unfold rw_code, id_code, exclusive_code, ite; rewrite ?E1, ?E2, ?E3, ?E9;
    destruct (excl =? 0); cbn [negb]; aac_reflexivity.
Qed.

Lemma fetch_run st tsc pc size i :
  regular i -> bit_any st QEM_TRACE_ITRACE = true ->
  exists x off, arm_get_phys_addr W junk pc MMU_INST_FETCH i env = Done (x, env) /\
    regime_translation_disabled i env = Done (off, env) /\
    helper_qem_instld_trace cfg W junk st tsc pc size i env =
    Done ([OpOutput pc (arm_pa x pc) (arm_cpu_index env) (rdtsc_time tsc)
      (encode (def_of cfg) (arm_access env x off false true false size))], env).
Proof.
  intros Hi Hst. destruct (info_run pc MMU_INST_FETCH i Hi) as (x & off & Hx & Hoff & Hinfo);
    [done|]. exists x, off. split; [done|]. split; [done|].
  destruct (zero_codes cfg) as (E1 & E2 & E3 & _ & _ & _ & _ & _ & E9).
  unfold helper_qem_instld_trace, traced. rewrite Hst, (bind_step _ _ _ _ _ Hinfo), run_gets.
  cbn [i_phys_addr i_write_through i_cache_inhibit i_coherency i_access_mode].
  apply (f_equal (fun f => Done ([OpOutput _ _ _ _ f], env))). apply info_flags.
  unfold rw_code, id_code, exclusive_code, ite. rewrite E1, E2, E9. aac_reflexivity.
Qed.
End records.

(** ** The interface of the guest *)

Section guarded.
Context (cfg : config) (W junk : Z).

Lemma arm_well_guarded : well_guarded (arm_code cfg W junk).
Proof.
  intros e st g ops g' Hrun. unfold arm_code in Hrun. apply bind_Done in Hrun as ([] & s1 & _ & Hrun).
  destruct (arm_what e); cbn [arm_hook] in Hrun;
    unfold gen_aa32_ld, gen_aa32_st, gen_load_exclusive, gen_store_exclusive in Hrun;
    try (case_match; [|try (injection Hrun as <- _; done)]);
    try (revert Hrun; apply traced_guarded; outputs).
  unfold disas_arm_insn, helper_qem_start_trace, helper_qem_stop_trace in Hrun.
  repeat case_match; injection Hrun as <- _; cbn; unfold ttype; auto.
Qed.

(** Coherency is always reported as required. *)
Lemma info_coherency addr t i env info env' :
  qem_arm_get_info_addr_mem_trace cfg W junk addr t i env = Done (info, env') -> i_coherency info = 1.
Proof.
  unfold qem_arm_get_info_addr_mem_trace. intros H.
  repeat (apply bind_Done in H as (? & ? & _ & H)). by injection H as <- _.
Qed.

Lemma traced_coded st ty (m : A arm_info) (k : arm_info -> A (list op)) :
  (forall env info env', m env = Done (info, env') -> i_coherency info = 1) ->
  (forall info, i_coherency info = 1 -> emits (coded cfg) (k info)) ->
  emits (coded cfg) (traced st ty (m ≫= k)).
Proof.
  intros Hm Hk. apply traced_outputs. intros env ops env' H. apply bind_Done in H as (info & env1 & Hi & H).
  eapply (Hk info); [by eapply Hm|done].
Qed.

Lemma arm_coded e st : emits (coded cfg) (arm_code cfg W junk e st).
Proof.
  destruct (zero_codes cfg) as (E1 & E2 & E3 & _ & _ & _ & _ & _ & E9).
  assert (Hf : forall tsc pc sz i, emits (coded cfg) (helper_qem_instld_trace cfg W junk st tsc pc sz i)).
  { intros. apply traced_coded; [intros ? ? ?; apply info_coherency|]. intros info Hc. rewrite Hc.
    apply outputs_bind; intros core. apply outputs_ret. repeat constructor. eexists.
    apply (env_flags _ _ _ _ _ _ false true false).
    unfold rw_code, id_code, exclusive_code, ite. rewrite E1, E2, E9. aac_reflexivity. }
  assert (Hd : forall (write : bool) tsc a sz i ex, emits (coded cfg)
    ((if write then helper_qem_datast_trace else helper_qem_datald_trace) cfg W junk st tsc a sz i ex)).
  { intros write tsc a sz i ex. destruct write;
      (apply traced_coded; [intros ? ? ?; apply info_coherency|]); intros info Hc; rewrite Hc;
      apply outputs_bind; intros core; apply outputs_ret; repeat constructor; eexists.
    1: apply (env_flags _ _ _ _ _ _ true false (negb (ex =? 0))).
    2: apply (env_flags _ _ _ _ _ _ false false (negb (ex =? 0))).
    all: unfold rw_code, id_code, exclusive_code, ite; rewrite ?E1, ?E2, ?E3, ?E9;
      destruct (ex =? 0); cbn [negb]; aac_reflexivity. }
  apply outputs_bind. intros _. destruct (arm_what e); cbn [arm_hook];
    unfold gen_aa32_ld, gen_aa32_st, gen_load_exclusive, gen_store_exclusive, gen_qem_instld_trace,
      gen_qem_datald_trace, gen_qem_datald_ex_trace, gen_qem_datast_trace, gen_qem_datast_ex_trace;
    repeat match goal with
    | |- emits _ (helper_qem_instld_trace _ _ _ _ _ _ _ _) => apply Hf
    | |- emits _ (helper_qem_datast_trace _ _ _ _ _ _ _ _ _) => apply (Hd true)
    | |- emits _ (helper_qem_datald_trace _ _ _ _ _ _ _ _ _) => apply (Hd false)
    | |- emits _ (mret []) => by apply outputs_ret
    | |- emits _ (if ?b then _ else _) => destruct b
    end.
  all: unfold disas_arm_insn, helper_qem_start_trace, helper_qem_stop_trace;
    repeat case_match; apply outputs_ret; by repeat constructor.
Qed.
End guarded.

(** ** Properties *)


Definition cfg_arm : config := cfg_small true true.


(** With short descriptors or a protection unit no record depends on the
    cacheability the guest has set up: none of these walks fills the cache attributes,
    so every access is recorded as write-through, and as cache-inhibited exactly if the cache enable bit
    of the SCTLR the mode selects is clear. *)
Theorem arm_short_descriptors_uniform cfg W junk env (write : bool) st tsc addr size i excl :
  QEM_TRACE_GATHER_META cfg = true -> 64 <= W -> regular i ->
  arm_wf env ->
  features env FEATURE_PMSA = true \/ ro env (regime_using_lpae_format i) (fun b => b = false) ->
  bit_any st QEM_TRACE_DTRACE = true -> 0 <= arm_cpu_index env < 2 ^ 32 ->
  exists pa core time flg,
    (if write then helper_qem_datast_trace else helper_qem_datald_trace)
      cfg W junk st tsc addr size i excl env = Done ([OpOutput addr pa core time flg], env) /\
    let a := decode (def_of cfg) (flags (new_trace cfg pa core time flg)) in
    acc_wt a = true /\
    acc_inhibit a = negb (Z.testbit (if CPSR_M_USR env then sctlr_ns env else sctlr_s env) 2).
Proof.
  intros Hm HW Hi Hw Hfmt Hst Hc.
  destruct (data_run cfg W junk env Hw HW write st tsc addr size i excl Hi Hst)
    as (x & off & Hx & Hoff & Hrun).
  destruct (no_attrs W junk env ltac:(lia) Hw i addr (Z.b2z write) Hi) as (x' & Hx' & Ha);
    [by destruct write|done|]. rewrite Hx in Hx'. injection Hx' as <-.
  do 4 eexists. split; [exact Hrun|]. cbn zeta.
  destruct (new_trace_decode cfg (arm_pa cfg x addr) (arm_cpu_index env) (rdtsc_time tsc)
    (arm_access env x off write false (negb (excl =? 0)) size) Hm Hc) as [-> _].
  unfold arm_access. cbn [acc_wt acc_inhibit]. rewrite Ha. cbn -[Z.testbit].
  split; [apply orb_true_r|]. by rewrite andb_false_r.
Qed.

Lemma arm_short_descriptors_uniform_witness :
  exists pa core time flg,
    helper_qem_datald_trace cfg_arm 64 0 1 77 0x123456 2 S1SE1 0 (arm_env true)
      = Done ([OpOutput 0x123456 pa core time flg], arm_env true) /\
    acc_wt (decode (def_of cfg_arm) (flags (new_trace cfg_arm pa core time flg))) = true.
Proof.
  destruct (arm_short_descriptors_uniform cfg_arm 64 0 (arm_env true) false 1 77
    0x123456 2 S1SE1 0) as (pa & core & time & flg & Hrun & Hwt & _);
    [first [reflexivity|lia|done|apply arm_env_wf|right; by eexists]..|].
  exists pa, core, time, flg. by split.
Defined.

(** The inner memory type of a MAIR byte in the architecture. *)
Inductive memory_type := Device | NonCacheable | WriteThrough | WriteBack.

#[export] Instance memory_type_eq_dec : EqDecision memory_type.
Proof. solve_decision. Defined.

Definition mair_type (m : Z) : memory_type :=
  if extract32 m 4 4 =? 0 then Device
  else if extract32 m 0 4 =? 4 then NonCacheable
  else if Z.testbit m 2 then WriteBack else WriteThrough.

Lemma low_test m : (Z.land m 0x7 <? 4) = negb (Z.testbit m 2).
Proof.
  change 0x7 with (Z.ones 3). rewrite Z.land_ones by lia. pose proof (Z.mod_pos_bound m (2 ^ 3)).
  replace (Z.testbit m 2) with (Z.testbit (m mod 2 ^ 3) 2) by (by rewrite Z.mod_pow2_bits_low by lia).
  set (k := m mod 2 ^ 3) in *. assert (Hk : 0 <= k < 8) by lia. clearbody k. below_cases 8%nat Hk; done.
Qed.

(** The flags of the tracer, on any byte. *)
Lemma mair_flags m off :
  let ci := negb false && (Z.land m 0xF =? 4) || off in
  (mair_type m <> Device -> ci = bool_decide (mair_type m = NonCacheable) || off) /\
  (mair_type m = WriteThrough \/ mair_type m = WriteBack ->
   false || (Z.land m 0x7 <? 4) = bool_decide (mair_type m = WriteThrough)) /\
  (m = 0 -> ci = off /\ false || (Z.land m 0x7 <? 4) = true).
Proof.
  cbn [negb andb orb]. rewrite low_test. unfold mair_type.
  change (Z.land m 0xF) with (extract32 m 0 4). split_and!.
  - repeat case_match; done.
  - repeat case_match; intros [|]; done.
  - by intros ->.
Qed.

(** With long descriptors the record of a translated access of normal memory
    carries the inner cacheability of its MAIR byte: write-through if that is, and
    cache-inhibited if it is non-cacheable or the cache is off.  Device memory of the
    strictest type (byte 0) is not inhibited, it is recorded as write-through. *)
Theorem arm_long_descriptors_mair cfg W junk env (write : bool) st tsc addr size i excl :
  QEM_TRACE_GATHER_META cfg = true -> 64 <= W -> regular i -> i <> S2NS -> arm_wf env ->
  features env FEATURE_PMSA = false ->
  ro env (regime_translation_disabled i) (fun b => b = false) ->
  ro env (regime_using_lpae_format i) (fun b => b = true) ->
  bit_any st QEM_TRACE_DTRACE = true -> 0 <= arm_cpu_index env < 2 ^ 32 ->
  exists x pa core time flg,
    arm_get_phys_addr W junk addr (Z.b2z write) i env = Done (x, env) /\
    (if write then helper_qem_datast_trace else helper_qem_datald_trace)
      cfg W junk st tsc addr size i excl env = Done ([OpOutput addr pa core time flg], env) /\
    (x_fault x = None -> exists el n, regime_el i env = Done (el, env) /\ 0 <= n < 8 /\
      let a := decode (def_of cfg) (flags (new_trace cfg pa core time flg)) in
      let m := extract32 (mair_el env el) (n * 8) 8 in
      let off := negb (Z.testbit (if CPSR_M_USR env then sctlr_ns env else sctlr_s env) 2) in
      (mair_type m <> Device -> acc_inhibit a = bool_decide (mair_type m = NonCacheable) || off) /\
      (mair_type m = WriteThrough \/ mair_type m = WriteBack ->
       acc_wt a = bool_decide (mair_type m = WriteThrough)) /\
      (m = 0 -> acc_inhibit a = off /\ acc_wt a = true)).
Proof.
  intros Hm HW Hi Hs Hw Hp Hon Hl Hst Hc.
  destruct (data_run cfg W junk env Hw HW write st tsc addr size i excl Hi Hst)
    as (x & off & Hx & Hoff & Hrun).
  destruct (long_attrs W junk env ltac:(lia) Hw i addr (Z.b2z write) Hi Hs Hp Hon Hl) as (x' & Hx' & Ha).
  rewrite Hx in Hx'. injection Hx' as <-. destruct Hon as (b & Hb & ->). rewrite Hb in Hoff.
  injection Hoff as <-. exists x. do 4 eexists. split; [done|]. split; [exact Hrun|]. intros Hf.
  destruct (Ha Hf) as (el & n & ca & Hca & Hel & Hn & Hat). exists el, n. split; [done|]. split; [done|].
  cbn zeta. destruct (new_trace_decode cfg (arm_pa cfg x addr) (arm_cpu_index env) (rdtsc_time tsc)
    (arm_access env x false write false (negb (excl =? 0)) size) Hm Hc) as [-> _].
  unfold arm_access. cbn [acc_wt acc_inhibit]. rewrite Hca. cbn [default fmap option_fmap option_map from_option].
  rewrite Hat. apply mair_flags.
Qed.

Lemma arm_long_descriptors_mair_witness :
  exists pa core time flg,
    helper_qem_datald_trace cfg_arm 64 0 1 77 0x123456 2 S1SE1 0 (lpae_env 0)
      = Done ([OpOutput 0x123456 pa core time flg], lpae_env 0) /\
    let a := decode (def_of cfg_arm) (flags (new_trace cfg_arm pa core time flg)) in
    acc_inhibit a = false /\ acc_wt a = true.
Proof.
  destruct (arm_long_descriptors_mair cfg_arm 64 0 (lpae_env 0) false 1 77 0x123456 2 S1SE1 0)
    as (x & pa & core & time & flg & Hx & Hrun & H);
    [first [reflexivity|lia|done|apply lpae_env_wf|by eexists]..|].
  exists pa, core, time, flg. split; [done|].
  destruct H as (el & n & _ & _ & _ & _ & H).
  - rewrite (arm_result_Done _ _ _ _ (mk_xlat None (Some 0x80123456) (Some 7) (Some (mk_attrs 0 0))) Hx);
      by vm_compute.
  - apply H. cbn. unfold extract32. by rewrite Z.shiftr_0_l.
Defined.

(** The indices of a processor without security extensions: [regime_el] aborts. *)
Lemma combined_aborts env i :
  i = S12NSE0 \/ i = S12NSE1 -> features env FEATURE_M = false ->
  regime_translation_disabled i env = Exit 134.
Proof.
  intros Hi Hm. unfold regime_translation_disabled, arm_feature_. rewrite run_gets, Hm, run_gets.
  destruct (bit_any (hcr_el2 env) HCR_TGE) eqn:E;
    destruct Hi as [-> | ->]; cbn [decide decide_rel]; rewrite ?decide_False by done;
    unfold mbind, C_bind; cbn; try done;
    rewrite andb_false_r; done.
Qed.

(** Under the two combined non-secure regimes, the ones of every processor without
    security extensions and of the non-secure world, the first traced access ends the
    emulator: after the translation [qem_arm_get_info_addr_mem_trace] asks
    [regime_translation_disabled], which has no answer for these indices and aborts. *)
Theorem arm_nonsecure_aborts cfg W junk env (write : bool) st tsc addr size i excl :
  64 <= W -> i = S12NSE0 \/ i = S12NSE1 -> features env FEATURE_M = false ->
  arm_wf env ->
  bit_any st QEM_TRACE_DTRACE = true ->
  (if write then helper_qem_datast_trace else helper_qem_datald_trace)
    cfg W junk st tsc addr size i excl env = Exit 134.
Proof.
  intros HW Hi Hm Hw Hst.
  assert (Hinfo : qem_arm_get_info_addr_mem_trace cfg W junk addr (Z.b2z write) i env = Exit 134).
  { unfold qem_arm_get_info_addr_mem_trace. rewrite run_gets.
    destruct (ro_arm_walk W junk env ltac:(lia) Hw addr (Z.b2z write) i) as (x & Hx & _);
      [by destruct write|].
    rewrite (bind_step _ _ _ _ _ Hx), (bind_step _ _ _ _ _ (store_wide W x env HW)).
    by apply bind_Exit, combined_aborts. }
  destruct write; unfold helper_qem_datast_trace, helper_qem_datald_trace, traced; rewrite Hst;
    by apply bind_Exit.
Qed.

Lemma arm_nonsecure_aborts_witness :
  helper_qem_datald_trace cfg_arm 64 0 1 77 0x123456 2 S12NSE1 0 (arm_env true) = Exit 134.
Proof.
  apply (arm_nonsecure_aborts cfg_arm 64 0 (arm_env true) false);
    [first [reflexivity|lia|by right|apply arm_env_wf]..].
Defined.

(** On a 32-bit build a translation that finds an address overflows the variable
    of the helper: eight bytes are stored through a pointer to a [target_ulong] of
    four. *)
Theorem arm_narrow_store_undefined cfg W junk env (write : bool) st tsc addr size i excl x :
  W < 64 -> bit_any st QEM_TRACE_DTRACE = true ->
  arm_get_phys_addr W junk addr (Z.b2z write) i env = Done (x, env) -> x_phys x <> None ->
  (if write then helper_qem_datast_trace else helper_qem_datald_trace)
    cfg W junk st tsc addr size i excl env = Undefined.
Proof.
  intros HW Hst Hx Hp.
  assert (Hinfo : qem_arm_get_info_addr_mem_trace cfg W junk addr (Z.b2z write) i env = Undefined).
  { unfold qem_arm_get_info_addr_mem_trace. rewrite run_gets, (bind_step _ _ _ _ _ Hx).
    apply bind_Undefined. unfold store_hwaddr. destruct (x_phys x); [|done].
    by rewrite (proj2 (Z.ltb_lt W 64)). }
  destruct write; unfold helper_qem_datast_trace, helper_qem_datald_trace, traced; rewrite Hst;
    by apply bind_Undefined.
Qed.

Lemma arm_narrow_store_undefined_witness :
  helper_qem_datald_trace cfg_arm 32 0 1 77 0x123456 2 S1SE1 0 (arm_env true) = Undefined.
Proof.
  destruct (ro_arm_walk 32 0 (arm_env true) ltac:(lia) (arm_env_wf true) 0x123456 0 S1SE1 ltac:(lia))
    as (x & Hx & _).
  apply (arm_narrow_store_undefined cfg_arm 32 0 (arm_env true) false 1 77 0x123456 2 S1SE1 0 x);
    [lia|reflexivity|exact Hx|].
  rewrite (arm_result_Done _ _ _ _ (mk_xlat None (Some 0x80023456) (Some 7) None) Hx); by vm_compute.
Defined.
