(* ===== verification/PpcMmu.v ===== *)
(** * PowerPC address translation in QEMU

    What the PowerPC tracer calls of [target/ppc/mmu_helper.c]: the translation of
    the software-managed MMU models (6xx and 74xx with BATs and segments, 4xx, BookE
    and BookE 2.06) and the real mode, the dispatch [get_physical_address_wtlb] and
    QEMU's own debug translation [ppc_cpu_get_phys_page_debug].  The target is the
    32-bit one: [target_ulong] has 32 bits.

    The functions get the state of the processor, which some of them change (the
    referenced bit of a TLB entry, the ESR), and the translation context [mmu_ctx_t],
    which they return; it is uninitialised when the caller passes it first.  A return
    value is 0 (granted), -1 (no match) to -4, or 2, as in the code. *)

From S2P Require Import Prelude Bits.

(** ** State *)

Inductive powerpc_mmu_t :=
  | POWERPC_MMU_SOFT_6xx | POWERPC_MMU_SOFT_74xx | POWERPC_MMU_SOFT_4xx | POWERPC_MMU_SOFT_4xx_Z
  | POWERPC_MMU_REAL | POWERPC_MMU_MPC8xx | POWERPC_MMU_BOOKE | POWERPC_MMU_BOOKE206
  | POWERPC_MMU_32B | POWERPC_MMU_601 | POWERPC_MMU_UNKNOWN.

Record ppc6xx_tlb_t := mk_tlb6 { pte0 : Z; pte1 : Z; tlb6_EPN : Z }.

Record ppcemb_tlb_t := mk_tlbe {
  RPN : Z; EPN : Z; PID : Z; size : Z; tlb_prot : Z; attr : Z
}.

Record ppcmas_tlb_t := mk_tlbm { mas8 : Z; mas1 : Z; mas2 : Z; mas7_3 : Z }.

(** A BAT register is the pair of its upper and lower word; the TLB is a union in the
    code, of which the MMU model selects one member; [pb0] to [pb3] are the array
    [pb]. *)
Record CPUPPCState := mk_ppc {
  gpr : list Z;
  msr : Z;
  sr : list Z;
  nb_BATs : nat;
  DBAT : list (Z * Z);
  IBAT : list (Z * Z);
  nb_tlb : nat;
  tlb_per_way : Z;
  nb_ways : nat;
  id_tlbs : Z;
  nb_pids : Z;
  tlb6 : list ppc6xx_tlb_t;
  tlbe : list ppcemb_tlb_t;
  tlbm : list ppcmas_tlb_t;
  pb0 : Z;
  pb1 : Z;
  pb2 : Z;
  pb3 : Z;
  spr : Z -> Z;
  mmu_model : powerpc_mmu_t;
  ppc_cpu_index : Z
}.

Section CPUPPCState_setters.
Context (env : CPUPPCState).
Definition set_gpr (v : list Z) : CPUPPCState :=
  mk_ppc v (msr env) (sr env) (nb_BATs env) (DBAT env) (IBAT env) (nb_tlb env)
    (tlb_per_way env) (nb_ways env) (id_tlbs env) (nb_pids env) (tlb6 env) (tlbe env)
    (tlbm env) (pb0 env) (pb1 env) (pb2 env) (pb3 env) (spr env) (mmu_model env)
    (ppc_cpu_index env).
Definition set_tlb6 (v : list ppc6xx_tlb_t) : CPUPPCState :=
  mk_ppc (gpr env) (msr env) (sr env) (nb_BATs env) (DBAT env) (IBAT env) (nb_tlb env)
    (tlb_per_way env) (nb_ways env) (id_tlbs env) (nb_pids env) v (tlbe env) (tlbm env)
    (pb0 env) (pb1 env) (pb2 env) (pb3 env) (spr env) (mmu_model env) (ppc_cpu_index env).
Definition set_spr (v : Z -> Z) : CPUPPCState :=
  mk_ppc (gpr env) (msr env) (sr env) (nb_BATs env) (DBAT env) (IBAT env) (nb_tlb env)
    (tlb_per_way env) (nb_ways env) (id_tlbs env) (nb_pids env) (tlb6 env) (tlbe env)
    (tlbm env) (pb0 env) (pb1 env) (pb2 env) (pb3 env) v (mmu_model env)
    (ppc_cpu_index env).
End CPUPPCState_setters.

(** The context; [hash0] and [hash1] are the array [hash]. *)
Record mmu_ctx_t := mk_ctx {
  raddr : Z;
  eaddr : Z;
  prot : Z;
  hash0 : Z;
  hash1 : Z;
  ptem : Z;
  key : Z;
  nx : Z
}.

Section mmu_ctx_t_setters.
Context (ctx : mmu_ctx_t).
Definition set_raddr (v : Z) : mmu_ctx_t :=
  mk_ctx v (eaddr ctx) (prot ctx) (hash0 ctx) (hash1 ctx) (ptem ctx) (key ctx) (nx ctx).
Definition set_eaddr (v : Z) : mmu_ctx_t :=
  mk_ctx (raddr ctx) v (prot ctx) (hash0 ctx) (hash1 ctx) (ptem ctx) (key ctx) (nx ctx).
Definition set_prot (v : Z) : mmu_ctx_t :=
  mk_ctx (raddr ctx) (eaddr ctx) v (hash0 ctx) (hash1 ctx) (ptem ctx) (key ctx) (nx ctx).
Definition set_hash0 (v : Z) : mmu_ctx_t :=
  mk_ctx (raddr ctx) (eaddr ctx) (prot ctx) v (hash1 ctx) (ptem ctx) (key ctx) (nx ctx).
Definition set_hash1 (v : Z) : mmu_ctx_t :=
  mk_ctx (raddr ctx) (eaddr ctx) (prot ctx) (hash0 ctx) v (ptem ctx) (key ctx) (nx ctx).
Definition set_ptem (v : Z) : mmu_ctx_t :=
  mk_ctx (raddr ctx) (eaddr ctx) (prot ctx) (hash0 ctx) (hash1 ctx) v (key ctx) (nx ctx).
Definition set_key (v : Z) : mmu_ctx_t :=
  mk_ctx (raddr ctx) (eaddr ctx) (prot ctx) (hash0 ctx) (hash1 ctx) (ptem ctx) v (nx ctx).
Definition set_nx (v : Z) : mmu_ctx_t :=
  mk_ctx (raddr ctx) (eaddr ctx) (prot ctx) (hash0 ctx) (hash1 ctx) (ptem ctx) (key ctx)
    v.
End mmu_ctx_t_setters.

Abbreviation P := (C CPUPPCState).

(** [abort], a failed assertion, and [cpu_abort]. *)
Definition abort_ {T} : P T := exit_ 134.

Definition MSR_CM := 31.
Definition MSR_PR := 14.
Definition MSR_IR := 5.
Definition MSR_DR := 4.
Definition MSR_PE := 3.
Definition MSR_PX := 2.
Definition msr_bit (n : Z) (env : CPUPPCState) : Z := Z.land (Z.shiftr (msr env) n) 1.
Abbreviation msr_pr := (msr_bit MSR_PR).
Abbreviation msr_ir := (msr_bit MSR_IR).
Abbreviation msr_dr := (msr_bit MSR_DR).
(** BookE names the same bits address spaces. *)
Abbreviation msr_ds := (msr_bit MSR_DR).
Abbreviation msr_pe := (msr_bit MSR_PE).
Abbreviation msr_px := (msr_bit MSR_PX).

Definition ACCESS_CODE := 0x10.
Definition ACCESS_INT := 0x20.
Definition ACCESS_FLOAT := 0x30.
Definition ACCESS_RES := 0x40.
Definition ACCESS_EXT := 0x50.
Definition ACCESS_CACHE := 0x60.

Definition SPR_BOOKE_PID := 0x030.
Definition SPR_BOOKE_PID1 := 0x279.
Definition SPR_BOOKE_PID2 := 0x27A.
Definition SPR_BOOKE_TLB0CFG := 0x2B0.
Definition SPR_40x_ZPR := 0x3B0.
Definition SPR_40x_PID := 0x3B1.
Definition SPR_BOOKE_EPLC := 0x3B3.
Definition SPR_BOOKE_EPSC := 0x3B4.
Definition SPR_40x_ESR := 0x3D4.

Definition PAGE_READ := 1.
Definition PAGE_WRITE := 2.
Definition PAGE_EXEC := 4.
Definition PAGE_VALID := 8.

Definition TARGET_PAGE_MASK := 0xFFFFF000.
Definition PTE_PTEM_MASK := 0x7FFFFFBF.
Definition PTE_CHECK_MASK := Z.lor TARGET_PAGE_MASK 0x7B.

(** The invalid address the code marks with [(hwaddr)-1ULL]. *)
Definition HWADDR_NONE := 2 ^ 64 - 1.

Definition write_spr (n v : Z) : P unit :=
  modify (fun env => set_spr env (fun k => if k =? n then v else spr env k)).

(** ** Protection *)

Definition pte_is_valid (pte0 : Z) : bool := bit_any pte0 0x80000000.

Definition pp_check (key pp nx : Z) : Z :=
  let access :=
    if key =? 0 then
      if (pp =? 0) || (pp =? 1) || (pp =? 2) then Z.lor PAGE_WRITE PAGE_READ
      else if pp =? 3 then PAGE_READ else 0
    else if pp =? 0 then 0
    else if (pp =? 1) || (pp =? 3) then PAGE_READ
    else if pp =? 2 then Z.lor PAGE_READ PAGE_WRITE else 0 in
  if nx =? 0 then Z.lor access PAGE_EXEC else access.

Definition check_prot (prot rw access_type : Z) : Z :=
  if access_type =? ACCESS_CODE then (if bit_any prot PAGE_EXEC then 0 else -2)
  else if negb (rw =? 0) then (if bit_any prot PAGE_WRITE then 0 else -2)
  else (if bit_any prot PAGE_READ then 0 else -2).

(** ** The software TLB of the 6xx *)

Definition ppc6xx_tlb_pte_check (ctx : mmu_ctx_t) (pte0 pte1 h rw type : Z) : Z * mmu_ctx_t :=
  let pteh := Z.land (Z.shiftr pte0 6) 1 in
  if pte_is_valid pte0 && (h =? pteh) && (Z.land pte0 PTE_PTEM_MASK =? ptem ctx) then
    if negb (raddr ctx =? HWADDR_NONE)
       && negb (Z.land (raddr ctx) PTE_CHECK_MASK =? Z.land pte1 PTE_CHECK_MASK)
    then (-3, ctx)
    else
      let access := pp_check (key ctx) (Z.land pte1 3) (nx ctx) in
      let ctx := set_prot (set_raddr ctx pte1) access in
      (check_prot (prot ctx) rw type, ctx)
  else (-1, ctx).

(** The new [pte1], and the context with the write permission withdrawn. *)
Definition pte_update_flags (ctx : mmu_ctx_t) (pte1 ret rw : Z) : Z * mmu_ctx_t :=
  let pte1 := if bit_any pte1 0x100 then pte1 else Z.lor pte1 0x100 in
  if bit_any pte1 0x80 then (pte1, ctx)
  else if (rw =? 1) && (ret =? 0) then (Z.lor pte1 0x80, ctx)
  else (pte1, set_prot ctx (Z.land (prot ctx) (Z.lnot PAGE_WRITE))).

Definition ppc6xx_tlb_getnum (env : CPUPPCState) (eaddr : Z) (way : nat) (is_code : bool) : Z :=
  let nr := Z.land (Z.shiftr eaddr 12) (tlb_per_way env - 1) in
  let nr := nr + tlb_per_way env * Z.of_nat way in
  if is_code && (id_tlbs env =? 1) then nr + Z.of_nat (nb_tlb env) else nr.

(** An entry of an array; outside the array the access is undefined. *)
Definition entry {T} (l : list T) (nr : Z) : P T :=
  access_ (if nr <? 0 then None else l !! Z.to_nat nr).

(** The loop from [way] on, [n] ways to go: [inl] leaves the function, [inr] gives the
    result, the best entry and the context.  [done] is the jump out of the loop. *)
Fixpoint tlb6_ways (n way : nat) (eaddr rw access_type ret best : Z) (ctx : mmu_ctx_t)
    : P (mmu_ctx_t + Z * Z * mmu_ctx_t) :=
  match n with
  | O => mret (inr (ret, best, ctx))
  | S n =>
      nr ← gets (fun env => ppc6xx_tlb_getnum env eaddr way (access_type =? ACCESS_CODE));
      tlbs ← gets tlb6;
      tlb ← entry tlbs nr;
      if negb (Z.land eaddr TARGET_PAGE_MASK =? tlb6_EPN tlb)
      then tlb6_ways n (S way) eaddr rw access_type ret best ctx
      else
        let '(r, ctx) := ppc6xx_tlb_pte_check ctx (pte0 tlb) (pte1 tlb) 0 rw access_type in
        if r =? -3 then mret (inl ctx)
        else if r =? -2 then tlb6_ways n (S way) eaddr rw access_type (-2) nr ctx
        else if r =? 0 then mret (inr (0, nr, ctx))
        else tlb6_ways n (S way) eaddr rw access_type ret best ctx
  end.

Definition ppc6xx_tlb_check (ctx : mmu_ctx_t) (eaddr rw access_type : Z) : P (Z * mmu_ctx_t) :=
  ways ← gets nb_ways;
  r ← tlb6_ways ways 0 eaddr rw access_type (-1) (-1) ctx;
  match r with
  | inl ctx => mret (-1, ctx)
  | inr (ret, best, ctx) =>
      if best =? -1 then mret (ret, ctx)
      else
        tlbs ← gets tlb6;
        tlb ← entry tlbs best;
        let '(pte1, ctx) := pte_update_flags ctx (pte1 tlb) ret rw in
        modify (fun env => set_tlb6 env (<[Z.to_nat best := mk_tlb6 (pte0 tlb) pte1 (tlb6_EPN tlb)]> tlbs));;
        mret (ret, ctx)
  end.

(** ** Block address translation *)

(** Block length mask, validity and permissions of a BAT. *)
Definition bat_size_prot (env : CPUPPCState) (BATu BATl : Z) : Z * bool * Z :=
  let bl := u32 (Z.shiftl (Z.land BATu 0x00001FFC) 15) in
  if ((msr_pr env =? 0) && bit_any BATu 0x2) || (negb (msr_pr env =? 0) && bit_any BATu 0x1) then
    let pp := Z.land BATl 3 in
    let prot := if pp =? 0 then 0
                else if pp =? 2 then (PAGE_READ .| PAGE_EXEC .| PAGE_WRITE)%c
                else Z.lor PAGE_READ PAGE_EXEC in
    (bl, true, prot)
  else (bl, false, 0).

Definition bat_raddr (BATl virtual bl : Z) : Z :=
  (Z.land BATl 0xF0000000
   .| Z.lor (Z.land (Z.land virtual 0x0FFE0000) bl) (Z.land BATl 0x0FFE0000)
   .| Z.land virtual 0x0001F000)%c.

Fixpoint bat_loop (n i : nat) (bats : list (Z * Z)) (ctx : mmu_ctx_t) (virtual rw type : Z)
    : P (Z * mmu_ctx_t) :=
  match n with
  | O => mret (-1, ctx)
  | S n =>
      bat ← access_ (bats !! i);
      let '(BATu, BATl) := bat in
      env ← gets id;
      let '(bl, valid, prot) := bat_size_prot env BATu BATl in
      if (Z.land virtual 0xF0000000 =? Z.land BATu 0xF0000000)
         && (Z.land (Z.land virtual 0x0FFE0000) (Z.lnot bl) =? Z.land BATu 0x0FFE0000) && valid
      then
        let ctx := set_prot (set_raddr ctx (bat_raddr BATl virtual bl)) prot in
        mret (check_prot prot rw type, ctx)
      else bat_loop n (S i) bats ctx virtual rw type
  end.

Definition get_bat_6xx_tlb (ctx : mmu_ctx_t) (virtual rw type : Z) : P (Z * mmu_ctx_t) :=
  bats ← gets (if type =? ACCESS_CODE then IBAT else DBAT);
  n ← gets nb_BATs;
  bat_loop n 0 bats ctx virtual rw type.

(** ** Segments *)

Definition get_segment_6xx_tlb (ctx : mmu_ctx_t) (eaddr rw type : Z) : P (Z * mmu_ctx_t) :=
  env ← gets id;
  let pr := msr_pr env in
  sr ← entry (sr env) (Z.shiftr eaddr 28);
  let key := if (bit_any sr 0x20000000 && negb (pr =? 0)) || (bit_any sr 0x40000000 && (pr =? 0))
             then 1 else 0 in
  let nx := if bit_any sr 0x10000000 then 1 else 0 in
  let vsid := Z.land sr 0x00FFFFFF in
  let pgidx := Z.shiftr (Z.land eaddr 0x0FFFFFFF) 12 in
  let hash := Z.lxor vsid pgidx in
  let ctx := set_nx (set_key (set_eaddr ctx eaddr) key) nx in
  let ctx := set_ptem ctx (u32 (Z.lor (Z.shiftl vsid 7) (Z.shiftr pgidx 10))) in
  if negb (bit_any sr 0x80000000) then
    if negb (type =? ACCESS_CODE) || (nx =? 0) then
      let ctx := set_hash1 (set_hash0 ctx hash) (u64 (Z.lnot hash)) in
      ppc6xx_tlb_check (set_raddr ctx HWADDR_NONE) eaddr rw type
    else mret (-3, ctx)
  else if Z.shiftr (Z.land sr 0x1FF00000) 20 =? 0x07f then
    let ctx := set_raddr ctx (Z.lor (u32 (Z.shiftl (Z.land sr 0xF) 28)) (Z.land eaddr 0x0FFFFFFF)) in
    mret (0, set_prot ctx (PAGE_READ .| PAGE_WRITE .| PAGE_EXEC)%c)
  else if type =? ACCESS_CACHE then mret (0, set_raddr ctx eaddr)
  else if type =? ACCESS_INT then
    if ((rw =? 1) || negb (key =? 1)) && ((rw =? 0) || negb (key =? 0))
    then mret (2, set_raddr ctx eaddr)
    else mret (-2, ctx)
  else mret (-4, ctx).

(** ** Embedded TLBs *)

(** The physical address of a matching entry. *)
Definition ppcemb_tlb_check (tlb : ppcemb_tlb_t) (address pid : Z) (ext : bool) : option Z :=
  if negb (bit_any (tlb_prot tlb) PAGE_VALID) then None
  else
    let mask := u32 (Z.lnot (size tlb - 1)) in
    if negb (PID tlb =? 0) && negb (PID tlb =? pid) then None
    else if negb (Z.land address mask =? EPN tlb) then None
    else
      let raddr := Z.lor (Z.land (RPN tlb) mask) (Z.land address (u32 (Z.lnot mask))) in
      Some (if ext then Z.lor raddr (Z.shiftl (Z.land (RPN tlb) 0xF) 32) else raddr).

Definition ALL_PROT := (PAGE_READ .| PAGE_WRITE .| PAGE_EXEC)%c.

(** The permissions of an entry of the 40x under its zone, and whether the zone fault
    is raised. *)
Definition zone_check (env : CPUPPCState) (tlb : ppcemb_tlb_t) (rw access_type : Z) : P (Z * Z) :=
  let zsel := Z.land (Z.shiftr (attr tlb) 4) 0xF in
  let zpr := Z.land (Z.shiftr (spr env SPR_40x_ZPR) (30 - 2 * zsel)) 3 in
  let pr := msr_pr env in
  if ((zpr =? 2) && (pr =? 0)) || (zpr =? 3) then mret (0, ALL_PROT)
  else if (zpr =? 0) && negb (pr =? 0) then
    write_spr SPR_40x_ESR (Z.shiftl 1 22);; mret (-2, 0)
  else
    let ret := check_prot (tlb_prot tlb) rw access_type in
    when (ret =? -2) (write_spr SPR_40x_ESR 0);;
    mret (ret, tlb_prot tlb).

Fixpoint mmu40x_loop (n : nat) (i : nat) (ctx : mmu_ctx_t) (address rw access_type ret : Z)
    : P (Z * mmu_ctx_t) :=
  match n with
  | O => mret (ret, ctx)
  | S n =>
      env ← gets id;
      tlb ← access_ (tlbe env !! i);
      match ppcemb_tlb_check tlb address (u32 (spr env SPR_40x_PID)) false with
      | None => mmu40x_loop n (S i) ctx address rw access_type ret
      | Some raddr =>
          z ← zone_check env tlb rw access_type;
          let '(ret, prot) := z in
          let ctx := set_prot ctx prot in
          if 0 <=? ret then mret (0, set_raddr ctx raddr)
          else mmu40x_loop n (S i) ctx address rw access_type ret
      end
  end.

Definition mmu40x_get_physical_address (ctx : mmu_ctx_t) (address rw access_type : Z)
    : P (Z * mmu_ctx_t) :=
  n ← gets nb_tlb; mmu40x_loop n 0 ctx address rw access_type (-1).

(** The match of a BookE entry under the three PID registers. *)
Definition mmubooke_match (env : CPUPPCState) (tlb : ppcemb_tlb_t) (address : Z) : option Z :=
  match ppcemb_tlb_check tlb address (u32 (spr env SPR_BOOKE_PID)) (nb_pids env =? 0) with
  | Some r => Some r
  | None =>
      match (if negb (spr env SPR_BOOKE_PID1 =? 0)
             then ppcemb_tlb_check tlb address (u32 (spr env SPR_BOOKE_PID1)) false else None) with
      | Some r => Some r
      | None => if negb (spr env SPR_BOOKE_PID2 =? 0)
                then ppcemb_tlb_check tlb address (u32 (spr env SPR_BOOKE_PID2)) false else None
      end
  end.

(** Result, address and permissions; [raddr] and [prot] are the values before. *)
Definition mmubooke_check_tlb (env : CPUPPCState) (tlb : ppcemb_tlb_t) (raddr prot address rw access_type : Z)
    : Z * Z * Z :=
  match mmubooke_match env tlb address with
  | None => (-1, raddr, prot)
  | Some raddr =>
      let prot2 := if negb (msr_pr env =? 0) then Z.land (tlb_prot tlb) 0xF
                   else Z.land (Z.shiftr (tlb_prot tlb) 4) 0xF in
      if access_type =? ACCESS_CODE then
        if negb (msr_ir env =? Z.land (attr tlb) 1) then (-1, raddr, prot)
        else (if bit_any prot2 PAGE_EXEC then 0 else -3, raddr, prot2)
      else
        if negb (msr_dr env =? Z.land (attr tlb) 1) then (-1, raddr, prot)
        else (if ((rw =? 0) && bit_any prot2 PAGE_READ) || (negb (rw =? 0) && bit_any prot2 PAGE_WRITE)
              then 0 else -2, raddr, prot2)
  end.

(** The loop, and the address after it. *)
Fixpoint mmubooke_loop (n i : nat) (raddr : Z) (ctx : mmu_ctx_t) (address rw access_type : Z)
    : P (Z * Z * mmu_ctx_t) :=
  match n with
  | O => mret (-1, raddr, ctx)
  | S n =>
      env ← gets id;
      tlb ← access_ (tlbe env !! i);
      let '(ret, raddr, prot) := mmubooke_check_tlb env tlb raddr (prot ctx) address rw access_type in
      let ctx := set_prot ctx prot in
      if negb (ret =? -1) then mret (ret, raddr, ctx)
      else mmubooke_loop n (S i) raddr ctx address rw access_type
  end.

Definition mmubooke_get_physical_address (ctx : mmu_ctx_t) (address rw access_type : Z)
    : P (Z * mmu_ctx_t) :=
  n ← gets nb_tlb;
  r ← mmubooke_loop n 0 HWADDR_NONE ctx address rw access_type;
  let '(ret, raddr, ctx) := r in
  mret (ret, if 0 <=? ret then set_raddr ctx raddr else ctx).

(** ** The MAS based TLBs of BookE 2.06 *)

Definition BOOKE206_MAX_TLBN := 4%nat.
Definition TLBnCFG_N_ENTRY := 0xfff.
Definition TLBnCFG_ASSOC_SHIFT := 24.
Definition MAS1_VALID := 0x80000000.
Definition MAS1_TSIZE_MASK := Z.shiftl 0x1f 7.
Definition MAS1_TSIZE_SHIFT := 7.
Definition MAS1_TS := Z.shiftl 1 12.
Definition MAS1_TS_SHIFT := 12.
Definition MAS1_TID_MASK := Z.shiftl 0x3fff 16.
Definition MAS1_TID_SHIFT := 16.
Definition MAS2_EPN_SHIFT := 12.
Definition MAS2_EPN_MASK := Z.shiftl (Z.ones 52) 12.
Definition MAS2_W_SHIFT := 4.
Definition MAS2_I_SHIFT := 3.
Definition MAS2_M_SHIFT := 2.
Definition MAS3_UX := 0x20.
Definition MAS3_SX := 0x10.
Definition MAS3_UW := 0x8.
Definition MAS3_SW := 0x4.
Definition MAS3_UR := 0x2.
Definition MAS3_SR := 0x1.
Definition EPID_EPID := 0xFF.
Definition EPID_EAS := 0x40000000.
Definition EPID_EPR := 0x80000000.
Definition PPC_TLB_EPID_LOAD := 8.
Definition PPC_TLB_EPID_STORE := 9.

Definition booke206_tlb_size (env : CPUPPCState) (tlbn : nat) : Z :=
  Z.land (u32 (spr env (SPR_BOOKE_TLB0CFG + Z.of_nat tlbn))) TLBnCFG_N_ENTRY.

Definition booke206_tlb_ways (env : CPUPPCState) (tlbn : nat) : Z :=
  Z.shiftr (u32 (spr env (SPR_BOOKE_TLB0CFG + Z.of_nat tlbn))) TLBnCFG_ASSOC_SHIFT.

(** Trailing zeros of a 32-bit word. *)
Fixpoint ctz (n : nat) (x : Z) : Z :=
  match n with
  | O => 0
  | S n => if Z.odd x then 0 else 1 + ctz n (Z.shiftr x 1)
  end.
Abbreviation ctz32 := (ctz 32).

(** The index in [tlbm], [None] for a null pointer.  A shift by a count outside the
    width is undefined. *)
Definition booke206_get_tlbm (env : CPUPPCState) (tlbn : nat) (ea : Z) (way : Z) : P (option Z) :=
  let ways := booke206_tlb_ways env tlbn in
  let ways_bits := ctz32 ways in
  let tlb_bits := ctz32 (booke206_tlb_size env tlbn) in
  sh ← access_ (if (0 <=? tlb_bits - ways_bits) && (tlb_bits - ways_bits <? 32) && (ways_bits <? 32)
                then Some (tlb_bits - ways_bits) else None);
  let way := Z.land way (ways - 1) in
  let ea := Z.land (Z.shiftr ea MAS2_EPN_SHIFT) (2 ^ sh - 1) in
  let r := i32 (Z.lor (Z.shiftl ea ways_bits) way) in
  if booke206_tlb_size env tlbn <=? r then mret None
  else mret (Some (r + foldr (fun i acc => booke206_tlb_size env i + acc) 0 (seq 0 tlbn))).

Definition booke206_tlb_to_page_size (tlb : ppcmas_tlb_t) : Z :=
  Z.shiftl 1024 (Z.shiftr (Z.land (mas1 tlb) MAS1_TSIZE_MASK) MAS1_TSIZE_SHIFT).

Definition ppcmas_tlb_check (tlb : ppcmas_tlb_t) (address pid : Z) : option Z :=
  if negb (bit_any (mas1 tlb) MAS1_VALID) then None
  else
    let mask := u64 (Z.lnot (booke206_tlb_to_page_size tlb - 1)) in
    let tlb_pid := Z.shiftr (Z.land (mas1 tlb) MAS1_TID_MASK) MAS1_TID_SHIFT in
    if negb (tlb_pid =? 0) && negb (tlb_pid =? pid) then None
    else if negb (Z.land address mask =? Z.land (mas2 tlb) MAS2_EPN_MASK) then None
    else Some (Z.lor (Z.land (mas7_3 tlb) mask) (Z.land address (u64 (Z.lnot mask)))).

Definition is_epid_mmu (mmu_idx : Z) : bool :=
  (mmu_idx =? PPC_TLB_EPID_STORE) || (mmu_idx =? PPC_TLB_EPID_LOAD).

(** The external PID if one is used, the address space and the problem state. *)
Definition mmubooke206_get_as (env : CPUPPCState) (mmu_idx : Z) : option Z * bool * bool :=
  if is_epid_mmu mmu_idx then
    let epidr := u32 (if mmu_idx =? PPC_TLB_EPID_STORE then spr env SPR_BOOKE_EPSC
                      else spr env SPR_BOOKE_EPLC) in
    (Some (Z.land epidr EPID_EPID), bit_any epidr EPID_EAS, bit_any epidr EPID_EPR)
  else (None, negb (msr_ds env =? 0), negb (msr_pr env =? 0)).

Definition mmubooke206_match (env : CPUPPCState) (tlb : ppcmas_tlb_t) (address : Z) (epid : option Z)
    : option Z :=
  match epid with
  | Some epid => ppcmas_tlb_check tlb address epid
  | None =>
      match ppcmas_tlb_check tlb address (u32 (spr env SPR_BOOKE_PID)) with
      | Some r => Some r
      | None =>
          match (if negb (spr env SPR_BOOKE_PID1 =? 0)
                 then ppcmas_tlb_check tlb address (u32 (spr env SPR_BOOKE_PID1)) else None) with
          | Some r => Some r
          | None => if negb (spr env SPR_BOOKE_PID2 =? 0)
                    then ppcmas_tlb_check tlb address (u32 (spr env SPR_BOOKE_PID2)) else None
          end
      end
  end.

Definition mas3_prot (tlb : ppcmas_tlb_t) (pr : bool) : Z :=
  let flag m p := if bit_any (mas7_3 tlb) m then p else 0 in
  if pr then (flag MAS3_UR PAGE_READ .| flag MAS3_UW PAGE_WRITE .| flag MAS3_UX PAGE_EXEC)%c
  else (flag MAS3_SR PAGE_READ .| flag MAS3_SW PAGE_WRITE .| flag MAS3_SX PAGE_EXEC)%c.

Definition mmubooke206_check_tlb (tlb : ppcmas_tlb_t) (raddr prot address rw access_type mmu_idx : Z)
    : P (Z * Z * Z) :=
  env ← gets id;
  let '(epid, as_, pr) := mmubooke206_get_as env mmu_idx in
  match mmubooke206_match env tlb address epid with
  | None => mret (-1, raddr, prot)
  | Some raddr =>
      let prot2 := mas3_prot tlb pr in
      let ts := Z.shiftr (Z.land (mas1 tlb) MAS1_TS) MAS1_TS_SHIFT in
      if access_type =? ACCESS_CODE then
        if epid is Some _ then abort_
        else if negb (msr_ir env =? ts) then mret (-1, raddr, prot)
        else mret (if bit_any prot2 PAGE_EXEC then 0 else -3, raddr, prot2)
      else
        if negb (Z.b2z as_ =? ts) then mret (-1, raddr, prot)
        else mret (if ((rw =? 0) && bit_any prot2 PAGE_READ) || (negb (rw =? 0) && bit_any prot2 PAGE_WRITE)
                   then 0 else -2, raddr, prot2)
  end.

(** The pairs of TLB and way, in the order of the two loops. *)
Definition tlb_ways (env : CPUPPCState) : list (nat * Z) :=
  i ← seq 0 BOOKE206_MAX_TLBN;
  j ← seq 0 (Z.to_nat (booke206_tlb_ways env i));
  [(i, Z.of_nat j)].

Fixpoint booke206_loop (ways : list (nat * Z)) (raddr : Z) (ctx : mmu_ctx_t)
    (address rw access_type mmu_idx : Z) : P (Z * Z * mmu_ctx_t * option ppcmas_tlb_t) :=
  match ways with
  | [] => mret (-1, raddr, ctx, None)
  | (i, j) :: ways =>
      env ← gets id;
      idx ← booke206_get_tlbm env i address j;
      match idx with
      | None => booke206_loop ways raddr ctx address rw access_type mmu_idx
      | Some r =>
          tlb ← entry (tlbm env) r;
          res ← mmubooke206_check_tlb tlb raddr (prot ctx) address rw access_type mmu_idx;
          let '(ret, raddr, prot) := res in
          let ctx := set_prot ctx prot in
          if negb (ret =? -1) then mret (ret, raddr, ctx, Some tlb)
          else booke206_loop ways raddr ctx address rw access_type mmu_idx
      end
  end.

Definition mmubooke206_get_physical_address (ctx : mmu_ctx_t) (address rw access_type mmu_idx : Z)
    : P (Z * mmu_ctx_t) :=
  ways ← gets tlb_ways;
  r ← booke206_loop ways HWADDR_NONE ctx address rw access_type mmu_idx;
  let '(ret, raddr, ctx, _) := r in
  mret (ret, if 0 <=? ret then set_raddr ctx raddr else ctx).

(** ** Real mode and the dispatch *)

Definition check_physical (ctx : mmu_ctx_t) (eaddr rw : Z) : P (Z * mmu_ctx_t) :=
  let ctx := set_prot (set_raddr ctx eaddr) (Z.lor PAGE_READ PAGE_EXEC) in
  env ← gets id;
  match mmu_model env with
  | POWERPC_MMU_SOFT_6xx | POWERPC_MMU_SOFT_74xx | POWERPC_MMU_SOFT_4xx | POWERPC_MMU_REAL
  | POWERPC_MMU_BOOKE => mret (0, set_prot ctx ALL_PROT)
  | POWERPC_MMU_SOFT_4xx_Z =>
      if negb (msr_pe env =? 0) then
        let in_plb := ((pb0 env <? pb1 env) && (pb0 env <=? eaddr) && (eaddr <? pb1 env))
                      || ((pb2 env <? pb3 env) && (pb2 env <=? eaddr) && (eaddr <? pb3 env)) in
        if xorb in_plb (negb (msr_px env =? 0)) then mret (if rw =? 1 then -2 else 0, ctx)
        else mret (0, set_prot ctx ALL_PROT)
      else mret (0, ctx)
  | _ => abort_
  end.

Definition real_mode (env : CPUPPCState) (access_type : Z) : bool :=
  ((access_type =? ACCESS_CODE) && (msr_ir env =? 0))
  || (negb (access_type =? ACCESS_CODE) && (msr_dr env =? 0)).

(** BATs, then segments. *)
Definition translate_6xx (ctx : mmu_ctx_t) (eaddr rw access_type : Z) : P (Z * mmu_ctx_t) :=
  n ← gets nb_BATs;
  r ← (if (n =? 0)%nat then mret (-1, ctx) else get_bat_6xx_tlb ctx eaddr rw access_type);
  let '(ret, ctx) := r in
  if ret <? 0 then get_segment_6xx_tlb ctx eaddr rw access_type else mret (ret, ctx).

Definition get_physical_address_wtlb (ctx : mmu_ctx_t) (eaddr rw access_type mmu_idx : Z)
    : P (Z * mmu_ctx_t) :=
  env ← gets id;
  let real := real_mode env access_type in
  match mmu_model env with
  | POWERPC_MMU_SOFT_6xx | POWERPC_MMU_SOFT_74xx =>
      if real then check_physical ctx eaddr rw else translate_6xx ctx eaddr rw access_type
  | POWERPC_MMU_SOFT_4xx | POWERPC_MMU_SOFT_4xx_Z =>
      if real then check_physical ctx eaddr rw
      else mmu40x_get_physical_address ctx eaddr rw access_type
  | POWERPC_MMU_BOOKE => mmubooke_get_physical_address ctx eaddr rw access_type
  | POWERPC_MMU_BOOKE206 => mmubooke206_get_physical_address ctx eaddr rw access_type mmu_idx
  | POWERPC_MMU_REAL =>
      if real then r ← check_physical ctx eaddr rw; mret (-1, r.2) else abort_
  | _ => abort_
  end.

Definition get_physical_address (ctx : mmu_ctx_t) (eaddr rw access_type : Z) : P (Z * mmu_ctx_t) :=
  get_physical_address_wtlb ctx eaddr rw access_type 0.

(** [hash32] is the translation of the hashed page table models, of other files of
    QEMU; [ctx] is the uninitialised context; the result -1 is that of a [hwaddr]. *)
Definition ppc_cpu_get_phys_page_debug (hash32 : CPUPPCState -> Z -> Z) (ctx : mmu_ctx_t) (addr : Z) : P Z :=
  env ← gets id;
  match mmu_model env with
  | POWERPC_MMU_32B | POWERPC_MMU_601 => mret (hash32 env addr)
  | _ =>
      r ← get_physical_address ctx addr 0 ACCESS_INT;
      if r.1 =? 0 then mret (Z.land (raddr r.2) (Z.shiftl (Z.ones 52) 12))
      else
        r ← get_physical_address r.2 addr 0 ACCESS_CODE;
        if r.1 =? 0 then mret (Z.land (raddr r.2) (Z.shiftl (Z.ones 52) 12))
        else mret HWADDR_NONE
  end.
