(* ===== verification/Ppc.v ===== *)
(** * The PowerPC target

    [QEMTrace/arch/ppc]: [qem_ppc_get_info_addr_mem_trace], which finds the physical
    address and the cache attributes of an access, and the helpers for instructions,
    loads, stores, and the operations on the caches.  The hooks that call them are in
    [PpcHooks]. *)

From S2P Require Import Prelude Bits TraceDef Trace Sink Guest PpcMmu.
From AAC_tactics Require Import AAC.

(** ** Address and attributes of an access *)

Definition SPR_Exxx_L1CSR0 := 0x3F2.
Definition SPR_Exxx_L1CSR1 := 0x3F3.
Definition L1CSR0_DCE := 1.
Definition L1CSR1_ICE := 1.

(** The variables the pointer arguments of the functions point to. *)
Record cache_info := mk_cinfo { wt_enable : Z; cache_inhibit : Z; coherency : Z }.

Definition mas2_bit (tlb : ppcmas_tlb_t) (shift : Z) : Z := Z.land (Z.shiftr (mas2 tlb) shift) 1.

Definition mmubooke206_get_info (ctx : mmu_ctx_t) (address rw access_type real_access_type : Z)
    (info : cache_info) : P (Z * mmu_ctx_t * cache_info) :=
  ways ← gets tlb_ways;
  r ← booke206_loop ways HWADDR_NONE ctx address rw access_type 0;
  let '(ret, raddr, ctx, tlb) := r in
  env ← gets id;
  match tlb with
  | Some tlb =>
      if 0 <=? ret then
        let enabled := if real_access_type =? ACCESS_CODE
                       then bit_any (spr env SPR_Exxx_L1CSR1) L1CSR1_ICE
                       else bit_any (spr env SPR_Exxx_L1CSR0) L1CSR0_DCE in
        mret (ret, set_raddr ctx raddr,
              mk_cinfo (mas2_bit tlb MAS2_W_SHIFT)
                (if enabled then mas2_bit tlb MAS2_I_SHIFT else 1) (mas2_bit tlb MAS2_M_SHIFT))
      else mret (ret, ctx, info)
  | None => mret (ret, ctx, info)
  end.

Definition qem_ppc_get_info_addr_mem_trace_internal (ctx : mmu_ctx_t)
    (eaddr rw access_type real_access_type : Z) (info : cache_info) : P (Z * mmu_ctx_t * cache_info) :=
  let keep (m : P (Z * mmu_ctx_t)) := r ← m; mret (r.1, r.2, info) in
  env ← gets id;
  let real := real_mode env access_type in
  match mmu_model env with
  | POWERPC_MMU_SOFT_6xx | POWERPC_MMU_SOFT_74xx =>
      keep (if real then check_physical ctx eaddr rw
            else
              n ← gets nb_BATs;
              r ← (if (n =? 0)%nat then mret (-1, ctx) else get_bat_6xx_tlb ctx eaddr rw access_type);
              let '(ret, ctx) := r in
              if ret <? 0 then get_segment_6xx_tlb ctx eaddr rw access_type else mret (ret, ctx))
  | POWERPC_MMU_SOFT_4xx | POWERPC_MMU_SOFT_4xx_Z =>
      keep (if real then check_physical ctx eaddr rw
            else mmu40x_get_physical_address ctx eaddr rw access_type)
  | POWERPC_MMU_BOOKE => keep (mmubooke_get_physical_address ctx eaddr rw access_type)
  | POWERPC_MMU_BOOKE206 =>
      mmubooke206_get_info ctx eaddr rw access_type real_access_type info
  | POWERPC_MMU_REAL =>
      if real then r ← check_physical ctx eaddr rw; mret (-1, r.2, info) else abort_
  | _ => abort_
  end.

Section ppc.
Context (cfg : config).

Let d : trace_def := def_of cfg.

(** [ctx0] and [wt0] are the uninitialised variables of the caller; [-1] is that of a
    [target_ulong]. *)
Definition qem_ppc_get_info_addr_mem_trace (ctx0 : mmu_ctx_t) (wt0 addr real_access_type : Z)
    : P (Z * cache_info) :=
  let info := mk_cinfo wt0 (-1) (-1) in
  let found ctx := if QEM_TRACE_PHYSICAL_ADDRESS cfg then u32 (raddr ctx) else addr in
  r ← qem_ppc_get_info_addr_mem_trace_internal ctx0 addr 0 ACCESS_INT real_access_type info;
  let '(ret, ctx, info) := r in
  if ret =? 0 then mret (found ctx, info)
  else
    r ← qem_ppc_get_info_addr_mem_trace_internal ctx addr 0 ACCESS_CODE real_access_type info;
    let '(ret, ctx, info) := r in
    if ret =? 0 then mret (found ctx, info) else mret (u32 (-1), info).

(** ** Flags *)

Definition GET_ENV_FLAGS (env : CPUPPCState) (flags : Z) (info : cache_info) (size : Z) : Z :=
  let flags := Z.lor flags (if bit_any (msr env) (Z.shiftl 1 17)
                            then d.(QEM_TRACE_PL_USER) else d.(QEM_TRACE_PL_KERNEL)) in
  let flags := Z.lor flags
    (if size =? 1 then d.(QEM_TRACE_DATA_SIZE_8_BITS)
     else if size =? 2 then d.(QEM_TRACE_DATA_SIZE_16_BITS)
     else if size =? 4 then d.(QEM_TRACE_DATA_SIZE_32_BITS)
     else if size =? 8 then d.(QEM_TRACE_DATA_SIZE_64_BITS)
     else d.(QEM_TRACE_DATA_SIZE_8_BITS)) in
  let flags := Z.lor flags
    (if coherency info =? 1 then d.(QEM_TRACE_COHERENCY_REQ) else d.(QEM_TRACE_COHERENCY_NON_REQ)) in
  let flags := Z.lor flags
    (if cache_inhibit info =? 1 then d.(QEM_TRACE_CACHE_INHIBIT_ON) else d.(QEM_TRACE_CACHE_INHIBIT_OFF)) in
  Z.lor flags
    (if wt_enable info =? 1 then d.(QEM_TRACE_CACHE_WT_ON) else d.(QEM_TRACE_CACHE_WT_OFF)).

(** The switch on the level every cache helper has. *)
Definition level_flag (level : Z) : Z :=
  if level =? 0 then d.(QEM_TRACE_CACHE_LEVEL_1)
  else if level =? 1 then d.(QEM_TRACE_CACHE_LEVEL_2)
  else if level =? 2 then d.(QEM_TRACE_CACHE_LEVEL_3)
  else d.(QEM_TRACE_CACHE_LEVEL_ALL).

Section helpers.
(** The time stamp counter and the uninitialised variables of the call. *)
Context (tsc : Z) (ctx0 : mmu_ctx_t) (wt0 : Z).

(** The second half of the helpers, from the [#if QEM_TRACE_GATHER_META] on: [flags] is
    the initial word and [extra] what is added under meta-data; without it the address
    is not translated and the time is 0. *)
Definition emit (virt_addr access_type flags extra size : Z) : P (list op) :=
  if QEM_TRACE_GATHER_META cfg then
    r ← qem_ppc_get_info_addr_mem_trace ctx0 wt0 virt_addr access_type;
    env ← gets id;
    mret [OpOutput virt_addr r.1 (ppc_cpu_index env) (rdtsc_time tsc)
            (GET_ENV_FLAGS env (Z.lor flags extra) r.2 size)]
  else
    env ← gets id;
    mret [OpOutput virt_addr virt_addr (ppc_cpu_index env) 0 flags].

(** ** Accesses *)

Definition helper_qem_instld_trace (st current_eip size : Z) : P (list op) :=
  traced st QEM_TRACE_ITRACE
    (emit current_eip ACCESS_CODE
       (d.(QEM_TRACE_EVENT_ACCESS) .| d.(QEM_TRACE_ACCESS_TYPE_READ) .| d.(QEM_TRACE_DATA_TYPE_INST))%c
       0 size).

Definition helper_qem_datast_trace_direct (st virt_addr size : Z) : P (list op) :=
  traced st QEM_TRACE_DTRACE
    (emit virt_addr ACCESS_INT
       (d.(QEM_TRACE_EVENT_ACCESS) .| d.(QEM_TRACE_ACCESS_TYPE_WRITE) .| d.(QEM_TRACE_DATA_TYPE_DATA))%c
       0 size).

Definition helper_qem_datast_ex_trace_direct (st virt_addr size : Z) : P (list op) :=
  traced st QEM_TRACE_DTRACE
    (emit virt_addr ACCESS_INT
       (d.(QEM_TRACE_EVENT_ACCESS) .| d.(QEM_TRACE_ACCESS_TYPE_WRITE) .| d.(QEM_TRACE_DATA_TYPE_DATA)
        .| d.(QEM_TRACE_EVENT_EXCLUSIVE))%c 0 size).

Definition helper_qem_datald_trace_direct (st virt_addr size : Z) : P (list op) :=
  traced st QEM_TRACE_DTRACE
    (emit virt_addr ACCESS_INT
       (d.(QEM_TRACE_EVENT_ACCESS) .| d.(QEM_TRACE_ACCESS_TYPE_READ) .| d.(QEM_TRACE_DATA_TYPE_DATA))%c
       0 size).

Definition helper_qem_datald_ex_trace_direct (st virt_addr size : Z) : P (list op) :=
  traced st QEM_TRACE_DTRACE
    (emit virt_addr ACCESS_INT
       (d.(QEM_TRACE_EVENT_ACCESS) .| d.(QEM_TRACE_ACCESS_TYPE_READ) .| d.(QEM_TRACE_DATA_TYPE_DATA)
        .| d.(QEM_TRACE_EVENT_EXCLUSIVE))%c 0 size).

(** [env->gpr[reg] + simm] and [env->gpr[reg0] + env->gpr[reg1]]. *)
Definition addr_imm (simm reg : Z) : P Z :=
  regs ← gets gpr; v ← entry regs reg; mret (u32 (v + simm)).
Definition addr_regs (reg0 reg1 : Z) : P Z :=
  regs ← gets gpr; v0 ← entry regs reg0; v1 ← entry regs reg1; mret (u32 (v0 + v1)).

Definition helper_qem_datast_trace (st simm reg size : Z) : P (list op) :=
  traced st QEM_TRACE_DTRACE (a ← addr_imm simm reg; helper_qem_datast_trace_direct st a size).
Definition helper_qem_datast_ex_trace (st simm reg size : Z) : P (list op) :=
  traced st QEM_TRACE_DTRACE (a ← addr_imm simm reg; helper_qem_datast_ex_trace_direct st a size).
Definition helper_qem_datast_ex_trace_trad (st reg0 reg1 size : Z) : P (list op) :=
  traced st QEM_TRACE_DTRACE (a ← addr_regs reg0 reg1; helper_qem_datast_ex_trace_direct st a size).
Definition helper_qem_datast_trace_trad (st reg0 reg1 size : Z) : P (list op) :=
  traced st QEM_TRACE_DTRACE (a ← addr_regs reg0 reg1; helper_qem_datast_trace_direct st a size).
Definition helper_qem_datald_trace (st simm reg size : Z) : P (list op) :=
  traced st QEM_TRACE_DTRACE (a ← addr_imm simm reg; helper_qem_datald_trace_direct st a size).
Definition helper_qem_datald_ex_trace (st simm reg size : Z) : P (list op) :=
  traced st QEM_TRACE_DTRACE (a ← addr_imm simm reg; helper_qem_datald_ex_trace_direct st a size).
Definition helper_qem_datald_trace_trad (st reg0 reg1 size : Z) : P (list op) :=
  traced st QEM_TRACE_DTRACE (a ← addr_regs reg0 reg1; helper_qem_datald_trace_direct st a size).
Definition helper_qem_datald_ex_trace_trad (st reg0 reg1 size : Z) : P (list op) :=
  traced st QEM_TRACE_DTRACE (a ← addr_regs reg0 reg1; helper_qem_datald_ex_trace_direct st a size).

Definition helper_qem_start_trace (type : Z) : P (list op) := mret [OpEnable type].
Definition helper_qem_stop_trace (type : Z) : P (list op) := mret [OpDisable type].

(** ** Operations on the caches *)

Definition helper_qem_dcache_flush_inval (st reg0 reg1 level granularity : Z) : P (list op) :=
  traced st QEM_TRACE_DTRACE
    (a ← addr_regs reg0 reg1;
     emit a ACCESS_INT
       (d.(QEM_TRACE_EVENT_FLUSH) .| d.(QEM_TRACE_EVENT_INVALIDATE) .| d.(QEM_TRACE_DATA_TYPE_DATA)
        .| granularity)%c (level_flag level) 1).

Definition helper_qem_dcache_inval (st reg0 reg1 level granularity : Z) : P (list op) :=
  traced st QEM_TRACE_DTRACE
    (a ← addr_regs reg0 reg1;
     emit a ACCESS_INT
       (d.(QEM_TRACE_EVENT_INVALIDATE) .| d.(QEM_TRACE_DATA_TYPE_DATA) .| granularity)%c
       (level_flag level) 1).

Definition excl_flag (exclusive : Z) : Z :=
  if exclusive =? 1 then d.(QEM_TRACE_EVENT_EXCLUSIVE) else 0.

Definition helper_qem_dcache_flush (st reg0 reg1 level granularity exclusive : Z) : P (list op) :=
  traced st QEM_TRACE_DTRACE
    (a ← addr_regs reg0 reg1;
     emit a ACCESS_INT
       (d.(QEM_TRACE_EVENT_FLUSH) .| d.(QEM_TRACE_DATA_TYPE_DATA) .| granularity)%c
       (Z.lor (excl_flag exclusive) (level_flag level)) 1).

(** The level and the granularity are not used. *)
Definition helper_qem_dcache_prefetch_non_inibited (st reg0 reg1 level granularity exclusive : Z)
    : P (list op) :=
  traced st QEM_TRACE_DTRACE
    (a ← addr_regs reg0 reg1;
     emit a ACCESS_INT
       (d.(QEM_TRACE_EVENT_PREFETCH) .| d.(QEM_TRACE_ACCESS_TYPE_READ) .| d.(QEM_TRACE_DATA_TYPE_DATA))%c
       (excl_flag exclusive) 1).

Definition helper_qem_dcache_lock (st reg0 reg1 level granularity exclusive : Z) : P (list op) :=
  traced st QEM_TRACE_DTRACE
    (a ← addr_regs reg0 reg1;
     emit a ACCESS_INT
       (d.(QEM_TRACE_EVENT_LOCK) .| d.(QEM_TRACE_DATA_TYPE_DATA) .| granularity)%c
       (Z.lor (excl_flag exclusive) (level_flag level)) 1).

Definition helper_qem_dcache_unlock (st reg0 reg1 level granularity : Z) : P (list op) :=
  traced st QEM_TRACE_DTRACE
    (a ← addr_regs reg0 reg1;
     emit a ACCESS_INT
       (d.(QEM_TRACE_EVENT_UNLOCK) .| d.(QEM_TRACE_DATA_TYPE_DATA) .| granularity)%c
       (level_flag level) 1).

Definition helper_qem_icache_inval (st reg0 reg1 level granularity : Z) : P (list op) :=
  traced st QEM_TRACE_ITRACE
    (a ← addr_regs reg0 reg1;
     emit a ACCESS_CODE
       (d.(QEM_TRACE_EVENT_INVALIDATE) .| d.(QEM_TRACE_DATA_TYPE_INST) .| granularity)%c
       (level_flag level) 1).

Definition helper_qem_icache_flush (st reg0 reg1 level granularity : Z) : P (list op) :=
  traced st QEM_TRACE_ITRACE
    (a ← addr_regs reg0 reg1;
     emit a ACCESS_CODE
       (d.(QEM_TRACE_EVENT_FLUSH) .| d.(QEM_TRACE_DATA_TYPE_INST) .| granularity)%c
       (level_flag level) 1).

Definition helper_qem_icache_lock (st reg0 reg1 level granularity exclusive : Z) : P (list op) :=
  traced st QEM_TRACE_ITRACE
    (a ← addr_regs reg0 reg1;
     emit a ACCESS_CODE
       (d.(QEM_TRACE_EVENT_LOCK) .| d.(QEM_TRACE_DATA_TYPE_INST) .| granularity)%c
       (Z.lor (excl_flag exclusive) (level_flag level)) 1).

Definition helper_qem_icache_unlock (st reg0 reg1 level granularity : Z) : P (list op) :=
  traced st QEM_TRACE_ITRACE
    (a ← addr_regs reg0 reg1;
     emit a ACCESS_CODE
       (d.(QEM_TRACE_EVENT_UNLOCK) .| d.(QEM_TRACE_DATA_TYPE_INST) .| granularity)%c
       (level_flag level) 1).

(** A prefetch of the second level only. *)
Definition helper_qem_icbt (st reg0 reg1 level : Z) : P (list op) :=
  traced st QEM_TRACE_ITRACE
    (if negb (level =? 1) then mret []
     else
       a ← addr_regs reg0 reg1;
       emit a ACCESS_CODE
         (d.(QEM_TRACE_EVENT_PREFETCH) .| d.(QEM_TRACE_ACCESS_TYPE_READ) .| d.(QEM_TRACE_DATA_TYPE_INST)
          .| d.(QEM_TRACE_CACHE_LEVEL_2))%c 0 1).

Definition helper_qem_dcbz_trace_trad (st reg0 reg1 size : Z) : P (list op) :=
  traced st QEM_TRACE_DTRACE
    (a ← addr_regs reg0 reg1;
     emit a ACCESS_INT
       (d.(QEM_TRACE_EVENT_DCBZ) .| d.(QEM_TRACE_ACCESS_TYPE_READ) .| d.(QEM_TRACE_DATA_TYPE_DATA))%c
       0 size).

(** The two flash invalidations translate nothing. *)
Definition flash_inval (type_flag : Z) : P (list op) :=
  env ← gets id;
  let flags := (d.(QEM_TRACE_EVENT_INVALIDATE) .| type_flag .| d.(QEM_TRACE_GRANULARITY_GLOBAL)
                .| d.(QEM_TRACE_CACHE_LEVEL_1))%c in
  mret (if QEM_TRACE_GATHER_META cfg
        then [OpOutput 0 0 (ppc_cpu_index env) (rdtsc_time tsc)
                (GET_ENV_FLAGS env flags (mk_cinfo 0 0 0) 1)]
        else [OpOutput 0 0 (ppc_cpu_index env) 0 flags]).

Definition helper_qem_flash_inval_icache (st : Z) : P (list op) :=
  traced st QEM_TRACE_ITRACE (flash_inval d.(QEM_TRACE_DATA_TYPE_INST)).

Definition helper_qem_flash_inval_dcache (st : Z) : P (list op) :=
  traced st QEM_TRACE_DTRACE (flash_inval d.(QEM_TRACE_DATA_TYPE_DATA)).
End helpers.
End ppc.

(** ** The calls of the hooks *)

(** A call of a helper with its arguments.  [write] and [excl] select one of the four
    helpers of an addressing mode. *)
Inductive ppc_call :=
  | CallInstld (current_eip size : Z)
  | CallDirect (write excl : bool) (virt_addr size : Z)
  | CallImm (write excl : bool) (simm reg size : Z)
  | CallTrad (write excl : bool) (reg0 reg1 size : Z)
  | CallDcacheFlushInval (reg0 reg1 level : Z) (g : granularity)
  | CallDcacheInval (reg0 reg1 level : Z) (g : granularity)
  | CallDcacheFlush (reg0 reg1 level : Z) (g : granularity) (exclusive : Z)
  | CallDcachePrefetch (reg0 reg1 level : Z) (g : granularity) (exclusive : Z)
  | CallDcacheLock (reg0 reg1 level : Z) (g : granularity) (exclusive : Z)
  | CallDcacheUnlock (reg0 reg1 level : Z) (g : granularity)
  | CallIcacheInval (reg0 reg1 level : Z) (g : granularity)
  | CallIcacheFlush (reg0 reg1 level : Z) (g : granularity)
  | CallIcacheLock (reg0 reg1 level : Z) (g : granularity) (exclusive : Z)
  | CallIcacheUnlock (reg0 reg1 level : Z) (g : granularity)
  | CallIcbt (reg0 reg1 level : Z)
  | CallDcbz (reg0 reg1 size : Z)
  | CallFlashIcache
  | CallFlashDcache
  | CallStart (type : Z)
  | CallStop (type : Z).

(** The counter and the uninitialised variables of a call. *)
Record call_env := mk_call_env { ce_tsc : Z; ce_ctx : mmu_ctx_t; ce_wt : Z }.

Section calls.
Context (cfg : config) (ce : call_env) (st : Z).

Let d : trace_def := def_of cfg.
Let tsc := ce_tsc ce.
Let ctx := ce_ctx ce.
Let wt := ce_wt ce.

Definition run_call (c : ppc_call) : P (list op) :=
  match c with
  | CallInstld eip sz => helper_qem_instld_trace cfg tsc ctx wt st eip sz
  | CallDirect w e a sz =>
      (if w then if e then helper_qem_datast_ex_trace_direct else helper_qem_datast_trace_direct
       else if e then helper_qem_datald_ex_trace_direct else helper_qem_datald_trace_direct)
      cfg tsc ctx wt st a sz
  | CallImm w e simm reg sz =>
      (if w then if e then helper_qem_datast_ex_trace else helper_qem_datast_trace
       else if e then helper_qem_datald_ex_trace else helper_qem_datald_trace)
      cfg tsc ctx wt st simm reg sz
  | CallTrad w e r0 r1 sz =>
      (if w then if e then helper_qem_datast_ex_trace_trad else helper_qem_datast_trace_trad
       else if e then helper_qem_datald_ex_trace_trad else helper_qem_datald_trace_trad)
      cfg tsc ctx wt st r0 r1 sz
  | CallDcacheFlushInval r0 r1 l g =>
      helper_qem_dcache_flush_inval cfg tsc ctx wt st r0 r1 l (gran_code d g)
  | CallDcacheInval r0 r1 l g => helper_qem_dcache_inval cfg tsc ctx wt st r0 r1 l (gran_code d g)
  | CallDcacheFlush r0 r1 l g e => helper_qem_dcache_flush cfg tsc ctx wt st r0 r1 l (gran_code d g) e
  | CallDcachePrefetch r0 r1 l g e =>
      helper_qem_dcache_prefetch_non_inibited cfg tsc ctx wt st r0 r1 l (gran_code d g) e
  | CallDcacheLock r0 r1 l g e => helper_qem_dcache_lock cfg tsc ctx wt st r0 r1 l (gran_code d g) e
  | CallDcacheUnlock r0 r1 l g => helper_qem_dcache_unlock cfg tsc ctx wt st r0 r1 l (gran_code d g)
  | CallIcacheInval r0 r1 l g => helper_qem_icache_inval cfg tsc ctx wt st r0 r1 l (gran_code d g)
  | CallIcacheFlush r0 r1 l g => helper_qem_icache_flush cfg tsc ctx wt st r0 r1 l (gran_code d g)
  | CallIcacheLock r0 r1 l g e => helper_qem_icache_lock cfg tsc ctx wt st r0 r1 l (gran_code d g) e
  | CallIcacheUnlock r0 r1 l g => helper_qem_icache_unlock cfg tsc ctx wt st r0 r1 l (gran_code d g)
  | CallIcbt r0 r1 l => helper_qem_icbt cfg tsc ctx wt st r0 r1 l
  | CallDcbz r0 r1 sz => helper_qem_dcbz_trace_trad cfg tsc ctx wt st r0 r1 sz
  | CallFlashIcache => helper_qem_flash_inval_icache cfg tsc st
  | CallFlashDcache => helper_qem_flash_inval_dcache cfg tsc st
  | CallStart ty => helper_qem_start_trace ty
  | CallStop ty => helper_qem_stop_trace ty
  end.

End calls.

(** Several calls, one after the other; the call number [k] has the values [ces k]. *)
Fixpoint run_calls (cfg : config) (ces : nat -> call_env) (st : Z) (k : nat) (cs : list ppc_call)
    : P (list op) :=
  match cs with
  | [] => mret []
  | c :: cs =>
      ops ← run_call cfg (ces k) st c;
      rest ← run_calls cfg ces st (S k) cs;
      mret (ops ++ rest)
  end.

(** What a call is about: everything of the access but what the translation gives. *)
Record op_desc := mk_desc {
  o_write : bool; o_inst : bool; o_event : event; o_gran : granularity;
  o_level : cache_level; o_excl : bool
}.

Definition level_of (l : Z) : cache_level :=
  if l =? 0 then Level1 else if l =? 1 then Level2 else if l =? 2 then Level3 else LevelAll.

Definition call_desc (c : ppc_call) : op_desc :=
  match c with
  | CallInstld _ _ => mk_desc false true EvAccess GrLine Level1 false
  | CallDirect w e _ _ | CallImm w e _ _ _ | CallTrad w e _ _ _ =>
      mk_desc w false EvAccess GrLine Level1 e
  | CallDcacheFlushInval _ _ l g => mk_desc false false EvFlushInvalidate g (level_of l) false
  | CallDcacheInval _ _ l g => mk_desc false false EvInvalidate g (level_of l) false
  | CallDcacheFlush _ _ l g e => mk_desc false false EvFlush g (level_of l) (e =? 1)
  | CallDcachePrefetch _ _ _ _ e => mk_desc false false EvPrefetch GrLine Level1 (e =? 1)
  | CallDcacheLock _ _ l g e => mk_desc false false EvLock g (level_of l) (e =? 1)
  | CallDcacheUnlock _ _ l g => mk_desc false false EvUnlock g (level_of l) false
  | CallIcacheInval _ _ l g => mk_desc false true EvInvalidate g (level_of l) false
  | CallIcacheFlush _ _ l g => mk_desc false true EvFlush g (level_of l) false
  | CallIcacheLock _ _ l g e => mk_desc false true EvLock g (level_of l) (e =? 1)
  | CallIcacheUnlock _ _ l g => mk_desc false true EvUnlock g (level_of l) false
  | CallIcbt _ _ _ => mk_desc false true EvPrefetch GrLine Level2 false
  | CallDcbz _ _ _ => mk_desc false false EvDcbz GrLine Level1 false
  | CallFlashIcache => mk_desc false true EvInvalidate GrGlobal Level1 false
  | CallFlashDcache => mk_desc false false EvInvalidate GrGlobal Level1 false
  | CallStart _ | CallStop _ => mk_desc false false EvAccess GrLine Level1 false
  end.

(** Its size in bytes, and the address it is about, where it has one. *)
Definition call_size (c : ppc_call) : Z :=
  match c with
  | CallInstld _ sz | CallDirect _ _ _ sz | CallImm _ _ _ _ sz | CallTrad _ _ _ _ sz
  | CallDcbz _ _ sz => sz
  | _ => 1
  end.

Definition call_addr (c : ppc_call) : P (option Z) :=
  match c with
  | CallInstld a _ | CallDirect _ _ a _ => mret (Some a)
  | CallImm _ _ simm reg _ => a ← addr_imm simm reg; mret (Some a)
  | CallTrad _ _ r0 r1 _ | CallDcacheFlushInval r0 r1 _ _ | CallDcacheInval r0 r1 _ _
  | CallDcacheFlush r0 r1 _ _ _ | CallDcachePrefetch r0 r1 _ _ _ | CallDcacheLock r0 r1 _ _ _
  | CallDcacheUnlock r0 r1 _ _ | CallIcacheInval r0 r1 _ _ | CallIcacheFlush r0 r1 _ _
  | CallIcacheLock r0 r1 _ _ _ | CallIcacheUnlock r0 r1 _ _ | CallIcbt r0 r1 _ | CallDcbz r0 r1 _ =>
      a ← addr_regs r0 r1; mret (Some a)
  | _ => mret None
  end.

Definition size_of_bytes (n : Z) : data_size :=
  if n =? 2 then Size16 else if n =? 4 then Size32 else if n =? 8 then Size64 else Size8.

Definition ppc_access (env : CPUPPCState) (o : op_desc) (size : Z) (info : cache_info) : access :=
  mk_access (o_write o) (o_inst o) (Z.testbit (msr env) 17) (o_event o) (o_gran o) (size_of_bytes size)
    (coherency info =? 1) (o_level o) (cache_inhibit info =? 1) (wt_enable info =? 1) (o_excl o).

Definition desc_code (d : trace_def) (o : op_desc) : Z :=
  (rw_code d (o_write o) .| id_code d (o_inst o) .| event_code d (o_event o) .| gran_code d (o_gran o)
   .| level_code d (o_level o) .| exclusive_code d (o_excl o))%c.

(** ** The tracer translates as QEMU does *)

Lemma booke206_loop_none ways : forall ra ctx a rw t i env env' ret ra' ctx',
  booke206_loop ways ra ctx a rw t i env = Done ((ret, ra', ctx', None), env') -> ret = -1.
Proof.
  induction ways as [|[n j] ways IH]; intros ra ctx a rw t i env env' ret ra' ctx' H; cbn in H.
  { by injection H as <- _ _ _. }
  rewrite run_gets in H. apply bind_Done in H as (idx & s1 & _ & H).
  destruct idx as [r|]; [|by eapply IH].
  apply bind_Done in H as (tlb & s2 & _ & H). apply bind_Done in H as ([[ret1 ra1] p1] & s3 & _ & H).
  case_match; [done|by eapply IH].
Qed.

(** The result without the attributes. *)
Definition forget (m : P (Z * mmu_ctx_t * cache_info)) : P (Z * mmu_ctx_t) := r ← m; mret r.1.

Lemma forget_keep (m : P (Z * mmu_ctx_t)) info env :
  forget (r ← m; mret (r.1, r.2, info)) env = m env.
Proof. unfold forget, mbind, C_bind. by destruct (m env) as [[[ret ctx] env']| |]. Qed.

Lemma internal_agrees ctx eaddr rw t rt info env :
  forget (qem_ppc_get_info_addr_mem_trace_internal ctx eaddr rw t rt info) env
  = get_physical_address ctx eaddr rw t env.
Proof.
  unfold get_physical_address, get_physical_address_wtlb, qem_ppc_get_info_addr_mem_trace_internal.
  rewrite run_gets. unfold forget at 1. unfold mbind at 1, C_bind at 1. rewrite run_gets.
  change (id env) with env. destruct (mmu_model env); try done; try apply forget_keep.
  - destruct (real_mode env t); [|done]. unfold mbind, C_bind.
    by destruct (check_physical ctx eaddr rw env) as [[r env']| |].
  - unfold mmubooke206_get_info, mmubooke206_get_physical_address. rewrite !run_gets.
    unfold mbind, C_bind.
    destruct (booke206_loop _ _ _ _ _ _ _ _) as [[[[[ret ra] ctx'] tlb] env']| |] eqn:E; [|done..].
    cbn [gets id]. destruct tlb as [tlb|].
    + by destruct (0 <=? ret).
    + by rewrite (booke206_loop_none _ _ _ _ _ _ _ _ _ _ _ _ E).
Qed.

(** In case form. *)
Lemma internal_run ctx eaddr rw t rt info env :
  match get_physical_address ctx eaddr rw t env with
  | Done ((ret, ctx'), env') => exists info',
      qem_ppc_get_info_addr_mem_trace_internal ctx eaddr rw t rt info env = Done ((ret, ctx', info'), env')
  | Exit c => qem_ppc_get_info_addr_mem_trace_internal ctx eaddr rw t rt info env = Exit c
  | Undefined => qem_ppc_get_info_addr_mem_trace_internal ctx eaddr rw t rt info env = Undefined
  end.
Proof.
  rewrite <- (internal_agrees ctx eaddr rw t rt info env). unfold forget, mbind, C_bind.
  destruct (qem_ppc_get_info_addr_mem_trace_internal ctx eaddr rw t rt info env)
    as [[[[ret ctx'] info'] env']| |]; cbn; [by exists info'|done|done].
Qed.

Definition page_of (ctx : mmu_ctx_t) : Z := Z.land (raddr ctx) (Z.shiftl (Z.ones 52) 12).

Lemma page_found ctx : (page_of ctx =? HWADDR_NONE) = false.
Proof.
  apply Z.eqb_neq. intros E. apply (f_equal (fun z => Z.land z 1)) in E. revert E. unfold page_of.
  rewrite <- Z.land_assoc. change (Z.land (Z.shiftl (Z.ones 52) 12) 1) with 0. by rewrite Z.land_0_r.
Qed.

Lemma page_part ctx : Z.land (u32 (raddr ctx)) TARGET_PAGE_MASK = u32 (page_of ctx).
Proof.
  unfold page_of, TARGET_PAGE_MASK. change 0xFFFFF000 with (Z.shiftl (Z.ones 20) 12). bits.
Qed.

Lemma page_debug_unfold hash32 ctx addr env :
  mmu_model env <> POWERPC_MMU_32B -> mmu_model env <> POWERPC_MMU_601 ->
  ppc_cpu_get_phys_page_debug hash32 ctx addr env =
  (r ← get_physical_address ctx addr 0 ACCESS_INT;
   if r.1 =? 0 then mret (page_of r.2)
   else r ← get_physical_address r.2 addr 0 ACCESS_CODE;
     if r.1 =? 0 then mret (page_of r.2) else mret HWADDR_NONE) env.
Proof.
  intros H32 H601. unfold ppc_cpu_get_phys_page_debug. rewrite run_gets. change (id env) with env.
  by destruct (mmu_model env).
Qed.

(** C36: for every MMU model but the hashed page tables, the tracer translates an
    address as QEMU's debug translation does: it aborts, or has undefined behaviour,
    exactly if that does, leaves the same processor state, gives the all-ones address
    where QEMU finds no page, and otherwise an address in the page QEMU finds. *)
Theorem ppc_translation_agrees cfg hash32 ctx wt addr rt env :
  QEM_TRACE_PHYSICAL_ADDRESS cfg = true ->
  mmu_model env <> POWERPC_MMU_32B -> mmu_model env <> POWERPC_MMU_601 ->
  match ppc_cpu_get_phys_page_debug hash32 ctx addr env with
  | Done (page, env') => exists pa info,
      qem_ppc_get_info_addr_mem_trace cfg ctx wt addr rt env = Done ((pa, info), env') /\
      if page =? HWADDR_NONE then pa = u32 (-1) else Z.land pa TARGET_PAGE_MASK = u32 page
  | Exit c => qem_ppc_get_info_addr_mem_trace cfg ctx wt addr rt env = Exit c
  | Undefined => qem_ppc_get_info_addr_mem_trace cfg ctx wt addr rt env = Undefined
  end.
Proof.
  intros Hp H32 H601.
  rewrite (page_debug_unfold _ _ _ _ H32 H601).
  unfold qem_ppc_get_info_addr_mem_trace. rewrite Hp.
  pose proof (internal_run ctx addr 0 ACCESS_INT rt (mk_cinfo wt (-1) (-1)) env) as H1.
  destruct (get_physical_address ctx addr 0 ACCESS_INT env) as [[[ret1 ctx1] env1]| |] eqn:E1;
    [|rewrite (bind_Exit _ _ _ _ E1); by apply bind_Exit|rewrite (bind_Undefined _ _ _ E1); by apply bind_Undefined].
  destruct H1 as [info1 H1]. rewrite (bind_step _ _ _ _ _ E1), (bind_step _ _ _ _ _ H1). cbn [fst snd].
  destruct (ret1 =? 0).
  { do 2 eexists. split; [reflexivity|]. rewrite page_found. apply page_part. }
  pose proof (internal_run ctx1 addr 0 ACCESS_CODE rt info1 env1) as H2.
  destruct (get_physical_address ctx1 addr 0 ACCESS_CODE env1) as [[[ret2 ctx2] env2]| |] eqn:E2;
    [|rewrite (bind_Exit _ _ _ _ E2); by apply bind_Exit|rewrite (bind_Undefined _ _ _ E2); by apply bind_Undefined].
  destruct H2 as [info2 H2]. rewrite (bind_step _ _ _ _ _ E2), (bind_step _ _ _ _ _ H2). cbn [fst snd].
  destruct (ret2 =? 0); do 2 eexists; (split; [reflexivity|]); [|done].
  rewrite page_found. apply page_part.
Qed.

(** ** What the helpers record *)

Lemma ppc_flags cfg env o info size flags :
  flags = desc_code (def_of cfg) o ->
  GET_ENV_FLAGS cfg env flags info size = encode (def_of cfg) (ppc_access env o size info).
Proof.
  intros ->. unfold GET_ENV_FLAGS, encode, ppc_access, desc_code. cbn [acc_write acc_inst acc_user
    acc_event acc_granularity acc_size acc_coherency acc_level acc_inhibit acc_wt acc_exclusive].
  rewrite bit_any_pow2 by lia.
  assert (Hs : (if size =? 1 then (def_of cfg).(QEM_TRACE_DATA_SIZE_8_BITS)
     else if size =? 2 then (def_of cfg).(QEM_TRACE_DATA_SIZE_16_BITS)
     else if size =? 4 then (def_of cfg).(QEM_TRACE_DATA_SIZE_32_BITS)
     else if size =? 8 then (def_of cfg).(QEM_TRACE_DATA_SIZE_64_BITS)
     else (def_of cfg).(QEM_TRACE_DATA_SIZE_8_BITS)) = size_code (def_of cfg) (size_of_bytes size)).
  { unfold size_of_bytes. repeat (case_match; try done; try lia). }
  rewrite Hs. unfold pl_code, coherency_code, inhibit_code, wt_code, ite. aac_reflexivity.
Qed.

Lemma level_flag_code cfg l : level_flag cfg l = level_code (def_of cfg) (level_of l).
Proof. unfold level_flag, level_of. by repeat case_match. Qed.

Lemma excl_flag_code cfg e : excl_flag cfg e = exclusive_code (def_of cfg) (e =? 1).
Proof.
  destruct (zero_codes cfg) as (_ & _ & _ & _ & _ & _ & _ & _ & E9).
  unfold excl_flag, exclusive_code, ite. by rewrite E9.
Qed.

(** The record a helper makes of a translated address. *)
Lemma emit_run cfg tsc ctx wt va at_ flags extra size o env pa info env' :
  QEM_TRACE_GATHER_META cfg = true -> Z.lor flags extra = desc_code (def_of cfg) o ->
  qem_ppc_get_info_addr_mem_trace cfg ctx wt va at_ env = Done ((pa, info), env') ->
  emit cfg tsc ctx wt va at_ flags extra size env =
  Done ([OpOutput va pa (ppc_cpu_index env') (rdtsc_time tsc)
    (encode (def_of cfg) (ppc_access env' o size info))], env').
Proof.
  intros Hm Ho Ht. unfold emit. rewrite Hm, (bind_step _ _ _ _ _ Ht), run_gets. cbn [fst snd id].
  by rewrite (ppc_flags cfg env' o info size).
Qed.

Ltac desc_solve cfg :=
  destruct (zero_codes cfg) as (E1 & E2 & E3 & _ & E5 & _ & E7 & _ & E9);
  unfold desc_code, call_desc; cbn [o_write o_inst o_event o_gran o_level o_excl];
  rewrite ?level_flag_code, ?excl_flag_code;
  unfold rw_code, id_code, event_code, ite; cbn [gran_code level_code exclusive_code];
  rewrite ?E1, ?E2, ?E3, ?E5, ?E7; cbn [negb];
  try (change (exclusive_code (def_of cfg) false) with (def_of cfg).(QEM_TRACE_EVENT_NON_EXCLUSIVE); rewrite E9);
  try (change (exclusive_code (def_of cfg) true) with (def_of cfg).(QEM_TRACE_EVENT_EXCLUSIVE));
  aac_reflexivity.

(** The address of a call in registers is computed without changing them. *)
Lemma some_addr (m : P Z) env va env' :
  (a ← m; mret (Some a)) env = Done (Some va, env') -> m env = Done (va, env').
Proof. intros H. apply bind_Done in H as (a & s1 & H & [= <- <-]). done. Qed.

Definition call_code (c : ppc_call) : Z := if o_inst (call_desc c) then ACCESS_CODE else ACCESS_INT.
Definition call_type (c : ppc_call) : Z :=
  if o_inst (call_desc c) then QEM_TRACE_ITRACE else QEM_TRACE_DTRACE.

(** Calls that are traced: an instruction prefetch only of the second level. *)
Definition call_active (c : ppc_call) : Prop :=
  match c with CallIcbt _ _ l => l = 1 | _ => True end.

Lemma call_run cfg ce st c env va pa info env' :
  QEM_TRACE_GATHER_META cfg = true -> bit_any st (call_type c) = true -> call_active c ->
  call_addr c env = Done (Some va, env) ->
  qem_ppc_get_info_addr_mem_trace cfg (ce_ctx ce) (ce_wt ce) va (call_code c) env = Done ((pa, info), env') ->
  run_call cfg ce st c env =
  Done ([OpOutput va pa (ppc_cpu_index env') (rdtsc_time (ce_tsc ce))
    (encode (def_of cfg) (ppc_access env' (call_desc c) (call_size c) info))], env').
Proof.
  intros Hm Hst Hact Ha Ht. unfold call_type in Hst. unfold call_code in Ht.
  destruct c; cbn [call_desc o_inst] in Hst, Ht; cbn [call_addr] in Ha; try discriminate Ha;
    try apply some_addr in Ha; try (injection Ha as ->);
    cbn [run_call call_size];
    unfold helper_qem_instld_trace, helper_qem_dcache_flush_inval, helper_qem_dcache_inval,
      helper_qem_dcache_flush, helper_qem_dcache_prefetch_non_inibited, helper_qem_dcache_lock,
      helper_qem_dcache_unlock, helper_qem_icache_inval, helper_qem_icache_flush,
      helper_qem_icache_lock, helper_qem_icache_unlock, helper_qem_icbt, helper_qem_dcbz_trace_trad.
  all: try (destruct write, excl).
  all: unfold helper_qem_datast_ex_trace, helper_qem_datast_trace, helper_qem_datald_ex_trace,
    helper_qem_datald_trace, helper_qem_datast_ex_trace_trad, helper_qem_datast_trace_trad,
    helper_qem_datald_ex_trace_trad, helper_qem_datald_trace_trad, helper_qem_datast_ex_trace_direct,
    helper_qem_datast_trace_direct, helper_qem_datald_ex_trace_direct, helper_qem_datald_trace_direct,
    traced; rewrite Hst; try rewrite (bind_step _ _ _ _ _ Ha).
  all: try (cbn [call_active] in Hact; subst level; cbn [Z.eqb Pos.eqb negb];
            rewrite (bind_step _ _ _ _ _ Ha)).
  all: apply emit_run; [done| |done].
  all: desc_solve cfg.
Qed.

(** ** The attributes of BookE 2.06 *)

Lemma access_Done {S T} (o : option T) (s s' : S) x :
  access_ o s = Done (x, s') -> o = Some x /\ s' = s.
Proof. unfold access_. destruct o; [|done]. by intros [= <- <-]. Qed.

Lemma ret_Done {S T} (a b : T) (s s' : S) :
  (mret a : C S T) s = Done (b, s') -> b = a /\ s' = s.
Proof. by intros [= <- <-]. Qed.

Lemma entry_Done {T} (l : list T) nr (env env' : CPUPPCState) x :
  entry l nr env = Done (x, env') -> x ∈ l /\ env' = env.
Proof.
  unfold entry. intros [H ->]%access_Done. split; [|done]. destruct (nr <? 0); [done|].
  by eapply list_elem_of_lookup_2.
Qed.

Lemma get_tlbm_state env i a j env1 idx env2 :
  booke206_get_tlbm env i a j env1 = Done (idx, env2) -> env2 = env1.
Proof.
  unfold booke206_get_tlbm. intros H. apply bind_Done in H as (sh & s1 & Hs & H).
  apply access_Done in Hs as [_ ->]. cbv zeta in H. revert H.
  destruct (booke206_tlb_size env i <=? _); intros H; by apply ret_Done in H as [_ ->].
Qed.

Lemma check_tlb_hit tlb ra p a rw t env ret ra' p' env' :
  mmubooke206_check_tlb tlb ra p a rw t 0 env = Done ((ret, ra', p'), env') ->
  env' = env /\ (ret <> -1 -> mmubooke206_match env tlb a None = Some ra').
Proof.
  unfold mmubooke206_check_tlb. rewrite run_gets. change (id env) with env. cbn [mmubooke206_get_as
    is_epid_mmu Z.eqb orb PPC_TLB_EPID_STORE PPC_TLB_EPID_LOAD].
  destruct (mmubooke206_match env tlb a None) as [r|].
  - generalize (mas3_prot tlb (negb (msr_pr env =? 0))) as prot2. intros prot2.
    repeat case_match; intros [= <- <- <- <-]; split; try done; lia.
  - intros [= <- <- <- <-]. split; [done|lia].
Qed.

Lemma booke206_loop_hit ways : forall ra ctx a rw t env env' ret ra' ctx' tlb,
  booke206_loop ways ra ctx a rw t 0 env = Done ((ret, ra', ctx', tlb), env') ->
  env' = env /\ forall e, tlb = Some e -> e ∈ tlbm env /\ mmubooke206_match env e a None = Some ra'.
Proof.
  induction ways as [|[n j] ways IH]; intros ra ctx a rw t env env' ret ra' ctx' tlb H; cbn in H.
  { by injection H as <- <- <- <- <-. }
  rewrite run_gets in H. apply bind_Done in H as (idx & s1 & Hi & H).
  apply get_tlbm_state in Hi as ->. change (id env) with env in *.
  destruct idx as [r|]; [|by eapply IH].
  apply bind_Done in H as (e & s2 & He & H). apply entry_Done in He as [He ->].
  apply bind_Done in H as ([[ret1 ra1] p1] & s3 & Hc & H). apply check_tlb_hit in Hc as [-> Hc].
  case_match eqn:Hr; [|by eapply IH]. apply negb_true_iff, Z.eqb_neq in Hr.
  injection H as <- <- <- <- <-. split; [done|]. intros ? [= <-]. split; [done|by apply Hc].
Qed.

(** A granted translation is that of an entry, whose attributes are reported. *)
Lemma booke206_info ctx a t rt info env ctx' info' env' :
  mmubooke206_get_info ctx a 0 t rt info env = Done ((0, ctx', info'), env') ->
  env' = env /\ exists e, e ∈ tlbm env /\ mmubooke206_match env e a None = Some (raddr ctx') /\
    info' = mk_cinfo (mas2_bit e MAS2_W_SHIFT)
      (if (if rt =? ACCESS_CODE then bit_any (spr env SPR_Exxx_L1CSR1) L1CSR1_ICE
           else bit_any (spr env SPR_Exxx_L1CSR0) L1CSR0_DCE)
       then mas2_bit e MAS2_I_SHIFT else 1) (mas2_bit e MAS2_M_SHIFT).
Proof.
  unfold mmubooke206_get_info. rewrite run_gets. intros H.
  apply bind_Done in H as ([[[ret ra] ctx1] tlb] & s1 & Hl & H). rewrite run_gets in H.
  destruct (booke206_loop_hit _ _ _ _ _ _ _ _ _ _ _ _ Hl) as [-> Hhit]. change (id env) with env in H.
  destruct tlb as [e|].
  - destruct (0 <=? ret) eqn:E; injection H as -> <- <- <-; [|done].
    split; [done|]. exists e. destruct (Hhit e eq_refl) as [He Hm]. by split_and!.
  - apply booke206_loop_none in Hl as ->. by injection H.
Qed.

Lemma mas2_bit_test e n : 0 <= n -> (mas2_bit e n =? 1) = Z.testbit (mas2 e) n.
Proof.
  intros Hn. unfold mas2_bit. change 1 with (Z.ones 1) at 1. rewrite Z.land_ones by lia.
  change (2 ^ 1) with 2. rewrite <- Z.bit0_mod, Z.shiftr_spec, Z.add_0_l by lia.
  by destruct (Z.testbit (mas2 e) n).
Qed.

(** C37: on BookE 2.06 a traced call whose address a TLB entry maps readable in the data
    space is recorded with that entry: the physical address is the one of the entry,
    the flags decode to the operation of the call, with write-through, coherency and
    cache inhibition as the entry's W, M and I bits say (inhibited also while the cache
    is disabled), and the processor is unchanged. *)
Theorem ppc_booke206_recorded cfg ce st c env va ctx1 env1 :
  QEM_TRACE_GATHER_META cfg = true -> QEM_TRACE_PHYSICAL_ADDRESS cfg = true ->
  mmu_model env = POWERPC_MMU_BOOKE206 -> 0 <= ppc_cpu_index env < 2 ^ 32 ->
  bit_any st (call_type c) = true -> call_active c -> call_addr c env = Done (Some va, env) ->
  get_physical_address (ce_ctx ce) va 0 ACCESS_INT env = Done ((0, ctx1), env1) ->
  exists e time flg, e ∈ tlbm env /\ mmubooke206_match env e va None = Some (raddr ctx1) /\
    run_call cfg ce st c env = Done ([OpOutput va (u32 (raddr ctx1)) (ppc_cpu_index env) time flg], env) /\
    let a := decode (def_of cfg) (flags (new_trace cfg (u32 (raddr ctx1)) (ppc_cpu_index env) time flg)) in
    acc_write a = o_write (call_desc c) /\ acc_inst a = o_inst (call_desc c) /\
    acc_event a = o_event (call_desc c) /\ acc_granularity a = o_gran (call_desc c) /\
    acc_level a = o_level (call_desc c) /\ acc_exclusive a = o_excl (call_desc c) /\
    acc_size a = size_of_bytes (call_size c) /\
    acc_wt a = Z.testbit (mas2 e) 4 /\ acc_coherency a = Z.testbit (mas2 e) 2 /\
    acc_inhibit a = negb (bit_any (spr env (if o_inst (call_desc c) then SPR_Exxx_L1CSR1
                                            else SPR_Exxx_L1CSR0)) 1) || Z.testbit (mas2 e) 3.
Proof.
  intros Hm Hp Hmodel Hc Hst Hact Ha Ht.
  pose proof (internal_run (ce_ctx ce) va 0 ACCESS_INT (call_code c) (mk_cinfo (ce_wt ce) (-1) (-1)) env) as Hi.
  rewrite Ht in Hi. destruct Hi as [info Hi].
  assert (Hi' := Hi). unfold qem_ppc_get_info_addr_mem_trace_internal in Hi'. rewrite run_gets in Hi'.
  change (id env) with env in Hi'. rewrite Hmodel in Hi'.
  destruct (booke206_info _ _ _ _ _ _ _ _ _ Hi') as (-> & e & He & Hmatch & Hinfo).
  assert (Htr : qem_ppc_get_info_addr_mem_trace cfg (ce_ctx ce) (ce_wt ce) va (call_code c) env
    = Done ((u32 (raddr ctx1), info), env)).
  { unfold qem_ppc_get_info_addr_mem_trace. rewrite (bind_step _ _ _ _ _ Hi), Hp. done. }
  exists e. do 2 eexists. split; [done|]. split; [done|].
  split; [exact (call_run cfg ce st c env va _ info env Hm Hst Hact Ha Htr)|].
  cbn zeta. destruct (new_trace_decode cfg (u32 (raddr ctx1)) (ppc_cpu_index env) (rdtsc_time (ce_tsc ce))
    (ppc_access env (call_desc c) (call_size c) info) Hm Hc) as [-> _].
  unfold ppc_access. cbn [acc_write acc_inst acc_event acc_granularity acc_level acc_exclusive acc_size
    acc_wt acc_coherency acc_inhibit]. rewrite Hinfo. cbn [wt_enable coherency cache_inhibit].
  rewrite !mas2_bit_test by (unfold MAS2_W_SHIFT, MAS2_M_SHIFT; lia).
  split_and!; try done. unfold call_code, L1CSR1_ICE, L1CSR0_DCE.
  destruct (o_inst (call_desc c)); change (ACCESS_CODE =? ACCESS_CODE) with true;
    change (ACCESS_INT =? ACCESS_CODE) with false; cbv iota; destruct (bit_any _ 1); cbn [negb orb];
    try done; apply mas2_bit_test; unfold MAS2_I_SHIFT; lia.
Qed.

(** A BookE 2.06 processor with one TLB of four entries, of which the second maps the
    page 0x1000 to 0x80005000, write-through and coherent, readable in supervisor
    state; the data cache is enabled. *)
Definition ppc_env (model : powerpc_mmu_t) (msr : Z) (bats : list (Z * Z)) : CPUPPCState :=
  let free := mk_tlbm 0 0 0 0 in
  mk_ppc (0x1000 :: repeat 0x234 31) msr (repeat 0x7 16) (length bats) bats bats 1 1 1 0 0
    [mk_tlb6 0x80000380 0x5002 0x1000] [] [free; mk_tlbm 0 0x80000100 0x1014 0x80005001; free; free] 0 0 0 0
    (fun n => if n =? SPR_BOOKE_TLB0CFG then 0x01000004 else if n =? SPR_Exxx_L1CSR0 then 1 else 0)
    model 3.

Definition ctx_junk : mmu_ctx_t := mk_ctx 11 12 13 14 15 16 17 18.
Definition ce_junk : call_env := mk_call_env 99 ctx_junk 5.

Definition ppc_result {T} (m : P T) (env : CPUPPCState) : option T :=
  match m env with Done (a, _) => Some a | _ => None end.

Lemma ppc_translation_agrees_witness :
  exists pa info env',
    qem_ppc_get_info_addr_mem_trace (cfg_small true false) ctx_junk 5 0x1234 ACCESS_INT
      (ppc_env POWERPC_MMU_BOOKE206 0 []) = Done ((pa, info), env') /\
    Z.land pa TARGET_PAGE_MASK = 0x80005000.
Proof.
  pose proof (ppc_translation_agrees (cfg_small true false) (fun _ _ => 0) ctx_junk 5 0x1234 ACCESS_INT
    (ppc_env POWERPC_MMU_BOOKE206 0 []) eq_refl ltac:(discriminate) ltac:(discriminate)) as H.
  assert (Hp : ppc_result (ppc_cpu_get_phys_page_debug (fun _ _ => 0) ctx_junk 0x1234)
    (ppc_env POWERPC_MMU_BOOKE206 0 []) = Some 0x80005000) by (vm_compute; reflexivity).
  unfold ppc_result in Hp. destruct (ppc_cpu_get_phys_page_debug _ _ _ _) as [[page env']| |]; [|done..].
  injection Hp as ->. destruct H as (pa & info & H1 & H2).
  exists pa, info, env'. split; [exact H1|exact H2].
Defined.

Lemma ppc_booke206_recorded_witness :
  let env := ppc_env POWERPC_MMU_BOOKE206 0 [] in
  exists pa time flg,
    run_call (cfg_small true false) ce_junk 1 (CallTrad true false 0 1 4) env
      = Done ([OpOutput 0x1234 pa 3 time flg], env) /\
    let a := decode (def_of (cfg_small true false)) (flags (new_trace (cfg_small true false) pa 3 time flg)) in
    acc_write a = true /\ acc_size a = Size32.
Proof.
  intros env.
  assert (Ht : exists ctx1 env1, get_physical_address ctx_junk 0x1234 0 ACCESS_INT env = Done ((0, ctx1), env1)).
  { assert (H : fst <$> ppc_result (get_physical_address ctx_junk 0x1234 0 ACCESS_INT) env = Some 0)
      by (vm_compute; reflexivity).
    unfold ppc_result in H. destruct (get_physical_address _ _ _ _ _) as [[[ret c] e]| |]; [|done..].
    injection H as ->. by exists c, e. }
  destruct Ht as (ctx1 & env1 & Ht).
  destruct (ppc_booke206_recorded (cfg_small true false) ce_junk 1 (CallTrad true false 0 1 4) env 0x1234 ctx1 env1)
    as (e & time & flg & _ & _ & Hrun & Hw & _ & _ & _ & _ & _ & Hs & _);
    [reflexivity|reflexivity|reflexivity|cbn; lia|reflexivity|exact I|reflexivity|exact Ht|].
  exists (u32 (raddr ctx1)), time, flg. split; [exact Hrun|]. split; [exact Hw|exact Hs].
Defined.
