(* ===== verification/Ppc6xx.v ===== *)
(** * PowerPC 6xx: the page offset

    On the 6xx and 74xx models QEMU's translation leaves the page frame in [raddr]: the
    frame of the BAT, or the second word of the TLB entry with its attribute bits.
    QEMU's callers mask it and add the offset; [qem_ppc_get_info_addr_mem_trace] stores
    it as it is.  This file shows what that means for the records: two addresses of one
    page have the same physical address. *)

From S2P Require Import Prelude Bits TraceDef Trace Sink Guest PpcMmu Ppc.

(** Results related, the same state. *)
Definition out_map {S T U} (f : T -> U) (o : outcome (T * S)) : outcome (U * S) :=
  match o with
  | Done (a, s) => Done (f a, s)
  | Exit c => Exit c
  | Undefined => Undefined
  end.

Lemma out_map_bind {S T U V W} (m : C S T) (m' : C S U) (k : T -> C S V) (k' : U -> C S W) f g s :
  m' s = out_map f (m s) -> (forall a s1, m s = Done (a, s1) -> k' (f a) s1 = out_map g (k a s1)) ->
  (m' ≫= k') s = out_map g ((m ≫= k) s).
Proof.
  intros Hm Hk. unfold mbind, C_bind. rewrite Hm. destruct (m s) as [[a s1]| |] eqn:E; cbn; [|done..].
  by apply Hk.
Qed.

Definition same_page (x y : Z) : Prop := Z.shiftr x 12 = Z.shiftr y 12.

(** A mask of page bits does not see the offset. *)
Lemma same_page_field x y n o :
  same_page x y -> 0 <= n -> 12 <= o -> Z.land x (Z.shiftl (Z.ones n) o) = Z.land y (Z.shiftl (Z.ones n) o).
Proof.
  intros H Hn Ho. rewrite !land_mask by lia. unfold field. do 2 f_equal.
  replace o with (12 + (o - 12)) by lia. rewrite <- !Z.shiftr_shiftr by lia. by rewrite H.
Qed.

Lemma same_page_shift x y n : same_page x y -> 12 <= n -> Z.shiftr x n = Z.shiftr y n.
Proof.
  intros H Hn. replace n with (12 + (n - 12)) by lia. rewrite <- !Z.shiftr_shiftr by lia. by rewrite H.
Qed.

Section page.
Context (x y e : Z).
Hypothesis Hxy : same_page x y.

Let mark (c : mmu_ctx_t) : mmu_ctx_t := set_eaddr c e.

Lemma pte_check_mark c p0 p1 h rw t :
  ppc6xx_tlb_pte_check (mark c) p0 p1 h rw t =
  let '(r, c) := ppc6xx_tlb_pte_check c p0 p1 h rw t in (r, mark c).
Proof. unfold ppc6xx_tlb_pte_check. cbn. repeat case_match; done. Qed.

Lemma update_flags_mark c p ret rw :
  pte_update_flags (mark c) p ret rw = let '(p, c) := pte_update_flags c p ret rw in (p, mark c).
Proof. unfold pte_update_flags. cbn. repeat case_match; done. Qed.

Definition mark_ways (r : mmu_ctx_t + Z * Z * mmu_ctx_t) : mmu_ctx_t + Z * Z * mmu_ctx_t :=
  match r with inl c => inl (mark c) | inr (ret, best, c) => inr (ret, best, mark c) end.

Definition mark_ret (r : Z * mmu_ctx_t) : Z * mmu_ctx_t := (r.1, mark r.2).

Lemma tlb6_ways_page n : forall way rw t ret best c env,
  tlb6_ways n way y rw t ret best (mark c) env = out_map mark_ways (tlb6_ways n way x rw t ret best c env).
Proof.
  induction n as [|n IH]; intros way rw t ret best c env; [done|]. cbn [tlb6_ways].
  rewrite !run_gets. unfold ppc6xx_tlb_getnum. rewrite <- Hxy.
  eapply (out_map_bind _ _ _ _ id); [by destruct (entry _ _ _) as [[]| |]|].
  intros tlb s1 _. cbn [id]. unfold TARGET_PAGE_MASK. change 0xFFFFF000 with (Z.shiftl (Z.ones 20) 12).
  rewrite <- (same_page_field x y 20 12) by (done || lia).
  destruct (negb _); [apply IH|]. rewrite pte_check_mark.
  destruct (ppc6xx_tlb_pte_check c (pte0 tlb) (pte1 tlb) 0 rw t) as [r c'].
  repeat case_match; try apply IH; done.
Qed.

Lemma tlb_check_page c rw t env :
  ppc6xx_tlb_check (mark c) y rw t env = out_map mark_ret (ppc6xx_tlb_check c x rw t env).
Proof.
  unfold ppc6xx_tlb_check. rewrite !run_gets. eapply out_map_bind; [apply tlb6_ways_page|].
  intros [c1|[[ret best] c1]] s1 _; cbn [mark_ways]; [done|]. destruct (best =? -1); [done|].
  rewrite !run_gets. eapply (out_map_bind _ _ _ _ id); [by destruct (entry _ _ _) as [[]| |]|].
  intros tlb s2 _. cbn [id]. rewrite update_flags_mark.
  by destruct (pte_update_flags c1 (pte1 tlb) ret rw) as [p c2].
Qed.

Lemma bat_raddr_page BATl bl : bat_raddr BATl x bl = bat_raddr BATl y bl.
Proof.
  unfold bat_raddr. change 0x0FFE0000 with (Z.shiftl (Z.ones 11) 17).
  change 0x0001F000 with (Z.shiftl (Z.ones 5) 12).
  by rewrite (same_page_field x y 11 17), (same_page_field x y 5 12) by (done || lia).
Qed.

(** The BATs do not touch the effective address. *)
Lemma bat_page n : forall i bats c rw t env, bat_loop n i bats c x rw t env = bat_loop n i bats c y rw t env.
Proof.
  induction n as [|n IH]; intros i bats c rw t env; [done|]. cbn [bat_loop].
  unfold mbind, C_bind. destruct (access_ _ env) as [[[bu bl] s1]| |]; [|done..]. cbn [gets id].
  destruct (bat_size_prot s1 bu bl) as [[l v] p]. rewrite bat_raddr_page.
  change 0x0FFE0000 with (Z.shiftl (Z.ones 11) 17). change 0xF0000000 with (Z.shiftl (Z.ones 4) 28).
  rewrite (same_page_field x y 11 17), (same_page_field x y 4 28) by (done || lia).
  case_match; [done|apply IH].
Qed.
End page.

(** Contexts that differ in the effective address only, and outcomes with such
    contexts. *)
Definition sim (c c' : mmu_ctx_t) : Prop := exists e, c' = set_eaddr c e.

Lemma sim_refl c : sim c c.
Proof. exists (eaddr c). by destruct c. Qed.

Definition out_sim (o o' : outcome (Z * mmu_ctx_t * CPUPPCState)) : Prop :=
  match o, o' with
  | Done ((r, c), s), Done ((r', c'), s') => r = r' /\ s = s' /\ sim c c'
  | Exit c, Exit c' => c = c'
  | Undefined, Undefined => True
  | _, _ => False
  end.

Lemma out_sim_mark e (o : outcome (Z * mmu_ctx_t * CPUPPCState)) : out_sim o (out_map (mark_ret e) o).
Proof. destruct o as [[[r c] s]| |]; cbn; [|done..]. split_and!; [done|done|by exists e]. Qed.

Lemma out_sim_bind (m m' : P (Z * mmu_ctx_t)) (k k' : Z * mmu_ctx_t -> P (Z * mmu_ctx_t)) s :
  out_sim (m s) (m' s) ->
  (forall r c c' s1, m s = Done ((r, c), s1) -> sim c c' -> out_sim (k (r, c) s1) (k' (r, c') s1)) ->
  out_sim ((m ≫= k) s) ((m' ≫= k') s).
Proof.
  intros Hm Hk. unfold mbind, C_bind. destruct (m s) as [[[r c] s1]| |] eqn:E, (m' s) as [[[r' c'] s1']| |];
    cbn in Hm; try done. destruct Hm as (-> & -> & Hs). by apply Hk.
Qed.

(** The BATs leave the processor alone. *)
Lemma bat_loop_state n : forall i bats c v rw t env r env',
  bat_loop n i bats c v rw t env = Done (r, env') -> env' = env.
Proof.
  induction n as [|n IH]; intros i bats c v rw t env r env' H; cbn [bat_loop] in H.
  { by apply ret_Done in H as [_ ->]. }
  apply bind_Done in H as ([bu bl] & s1 & Ha & H). apply access_Done in Ha as [_ ->].
  rewrite run_gets in H. destruct (bat_size_prot _ _ _) as [[l va] p].
  case_match; [by apply ret_Done in H as [_ ->]|by eapply IH].
Qed.

Lemma bats_state c v rw t env r env' :
  (if (nb_BATs env =? 0)%nat then mret (-1, c) else get_bat_6xx_tlb c v rw t) env = Done (r, env') ->
  env' = env.
Proof.
  destruct (nb_BATs env =? 0)%nat; [intros H; by apply ret_Done in H as [_ ->]|].
  unfold get_bat_6xx_tlb. rewrite !run_gets. apply bat_loop_state.
Qed.

Section page2.
Context (x y : Z).
Hypothesis Hxy : same_page x y.

Lemma bat_mark e n : forall i bats c v rw t env,
  bat_loop n i bats (set_eaddr c e) v rw t env = out_map (mark_ret e) (bat_loop n i bats c v rw t env).
Proof.
  induction n as [|n IH]; intros i bats c v rw t env; [done|]. cbn [bat_loop].
  unfold mbind, C_bind. destruct (access_ _ env) as [[[bu bl] s1]| |]; [|done..]. cbn [gets id].
  destruct (bat_size_prot s1 bu bl) as [[l va] p]. case_match; [done|apply IH].
Qed.

Lemma bat_tlb_sim c c' rw t env :
  sim c c' -> out_sim (get_bat_6xx_tlb c x rw t env) (get_bat_6xx_tlb c' y rw t env).
Proof.
  intros [e ->]. unfold get_bat_6xx_tlb. rewrite !run_gets, bat_mark, (bat_page x y Hxy). apply out_sim_mark.
Qed.

(** No segment is a direct-store segment. *)
Definition no_direct (env : CPUPPCState) : Prop := Forall (fun s => bit_any s 0x80000000 = false) (sr env).

Lemma segment_sim c c' rw t env :
  no_direct env -> sim c c' ->
  out_sim (get_segment_6xx_tlb c x rw t env) (get_segment_6xx_tlb c' y rw t env).
Proof.
  intros Hd [e ->]. unfold get_segment_6xx_tlb. rewrite !run_gets. change (id env) with env.
  rewrite <- (same_page_shift x y 28) by (done || lia).
  destruct (entry (sr env) (Z.shiftr x 28) env) as [[s env1]| |] eqn:E;
    [|by rewrite (bind_Exit _ _ _ _ E), (bind_Exit _ _ _ _ E)
     |by rewrite (bind_Undefined _ _ _ E), (bind_Undefined _ _ _ E)].
  rewrite !(bind_step _ _ _ _ _ E). apply entry_Done in E as [Hs ->].
  rewrite (proj1 (Forall_forall _ _) Hd s) by done. cbn [negb].
  assert (Hp : Z.shiftr (Z.land x 0x0FFFFFFF) 12 = Z.shiftr (Z.land y 0x0FFFFFFF) 12)
    by (by rewrite !Z.shiftr_land, Hxy).
  rewrite <- Hp. destruct (_ || _).
  - set (cx := set_raddr (set_hash1 _ _) _).
    set (cy := set_raddr (set_hash1 (set_hash0 (set_ptem (set_nx (set_key (set_eaddr (set_eaddr _ _) _) _) _) _) _) _) _).
    change cy with (set_eaddr cx y). rewrite (tlb_check_page x y y Hxy). apply out_sim_mark.
  - split_and!; [done|done|]. by exists y.
Qed.

Lemma translate_sim c c' rw t env :
  no_direct env -> sim c c' -> out_sim (translate_6xx c x rw t env) (translate_6xx c' y rw t env).
Proof.
  intros Hd Hs. unfold translate_6xx. rewrite !run_gets. apply out_sim_bind.
  - destruct (nb_BATs env =? 0)%nat; [done|by apply bat_tlb_sim].
  - intros r c1 c1' s1 Hr Hs1. assert (s1 = env) as -> by (by eapply bats_state).
    destruct (r <? 0); [by apply segment_sim|done].
Qed.
End page2.

(** ** The state after a translation *)

Lemma tlb6_ways_state n : forall way v rw t ret best c env r env',
  tlb6_ways n way v rw t ret best c env = Done (r, env') -> env' = env.
Proof.
  induction n as [|n IH]; intros way v rw t ret best c env r env' H; cbn [tlb6_ways] in H.
  { by apply ret_Done in H as [_ ->]. }
  rewrite !run_gets in H. apply bind_Done in H as (tlb & s1 & Ha & H). apply entry_Done in Ha as [_ ->].
  repeat case_match; try (by eapply IH); by apply ret_Done in H as [_ ->].
Qed.

Lemma set_tlb6_id env : env = set_tlb6 env (tlb6 env).
Proof. by destruct env. Qed.

Lemma tlb_check_state c v rw t env r env' :
  ppc6xx_tlb_check c v rw t env = Done (r, env') -> exists l, env' = set_tlb6 env l.
Proof.
  unfold ppc6xx_tlb_check. rewrite run_gets. intros H.
  apply bind_Done in H as (w & s1 & Hw & H). apply tlb6_ways_state in Hw as ->.
  destruct w as [c1|[[ret best] c1]]; [apply ret_Done in H as [_ ->]; exists (tlb6 env); apply set_tlb6_id|].
  destruct (best =? -1); [apply ret_Done in H as [_ ->]; exists (tlb6 env); apply set_tlb6_id|].
  rewrite run_gets in H. apply bind_Done in H as (tlb & s2 & Ht & H). apply entry_Done in Ht as [_ ->].
  destruct (pte_update_flags c1 (pte1 tlb) ret rw) as [p c2]. injection H as <- <-. by eexists.
Qed.

Lemma segment_state c v rw t env r env' :
  get_segment_6xx_tlb c v rw t env = Done (r, env') -> exists l, env' = set_tlb6 env l.
Proof.
  unfold get_segment_6xx_tlb. rewrite run_gets. intros H.
  apply bind_Done in H as (s & s1 & Hs & H). apply entry_Done in Hs as [_ ->].
  assert (Hret : forall (a b : Z * mmu_ctx_t), (mret a : P _) env = Done (b, env') ->
    exists l, env' = set_tlb6 env l)
    by (intros a b Hr; apply ret_Done in Hr as [_ ->]; by exists (tlb6 env); apply set_tlb6_id).
  repeat case_match; first [by eapply Hret | by eapply tlb_check_state].
Qed.

Lemma translate_state c v rw t env r env' :
  translate_6xx c v rw t env = Done (r, env') -> exists l, env' = set_tlb6 env l.
Proof.
  unfold translate_6xx. rewrite run_gets. intros H. apply bind_Done in H as ([ret c1] & s1 & Hb & H).
  apply bats_state in Hb as ->. destruct (ret <? 0); [by eapply segment_state|].
  apply ret_Done in H as [_ ->]. exists (tlb6 env). apply set_tlb6_id.
Qed.

(** ** The records *)

(** Address translation is on, in one of the two models. *)
Definition translating (env : CPUPPCState) : Prop :=
  (mmu_model env = POWERPC_MMU_SOFT_6xx \/ mmu_model env = POWERPC_MMU_SOFT_74xx) /\
  msr_ir env = 1 /\ msr_dr env = 1 /\ no_direct env.

Lemma internal_6xx c a t rt info env :
  translating env ->
  qem_ppc_get_info_addr_mem_trace_internal c a 0 t rt info env =
  out_map (fun r => (r.1, r.2, info)) (translate_6xx c a 0 t env).
Proof.
  intros (Hm & Hir & Hdr & _). unfold qem_ppc_get_info_addr_mem_trace_internal. rewrite run_gets.
  change (id env) with env.
  assert (Hr : real_mode env t = false) by (unfold real_mode; rewrite Hir, Hdr; by destruct (t =? ACCESS_CODE)).
  rewrite Hr. fold (translate_6xx c a 0 t).
  destruct Hm as [-> | ->]; unfold mbind at 1, C_bind at 1;
    by destruct (translate_6xx c a 0 t env) as [[[ret c1] env1]| |].
Qed.

(** On the 6xx and 74xx models, while translation is on and no segment is a
    direct-store one, two addresses of one page get the same physical address in the
    records: the offset in the page is lost. *)
Theorem ppc_6xx_offset_lost cfg ctx wt x y rt env :
  QEM_TRACE_PHYSICAL_ADDRESS cfg = true -> translating env -> same_page x y ->
  qem_ppc_get_info_addr_mem_trace cfg ctx wt x rt env = qem_ppc_get_info_addr_mem_trace cfg ctx wt y rt env.
Proof.
  intros Hp Htr Hxy. unfold qem_ppc_get_info_addr_mem_trace. rewrite Hp.
  assert (Hsim : forall c c' t env, translating env -> sim c c' ->
    out_sim (translate_6xx c x 0 t env) (translate_6xx c' y 0 t env))
    by (intros c c' t env0 (_ & _ & _ & Hd) Hs; by apply translate_sim).
  pose proof (Hsim ctx ctx ACCESS_INT env Htr (sim_refl ctx)) as H1.
  unfold mbind at 1, C_bind at 1, mbind at 2, C_bind at 2. rewrite !internal_6xx by done.
  destruct (translate_6xx ctx x 0 ACCESS_INT env) as [[[r1 c1] s1]| |] eqn:E1,
    (translate_6xx ctx y 0 ACCESS_INT env) as [[[r1' c1'] s1']| |]; cbn in H1; try done; [|by rewrite H1].
  destruct H1 as (<- & <- & Hs). cbn [out_map fst snd].
  destruct (r1 =? 0); [by destruct Hs as [e ->]|].
  assert (Htr1 : translating s1) by (apply translate_state in E1 as [l ->]; exact Htr).
  pose proof (Hsim c1 c1' ACCESS_CODE s1 Htr1 Hs) as H2.
  unfold mbind, C_bind. rewrite !internal_6xx by done.
  destruct (translate_6xx c1 x 0 ACCESS_CODE s1) as [[[r2 c2] s2]| |],
    (translate_6xx c1' y 0 ACCESS_CODE s1) as [[[r2' c2'] s2']| |]; cbn in H2; try done; [|by rewrite H2].
  destruct H2 as (<- & <- & [e ->]). cbn [out_map fst snd]. by destruct (r2 =? 0).
Qed.

(** The TLB entry maps the page 0x1000: its second word, page frame and protection
    bits, is recorded. *)
Lemma ppc_6xx_offset_lost_witness :
  ppc_result (qem_ppc_get_info_addr_mem_trace (cfg_small true false) ctx_junk 5 0x1234 ACCESS_INT)
    (ppc_env POWERPC_MMU_SOFT_6xx 0x30 []) = Some (0x5002, mk_cinfo 5 (-1) (-1)).
Proof.
  unfold ppc_result.
  rewrite (ppc_6xx_offset_lost (cfg_small true false) ctx_junk 5 0x1234 0x1FFC ACCESS_INT
    (ppc_env POWERPC_MMU_SOFT_6xx 0x30 [])).
  - vm_compute. reflexivity.
  - reflexivity.
  - split; [by left|]. split; [reflexivity|]. split; [reflexivity|]. unfold no_direct. cbn [sr ppc_env].
    by repeat constructor.
  - reflexivity.
Defined.
