(* ===== verification/PpcHooks.v ===== *)
(** * PowerPC: the hooks of the translator

    Where [target/ppc/translate.c] and [target/ppc/mem_helper.c] call the tracer: the
    integer loads and stores and their update and indexed forms, load with reservation
    and conditional store, the atomic updates, the load and store of several registers
    and of strings, the floating point and vector accesses ([translate/fp-impl.inc.c],
    [translate/vmx-impl.inc.c]), the cache management instructions, and the custom
    opcodes.  Each hook is modelled with
    the effect of the instruction on the registers, in the order of the code, because
    the helpers read the registers when they run. *)

From S2P Require Import Prelude Bits TraceDef Trace Sink Guest PpcMmu Ppc.
From AAC_tactics Require Import AAC.

(** ** Instruction fields *)

Definition extract (opcode shift nb : Z) : Z := Z.land (Z.shiftr opcode shift) (2 ^ nb - 1).
Definition rD (opcode : Z) : Z := extract opcode 21 5.
Definition rS (opcode : Z) : Z := extract opcode 21 5.
Definition rA (opcode : Z) : Z := extract opcode 16 5.
Definition rB (opcode : Z) : Z := extract opcode 11 5.
Definition SIMM (opcode : Z) : Z :=
  let v := extract opcode 0 16 in if v <? 2 ^ 15 then v else v - 2 ^ 16.

Definition read_gpr (n : Z) : P Z := regs ← gets gpr; entry regs n.
Definition write_gpr (n v : Z) : P unit := modify (fun env => set_gpr env (<[Z.to_nat n := v]> (gpr env))).

(** ** Effective addresses *)

Definition gen_addr_imm_index (opcode : Z) : P Z :=
  if rA opcode =? 0 then mret (u32 (SIMM opcode))
  else a ← read_gpr (rA opcode); mret (u32 (a + SIMM opcode)).

Definition gen_addr_reg_index (opcode : Z) : P Z :=
  if rA opcode =? 0 then read_gpr (rB opcode)
  else a ← read_gpr (rA opcode); b ← read_gpr (rB opcode); mret (u32 (a + b)).

(** ** Access sizes *)

Inductive ldop := ld8u | ld16u | ld16ur | ld16s | ld32u | ld32ur | ld32s | ld64.
Inductive stop := st8 | st16 | st16r | st32 | st32r | st64.

Definition ldop_size (o : ldop) : Z :=
  match o with
  | ld8u => 1 | ld16u | ld16ur | ld16s => 2 | ld32u | ld32ur | ld32s => 4 | ld64 => 8
  end.

Definition stop_size (o : stop) : Z :=
  match o with st8 => 1 | st16 | st16r => 2 | st32 | st32r => 4 | st64 => 8 end.

Section hooks.
(** The counter and uninitialised variables of each call the instruction makes, the
    tracing state, and the value a load of the instruction gives, by its size in bytes
    and the address. *)
Context (cfg : config) (ces : nat -> call_env) (st : Z) (mem : Z -> Z -> Z).

Abbreviation call_no k := (run_call cfg (ces k) st).
Abbreviation call := (call_no 0%nat).
Abbreviation calls := (run_calls cfg ces st 0).

(** ** Loads and stores *)

(** [gen_qemu_##ldop]: the load, then the call. *)
Definition gen_qemu_ld (o : ldop) (opcode reg addr : Z) : P (list op) :=
  write_gpr reg (u32 (mem (ldop_size o) addr));;
  call (CallImm false false (u32 (SIMM opcode)) (rA opcode) (ldop_size o)).

Definition gen_qemu_st (o : stop) (opcode addr : Z) : P (list op) :=
  call (CallImm true false (u32 (SIMM opcode)) (rA opcode) (stop_size o)).

Definition GEN_LD (o : ldop) (opcode : Z) : P (list op) :=
  ea ← gen_addr_imm_index opcode;
  gen_qemu_ld o opcode (rD opcode) ea.

(** An invalid form raises an exception before anything else. *)
Definition GEN_LDU (o : ldop) (opcode : Z) : P (list op) :=
  if (rA opcode =? 0) || (rA opcode =? rD opcode) then mret []
  else
    ea ← gen_addr_imm_index opcode;
    ops ← gen_qemu_ld o opcode (rD opcode) ea;
    write_gpr (rA opcode) ea;;
    mret ops.

Definition GEN_LDUX (o : ldop) (opcode : Z) : P (list op) :=
  if (rA opcode =? 0) || (rA opcode =? rD opcode) then mret []
  else
    ea ← gen_addr_reg_index opcode;
    ops ← gen_qemu_ld o opcode (rD opcode) ea;
    write_gpr (rA opcode) ea;;
    mret ops.

Definition GEN_LDX (o : ldop) (opcode : Z) : P (list op) :=
  ea ← gen_addr_reg_index opcode;
  gen_qemu_ld o opcode (rD opcode) ea.

Definition GEN_ST (o : stop) (opcode : Z) : P (list op) :=
  ea ← gen_addr_imm_index opcode;
  gen_qemu_st o opcode ea.

Definition GEN_STU (o : stop) (opcode : Z) : P (list op) :=
  if rA opcode =? 0 then mret []
  else
    ea ← gen_addr_imm_index opcode;
    ops ← gen_qemu_st o opcode ea;
    write_gpr (rA opcode) ea;;
    mret ops.

Definition GEN_STUX (o : stop) (opcode : Z) : P (list op) :=
  if rA opcode =? 0 then mret []
  else
    ea ← gen_addr_reg_index opcode;
    ops ← gen_qemu_st o opcode ea;
    write_gpr (rA opcode) ea;;
    mret ops.

Definition GEN_STX (o : stop) (opcode : Z) : P (list op) :=
  ea ← gen_addr_reg_index opcode;
  gen_qemu_st o opcode ea.

(** [size] is [MEMOP_GET_SIZE(memop)]. *)
Definition gen_load_locked (opcode size : Z) : P (list op) :=
  ea ← gen_addr_reg_index opcode;
  write_gpr (rD opcode) (u32 (mem size ea));;
  call (CallTrad false true (rA opcode) (rB opcode) size).

(** The store, and its call, only if the reservation is for the address. *)
Definition gen_conditional_store (reserve opcode size : Z) : P (list op) :=
  ea ← gen_addr_reg_index opcode;
  if ea =? reserve then call (CallTrad true true (rA opcode) (rB opcode) size) else mret [].

(** ** Several registers, strings *)

Definition addr_add (addr arg : Z) : Z := u32 (addr + arg).

(** [n] registers to go, [32 - reg]. *)
Fixpoint lmw_loop (n k : nat) (addr reg : Z) : P (list op) :=
  match n with
  | O => mret []
  | S n =>
      write_gpr reg (u32 (mem 4 addr));;
      ops ← call_no k (CallDirect false false addr 4);
      rest ← lmw_loop n (S k) (addr_add addr 4) (reg + 1);
      mret (ops ++ rest)
  end.

Definition helper_lmw (addr reg : Z) : P (list op) := lmw_loop (Z.to_nat (32 - reg)) 0 addr reg.

Fixpoint stmw_loop (n k : nat) (addr : Z) : P (list op) :=
  match n with
  | O => mret []
  | S n =>
      ops ← call_no k (CallDirect true false addr 4);
      rest ← stmw_loop n (S k) (addr_add addr 4);
      mret (ops ++ rest)
  end.

Definition helper_stmw (addr reg : Z) : P (list op) := stmw_loop (Z.to_nat (32 - reg)) 0 addr.

(** The rest of a string, byte by byte into the register [reg], from the shift [sh]. *)
Fixpoint lsw_tail (nb k : nat) (addr reg sh : Z) : P (list op) :=
  match nb with
  | O => mret []
  | S nb =>
      v ← read_gpr reg;
      write_gpr reg (Z.lor v (u32 (Z.shiftl (u8 (mem 1 addr)) sh)));;
      ops ← call_no k (CallDirect false false addr 4);
      rest ← lsw_tail nb (S k) (addr_add addr 1) reg (sh - 8);
      mret (ops ++ rest)
  end.

(** [n] words, then the rest. *)
Fixpoint lsw_words (n nb k : nat) (addr reg : Z) : P (list op) :=
  match n with
  | O =>
      if (0 <? nb)%nat then write_gpr reg 0;; lsw_tail nb k addr reg 24 else mret []
  | S n =>
      write_gpr reg (u32 (mem 4 addr));;
      ops ← call_no k (CallDirect false false addr 4);
      rest ← lsw_words n nb (S k) (addr_add addr 4) ((reg + 1) mod 32);
      mret (ops ++ rest)
  end.

Definition do_lsw (addr nb reg : Z) : P (list op) :=
  lsw_words (Z.to_nat (nb / 4)) (Z.to_nat (nb mod 4)) 0 addr reg.

Fixpoint stsw_tail (nb k : nat) (addr : Z) : P (list op) :=
  match nb with
  | O => mret []
  | S nb =>
      ops ← call_no k (CallDirect true false addr 4);
      rest ← stsw_tail nb (S k) (addr_add addr 1);
      mret (ops ++ rest)
  end.

Fixpoint stsw_words (n nb k : nat) (addr : Z) : P (list op) :=
  match n with
  | O => stsw_tail nb k addr
  | S n =>
      ops ← call_no k (CallDirect true false addr 4);
      rest ← stsw_words n nb (S k) (addr_add addr 4);
      mret (ops ++ rest)
  end.

Definition helper_stsw (addr nb : Z) : P (list op) :=
  stsw_words (Z.to_nat (nb / 4)) (Z.to_nat (nb mod 4)) 0 addr.

(** ** Atomic updates *)

Definition FC (opcode : Z) : Z := extract opcode 11 5.

Definition gen_addr_register (opcode : Z) : P Z :=
  if rA opcode =? 0 then mret 0 else read_gpr (rA opcode).

(** The target is the old value if the condition holds of it and the value after it,
    else the sign bit. *)
Definition gen_fetch_inc_conditional (opcode size ea : Z) (cond : Z -> Z -> bool) : P unit :=
  let t := u32 (mem size ea) in
  let t2 := u32 (mem size (u32 (ea + size))) in
  write_gpr (rD opcode) (if cond t t2 then t else u32 (2 ^ (size * 8 - 1))).

(** [parallel] is the flag [CF_PARALLEL] of the translated block, with which some forms
    leave the block to be run again alone; [handle] is the host address of the
    translator's variable [EA], which the code passes for the offset of the compare
    and swap. *)
Definition gen_ld_atomic (parallel : bool) (handle opcode size : Z) : P (list op) :=
  ea ← gen_addr_register opcode;
  let load := CallTrad false false (rA opcode) (rB opcode) size in
  let old := write_gpr (rD opcode) (u32 (mem size ea)) in
  let fc := FC opcode in
  if fc <=? 7 then ops ← calls [load]; old;; mret ops
  else if fc =? 8 then
    ops ← calls [load; CallTrad true true (rA opcode) (rB opcode) size]; old;; mret ops
  else if fc =? 16 then
    if parallel then calls [load]
    else ops ← calls [load; CallImm false true (u32 handle) (rA opcode) size;
                      CallImm true true (u32 handle) (rA opcode) size];
         old;; mret ops
  else if (fc =? 24) || (fc =? 28) then
    ops ← calls [load];
    (if parallel then mret tt
     else gen_fetch_inc_conditional opcode size ea (fun t t2 => negb (t =? t2)));;
    mret ops
  else if fc =? 25 then
    ops ← calls [load];
    (if parallel then mret tt else gen_fetch_inc_conditional opcode size ea Z.eqb);;
    mret ops
  else calls [load].

(** Whatever the function code, the registers are unchanged. *)
Definition gen_st_atomic (opcode size : Z) : P (list op) :=
  ea ← gen_addr_register opcode;
  calls [CallTrad false false (rA opcode) (rB opcode) size].

(** ** Floating point and vectors *)

(** The floating point registers are not part of the state.  The accesses of 64 bits go
    through the traced functions, those of single precision do not. *)
Inductive fldop := ld64_i64 | ld32fs.
Inductive fstop := st64_i64 | st32fs | st32fiw.

Definition gen_qemu_fld (o : fldop) (opcode addr : Z) : P (list op) :=
  match o with
  | ld64_i64 => call (CallImm false false (u32 (SIMM opcode)) (rA opcode) 8)
  | ld32fs => mret []
  end.

Definition gen_qemu_fst (o : fstop) (opcode addr : Z) : P (list op) :=
  match o with
  | st64_i64 => call (CallImm true false (u32 (SIMM opcode)) (rA opcode) 8)
  | st32fs => mret []
  | st32fiw => gen_qemu_st st32 opcode addr
  end.

(** Without the unit an exception is raised before anything else. *)
Definition enabled (unit : bool) (body : P (list op)) : P (list op) :=
  if unit then body else mret [].

Section float.
Context (fpu_enabled : bool).

Definition GEN_LDF (o : fldop) (opcode : Z) : P (list op) :=
  enabled fpu_enabled (ea ← gen_addr_imm_index opcode; gen_qemu_fld o opcode ea).
Definition GEN_LDUF (o : fldop) (opcode : Z) : P (list op) :=
  enabled fpu_enabled
    (if rA opcode =? 0 then mret []
     else ea ← gen_addr_imm_index opcode;
          ops ← gen_qemu_fld o opcode ea; write_gpr (rA opcode) ea;; mret ops).
Definition GEN_LDUXF (o : fldop) (opcode : Z) : P (list op) :=
  enabled fpu_enabled
    (if rA opcode =? 0 then mret []
     else ea ← gen_addr_reg_index opcode;
          ops ← gen_qemu_fld o opcode ea; write_gpr (rA opcode) ea;; mret ops).
Definition GEN_LDXF (o : fldop) (opcode : Z) : P (list op) :=
  enabled fpu_enabled (ea ← gen_addr_reg_index opcode; gen_qemu_fld o opcode ea).

Definition GEN_STF (o : fstop) (opcode : Z) : P (list op) :=
  enabled fpu_enabled (ea ← gen_addr_imm_index opcode; gen_qemu_fst o opcode ea).
Definition GEN_STUF (o : fstop) (opcode : Z) : P (list op) :=
  enabled fpu_enabled
    (if rA opcode =? 0 then mret []
     else ea ← gen_addr_imm_index opcode;
          ops ← gen_qemu_fst o opcode ea; write_gpr (rA opcode) ea;; mret ops).
Definition GEN_STUXF (o : fstop) (opcode : Z) : P (list op) :=
  enabled fpu_enabled
    (if rA opcode =? 0 then mret []
     else ea ← gen_addr_reg_index opcode;
          ops ← gen_qemu_fst o opcode ea; write_gpr (rA opcode) ea;; mret ops).
Definition GEN_STXF (o : fstop) (opcode : Z) : P (list op) :=
  enabled fpu_enabled (ea ← gen_addr_reg_index opcode; gen_qemu_fst o opcode ea).

(** Two accesses of 64 bits; the hook of both computes the same address. *)
Definition pair_calls (write : bool) (opcode : Z) : list ppc_call :=
  let c := CallImm write false (u32 (SIMM opcode)) (rA opcode) 8 in [c; c].

Definition gen_lfdp (opcode : Z) : P (list op) :=
  enabled fpu_enabled (ea ← gen_addr_imm_index opcode; calls (pair_calls false opcode)).
Definition gen_lfdpx (opcode : Z) : P (list op) :=
  enabled fpu_enabled (ea ← gen_addr_reg_index opcode; calls (pair_calls false opcode)).
Definition gen_stfdp (opcode : Z) : P (list op) :=
  enabled fpu_enabled (ea ← gen_addr_imm_index opcode; calls (pair_calls true opcode)).
Definition gen_stfdpx (opcode : Z) : P (list op) :=
  enabled fpu_enabled (ea ← gen_addr_reg_index opcode; calls (pair_calls true opcode)).

Definition gen_lfiwax (opcode : Z) : P (list op) :=
  enabled fpu_enabled
    (ea ← gen_addr_reg_index opcode; call (CallImm false false (u32 (SIMM opcode)) (rA opcode) 4)).
Definition gen_lfiwzx (opcode : Z) : P (list op) :=
  enabled fpu_enabled
    (ea ← gen_addr_reg_index opcode; call (CallImm false false (u32 (SIMM opcode)) (rA opcode) 4)).
End float.

(** The quad forms of POWER2 do not look at the unit. *)
Definition quad (write update indexed : bool) (opcode : Z) : P (list op) :=
  ea ← (if indexed then gen_addr_reg_index opcode else gen_addr_imm_index opcode);
  ops ← calls (pair_calls write opcode);
  when (update && negb (rA opcode =? 0)) (write_gpr (rA opcode) ea);;
  mret ops.

Definition gen_lfq : Z -> P (list op) := quad false false false.
Definition gen_lfqu : Z -> P (list op) := quad false true false.
Definition gen_lfqux : Z -> P (list op) := quad false true true.
Definition gen_lfqx : Z -> P (list op) := quad false false true.
Definition gen_stfq : Z -> P (list op) := quad true false false.
Definition gen_stfqu : Z -> P (list op) := quad true true false.
Definition gen_stfqux : Z -> P (list op) := quad true true true.
Definition gen_stfqx : Z -> P (list op) := quad true false true.

Definition GEN_VR_LDX (altivec_enabled : bool) (opcode : Z) : P (list op) :=
  enabled altivec_enabled (ea ← gen_addr_reg_index opcode; calls (pair_calls false opcode)).
Definition GEN_VR_STX (altivec_enabled : bool) (opcode : Z) : P (list op) :=
  enabled altivec_enabled (ea ← gen_addr_reg_index opcode; calls (pair_calls true opcode)).

(** ** Cache management *)

(** The privileged ones raise an exception in problem state. *)
Definition CHK_SV (body : P (list op)) : P (list op) :=
  env ← gets id; if negb (msr_pr env =? 0) then mret [] else body.

(** The level is the field of the instruction that names the cache. *)
Section cache.
Context (opcode : Z).

Let a := rA opcode.
Let b := rB opcode.
Let ct := rS opcode.

Definition gen_dcbf : P (list op) := call (CallDcacheFlushInval a b ct GrLine).
Definition gen_dcbfep : P (list op) := CHK_SV (call (CallDcacheFlushInval a b ct GrLine)).
Definition gen_dcbi : P (list op) := CHK_SV (call (CallDcacheInval a b ct GrLine)).
(** As on the E500, a store of a line acts like a flush. *)
Definition gen_dcbst : P (list op) := call (CallDcacheFlushInval a b ct GrLine).
Definition gen_dcbstep : P (list op) := call (CallDcacheFlushInval a b ct GrLine).
Definition gen_dcbt : P (list op) := call (CallDcachePrefetch a b ct GrLine 0).
Definition gen_dcbtep : P (list op) := call (CallDcachePrefetch a b ct GrLine 0).
Definition gen_dcbtst : P (list op) := call (CallDcachePrefetch a b ct GrLine 1).
Definition gen_dcbtstep : P (list op) := call (CallDcachePrefetch a b ct GrLine 1).
(** Locking fails: the bit [L1CSR0_CUL] is set. *)
Definition gen_dcbtls : P (list op) :=
  v ← gets (fun env => spr env SPR_Exxx_L1CSR0);
  write_spr SPR_Exxx_L1CSR0 (Z.lor v 0x400);;
  call (CallDcacheLock a b ct GrLine 0).
Definition gen_dcbtstls : P (list op) := call (CallDcacheLock a b ct GrLine 1).
Definition gen_dcblc : P (list op) := call (CallDcacheUnlock a b ct GrLine).
Definition gen_icbtls : P (list op) := call (CallIcacheLock a b ct GrLine 0).
Definition gen_icblc : P (list op) := call (CallIcacheUnlock a b ct GrLine).
Definition gen_dcbz : P (list op) := call (CallDcbz a b 1).
Definition gen_dcbzep : P (list op) := call (CallDcbz a b 1).
Definition gen_icbi : P (list op) := call (CallIcacheInval a b ct GrLine).
Definition gen_icbiep : P (list op) := call (CallIcacheInval a b ct GrLine).
Definition gen_dcba : P (list op) := call (CallTrad true false a b 1).
Definition gen_clf : P (list op) :=
  calls [CallDcacheFlush a b ct GrLine 0; CallIcacheFlush a b ct GrLine].
(** The calls come before the privilege check. *)
Definition gen_cli : P (list op) :=
  calls [CallDcacheInval a b ct GrLine; CallIcacheInval a b ct GrLine].
Definition gen_dclst : P (list op) := call (CallTrad true false a b 1).
Definition gen_icbt_40x : P (list op) := call (CallIcbt a b ct).
Definition gen_icbt_440 : P (list op) := call (CallIcbt a b ct).
Definition gen_iccci : P (list op) :=
  CHK_SV (calls [CallDcacheInval a b ct GrSet; CallIcacheInval a b ct GrSet]).
End cache.

(** ** Instructions *)

Definition gen_qem_instld_trace (pc_next : Z) : P (list op) := call (CallInstld pc_next 4).

(** The custom opcodes; the timer opcodes make no call of the tracing API. *)
Definition custom_opcode (opcode : Z) : P (list op) :=
  if opcode =? QEM_TRACE_START_OP then call (CallStart QEM_TRACE_ALLTRACE)
  else if opcode =? QEM_TRACE_DSTART_OP then call (CallStart QEM_TRACE_DTRACE)
  else if opcode =? QEM_TRACE_ISTART_OP then call (CallStart QEM_TRACE_ITRACE)
  else if opcode =? QEM_TRACE_STOP_OP then call (CallStop QEM_TRACE_ALLTRACE)
  else if opcode =? QEM_TRACE_DSTOP_OP then call (CallStop QEM_TRACE_DTRACE)
  else if opcode =? QEM_TRACE_ISTOP_OP then call (CallStop QEM_TRACE_ITRACE)
  else if opcode =? QEM_TRACE_FLASH_INV_INST_OP then call CallFlashIcache
  else if opcode =? QEM_TRACE_FLASH_INV_DATA_OP then call CallFlashDcache
  else mret [].

Inductive cache_insn :=
  | I_dcbf | I_dcbfep | I_dcbi | I_dcbst | I_dcbstep | I_dcbt | I_dcbtep | I_dcbtst | I_dcbtstep
  | I_dcbtls | I_dcbtstls | I_dcblc | I_icbtls | I_icblc | I_dcbz | I_dcbzep | I_icbi | I_icbiep
  | I_dcba | I_clf | I_cli | I_dclst | I_icbt_40x | I_icbt_440 | I_iccci.

Definition gen_cache (i : cache_insn) : Z -> P (list op) :=
  match i with
  | I_dcbf => gen_dcbf | I_dcbfep => gen_dcbfep | I_dcbi => gen_dcbi | I_dcbst => gen_dcbst
  | I_dcbstep => gen_dcbstep | I_dcbt => gen_dcbt | I_dcbtep => gen_dcbtep | I_dcbtst => gen_dcbtst
  | I_dcbtstep => gen_dcbtstep | I_dcbtls => gen_dcbtls | I_dcbtstls => gen_dcbtstls
  | I_dcblc => gen_dcblc | I_icbtls => gen_icbtls | I_icblc => gen_icblc | I_dcbz => gen_dcbz
  | I_dcbzep => gen_dcbzep | I_icbi => gen_icbi | I_icbiep => gen_icbiep | I_dcba => gen_dcba
  | I_clf => gen_clf | I_cli => gen_cli | I_dclst => gen_dclst | I_icbt_40x => gen_icbt_40x
  | I_icbt_440 => gen_icbt_440 | I_iccci => gen_iccci
  end.

Inductive float_insn :=
  | F_load (form : Z) (o : fldop) | F_store (form : Z) (o : fstop)
  | F_lfdp | F_lfdpx | F_stfdp | F_stfdpx | F_lfiwax | F_lfiwzx
  | F_lfq | F_lfqu | F_lfqux | F_lfqx | F_stfq | F_stfqu | F_stfqux | F_stfqx
  | F_lvx | F_stvx.

(** [form] numbers the plain, update, update-indexed and indexed forms; [unit] is whether
    the unit is enabled. *)
Definition gen_float (unit : bool) (i : float_insn) : Z -> P (list op) :=
  match i with
  | F_load f o =>
      (if f =? 0 then GEN_LDF else if f =? 1 then GEN_LDUF else if f =? 2 then GEN_LDUXF else GEN_LDXF) unit o
  | F_store f o =>
      (if f =? 0 then GEN_STF else if f =? 1 then GEN_STUF else if f =? 2 then GEN_STUXF else GEN_STXF) unit o
  | F_lfdp => gen_lfdp unit | F_lfdpx => gen_lfdpx unit
  | F_stfdp => gen_stfdp unit | F_stfdpx => gen_stfdpx unit
  | F_lfiwax => gen_lfiwax unit | F_lfiwzx => gen_lfiwzx unit
  | F_lfq => gen_lfq | F_lfqu => gen_lfqu | F_lfqux => gen_lfqux | F_lfqx => gen_lfqx
  | F_stfq => gen_stfq | F_stfqu => gen_stfqu | F_stfqux => gen_stfqux | F_stfqx => gen_stfqx
  | F_lvx => GEN_VR_LDX unit | F_stvx => GEN_VR_STX unit
  end.

Inductive ppc_insn :=
  | PFetch (pc_next : Z)
  | PLoad (form : Z) (o : ldop) (opcode : Z)
  | PStore (form : Z) (o : stop) (opcode : Z)
  | PLoadLocked (opcode size : Z)
  | PConditionalStore (reserve opcode size : Z)
  | PLmw (addr reg : Z)
  | PStmw (addr reg : Z)
  | PLsw (addr nb reg : Z)
  | PStsw (addr nb : Z)
  | PLoadAtomic (parallel : bool) (handle opcode size : Z)
  | PStoreAtomic (opcode size : Z)
  | PFloat (unit : bool) (i : float_insn) (opcode : Z)
  | PCache (i : cache_insn) (opcode : Z)
  | PCustom (opcode : Z).

Definition ppc_hook (i : ppc_insn) : P (list op) :=
  match i with
  | PFetch pc => gen_qem_instld_trace pc
  | PLoad f o opcode =>
      (if f =? 0 then GEN_LD else if f =? 1 then GEN_LDU else if f =? 2 then GEN_LDUX else GEN_LDX) o opcode
  | PStore f o opcode =>
      (if f =? 0 then GEN_ST else if f =? 1 then GEN_STU else if f =? 2 then GEN_STUX else GEN_STX) o opcode
  | PLoadLocked opcode size => gen_load_locked opcode size
  | PConditionalStore reserve opcode size => gen_conditional_store reserve opcode size
  | PLmw addr reg => helper_lmw addr reg
  | PStmw addr reg => helper_stmw addr reg
  | PLsw addr nb reg => do_lsw addr nb reg
  | PStsw addr nb => helper_stsw addr nb
  | PLoadAtomic parallel handle opcode size => gen_ld_atomic parallel handle opcode size
  | PStoreAtomic opcode size => gen_st_atomic opcode size
  | PFloat unit i opcode => gen_float unit i opcode
  | PCache i opcode => gen_cache i opcode
  | PCustom opcode => custom_opcode opcode
  end.
End hooks.

(** An event: what the guest did to the processor since the one before, and the
    instruction part that calls the tracer. *)
Record ppc_event := mk_ppc_event {
  ppc_step : CPUPPCState -> CPUPPCState;
  ppc_ces : nat -> call_env;
  ppc_mem : Z -> Z -> Z;
  ppc_what : ppc_insn
}.

Definition ppc_code (cfg : config) (e : ppc_event) (st : Z) : P (list op) :=
  modify (ppc_step e);; ppc_hook cfg (ppc_ces e) st (ppc_mem e) (ppc_what e).

(** ** The interface of the guest *)

(** Code that makes records, only while something is traced, whose flag words are codes of
    accesses. *)
Definition quiet_op (cfg : config) (st : Z) (o : op) : Prop :=
  is_output o /\ st <> 0 /\ (QEM_TRACE_GATHER_META cfg = true -> coded cfg o).
Definition quiet (cfg : config) (st : Z) (m : P (list op)) : Prop := emits (quiet_op cfg st) m.

Lemma quiet_bind {T} cfg st (m : P T) k : (forall a, quiet cfg st (k a)) -> quiet cfg st (m ≫= k).
Proof. apply outputs_bind. Qed.

Lemma quiet_nil cfg st : quiet cfg st (mret []).
Proof. by apply outputs_ret. Qed.

Lemma quiet_app cfg st (m m' : P (list op)) :
  quiet cfg st m -> quiet cfg st m' -> quiet cfg st (ops ← m; rest ← m'; mret (ops ++ rest)).
Proof.
  intros Hm Hm' env ops env' H. apply bind_Done in H as (l1 & s1 & H1 & H).
  apply bind_Done in H as (l2 & s2 & H2 & H). apply ret_Done in H as [-> _].
  apply Forall_app. split; [by eapply Hm|by eapply Hm'].
Qed.

Lemma quiet_after {T} cfg st (m : P (list op)) (m' : P T) :
  quiet cfg st m -> quiet cfg st (ops ← m; m';; mret ops).
Proof.
  intros Hm env ops env' H. apply bind_Done in H as (l1 & s1 & H1 & H).
  apply bind_Done in H as (x & s2 & _ & H). apply ret_Done in H as [-> _]. by eapply Hm.
Qed.

Lemma quiet_guarded cfg st m env ops env' : quiet cfg st m -> m env = Done (ops, env') -> guarded st ops.
Proof.
  intros Hm H. apply Hm in H. destruct ops as [|o ops]; [done|].
  apply guarded_outputs; [apply (Forall_impl _ _ _ H); by intros ? [? _]|].
  by inversion H as [|? ? (_ & ? & _)].
Qed.

(** The body of a helper: what follows the test of the tracing state. *)
Definition body_op (cfg : config) (o : op) : Prop :=
  is_output o /\ (QEM_TRACE_GATHER_META cfg = true -> coded cfg o).

Lemma quiet_traced cfg st type body : emits (body_op cfg) body -> quiet cfg st (traced st type body).
Proof.
  intros Hb env ops env' H. unfold traced in H. destruct (bit_any st type) eqn:E.
  - apply (Forall_impl _ _ _ (Hb _ _ _ H)). intros o [Ho Hc]. split_and!; [done| |done].
    by eapply bit_any_nonzero.
  - apply ret_Done in H as [-> _]. done.
Qed.

Lemma emit_body cfg tsc ctx wt va at_ flags extra size o :
  Z.lor flags extra = desc_code (def_of cfg) o ->
  emits (body_op cfg) (emit cfg tsc ctx wt va at_ flags extra size).
Proof.
  intros Ho. unfold emit. destruct (QEM_TRACE_GATHER_META cfg) eqn:Hm.
  - do 2 (apply outputs_bind; intros ?). apply outputs_ret. repeat constructor. intros _.
    eexists. by apply ppc_flags.
  - apply outputs_bind; intros ?. apply outputs_ret. repeat constructor. by rewrite Hm.
Qed.

Lemma flash_body cfg tsc inst :
  emits (body_op cfg) (flash_inval cfg tsc (id_code (def_of cfg) inst)).
Proof.
  unfold flash_inval. apply outputs_bind; intros env. apply outputs_ret.
  destruct (QEM_TRACE_GATHER_META cfg) eqn:Hm; repeat constructor; [|by rewrite Hm].
  intros _. eexists. apply (ppc_flags _ _ (mk_desc false inst EvInvalidate GrGlobal Level1 false)).
  destruct (zero_codes cfg) as (E1 & E2 & E3 & _ & E5 & _ & E7 & _ & E9).
  unfold desc_code. cbn [o_write o_inst o_event o_gran o_level o_excl].
  unfold rw_code, event_code, gran_code, level_code, exclusive_code, ite. rewrite E2, E9. aac_reflexivity.
Qed.

Definition is_control (c : ppc_call) : bool :=
  match c with CallStart _ | CallStop _ => true | _ => false end.

Lemma quiet_call cfg ce st c : is_control c = false -> quiet cfg st (run_call cfg ce st c).
Proof.
  intros Hc. assert (Hgo : forall va at_ flags extra size,
    Z.lor flags extra = desc_code (def_of cfg) (call_desc c) ->
    emits (body_op cfg) (emit cfg (ce_tsc ce) (ce_ctx ce) (ce_wt ce) va at_ flags extra size))
    by (intros; by eapply emit_body).
  destruct c; try discriminate Hc; cbn [run_call]; try (destruct write, excl); apply quiet_traced.
  all: try (by apply (flash_body cfg _ true)).
  all: try (by apply (flash_body cfg _ false)).
  all: repeat first [apply traced_outputs | apply outputs_bind; intros ?].
  all: try (case_match; [by apply outputs_ret|apply outputs_bind; intros ?]).
  all: apply Hgo; clear Hgo; desc_solve cfg.
Qed.

Lemma quiet_calls cfg ces st cs : forall k,
  forallb (fun c => negb (is_control c)) cs = true -> quiet cfg st (run_calls cfg ces st k cs).
Proof.
  induction cs as [|c cs IH]; intros k H; [apply quiet_nil|]. cbn in H.
  apply andb_true_iff in H as [Hc Hcs]. apply quiet_app; [|by apply IH].
  apply quiet_call. by destruct (is_control c).
Qed.

Lemma quiet_loops cfg ces st mem n :
  (forall k addr reg, quiet cfg st (lmw_loop cfg ces st mem n k addr reg)) /\
  (forall k addr, quiet cfg st (stmw_loop cfg ces st n k addr)) /\
  (forall k addr reg sh, quiet cfg st (lsw_tail cfg ces st mem n k addr reg sh)) /\
  (forall k addr, quiet cfg st (stsw_tail cfg ces st n k addr)).
Proof.
  induction n as [|n (H1 & H2 & H3 & H4)]; [split_and!; intros; apply quiet_nil|].
  split_and!; intros; cbn [lmw_loop stmw_loop lsw_tail stsw_tail];
    repeat first [apply quiet_app; [by apply quiet_call|auto] | apply quiet_bind; intros ?].
Qed.

Lemma quiet_words cfg ces st mem nb n :
  (forall k addr reg, quiet cfg st (lsw_words cfg ces st mem n nb k addr reg)) /\
  (forall k addr, quiet cfg st (stsw_words cfg ces st n nb k addr)).
Proof.
  pose proof (quiet_loops cfg ces st mem nb) as (_ & _ & H3 & H4).
  induction n as [|n (H1 & H2)]; split; intros; cbn [lsw_words stsw_words]; auto.
  - case_match; [apply quiet_bind; auto|apply quiet_nil].
  - apply quiet_bind; intros _. apply quiet_app; [by apply quiet_call|auto].
  - apply quiet_app; [by apply quiet_call|auto].
Qed.

Lemma quiet_cache cfg ces st i opcode : quiet cfg st (gen_cache cfg ces st i opcode).
Proof.
  destruct i; cbn [gen_cache];
    unfold gen_dcbfep, gen_dcbi, gen_iccci, gen_dcbtls, CHK_SV;
    repeat first [by apply quiet_call | by apply quiet_calls | apply quiet_nil
                 | case_match | apply quiet_bind; intros ?].
Qed.

Lemma quiet_access cfg ces st mem f :
  (forall o opcode, quiet cfg st (ppc_hook cfg ces st mem (PLoad f o opcode))) /\
  (forall o opcode, quiet cfg st (ppc_hook cfg ces st mem (PStore f o opcode))).
Proof.
  split; intros; cbn [ppc_hook]; repeat case_match;
    unfold GEN_LD, GEN_LDU, GEN_LDUX, GEN_LDX, GEN_ST, GEN_STU, GEN_STUX, GEN_STX,
      gen_qemu_ld, gen_qemu_st;
    repeat first [by apply quiet_call | apply quiet_nil | case_match
                 | apply quiet_after | apply quiet_bind; intros ?].
Qed.

Lemma quiet_atomic cfg ces st mem parallel handle opcode size :
  quiet cfg st (gen_ld_atomic cfg ces st mem parallel handle opcode size) /\
  quiet cfg st (gen_st_atomic cfg ces st opcode size).
Proof.
  unfold gen_ld_atomic, gen_st_atomic. split;
    repeat first [by apply quiet_calls | case_match | apply quiet_after | apply quiet_bind; intros ?].
Qed.

Lemma quiet_float cfg ces st unit i opcode : quiet cfg st (gen_float cfg ces st unit i opcode).
Proof.
  destruct i; cbn [gen_float]; repeat case_match; try destruct o;
    unfold GEN_LDF, GEN_LDUF, GEN_LDUXF, GEN_LDXF, GEN_STF, GEN_STUF, GEN_STUXF, GEN_STXF, gen_lfdp,
      gen_lfdpx, gen_stfdp, gen_stfdpx, gen_lfiwax, gen_lfiwzx, gen_lfq, gen_lfqu, gen_lfqux, gen_lfqx,
      gen_stfq, gen_stfqu, gen_stfqux, gen_stfqx, quad, GEN_VR_LDX, GEN_VR_STX, enabled, gen_qemu_fld,
      gen_qemu_fst, gen_qemu_st;
    repeat first [by apply quiet_call | by apply quiet_calls | apply quiet_nil | case_match
                 | apply quiet_after | apply quiet_bind; intros ?].
Qed.

Lemma quiet_hook cfg ces st mem i :
  (if i is PCustom _ then False else True) -> quiet cfg st (ppc_hook cfg ces st mem i).
Proof.
  intros Hi. destruct i; try done; try apply quiet_access; cbn [ppc_hook].
  - by apply quiet_call.
  - unfold gen_load_locked. repeat (apply quiet_bind; intros ?). by apply quiet_call.
  - unfold gen_conditional_store. apply quiet_bind; intros ea.
    case_match; [by apply quiet_call|apply quiet_nil].
  - apply quiet_loops.
  - by apply quiet_loops.
  - apply quiet_words.
  - by apply quiet_words.
  - by apply quiet_atomic.
  - exact (proj2 (quiet_atomic _ _ _ mem true 0 _ _)).
  - apply quiet_float.
  - apply quiet_cache.
Qed.

(** The custom instructions change the state of the tracer or make a record. *)
Lemma custom_calls cfg ces st mem opcode :
  quiet cfg st (ppc_hook cfg ces st mem (PCustom opcode)) \/
  exists o, ppc_hook cfg ces st mem (PCustom opcode) = mret [o] /\ guarded st [o] /\ coded cfg o.
Proof.
  cbn [ppc_hook]. unfold custom_opcode.
  repeat case_match; try (right; eexists; split; [reflexivity|]; by split; [cbn; unfold ttype; auto|]);
    left; first [by apply quiet_call | apply quiet_nil].
Qed.

Lemma ppc_well_guarded cfg : well_guarded (ppc_code cfg).
Proof.
  intros e st g ops g' Hrun. unfold ppc_code in Hrun. apply bind_Done in Hrun as ([] & s1 & _ & H).
  destruct (ppc_what e) as [| | | | | | | | | | | | |opcode];
    try (by eapply quiet_guarded, H; apply quiet_hook).
  destruct (custom_calls cfg (ppc_ces e) st (ppc_mem e) opcode) as [Hq|(o & Ho & Hg & _)];
    [by eapply quiet_guarded, H|]. rewrite Ho in H. by apply ret_Done in H as [-> _].
Qed.

Lemma ppc_coded cfg e st : QEM_TRACE_GATHER_META cfg = true -> emits (coded cfg) (ppc_code cfg e st).
Proof.
  intros Hm. apply outputs_bind; intros _.
  assert (Hq : forall m, quiet cfg st m -> emits (coded cfg) m).
  { intros m Hq g ops g' H. apply (Forall_impl _ _ _ (Hq _ _ _ H)). intros o (_ & _ & Hc). by apply Hc. }
  destruct (ppc_what e) as [| | | | | | | | | | | | |opcode]; try (by apply Hq, quiet_hook).
  destruct (custom_calls cfg (ppc_ces e) st (ppc_mem e) opcode) as [Hc|(o & -> & _ & Hc)]; [by apply Hq|].
  apply outputs_ret. by repeat constructor.
Qed.

(** ** The address of a record *)

Lemma rA_nonneg opcode : (rA opcode <? 0) = false.
Proof.
  unfold rA, extract. apply Z.ltb_ge. change (2 ^ 5 - 1) with (Z.ones 5).
  rewrite Z.land_ones by lia. apply Z.mod_pos_bound. lia.
Qed.

Lemma rB_nonneg opcode : (rB opcode <? 0) = false.
Proof.
  pose proof (rA_nonneg (Z.shiftl opcode 5)) as Hn. revert Hn. unfold rA, rB, extract.
  by rewrite Z.shiftr_shiftl_r by lia.
Qed.

Lemma read_rA opcode env v : gpr env !! Z.to_nat (rA opcode) = Some v -> read_gpr (rA opcode) env = Done (v, env).
Proof. intros H. unfold read_gpr, entry. rewrite run_gets, rA_nonneg, H. done. Qed.

Lemma u32_add_u32 v s : u32 (v + u32 s) = u32 (v + s).
Proof. unfold u32, wrap. by rewrite Zplus_mod_idemp_r. Qed.

Lemma traced_twice {G} st type (body : C G (list op)) :
  traced st type (traced st type body) = traced st type body.
Proof. unfold traced. by destruct (bit_any st type). Qed.

(** The helper with a register and an offset is the one with their sum. *)
Lemma imm_direct cfg ce st w simm opcode size env v :
  gpr env !! Z.to_nat (rA opcode) = Some v ->
  run_call cfg ce st (CallImm w false (u32 simm) (rA opcode) size) env =
  run_call cfg ce st (CallDirect w false (u32 (v + simm)) size) env.
Proof.
  intros Hv. assert (Ha : addr_imm (u32 simm) (rA opcode) env = Done (u32 (v + simm), env)).
  { unfold addr_imm, entry. rewrite run_gets, rA_nonneg, Hv, <- u32_add_u32. done. }
  cbn [run_call]. destruct w; unfold helper_qem_datast_trace, helper_qem_datald_trace, traced at 1;
    (destruct (bit_any st QEM_TRACE_DTRACE) eqn:E; [by rewrite (bind_step _ _ _ _ _ Ha)|]);
    unfold helper_qem_datast_trace_direct, helper_qem_datald_trace_direct, traced; by rewrite E.
Qed.

Lemma load_run cfg ces st mem o opcode env ea v :
  <[Z.to_nat (rD opcode) := u32 (mem (ldop_size o) ea)]> (gpr env) !! Z.to_nat (rA opcode) = Some v ->
  gen_qemu_ld cfg ces st mem o opcode (rD opcode) ea env =
  (write_gpr (rD opcode) (u32 (mem (ldop_size o) ea));;
   run_call cfg (ces 0%nat) st (CallDirect false false (u32 (v + SIMM opcode)) (ldop_size o))) env.
Proof.
  intros Hv. unfold gen_qemu_ld. unfold mbind, C_bind, write_gpr, modify.
  by apply imm_direct.
Qed.

Lemma addr_imm_run opcode env v :
  rA opcode <> 0 -> gpr env !! Z.to_nat (rA opcode) = Some v ->
  gen_addr_imm_index opcode env = Done (u32 (v + SIMM opcode), env).
Proof.
  intros H0 Hv. unfold gen_addr_imm_index. rewrite (proj2 (Z.eqb_neq _ _) H0).
  by rewrite (bind_step _ _ _ _ _ (read_rA _ _ _ Hv)).
Qed.

(** A load or store with an immediate offset, with a base register other than r0
    that the load does not overwrite, is traced with its effective address: the hook
    makes the load, then the call of the helper at that address and of the size of the
    access. *)
Theorem ppc_immediate_address cfg ces st mem (o : ldop) (o' : stop) opcode env v :
  rA opcode <> 0 -> rA opcode <> rD opcode -> gpr env !! Z.to_nat (rA opcode) = Some v ->
  let ea := u32 (v + SIMM opcode) in
  gen_addr_imm_index opcode env = Done (ea, env) /\
  GEN_LD cfg ces st mem o opcode env =
    (write_gpr (rD opcode) (u32 (mem (ldop_size o) ea));;
     run_call cfg (ces 0%nat) st (CallDirect false false ea (ldop_size o))) env /\
  GEN_ST cfg ces st o' opcode env =
    run_call cfg (ces 0%nat) st (CallDirect true false ea (stop_size o')) env.
Proof.
  intros H0 Hd Hv ea. pose proof (addr_imm_run opcode env v H0 Hv) as Ha. split; [done|]. split.
  - unfold GEN_LD. rewrite (bind_step _ _ _ _ _ Ha). apply load_run. rewrite list_lookup_insert_ne; [done|].
    pose proof (rA_nonneg opcode) as Hn. pose proof (rA_nonneg (Z.shiftr opcode 5)) as Hn'.
    intros E. apply Hd. apply Z2Nat.inj in E; [done| |lia].
    unfold rA, rD, extract in *. rewrite Z.shiftr_shiftr in Hn' by lia. change (5 + 16) with 21 in Hn'. lia.
  - unfold GEN_ST. rewrite (bind_step _ _ _ _ _ Ha). by apply imm_direct.
Qed.

(** [lwz r3, 4(r1)]. *)
Definition lwz_r3_r1 : Z := 0x80610004.

Lemma ppc_immediate_address_witness :
  gen_addr_imm_index lwz_r3_r1 (ppc_env POWERPC_MMU_BOOKE206 0 [])
    = Done (0x238, ppc_env POWERPC_MMU_BOOKE206 0 []).
Proof.
  apply (ppc_immediate_address (cfg_small true false) (fun _ => ce_junk) 1 (fun _ _ => 0) ld32u st32
    lwz_r3_r1 (ppc_env POWERPC_MMU_BOOKE206 0 []) 0x234); [discriminate|discriminate|reflexivity].
Defined.



(** ** Stores of several words *)

(** The calls for [n] words and [nb] more bytes from [addr] on. *)
Definition word_calls (n : nat) (addr : Z) : list ppc_call :=
  map (fun i => CallDirect true false (u32 (addr + 4 * Z.of_nat i)) 4) (seq 0 n).
Definition byte_calls (nb : nat) (addr : Z) : list ppc_call :=
  map (fun i => CallDirect true false (u32 (addr + Z.of_nat i)) 4) (seq 0 nb).

Lemma map_seq_shift {T} (f g : nat -> T) n :
  (forall i, f (S i) = g i) -> map f (seq 0 (S n)) = f 0%nat :: map g (seq 0 n).
Proof.
  intros H. cbn. f_equal. rewrite <- seq_shift, map_map. apply map_ext. intros i. apply H.
Qed.

Lemma word_calls_cons n addr :
  0 <= addr < 2 ^ 32 ->
  word_calls (S n) addr = CallDirect true false addr 4 :: word_calls n (addr_add addr 4).
Proof.
  intros Ha. unfold word_calls.
  rewrite (map_seq_shift _ (fun i => CallDirect true false (u32 (addr_add addr 4 + 4 * Z.of_nat i)) 4)).
  - by rewrite Z.mul_0_r, Z.add_0_r, wrap_small.
  - intros i. unfold addr_add. f_equal. unfold u32, wrap. rewrite Zplus_mod_idemp_l. f_equal. lia.
Qed.

Lemma byte_calls_cons n addr :
  0 <= addr < 2 ^ 32 ->
  byte_calls (S n) addr = CallDirect true false addr 4 :: byte_calls n (addr_add addr 1).
Proof.
  intros Ha. unfold byte_calls.
  rewrite (map_seq_shift _ (fun i => CallDirect true false (u32 (addr_add addr 1 + Z.of_nat i)) 4)).
  - by rewrite Z.add_0_r, wrap_small.
  - intros i. unfold addr_add. f_equal. unfold u32, wrap. rewrite Zplus_mod_idemp_l. f_equal. lia.
Qed.

Lemma addr_add_range addr n : 0 <= addr_add addr n < 2 ^ 32.
Proof. apply wrap_range. lia. Qed.

Section stores.
Context (cfg : config) (ces : nat -> call_env) (st : Z).

Lemma stmw_calls n : forall k addr env, 0 <= addr < 2 ^ 32 ->
  stmw_loop cfg ces st n k addr env = run_calls cfg ces st k (word_calls n addr) env.
Proof.
  induction n as [|n IH]; intros k addr env Ha; [done|]. rewrite word_calls_cons by done.
  cbn [stmw_loop run_calls]. apply bind_congr; [done|]. intros ops s1. apply bind_congr; [|done].
  apply IH, addr_add_range.
Qed.

Lemma stsw_tail_calls n : forall k addr env, 0 <= addr < 2 ^ 32 ->
  stsw_tail cfg ces st n k addr env = run_calls cfg ces st k (byte_calls n addr) env.
Proof.
  induction n as [|n IH]; intros k addr env Ha; [done|]. rewrite byte_calls_cons by done.
  cbn [stsw_tail run_calls]. apply bind_congr; [done|]. intros ops s1. apply bind_congr; [|done].
  apply IH, addr_add_range.
Qed.

Lemma stsw_words_calls nb n : forall k addr env, 0 <= addr < 2 ^ 32 ->
  stsw_words cfg ces st n nb k addr env =
  run_calls cfg ces st k (word_calls n addr ++ byte_calls nb (u32 (addr + 4 * Z.of_nat n))) env.
Proof.
  induction n as [|n IH]; intros k addr env Ha.
  - cbn [stsw_words word_calls seq map app]. rewrite Z.mul_0_r, Z.add_0_r, wrap_small by done.
    by apply stsw_tail_calls.
  - rewrite word_calls_cons by done. cbn [stsw_words app run_calls]. apply bind_congr; [done|].
    intros ops s1. apply bind_congr; [|done]. rewrite IH by apply addr_add_range.
    do 3 f_equal. unfold addr_add, u32, wrap. rewrite Zplus_mod_idemp_l. f_equal. lia.
Qed.
End stores.

(** A store of several registers makes one call per word, at consecutive addresses
    (modulo 2^32), up to r31; a store of a string of [nb] bytes makes one call per full
    word and one per byte of the rest, each of them with the size of a word. *)
Theorem ppc_multiple_stores cfg ces st addr reg nb env :
  0 <= addr < 2 ^ 32 -> 0 <= nb ->
  helper_stmw cfg ces st addr reg env =
    run_calls cfg ces st 0 (word_calls (Z.to_nat (32 - reg)) addr) env /\
  helper_stsw cfg ces st addr nb env =
    run_calls cfg ces st 0 (word_calls (Z.to_nat (nb / 4)) addr ++
      byte_calls (Z.to_nat (nb mod 4)) (u32 (addr + 4 * (nb / 4)))) env.
Proof.
  intros Ha Hnb. split; [by apply stmw_calls|]. unfold helper_stsw. rewrite stsw_words_calls by done.
  by rewrite Z2Nat.id by (apply Z.div_pos; lia).
Qed.

Lemma ppc_multiple_stores_witness :
  let env := ppc_env POWERPC_MMU_BOOKE206 0 [] in
  helper_stsw (cfg_small true false) (fun _ => ce_junk) 1 0xFFFFFFFE 5 env =
  run_calls (cfg_small true false) (fun _ => ce_junk) 1 0
    [CallDirect true false 0xFFFFFFFE 4; CallDirect true false 2 4] env.
Proof.
  intros env.
  apply (ppc_multiple_stores (cfg_small true false) (fun _ => ce_junk) 1 0xFFFFFFFE 30 5 env); lia.
Defined.

(** ** Accesses recorded as something else *)

Definition silent (m : P (list op)) : Prop := forall s l s', m s = Done (l, s') -> l = [].

Lemma silent_nil : silent (mret []).
Proof. intros s l s' H. by apply ret_Done in H as [-> _]. Qed.

Lemma silent_bind {T} (m : P T) k : (forall a, silent (k a)) -> silent (m ≫= k).
Proof. intros Hk s l s' H. apply bind_Done in H as (a & s1 & _ & H). by eapply Hk. Qed.

Lemma silent_after {T} m (m' : P T) : silent m -> silent (ops ← m; m';; mret ops).
Proof.
  intros Hm s l s' H. apply bind_Done in H as (l1 & s1 & H1 & H).
  apply bind_Done in H as (x & s2 & _ & H). apply ret_Done in H as [-> _]. by eapply Hm.
Qed.

Lemma single_unrecorded cfg ces st unit form opcode :
  silent (gen_float cfg ces st unit (F_load form ld32fs) opcode) /\
  silent (gen_float cfg ces st unit (F_store form st32fs) opcode).
Proof.
  split; cbn [gen_float]; repeat case_match;
    unfold GEN_LDF, GEN_LDUF, GEN_LDUXF, GEN_LDXF, GEN_STF, GEN_STUF, GEN_STUXF, GEN_STXF, enabled,
      gen_qemu_fld, gen_qemu_fst;
    repeat first [apply silent_nil | case_match | apply silent_after | apply silent_bind; intros ?].
Qed.

(** Two kinds of accesses are recorded as something else.  An atomic store, whose
    address is its base register and whose third field is the function code, is recorded
    as a load, at the sum of the base register and the register the function code
    names.  The loads and stores of single precision make no record, in any form. *)
Theorem ppc_misrecorded_accesses cfg ces st opcode size env v b pa info env' :
  QEM_TRACE_GATHER_META cfg = true -> bit_any st QEM_TRACE_DTRACE = true ->
  0 <= ppc_cpu_index env' < 2 ^ 32 -> rA opcode <> 0 ->
  gpr env !! Z.to_nat (rA opcode) = Some v -> gpr env !! Z.to_nat (FC opcode) = Some b ->
  qem_ppc_get_info_addr_mem_trace cfg (ce_ctx (ces 0%nat)) (ce_wt (ces 0%nat)) (u32 (v + b)) ACCESS_INT env
    = Done ((pa, info), env') ->
  gen_addr_register opcode env = Done (v, env) /\
  (exists time flg,
    gen_st_atomic cfg ces st opcode size env
      = Done ([OpOutput (u32 (v + b)) pa (ppc_cpu_index env') time flg], env') /\
    acc_write (decode (def_of cfg) (flags (new_trace cfg pa (ppc_cpu_index env') time flg))) = false) /\
  forall unit form ops env1,
    (gen_float cfg ces st unit (F_load form ld32fs) opcode env = Done (ops, env1) -> ops = []) /\
    (gen_float cfg ces st unit (F_store form st32fs) opcode env = Done (ops, env1) -> ops = []).
Proof.
  intros Hm Hst Hc H0 Hv Hb Ht.
  assert (Hr : gen_addr_register opcode env = Done (v, env)).
  { unfold gen_addr_register. rewrite (proj2 (Z.eqb_neq _ _) H0). by apply read_rA. }
  split; [done|]. split; [|intros unit form ops env1; split; apply single_unrecorded].
  assert (Ha : call_addr (CallTrad false false (rA opcode) (rB opcode) size) env = Done (Some (u32 (v + b)), env)).
  { cbn [call_addr]. unfold addr_regs, entry. rewrite (bind_step _ _ _ (u32 (v + b)) env); [done|].
    rewrite run_gets, rA_nonneg, Hv, rB_nonneg. unfold rB. fold (FC opcode). by rewrite Hb. }
  pose proof (call_run cfg (ces 0%nat) st (CallTrad false false (rA opcode) (rB opcode) size) env _ pa info env'
    Hm Hst I Ha Ht) as Hrun.
  do 2 eexists. split.
  - unfold gen_st_atomic. rewrite (bind_step _ _ _ _ _ Hr). cbn [run_calls].
    rewrite (bind_step _ _ _ _ _ Hrun). reflexivity.
  - by rewrite (proj1 (new_trace_decode cfg pa _ _ _ Hm Hc)).
Qed.

(** [stwat] of r3 at r1, function code 0: the address is 0x234, the record is of 0x1234. *)
Lemma ppc_misrecorded_accesses_witness :
  let env := ppc_env POWERPC_MMU_BOOKE206 0 [] in
  exists pa time flg env',
    gen_addr_register 0x7C61058C env = Done (0x234, env) /\
    gen_st_atomic (cfg_small true false) (fun _ => ce_junk) 1 0x7C61058C 4 env
      = Done ([OpOutput 0x1234 pa 3 time flg], env').
Proof.
  intros env.
  destruct (qem_ppc_get_info_addr_mem_trace (cfg_small true false) ctx_junk 5 0x1234 ACCESS_INT env)
    as [[[pa info] env']| |] eqn:Ht; [|vm_compute in Ht; discriminate Ht..].
  assert (Hi : ppc_cpu_index env' = 3).
  { apply (f_equal (fun o => match o with Done (_, e) => ppc_cpu_index e | _ => 0 end)) in Ht.
    rewrite <- Ht. vm_compute. reflexivity. }
  destruct (ppc_misrecorded_accesses (cfg_small true false) (fun _ => ce_junk) 1 0x7C61058C 4 env 0x234 0x1000
    pa info env') as (Ha & (time & flg & Hrun & _) & _);
    [reflexivity|reflexivity|rewrite Hi; lia|discriminate|reflexivity|reflexivity|exact Ht|].
  rewrite Hi in Hrun. exists pa, time, flg, env'. split; [exact Ha|exact Hrun].
Defined.
