(* ===== verification/TraceText.v ===== *)
(** * The text of a record, as the reading programs print it

    [Tests/bin_to_str.cpp] and [Tests/*/test_smi_client.c] each carry a copy of the
    constants of [qem_trace_def.h] and print a record in the same three steps: the
    prefix of the event, [ST] or [LD], and a line with the address, the core, the
    time and a letter per field.  The copy agrees with the tracer's constants, and
    the text of a 32-bit record determines the record.  The code [bin_to_str.cpp]
    has for 64-bit records tests the fields differently, and loses some. *)

From S2P Require Import Prelude Bits TraceDef Trace Stdio PrintBackend.

(** ** Definitions *)

(** The [MEM_TRACE_*] constants of the reading programs. *)
Definition mem_trace_def : trace_def := {|
  QEM_TRACE_ACCESS_TYPE_READ := 0x00000000;
  QEM_TRACE_ACCESS_TYPE_WRITE := 0x00000100;
  QEM_TRACE_ACCESS_TYPE_MASK := 0x00000100;
  QEM_TRACE_DATA_TYPE_DATA := 0x00000000;
  QEM_TRACE_DATA_TYPE_INST := 0x00000200;
  QEM_TRACE_DATA_TYPE_MASK := 0x00000200;
  QEM_TRACE_PL_KERNEL := 0x00000000;
  QEM_TRACE_PL_USER := 0x00000400;
  QEM_TRACE_PL_E_MASK := 0x00000400;
  QEM_TRACE_EVENT_ACCESS := 0x00000000;
  QEM_TRACE_EVENT_FLUSH := 0x00000800;
  QEM_TRACE_EVENT_INVALIDATE := 0x00001000;
  QEM_TRACE_EVENT_LOCK := 0x00002000;
  QEM_TRACE_EVENT_UNLOCK := 0x00002800;
  QEM_TRACE_EVENT_PREFETCH := 0x00003000;
  QEM_TRACE_EVENT_DCBZ := 0x00003800;
  QEM_TRACE_EVENT_MASK := 0x00003800;
  QEM_TRACE_GRANULARITY_LINE := 0x00000000;
  QEM_TRACE_GRANULARITY_SET := 0x00004000;
  QEM_TRACE_GRANULARITY_WAY := 0x00008000;
  QEM_TRACE_GRANULARITY_GLOBAL := 0x0000C000;
  QEM_TRACE_GRANULARITY_NONE := 0x00000000;
  QEM_TRACE_GRANULARITY_MASK := 0x0000C000;
  QEM_TRACE_DATA_SIZE_8_BITS := 0x00000000;
  QEM_TRACE_DATA_SIZE_16_BITS := 0x00010000;
  QEM_TRACE_DATA_SIZE_32_BITS := 0x00020000;
  QEM_TRACE_DATA_SIZE_64_BITS := 0x00030000;
  QEM_TRACE_DATA_SIZE_MASK := 0x00030000;
  QEM_TRACE_COHERENCY_NON_REQ := 0x00000000;
  QEM_TRACE_COHERENCY_REQ := 0x00040000;
  QEM_TRACE_COHERENCY_MASK := 0x00040000;
  QEM_TRACE_CACHE_LEVEL_1 := 0x00000000;
  QEM_TRACE_CACHE_LEVEL_2 := 0x00080000;
  QEM_TRACE_CACHE_LEVEL_3 := 0x00100000;
  QEM_TRACE_CACHE_LEVEL_ALL := 0x00180000;
  QEM_TRACE_CACHE_LEVEL_MASK := 0x00180000;
  QEM_TRACE_CACHE_INHIBIT_OFF := 0x00000000;
  QEM_TRACE_CACHE_INHIBIT_ON := 0x00200000;
  QEM_TRACE_CACHE_INHIBIT_MASK := 0x00200000;
  QEM_TRACE_CACHE_WT_OFF := 0x00000000;
  QEM_TRACE_CACHE_WT_ON := 0x00400000;
  QEM_TRACE_CACHE_WT_MASK := 0x00400000;
  QEM_TRACE_EVENT_NON_EXCLUSIVE := 0x00000000;
  QEM_TRACE_EVENT_EXCLUSIVE := 0x00800000;
  QEM_TRACE_EVENT_EXCLUSIVE_MASK := 0x00800000
|}.

(** *** Records of 32 bits *)

(** The nested conditional of the first [printf]; the lock is tested with its own
    bits as mask. *)
Definition w_prefix (flg : Z) : string :=
  let d := mem_trace_def in
  let ev := bits_eq flg d.(QEM_TRACE_EVENT_MASK) in
  if ev d.(QEM_TRACE_EVENT_DCBZ) then "D "
  else if ev d.(QEM_TRACE_EVENT_PREFETCH) then "P "
  else if ev d.(QEM_TRACE_EVENT_UNLOCK) then "U "
  else if bits_eq flg d.(QEM_TRACE_EVENT_LOCK) d.(QEM_TRACE_EVENT_LOCK) then "L "
  else if ev (Z.lor d.(QEM_TRACE_EVENT_INVALIDATE) d.(QEM_TRACE_EVENT_FLUSH)) then "FL/INV "
  else if ev d.(QEM_TRACE_EVENT_INVALIDATE) then "INV "
  else if ev d.(QEM_TRACE_EVENT_FLUSH) then "FL "
  else if bit_any flg d.(QEM_TRACE_DATA_TYPE_INST) then "I " else "D ".

Definition st_ld (flg : Z) : string :=
  if bit_any flg mem_trace_def.(QEM_TRACE_ACCESS_TYPE_WRITE) then "ST " else "LD ".

(** The character arguments of the last [printf], in order. *)
Definition w_letters (flg : Z) : list ascii :=
  let d := mem_trace_def in
  let flag m (t f : ascii) := if bit_any flg m then t else f in
  let ev := bits_eq flg d.(QEM_TRACE_EVENT_MASK) in
  let gr := bits_eq flg d.(QEM_TRACE_GRANULARITY_MASK) in
  let sz := bits_eq flg d.(QEM_TRACE_DATA_SIZE_MASK) in
  let lv := bits_eq flg d.(QEM_TRACE_CACHE_LEVEL_MASK) in
  [flag d.(QEM_TRACE_ACCESS_TYPE_WRITE) "W" "R";
   flag d.(QEM_TRACE_DATA_TYPE_INST) "I" "D";
   flag d.(QEM_TRACE_PL_USER) "U" "K";
   if ev d.(QEM_TRACE_EVENT_DCBZ) then "D"
   else if ev d.(QEM_TRACE_EVENT_PREFETCH) then "P"
   else if ev d.(QEM_TRACE_EVENT_UNLOCK) then "U"
   else if ev d.(QEM_TRACE_EVENT_LOCK) then "L"
   else if ev (Z.lor d.(QEM_TRACE_EVENT_INVALIDATE) d.(QEM_TRACE_EVENT_FLUSH)) then "B"
   else if ev d.(QEM_TRACE_EVENT_INVALIDATE) then "I"
   else if ev d.(QEM_TRACE_EVENT_FLUSH) then "F" else "A";
   if gr d.(QEM_TRACE_GRANULARITY_SET) then "S"
   else if gr d.(QEM_TRACE_GRANULARITY_WAY) then "W"
   else if gr d.(QEM_TRACE_GRANULARITY_GLOBAL) then "G" else "L";
   if sz d.(QEM_TRACE_DATA_SIZE_16_BITS) then "H"
   else if sz d.(QEM_TRACE_DATA_SIZE_32_BITS) then "W"
   else if sz d.(QEM_TRACE_DATA_SIZE_64_BITS) then "D" else "B";
   flag d.(QEM_TRACE_COHERENCY_REQ) "Y" "N";
   if lv d.(QEM_TRACE_CACHE_LEVEL_ALL) then "A"
   else if lv d.(QEM_TRACE_CACHE_LEVEL_3) then "3"
   else if lv d.(QEM_TRACE_CACHE_LEVEL_2) then "2" else "1";
   flag d.(QEM_TRACE_CACHE_INHIBIT_ON) "Y" "N";
   flag d.(QEM_TRACE_CACHE_WT_ON) "E" "D";
   flag d.(QEM_TRACE_EVENT_EXCLUSIVE) "Y" "N"]%char.

(** The last [printf]: the arguments are a [uint32_t], the low byte of the flags
    and a [uint64_t]. *)
Definition w_line (t : qem_trace_t) : string :=
  ("| P 0x" +:+ fmt_08x (address t) +:+ " | Core " +:+ fmt_d (Z.land (flags t) 0xFF) +:+
   " | Time " +:+ fmt_u (timestamp t) +:+ labelled labels (w_letters (flags t)))%string.

(** What is printed for a record, last first. *)
Definition record_text (t : qem_trace_t) : list string :=
  [w_line t; st_ld (flags t); w_prefix (flags t)].

(** *** Records of 64 bits

    Here every code is its own mask. *)
Definition l_prefix (flg : Z) : string :=
  let d := mem_trace_def in
  let has m := bits_eq flg m m in
  if has d.(QEM_TRACE_EVENT_DCBZ) then "D "
  else if has d.(QEM_TRACE_EVENT_PREFETCH) then "P "
  else if has d.(QEM_TRACE_EVENT_UNLOCK) then "U "
  else if has d.(QEM_TRACE_EVENT_LOCK) then "L "
  else if has (Z.lor d.(QEM_TRACE_EVENT_INVALIDATE) d.(QEM_TRACE_EVENT_FLUSH)) then "FL/INV "
  else if has d.(QEM_TRACE_EVENT_INVALIDATE) then "INV "
  else if has d.(QEM_TRACE_EVENT_FLUSH) then "FL "
  else if bit_any flg d.(QEM_TRACE_DATA_TYPE_INST) then "I " else "D ".

Definition l_letters (flg : Z) : list ascii :=
  let d := mem_trace_def in
  let flag m (t f : ascii) := if bit_any flg m then t else f in
  let has m := bits_eq flg m m in
  [flag d.(QEM_TRACE_ACCESS_TYPE_WRITE) "W" "R";
   flag d.(QEM_TRACE_DATA_TYPE_INST) "I" "D";
   flag d.(QEM_TRACE_PL_USER) "U" "K";
   if has d.(QEM_TRACE_EVENT_DCBZ) then "D"
   else if has d.(QEM_TRACE_EVENT_PREFETCH) then "P"
   else if has d.(QEM_TRACE_EVENT_UNLOCK) then "U"
   else if has d.(QEM_TRACE_EVENT_LOCK) then "L"
   else if has (Z.lor d.(QEM_TRACE_EVENT_INVALIDATE) d.(QEM_TRACE_EVENT_FLUSH)) then "B"
   else if has d.(QEM_TRACE_EVENT_INVALIDATE) then "I"
   else if has d.(QEM_TRACE_EVENT_FLUSH) then "F" else "A";
   if has d.(QEM_TRACE_GRANULARITY_SET) then "S"
   else if has d.(QEM_TRACE_GRANULARITY_WAY) then "W"
   else if has d.(QEM_TRACE_GRANULARITY_GLOBAL) then "G" else "L";
   if has d.(QEM_TRACE_DATA_SIZE_16_BITS) then "H"
   else if has d.(QEM_TRACE_DATA_SIZE_32_BITS) then "W"
   else if has d.(QEM_TRACE_DATA_SIZE_64_BITS) then "D" else "B";
   flag d.(QEM_TRACE_COHERENCY_REQ) "Y" "N";
   if has d.(QEM_TRACE_CACHE_LEVEL_ALL) then "A"
   else if has d.(QEM_TRACE_CACHE_LEVEL_3) then "3"
   else if has d.(QEM_TRACE_CACHE_LEVEL_2) then "2" else "1";
   flag d.(QEM_TRACE_CACHE_INHIBIT_ON) "Y" "N";
   flag d.(QEM_TRACE_CACHE_WT_ON) "E" "D";
   flag d.(QEM_TRACE_EVENT_EXCLUSIVE) "Y" "N"]%char.

(** ** The constants agree *)

Lemma mem_trace_def_meta : mem_trace_def = qem_trace_def_meta.
Proof. reflexivity. Qed.

Lemma w_letters_decode flg : w_letters flg = access_letters (decode qem_trace_def_meta flg).
Proof. exact (letters_decode (cfg_small true false) flg). Qed.

(** The access whose letters the 64-bit code prints: the codes with both bits of a
    two-bit field are taken for the code of the low bit, which is tested first. *)
Definition narrowed (a : access) : access := {|
  acc_write := acc_write a; acc_inst := acc_inst a; acc_user := acc_user a;
  acc_event := acc_event a;
  acc_granularity := match acc_granularity a with GrGlobal => GrSet | g => g end;
  acc_size := match acc_size a with Size64 => Size16 | z => z end;
  acc_coherency := acc_coherency a; acc_level := acc_level a; acc_inhibit := acc_inhibit a;
  acc_wt := acc_wt a; acc_exclusive := acc_exclusive a
|}.

(** A comparison of the part of a word in one field, by the values of the field. *)
Lemma land_in_field o n w m :
  0 <= o -> 0 <= n -> Z.land (Z.shiftl (Z.ones n) o) m = m ->
  Z.land w m = Z.land (Z.shiftl (field o n w) o) m.
Proof. intros Ho Hn Hm. by rewrite <- land_mask, <- Z.land_assoc, Hm. Qed.

Ltac by_field o n k w :=
  unfold bits_eq, bit_any;
  repeat match goal with
  | |- context [Z.land w ?m] => rewrite (land_in_field o n w m) by (lia || reflexivity)
  end;
  let Hk := fresh "Hk" in
  pose proof (field_range o n w ltac:(lia)) as Hk;
  generalize dependent (field o n w); intros ? Hk; below_cases k Hk; reflexivity.

Lemma w_prefix_decode w :
  let a := decode qem_trace_def_meta w in w_prefix w = event_text (acc_event a) (acc_inst a).
Proof.
  cbv zeta. cbn [acc_event acc_inst decode]. unfold w_prefix, decode_event. rewrite mem_trace_def_meta.
  generalize (bit_any w (QEM_TRACE_DATA_TYPE_INST qem_trace_def_meta)) as i. intros i.
  by_field 11 3 8%nat w.
Qed.

Lemma l_letters_decode w : l_letters w = access_letters (narrowed (decode qem_trace_def_meta w)).
Proof.
  unfold narrowed, access_letters, l_letters, decode. cbn.
  repeat (apply (f_equal2 cons); [|]); try reflexivity.
  - unfold decode_event. by_field 11 3 8%nat w.
  - unfold decode_gran. by_field 14 2 4%nat w.
  - unfold decode_size. by_field 16 2 4%nat w.
  - unfold decode_level. by_field 19 2 4%nat w.
Qed.

(** The codes of the decoded fields are the parts of the word. *)
Lemma encode_decode_meta w :
  encode qem_trace_def_meta (decode qem_trace_def_meta w) = Z.land w field_mask.
Proof.
  assert (H : Z.land w field_mask = (w .& 0x100 .| w .& 0x200 .| w .& 0x400 .| w .& 0x3800
    .| w .& 0xC000 .| w .& 0x30000 .| w .& 0x40000 .| w .& 0x180000 .| w .& 0x200000
    .| w .& 0x400000 .| w .& 0x800000)%c) by (by rewrite <- !Z.land_lor_distr_r).
  rewrite H. unfold encode, decode. cbn [acc_write acc_inst acc_user acc_event acc_granularity
    acc_size acc_coherency acc_level acc_inhibit acc_wt acc_exclusive].
  repeat f_equal.
  - by_field 8 1 2%nat w.
  - by_field 9 1 2%nat w.
  - by_field 10 1 2%nat w.
  - unfold decode_event. by_field 11 3 8%nat w.
  - unfold decode_gran. by_field 14 2 4%nat w.
  - unfold decode_size. by_field 16 2 4%nat w.
  - by_field 18 1 2%nat w.
  - unfold decode_level. by_field 19 2 4%nat w.
  - by_field 21 1 2%nat w.
  - by_field 22 1 2%nat w.
  - by_field 23 1 2%nat w.
Qed.

(** ** The text determines the record *)

Lemma string_app_inj s1 s2 t1 t2 :
  String.length s1 = String.length s2 -> s1 +:+ t1 = s2 +:+ t2 -> s1 = s2 /\ t1 = t2.
Proof.
  revert s2. induction s1 as [|c s1 IH]; intros [|c2 s2] Hl He; try discriminate; [done|].
  cbn [String.append] in He. injection He as -> He. cbn in Hl.
  destruct (IH s2 ltac:(lia) He) as [-> ->]. done.
Qed.

Lemma string_app_cancel s t1 t2 : s +:+ t1 = s +:+ t2 -> t1 = t2.
Proof. by intros [_ ?]%string_app_inj. Qed.

Definition is_digit (c : ascii) : bool := (48 <=? nat_of_ascii c)%nat && (nat_of_ascii c <=? 57)%nat.

Fixpoint all_digits (s : string) : bool :=
  match s with EmptyString => true | String c s => is_digit c && all_digits s end.

(** A number is separated from what follows it by the first non-digit. *)
Lemma digits_app_inj s1 s2 c t1 t2 :
  all_digits s1 = true -> all_digits s2 = true -> is_digit c = false ->
  s1 +:+ String c t1 = s2 +:+ String c t2 -> s1 = s2 /\ t1 = t2.
Proof.
  revert s2. induction s1 as [|a s1 IH]; intros [|b s2] H1 H2 Hc He; cbn [String.append] in He.
  - injection He as ->. done.
  - injection He as -> _. cbn in H2. by rewrite Hc in H2.
  - injection He as -> _. cbn in H1. by rewrite Hc in H1.
  - injection He as -> He. cbn in H1, H2. apply andb_prop in H1 as [_ H1], H2 as [_ H2].
    by destruct (IH s2 H1 H2 Hc He) as [-> ->].
Qed.

Lemma is_digit_digit n : 0 <= n < 10 -> is_digit (digit n) = true.
Proof.
  intros. unfold is_digit, digit. rewrite nat_ascii_embedding by lia.
  apply andb_true_intro. rewrite !Nat.leb_le. lia.
Qed.

Lemma all_digits_dec fuel n acc : all_digits acc = true -> all_digits (dec_digits fuel n acc) = true.
Proof.
  revert n acc. induction fuel as [|fuel IH]; intros n acc Ha; [done|]. cbn [dec_digits].
  pose proof (Z.mod_pos_bound n 10 eq_refl).
  assert (all_digits (String (digit (n mod 10)) acc) = true)
    by (cbn; by rewrite is_digit_digit).
  destruct (n / 10 =? 0); auto.
Qed.

Lemma fmt_u_inj m n : 0 <= m < 2 ^ 64 -> 0 <= n < 2 ^ 64 -> fmt_u m = fmt_u n -> m = n.
Proof.
  intros Hm Hn He. apply (f_equal (parse_digits 0)) in He. unfold fmt_u in He.
  by rewrite !parse_dec_digits in He by (change (10 ^ Z.of_nat 20) with (10 ^ 20); lia).
Qed.

Lemma fmt_u_app_inj m n c t1 t2 :
  0 <= m < 2 ^ 64 -> 0 <= n < 2 ^ 64 -> is_digit c = false ->
  fmt_u m +:+ String c t1 = fmt_u n +:+ String c t2 -> m = n /\ t1 = t2.
Proof.
  intros Hm Hn Hc [He ->]%digits_app_inj; try done; try by apply all_digits_dec.
  split; [|done]. by apply fmt_u_inj.
Qed.

Lemma length_fmt_08x n : String.length (fmt_08x n) = 8%nat.
Proof. reflexivity. Qed.

Lemma hex_digit_inj m n : 0 <= m < 16 -> 0 <= n < 16 -> hex_digit m = hex_digit n -> m = n.
Proof.
  intros Hm Hn. below_cases 16%nat Hm; below_cases 16%nat Hn; vm_compute; (reflexivity || discriminate).
Qed.

Lemma nibble_range n i : 0 <= Z.land (Z.shiftr n i) 15 < 16.
Proof. apply (field_range i 4 n). lia. Qed.

Lemma fmt_08x_inj m n :
  0 <= m < 2 ^ 32 -> 0 <= n < 2 ^ 32 -> fmt_08x m = fmt_08x n -> m = n.
Proof.
  intros Hm Hn He. unfold fmt_08x in He. cbn [foldr] in He.
  injection He as H7 H6 H5 H4 H3 H2 H1 H0.
  apply hex_digit_inj in H7, H6, H5, H4, H3, H2, H1, H0; try apply nibble_range.
  assert (Hj : forall j, 0 <= j < 8 -> field (4 * j) 4 m = field (4 * j) 4 n).
  { intros j Hj. unfold field. change (Z.ones 4) with 15. below_cases 8%nat Hj; assumption. }
  apply Z.bits_inj'. intros i Hi. destruct (Z.lt_ge_cases i 32).
  - pose proof (Z.div_mod i 4 ltac:(lia)). pose proof (Z.mod_pos_bound i 4 ltac:(lia)).
    assert (Hb : forall w, Z.testbit w i = Z.testbit (field (4 * (i / 4)) 4 w) (i mod 4)).
    { intros w. rewrite testbit_field by lia. rewrite (proj2 (Z.leb_le _ _)), (proj2 (Z.ltb_lt _ _)) by lia.
      cbn [andb]. f_equal. lia. }
    rewrite !Hb, Hj; [done|]. split; [apply Z.div_pos; lia|apply Z.div_lt_upper_bound; lia].
  - by rewrite !(testbit_above 32).
Qed.

Lemma labelled_inj ls cs cs' :
  length cs = length ls -> length cs' = length ls -> labelled ls cs = labelled ls cs' -> cs = cs'.
Proof.
  revert cs cs'. induction ls as [|l ls IH]; intros [|c cs] [|c' cs'] H H' He; try discriminate; [done|].
  cbn [labelled] in He. apply string_app_cancel in He. injection He as -> He.
  f_equal. apply IH; [cbn in *; lia..|done].
Qed.

(** The flag words the tracer produces: a core and an access. *)
Lemma flags_inj f g :
  0 <= f < 2 ^ 24 -> 0 <= g < 2 ^ 24 -> Z.land f 0xFF = Z.land g 0xFF ->
  decode qem_trace_def_meta f = decode qem_trace_def_meta g -> f = g.
Proof.
  intros Hf Hg Hc Hd. apply (f_equal (encode qem_trace_def_meta)) in Hd.
  rewrite !encode_decode_meta in Hd.
  assert (H : forall w, 0 <= w < 2 ^ 24 -> w = Z.lor (Z.land w 0xFF) (Z.land w field_mask)).
  { intros w Hw. rewrite <- Z.land_lor_distr_r. change (Z.lor 0xFF field_mask) with (Z.ones 24).
    rewrite Z.land_ones by lia. by rewrite Z.mod_small. }
  by rewrite (H f Hf), (H g Hg), Hc, Hd.
Qed.

(** A 32-bit record whose flags are those of the tracer. *)
Definition text_ok (t : qem_trace_t) : Prop :=
  0 <= address t < 2 ^ 32 /\ 0 <= timestamp t < 2 ^ 64 /\ 0 <= flags t < 2 ^ 24.

Lemma w_line_inj t u : text_ok t -> text_ok u -> w_line t = w_line u -> t = u.
Proof.
  destruct t as [a ti f], u as [b tj g]. intros (Ha & Hti & Hf) (Hb & Htj & Hg). cbn in *.
  assert (Hr : forall w, 0 <= Z.land w 0xFF < 2 ^ 64).
  { intros w. pose proof (field_range 0 8 w ltac:(lia)) as Hw. unfold field in Hw.
    rewrite Z.shiftr_0_r in Hw. change (Z.ones 8) with 0xFF in Hw. lia. }
  unfold w_line, fmt_d. cbn [address timestamp flags].
  rewrite !(proj2 (Z.ltb_ge _ 0)) by apply Hr.
  intros He%string_app_cancel.
  apply string_app_inj in He as [Hx He]; [|by rewrite !length_fmt_08x].
  apply fmt_08x_inj in Hx; [|done..].
  apply string_app_cancel in He.
  apply fmt_u_app_inj in He as [Hc He]; [|apply Hr..|reflexivity].
  apply (string_app_cancel "| Time ") in He.
  apply fmt_u_app_inj in He as [Ht He]; [|done..|reflexivity].
  assert (Hl : labelled labels (w_letters f) = labelled labels (w_letters g))
    by exact (f_equal (String " "%char) He).
  apply labelled_inj in Hl; [|reflexivity..]. clear He. rename Hl into He.
  rewrite !w_letters_decode in He. apply access_letters_inj in He.
  f_equal; [done..|]. by apply flags_inj.
Qed.

Lemma new_trace_text_ok cfg phys core time a :
  QEM_TRACE_GATHER_META cfg = true -> QEM_TRACE_TARGET_64 cfg = false ->
  text_ok (new_trace cfg phys core time (encode (def_of cfg) a)).
Proof.
  intros Hm Ht. pose proof (new_trace_ok cfg phys core time (encode (def_of cfg) a)) as Hok.
  unfold trace_ok, addr_size in Hok. rewrite Hm, Ht in Hok. destruct Hok as (Ha & Hti & Hf).
  split; [exact Ha|]. split; [exact Hti|].
  unfold new_trace, def_of. rewrite Hm. cbn [flags].
  rewrite (wrap_small 32 (encode _ _)) by apply encode_meta_range.
  rewrite <- encode_meta_field_mask, <- Z.land_assoc.
  change (Z.land field_mask 0xFFFFFF00) with field_mask.
  split; [apply Z.lor_nonneg; split; apply Z.land_nonneg; right; by vm_compute|].
  assert (H : forall x y, Z.lor (Z.land x 0xFF) (Z.land y field_mask) =
    wrap 24 (Z.lor (Z.land x 0xFF) (Z.land y field_mask))).
  { intros x y. change 0xFF with (Z.land 0xFF (Z.ones 24)) at 1.
    change field_mask with (Z.land field_mask (Z.ones 24)) at 1.
    rewrite !Z.land_assoc, <- Z.land_lor_distr_l. by apply Z.land_ones. }
  rewrite H. apply wrap_range. lia.
Qed.

(** ** Properties *)

(** C31: The text the reading programs print for a 32-bit record gives the record back:
    the letters are those of the access the flags encode, and no two records of
    the tracer have the same line. *)
Theorem record_text_determines t u :
  text_ok t -> text_ok u ->
  (w_letters (flags t) = access_letters (decode qem_trace_def_meta (flags t))) /\
  (record_text t = record_text u -> t = u).
Proof.
  intros Ht Hu. split; [apply w_letters_decode|]. intros He. apply w_line_inj; [done..|].
  exact (f_equal (hd ""%string) He).
Qed.

Lemma record_text_determines_witness :
  let t := new_trace (cfg_small true false) 4096 1 7 0x420100 in
  let u := new_trace (cfg_small true false) 4096 1 7 0x430100 in
  record_text t <> record_text u.
Proof.
  intros t u He. apply record_text_determines in He.
  - vm_compute in He. discriminate He.
  - unfold text_ok. split_and!; vm_compute; congruence.
  - unfold text_ok. split_and!; vm_compute; congruence.
Defined.

(** The letters of the 64-bit code are those of an access in which a global
    granularity is a set and a size of 64 bits is one of 16: with the fields tested
    under their own codes instead of the masks, the 64-bit text of a record does
    not give the record back. *)
Theorem wide_letters_narrowed a :
  l_letters (encode qem_trace_def_meta a) = access_letters (narrowed a) /\
  (l_letters (encode qem_trace_def_meta a) = w_letters (encode qem_trace_def_meta a) <->
   acc_granularity a <> GrGlobal /\ acc_size a <> Size64).
Proof.
  rewrite l_letters_decode, w_letters_decode, decode_encode_meta. split; [done|].
  split.
  - intros He%access_letters_inj. destruct a as [rw id pl ev gr sz co lv ci wt ex].
    injection He as Hg Hs. cbn in *. split; [by destruct gr|by destruct sz].
  - intros [Hg Hs]. f_equal. destruct a as [rw id pl ev gr sz co lv ci wt ex]. unfold narrowed. cbn in *.
    f_equal; [by destruct gr|by destruct sz].
Qed.
