(* ===== verification/BinToStr.v ===== *)
(** * bin_to_str: printing a trace file

    [Tests/bin_to_str.cpp]: the program opens the file named by its first argument,
    skips the header, and prints the records, of 32 or 64 bits as its second
    argument says, until one cannot be read whole; it stops with an error if the
    time of a record is smaller than the one before.  The 32-bit program is
    specified on every file, and composed with the file backend that writes the
    file. *)

From S2P Require Import Prelude Bits TraceDef Trace Stdio TraceFile Sink.
From S2P Require Import FileBackend PrintBackend TraceText.

(** ** The program *)

(** [mem_trace_32_t] and [mem_trace_64_t], packed. *)
Definition mem_trace_32 (bs : bytes) : qem_trace_t := {|
  address := le_val (slice 0 4 bs);
  timestamp := le_val (slice 4 8 bs);
  flags := le_val (slice 12 4 bs)
|}.

Definition mem_trace_64 (bs : bytes) : qem_trace_t := {|
  address := le_val (slice 0 8 bs);
  timestamp := le_val (slice 8 8 bs);
  flags := le_val (slice 16 4 bs)
|}.

Definition sizeof_mem_trace (wide : bool) : nat := if wide then 20 else 16.
Definition sizeof_mem_trace_header : nat := 16.

(** The test both branches make before the last [printf]. *)
Definition check_time (lasttime time : Z) : C world () :=
  when (time <? lasttime) (print ("ERROR WRONG TIMESTAMP" +:+ newline)%string ;; exit_ (-1)).

(** One record.  The 64-bit branch passes a [uint64_t] for the [%16x] of its last
    [printf]: the call is undefined. *)
Definition print_record (wide : bool) (lasttime : Z) (bs : bytes) : C world Z :=
  if wide then
    let t := mem_trace_64 bs in
    print (l_prefix (flags t)) ;;
    print (st_ld (flags t)) ;;
    check_time lasttime (timestamp t) ;;
    access_ None
  else
    let t := mem_trace_32 bs in
    print (w_prefix (flags t)) ;;
    print (st_ld (flags t)) ;;
    check_time lasttime (timestamp t) ;;
    print (w_line t) ;;
    mret (timestamp t).

(** The loop; a model that runs out of fuel is undefined, and the fuel [main] gives
    is shown to be enough. *)
Fixpoint print_records (fuel : nat) (wide : bool) (lasttime : Z) (fd : FILE) : C world () :=
  match fuel with
  | O => access_ None
  | S fuel =>
      r ← fread (sizeof_mem_trace wide) fd;
      match r.1 with
      | Some bs =>
          lasttime ← print_record wide lasttime bs;
          print_records fuel wide lasttime r.2
      | None => mret ()
      end
  end.

(** [strncmp(s, p, strlen(p)) == 0]. *)
Definition starts_with (p s : string) : bool := String.prefix p s.

(** The test [fdin < 0] after [fopen] is false for every pointer, the null pointer
    included.  The value of the first [fread] is not used. *)
Definition main (argv : list string) : C world Z :=
  match argv with
  | [_; name; format] =>
      fdin ← fopen_rb name;
      let size :=
        if starts_with "32" format then Some false
        else if starts_with "64" format then Some true else None in
      match size with
      | None => print ("Error, wrong bit format" +:+ newline)%string ;; mret (-1)
      | Some wide =>
          fd ← access_ fdin;
          r ← fread sizeof_mem_trace_header fd;
          data ← gets (fun w => default [] (w_fs w !! name));
          print_records (S (length data)) wide 0 r.2 ;;
          mret 0
      end
  | _ => print ("ERROR, wrong usage" +:+ newline)%string ;; mret (-1)
  end.

(** ** Specification *)

(** No record is older than the one before it. *)
Fixpoint times_ordered (lasttime : Z) (ts : list qem_trace_t) : bool :=
  match ts with
  | [] => true
  | t :: ts => (lasttime <=? timestamp t) && times_ordered (timestamp t) ts
  end.

(** What the program does with the records [ts]. *)
Definition print_spec (lasttime : Z) (ts : list qem_trace_t) : C world () := fun w =>
  if times_ordered lasttime ts
  then Done ((), mk_world (w_fs w) (concat (rev (map record_text ts)) ++ w_out w) (w_faults w))
  else Exit (-1).

(** The configurations whose records are those of the 32-bit program. *)
Record text_cfg (cfg : config) : Prop := {
  tc_meta : QEM_TRACE_GATHER_META cfg = true;
  tc_32 : QEM_TRACE_TARGET_64 cfg = false
}.

Section narrow.
Context (cfg : config) (Hcfg : text_cfg cfg).

Lemma sizeof_text : sizeof_qem_trace_t cfg = 16%nat.
Proof. unfold sizeof_qem_trace_t, addr_size. by rewrite (tc_meta _ Hcfg), (tc_32 _ Hcfg). Qed.

Lemma unpack_text bs : unpack cfg bs = mem_trace_32 bs.
Proof. unfold unpack, mem_trace_32, addr_size. by rewrite (tc_meta _ Hcfg), (tc_32 _ Hcfg). Qed.

Lemma print_record_narrow lasttime bs w :
  print_record false lasttime bs w =
  let t := mem_trace_32 bs in
  if lasttime <=? timestamp t
  then Done (timestamp t, mk_world (w_fs w) (record_text t ++ w_out w) (w_faults w))
  else Exit (-1).
Proof.
  unfold print_record, check_time. cbv zeta.
  rewrite Z.ltb_antisym. by destruct (lasttime <=? timestamp (mem_trace_32 bs)).
Qed.

Lemma fopen_rb_run name w :
  w_faults w = [] -> fopen_rb name w = Done ((fun _ => mk_file name 0) <$> w_fs w !! name, w).
Proof. intros Hf. unfold fopen_rb, next_answer, mbind, C_bind. by rewrite Hf. Qed.

Lemma fread_run size name pos w data :
  w_faults w = [] -> w_fs w !! name = Some data ->
  fread size (mk_file name pos) w =
  let bs := take size (drop pos data) in
  Done ((if (length bs =? size)%nat then Some bs else None, mk_file name (pos + length bs)), w).
Proof.
  intros Hf Hd. unfold fread, next_answer. unfold mbind at 1, C_bind at 1. rewrite Hf.
  cbn [f_name f_pos]. rewrite run_gets, Hd. cbn. by rewrite Nat.sub_0_r.
Qed.

(** The loop prints the records that are left in the file. *)
Lemma print_records_narrow name data : forall fuel lasttime pos w,
  w_faults w = [] -> w_fs w !! name = Some data -> (length data - pos < fuel)%nat ->
  print_records fuel false lasttime (mk_file name pos) w =
  print_spec lasttime (read_traces cfg fuel (drop pos data)) w.
Proof.
  induction fuel as [|fuel IH]; intros lasttime pos w Hf Hd Hfuel; [lia|].
  cbn [print_records read_traces]. rewrite sizeof_text.
  rewrite (bind_step _ _ _ _ _ (fread_run _ _ _ _ _ Hf Hd)). cbn [fst snd sizeof_mem_trace].
  rewrite length_take, length_drop.
  destruct (Nat.leb_spec 16 (length data - pos)) as [Hle|Hlt].
  - rewrite Nat.min_l, Nat.eqb_refl, unpack_text by lia.
    unfold mbind at 1, C_bind at 1. rewrite print_record_narrow. cbv zeta.
    set (t := mem_trace_32 _). unfold print_spec. cbn [times_ordered map rev].
    destruct (Z.leb_spec lasttime (timestamp t)); [|done].
    rewrite IH by (done || lia). unfold print_spec. rewrite drop_drop.
    cbn [andb w_fs w_out w_faults]. destruct (times_ordered _ _); [|done].
    rewrite concat_app, <- app_assoc. done.
  - rewrite Nat.min_r by lia. rewrite (proj2 (Nat.eqb_neq _ _)) by lia. by destruct w.
Qed.

Lemma read_traces_fuel f1 : forall f2 bs,
  (length bs <= f1)%nat -> (length bs <= f2)%nat -> read_traces cfg f1 bs = read_traces cfg f2 bs.
Proof.
  clear Hcfg. pose proof (sizeof_pos cfg).
  assert (Hz : forall f bs, (length bs <= 0)%nat -> read_traces cfg f bs = []).
  { intros [|f] bs Hb; [done|]. cbn. by rewrite (proj2 (Nat.leb_gt _ _)) by lia. }
  induction f1 as [|f1 IH]; intros f2 bs H1 H2; [by rewrite !Hz|].
  destruct f2 as [|f2]; [by rewrite !Hz|]. cbn. destruct (Nat.leb_spec (sizeof_qem_trace_t cfg) (length bs)); [|done].
  f_equal. apply IH; rewrite length_drop; lia.
Qed.

(** The whole program on a file. *)
Lemma main_narrow prog name format data w :
  w_faults w = [] -> w_fs w !! name = Some data -> starts_with "32" format = true ->
  main [prog; name; format] w =
  (print_spec 0 (read_file cfg data) ≫= fun _ => mret 0) w.
Proof.
  intros Hf Hd H32. unfold main.
  rewrite (bind_step _ _ _ _ _ (fopen_rb_run _ _ Hf)), Hd, H32. cbv zeta.
  rewrite (access_bind _ (mk_file name 0)) by done.
  rewrite (bind_step _ _ _ _ _ (fread_run _ _ _ _ _ Hf Hd)), run_gets, Hd. change (default [] (Some data)) with data. cbn [fst snd].
  rewrite drop_0, length_take. apply bind_congr; [|done].
  rewrite (print_records_narrow name data) by (done || lia). f_equal. unfold read_file.
  destruct (Nat.le_ge_cases 16 (length data)).
  - rewrite Nat.min_l by done. apply read_traces_fuel; rewrite length_drop; lia.
  - rewrite Nat.min_r, !drop_ge by (unfold sizeof_mem_trace_header; lia). apply read_traces_fuel; cbn; lia.
Qed.
End narrow.

(** The texts of a list of records, last first, give the records back. *)
Lemma texts_inj ts : forall us,
  Forall text_ok ts -> Forall text_ok us ->
  concat (rev (map record_text ts)) = concat (rev (map record_text us)) -> ts = us.
Proof.
  assert (Hcons : forall (t : qem_trace_t) ts,
    concat (rev (map record_text (ts ++ [t]))) = record_text t ++ concat (rev (map record_text ts))).
  { intros t us. by rewrite map_app, rev_app_distr. }
  assert (Hnil : forall us, [] = concat (rev (map record_text us)) -> us = []).
  { intros us. destruct us as [|u us _] using rev_ind; [done|]. rewrite Hcons. discriminate. }
  induction ts as [|t ts IH] using rev_ind; intros us Hts Hus He; [symmetry; by apply Hnil|].
  destruct us as [|u us _] using rev_ind; [apply Hnil; by rewrite He|].
  rewrite !Hcons in He. apply Forall_app in Hts as [Hts Ht], Hus as [Hus Hu].
  apply Forall_cons in Ht as [Ht _], Hu as [Hu _].
  apply app_inj_1 in He as [Hr He]; [|done].
  rewrite (IH us Hts Hus He). do 2 f_equal. apply w_line_inj; [done..|].
  exact (f_equal (hd ""%string) Hr).
Qed.

Lemma starts_with_first a p s : starts_with (String a p) s = true -> exists s', s = String a s'.
Proof.
  destruct s as [|c s]; [done|]. unfold starts_with. cbn [String.prefix].
  destruct (ascii_dec a c) as [<-|]; [eauto|done].
Qed.

(** ** Properties *)

(** On every file, whatever its contents, the 32-bit program either prints the text
    of the whole records after the header, in order, and returns 0, or, if a record
    is older than the one before it, leaves with the code -1.  It always
    terminates, and what is left of an incomplete record at the end is ignored. *)
Theorem bin_to_str_exact cfg prog name format data w :
  text_cfg cfg -> w_faults w = [] -> w_fs w !! name = Some data -> starts_with "32" format = true ->
  let ts := read_file cfg data in
  main [prog; name; format] w =
  if times_ordered 0 ts
  then Done (0, mk_world (w_fs w) (concat (rev (map record_text ts)) ++ w_out w) (w_faults w))
  else Exit (-1).
Proof.
  intros Hc Hf Hd H32 ts. rewrite (main_narrow cfg Hc _ _ _ data) by done. fold ts.
  unfold mbind, C_bind, print_spec. by destruct (times_ordered 0 ts).
Qed.

(** A file of two records, in the right and in the wrong order. *)
Definition dump_cfg : config := cfg_small true false.
Definition dump_recs : list qem_trace_t :=
  [new_trace dump_cfg 4096 1 7 0x100; new_trace dump_cfg 4100 0 9 0x20200].
Definition dump_world (ts : list qem_trace_t) : world :=
  mk_world {[ "t"%string := file_bytes dump_cfg ts ]} [] [].

Lemma dump_text_cfg : text_cfg dump_cfg.
Proof. split; reflexivity. Qed.

Lemma bin_to_str_exact_witness :
  (exists w', main ["bin_to_str"; "t"; "32"]%string (dump_world dump_recs) = Done (0, w') /\
     rev (w_out w') =
       ["D "; "ST "; "| P 0x00001000 | Core 1 | Time 7 | RW: W | ID: D | PL: K | E: A | G: L | S: B | CR: N | CL: 1 | CI: N | WT: D | EX: N" +:+ newline;
        "I "; "LD "; "| P 0x00001004 | Core 0 | Time 9 | RW: R | ID: I | PL: K | E: A | G: L | S: W | CR: N | CL: 1 | CI: N | WT: D | EX: N" +:+ newline]%string) /\
  main ["bin_to_str"; "t"; "32"]%string (dump_world (rev dump_recs)) = Exit (-1).
Proof.
  split.
  - eexists. split.
    + rewrite (bin_to_str_exact dump_cfg _ _ _ (file_bytes dump_cfg dump_recs));
        [vm_compute; reflexivity|exact dump_text_cfg|reflexivity..].
    + vm_compute. reflexivity.
  - rewrite (bin_to_str_exact dump_cfg _ _ _ (file_bytes dump_cfg (rev dump_recs)));
      [vm_compute; reflexivity|exact dump_text_cfg|reflexivity..].
Defined.

(** C28: From the tracing API to the text: let the file backend run any sequence of API
    calls without faults, with 32-bit records and meta-data.  [bin_to_str] run on
    the file of a closed session whose records are in time order returns 0, leaves
    the files as they are, and prints a text from which the records of the session
    can be read back: no other records with flags of the tracer have that text. *)
Theorem bin_to_str_file_backend cfg w os prog format k ts :
  text_cfg cfg ->
  (0 < QEM_TRACE_BUFFER_SIZE cfg)%nat -> Z.of_nat (QEM_TRACE_BUFFER_SIZE cfg) < 2 ^ 32 ->
  w_faults w = [] -> ops_ok cfg (10 ^ 8) os spec_init ->
  sp_closed (spec_ops cfg os spec_init) !! k = Some ts ->
  Forall text_ok ts -> times_ordered 0 ts = true -> starts_with "32" format = true ->
  exists s w', file_ops cfg os (file_init cfg w) = Done ((), s) /\
    main [prog; trace_filename (Z.of_nat k); format] (fs_world s) = Done (0, w') /\
    w_fs w' = w_fs (fs_world s) /\
    w_out w' = concat (rev (map record_text ts)) ++ w_out (fs_world s) /\
    forall us, Forall text_ok us ->
      concat (rev (map record_text us)) ++ w_out (fs_world s) = w_out w' -> us = ts.
Proof.
  intros Hc HN HN32 Hw Hok Hk Hts Hord H32.
  destruct (wp_total _ _ _ (file_ops_refines cfg False HN HN32 os spec_init _
    (file_init_rel cfg False w ltac:(by unfold may_fail)) Hok)) as ([] & s & Hrun & H).
  assert (Hf : w_faults (fs_world s) = []).
  { pose proof (fr_faults _ _ _ _ H) as Hf. unfold may_fail in Hf.
    destruct (w_faults (fs_world s)); [done|]. by destruct Hf. }
  pose proof (fr_closed _ _ _ _ H _ _ Hk) as Hd.
  assert (Hok' : Forall (trace_ok cfg) ts).
  { eapply Forall_impl; [exact Hts|]. intros t (H1 & H2 & H3). unfold trace_ok, addr_size.
    rewrite (tc_meta _ Hc), (tc_32 _ Hc). cbn. lia. }
  exists s. eexists. split; [done|].
  rewrite (main_narrow cfg Hc _ _ _ _ _ Hf Hd H32), (read_file_bytes cfg ts Hok').
  unfold mbind, C_bind, print_spec. rewrite Hord. split; [reflexivity|]. split; [done|].
  split; [done|]. cbn [w_out]. intros us Hus He. apply app_inv_tail in He.
  by apply texts_inj.
Qed.

#[export] Instance text_ok_dec t : Decision (text_ok t).
Proof. unfold text_ok. apply _. Defined.

Lemma bin_to_str_file_backend_witness :
  exists s w', file_ops dump_cfg ops_small (file_init dump_cfg world0) = Done ((), s) /\
    main ["bin_to_str"; "qem_trace_00000001.out"; "32"]%string (fs_world s) = Done (0, w') /\
    take 3 (w_out w') =
      ["| P 0x00002000 | Core 0 | Time 11 | RW: R | ID: D | PL: K | E: A | G: L | S: B | CR: N | CL: 1 | CI: N | WT: D | EX: N" +:+ newline;
       "LD "; "D "]%string.
Proof.
  destruct (bin_to_str_file_backend dump_cfg world0 ops_small "bin_to_str" "32" 1
    [new_trace dump_cfg 8192 0 11 0]) as (s & w' & Hs & Hm & _ & Ho & _).
  - exact dump_text_cfg.
  - cbn. lia.
  - reflexivity.
  - reflexivity.
  - decide_now.
  - reflexivity.
  - decide_now.
  - reflexivity.
  - reflexivity.
  - exists s, w'. split; [exact Hs|]. split; [exact Hm|]. rewrite Ho. vm_compute. reflexivity.
Defined.

(** The error paths.  A wrong number of arguments or a wrong format is reported and
    returns -1.  A file that does not exist is not reported: [fopen] returns the
    null pointer, which the test [fdin < 0] lets through, and the program reads
    from it.  With the format [64] a file that holds a record never leads to a
    result: the format of the last [printf] does not fit a 64-bit address. *)
Theorem bin_to_str_errors w :
  w_faults w = [] ->
  (forall argv, length argv <> 3%nat -> exists w', main argv w = Done (-1, w') /\
     w_out w' = ("ERROR, wrong usage" +:+ newline)%string :: w_out w) /\
  (forall prog name format, starts_with "32" format = false -> starts_with "64" format = false ->
     exists w', main [prog; name; format] w = Done (-1, w') /\
     w_out w' = ("Error, wrong bit format" +:+ newline)%string :: w_out w) /\
  (forall prog name format, starts_with "32" format || starts_with "64" format = true ->
     w_fs w !! name = None -> main [prog; name; format] w = Undefined) /\
  (forall prog name format data, starts_with "64" format = true -> w_fs w !! name = Some data ->
     (36 <= length data)%nat -> forall r w', main [prog; name; format] w <> Done (r, w')).
Proof.
  intros Hf. split_and!.
  - intros [|a [|b [|c [|d argv]]]] Hl; try (eexists; split; reflexivity); by destruct Hl.
  - intros prog name format H32 H64. unfold main.
    rewrite (bind_step _ _ _ _ _ (fopen_rb_run _ _ Hf)), H32, H64. eexists. split; reflexivity.
  - intros prog name format Hfmt Hd. unfold main.
    rewrite (bind_step _ _ _ _ _ (fopen_rb_run _ _ Hf)), Hd.
    by destruct (starts_with "32" format), (starts_with "64" format).
  - intros prog name format data H64 Hd Hl r w'. unfold main.
    assert (H32 : starts_with "32" format = false).
    { by apply starts_with_first in H64 as [f ->]. }
    rewrite (bind_step _ _ _ _ _ (fopen_rb_run _ _ Hf)), Hd, H32, H64. cbv zeta.
    rewrite (access_bind _ (mk_file name 0)) by done.
    rewrite (bind_step _ _ _ _ _ (fread_run _ _ _ _ _ Hf Hd)), run_gets. cbn [fst snd print_records].
    rewrite drop_0, length_take, Nat.min_l by (unfold sizeof_mem_trace_header; lia).
    intros He. apply bind_Done in He as (? & ? & He & _).
    rewrite (bind_step _ _ _ _ _ (fread_run _ _ _ _ _ Hf Hd)) in He. cbn [fst snd] in He.
    rewrite length_take, length_drop, Nat.min_l, Nat.eqb_refl in He
      by (unfold sizeof_mem_trace_header; cbn; lia).
    apply bind_Done in He as (? & ? & He & _). unfold print_record in He.
    do 3 apply bind_Done in He as (? & ? & _ & He). discriminate He.
Qed.

Lemma bin_to_str_errors_witness :
  main ["bin_to_str"; "missing"; "32"]%string (dump_world dump_recs) = Undefined /\
  (exists w', main ["bin_to_str"]%string (dump_world dump_recs) = Done (-1, w')).
Proof.
  destruct (bin_to_str_errors (dump_world dump_recs) eq_refl) as (Hu & _ & Hm & _). split.
  - apply Hm; reflexivity.
  - destruct (Hu ["bin_to_str"]%string) as (w' & H & _); [discriminate|]. exists w'. exact H.
Defined.
