(* ===== verification/SmiClient.v ===== *)
(** * The consumer programs of the shared memory interface

    [Tests/{PPC,i386,ARM}/test_smi_client.c] (three copies of one program) and
    [Tests/ExecutionTime/test_smi_client.c]: after connecting, the program receives
    sessions for ever and prints their records; the second one receives one session,
    prints how long that took and returns.  The interface is seen through what
    [SmiRingProof] and [SmiTrace] prove of it: [qem_smi_receive] returns the bytes of
    the stream at the consumer's position, once they were sent, and
    [qem_smi_post_server_flush] moves to the next block.  A consumer is run here on
    the stream sent so far, until it waits for more or returns.

    The programs read the [timestamp] of a record, so they compile only with
    meta-data, and format its address with 32 bits. *)

From S2P Require Import Prelude Bits TraceDef Trace Stdio Sink SmiDef SmiRing SmiRingProof SmiTrace.
From S2P Require Import PrintBackend TraceText BinToStr.

(** ** The programs *)

(** Where a run on a finite stream stops: in a [qem_smi_receive] whose bytes were
    not sent yet, or by returning from [main].  [Diverged] is the answer of a model
    that runs out of fuel; no run gives it. *)
Inductive stop := Waiting | Returned (code : Z) | Diverged.

Record consumer := mk_consumer { c_pos : nat; c_out : list string }.

(** Code of the consumer: it stops, or goes on with a value. *)
Definition K (A : Type) : Type := consumer -> (stop + A) * consumer.

#[export] Instance K_ret : MRet K := fun A a c => (inr a, c).
#[export] Instance K_bind : MBind K := fun A B f m c =>
  match m c with
  | (inr a, c) => f a c
  | (inl x, c) => (inl x, c)
  end.

Definition halt {A} (x : stop) : K A := fun c => (inl x, c).
Definition put (s : string) : K () := fun c => (inr (), mk_consumer (c_pos c) (s :: c_out c)).

Section programs.
Context (cfg : config) (bs : nat) (st : bytes).

Let sz : nat := sizeof_qem_trace_t cfg.

Definition receive (n : nat) : K bytes := fun c =>
  if (c_pos c + n <=? length st)%nat
  then (inr (slice (c_pos c) n st), mk_consumer (c_pos c + n) (c_out c))
  else (inl Waiting, c).

Definition post_server_flush : K () := fun c =>
  (inr (), mk_consumer (c_pos c + gap bs (c_pos c)) (c_out c)).

(** The two receptions and tests at the head of a session. *)
Definition receive_head : K () :=
  val ← receive 4;
  if le_val val =? QEM_SMI_STREAM_VERSION then
    val ← receive 4;
    if le_val val =? Z.of_nat sz then mret ()
    else put "Wrong trace size" ;; halt (Returned (-1))
  else put "Wrong stream version" ;; halt (Returned (-1)).

Definition print_trace (t : qem_trace_t) : K () :=
  put (w_prefix (flags t)) ;;
  put (st_ld (flags t)) ;;
  put (w_line t).

(** Records until the end of the session; [verbose] tells the programs apart. *)
Fixpoint receive_traces (fuel : nat) (verbose : bool) : K () :=
  match fuel with
  | O => halt Diverged
  | S fuel =>
      w_buf ← receive sz;
      let t := unpack cfg w_buf in
      if is_end t then mret ()
      else (if verbose then print_trace t else mret ()) ;; receive_traces fuel verbose
  end.

Definition receive_session (verbose : bool) : K () :=
  receive_head ;;
  receive_traces (S (length st)) verbose ;;
  post_server_flush.

Fixpoint consumer_loop (fuel : nat) : K () :=
  match fuel with
  | O => halt Diverged
  | S fuel => receive_session true ;; consumer_loop fuel
  end.

(** [main] of the printing consumers. *)
Definition consumer_main : K () :=
  put ("Connected" +:+ newline)%string ;;
  consumer_loop (S (length st)).

(** [main] of the timing consumer; [took] is the text of its last [printf], the
    difference of two clock readings. *)
Definition timing_main (took : string) : K () :=
  put ("Connected" +:+ newline)%string ;;
  receive_session false ;;
  put took ;;
  halt (Returned 0).
End programs.

Definition consumer_start : consumer := mk_consumer 0 [].

(** ** Runs *)

Lemma K_step {A B} (m : K A) (f : A -> K B) c a c' : m c = (inr a, c') -> (m ≫= f) c = f a c'.
Proof. intros H. unfold mbind, K_bind. by rewrite H. Qed.

Lemma K_halt {A B} (m : K A) (f : A -> K B) c x c' : m c = (inl x, c') -> (m ≫= f) c = (inl x, c').
Proof. intros H. unfold mbind, K_bind. by rewrite H. Qed.

Lemma put_bind {A} s (f : () -> K A) c :
  (put s ≫= f) c = f () (mk_consumer (c_pos c) (s :: c_out c)).
Proof. done. Qed.

(** [kwp m Q c]: run from [c], [m] stops or goes on as [Q] says. *)
Definition kwp {A} (m : K A) (Q : stop + A -> consumer -> Prop) (c : consumer) : Prop :=
  let r := m c in Q r.1 r.2.

Lemma kwp_bind {A B} (m : K A) (f : A -> K B) Q c :
  kwp m (fun r c' => match r with inr a => kwp (f a) Q c' | inl x => Q (inl x) c' end) c ->
  kwp (m ≫= f) Q c.
Proof. unfold kwp, mbind, K_bind. by destruct (m c) as [[x|a] c']. Qed.

Lemma kwp_mono {A} (m : K A) (Q Q' : stop + A -> consumer -> Prop) c :
  kwp m Q c -> (forall r c', Q r c' -> Q' r c') -> kwp m Q' c.
Proof. unfold kwp. auto. Qed.

Section totality.
Context (cfg : config) (bs : nat) (st : bytes).
Abbreviation sz := (sizeof_qem_trace_t cfg).

(** From [c]: the code stopped by waiting or returning -1, or it went on, [n] bytes
    of the stream further at least. *)
Definition advances {A} (n : nat) (c : consumer) (r : stop + A) (c' : consumer) : Prop :=
  match r with
  | inl Waiting => True
  | inl (Returned v) => v = -1
  | inl Diverged => False
  | inr _ => (c_pos c + n <= c_pos c')%nat
  end.

Lemma receive_advances n c :
  kwp (receive st n) (fun r c' => advances n c r c' /\ (forall b, r = inr b -> (c_pos c + n <= length st)%nat)) c.
Proof.
  unfold kwp, receive. destruct (Nat.leb_spec (c_pos c + n) (length st)); cbn; split; try done; lia.
Qed.

Lemma head_advances c :
  kwp (receive_head cfg st) (fun r c' => advances 8 c r c' /\
    (forall b, r = inr b -> (c_pos c + 8 <= length st)%nat)) c.
Proof.
  unfold receive_head. apply kwp_bind. eapply kwp_mono; [apply receive_advances|].
  intros [x|b] c1 [H1 H1']; [by split|]. specialize (H1' b eq_refl). cbn in H1.
  destruct (le_val b =? QEM_SMI_STREAM_VERSION); [|by split].
  apply kwp_bind. eapply kwp_mono; [apply receive_advances|].
  intros [x|b2] c2 [H2 H2']; [by split|]. specialize (H2' b2 eq_refl). cbn in H2.
  destruct (le_val b2 =? Z.of_nat sz); [|by split]. unfold kwp. cbn. split; [lia|]. intros. lia.
Qed.

(** The fuel is enough: every record received is a part of the stream. *)
Lemma traces_advance v : forall fuel c,
  (length st - c_pos c < fuel)%nat -> kwp (receive_traces cfg st fuel v) (advances 0 c) c.
Proof.
  pose proof (sizeof_pos cfg). induction fuel as [|fuel IH]; intros c Hf; [lia|]. cbn [receive_traces].
  apply kwp_bind. eapply kwp_mono; [apply receive_advances|].
  intros [x|b] c1 [H1 H1']; [done|]. specialize (H1' b eq_refl). cbn in H1.
  destruct (is_end (unpack cfg b)); [unfold kwp; cbn; lia|].
  assert (Hrec : forall c2, c_pos c2 = c_pos c1 ->
    kwp (receive_traces cfg st fuel v) (advances 0 c) c2).
  { intros c2 H2. eapply kwp_mono; [apply IH; lia|]. intros [[]|[]] c3; cbn; done || lia. }
  destruct v; by apply Hrec.
Qed.

Lemma session_advances v c :
  kwp (receive_session cfg bs st v) (fun r c' => advances 8 c r c' /\
    (forall b, r = inr b -> (c_pos c + 8 <= length st)%nat)) c.
Proof.
  unfold receive_session. apply kwp_bind. eapply kwp_mono; [apply head_advances|].
  intros [x|[]] c1 [H1 H1']; [by split|]. specialize (H1' () eq_refl). cbn in H1.
  apply kwp_bind. eapply kwp_mono; [apply traces_advance; lia|].
  intros [x|[]] c2 H2; [by split|]. cbn in H2. unfold kwp. cbn. split; [lia|]. intros. lia.
Qed.

Lemma loop_stops : forall fuel c,
  (length st - c_pos c < fuel)%nat ->
  exists c', consumer_loop cfg bs st fuel c = (inl Waiting, c') \/
    consumer_loop cfg bs st fuel c = (inl (Returned (-1)), c').
Proof.
  induction fuel as [|fuel IH]; intros c Hf; [lia|]. cbn [consumer_loop].
  pose proof (session_advances true c) as [H1 H2]. unfold kwp in *.
  destruct (receive_session cfg bs st true c) as [[[|v|]|[]] c1] eqn:He; cbn in H1, H2.
  - exists c1. left. by rewrite (K_halt _ _ _ _ _ He).
  - exists c1. right. rewrite (K_halt _ _ _ _ _ He). by subst v.
  - done.
  - rewrite (K_step _ _ _ _ _ He). apply IH. specialize (H2 () eq_refl). lia.
Qed.
End totality.

(** ** What is printed *)

Section printing.
Context (cfg : config) (bs : nat).
Abbreviation sz := (sizeof_qem_trace_t cfg).
Abbreviation packs ts := (concat (map (pack cfg) ts)).

(** The texts of records, last first. *)
Definition texts (verbose : bool) (ts : list qem_trace_t) : list string :=
  if verbose then concat (rev (map record_text ts)) else [].

Lemma texts_cons v t ts out :
  texts v ts ++ (if v then record_text t else []) ++ out = texts v (t :: ts) ++ out.
Proof. destruct v; [|done]. cbn. rewrite concat_app, <- app_assoc. done. Qed.

Lemma texts_app v ts us : texts v us ++ texts v ts = texts v (ts ++ us).
Proof. destruct v; [|done]. cbn. by rewrite map_app, rev_app_distr, concat_app. Qed.

Lemma receive_at pre x rest n out :
  n = length x ->
  receive (pre ++ x ++ rest) n (mk_consumer (length pre) out) =
  (inr x, mk_consumer (length (pre ++ x)) out).
Proof.
  intros ->. unfold receive. cbn [c_pos c_out].
  rewrite (proj2 (Nat.leb_le _ _)) by (rewrite !length_app; lia).
  by rewrite slice_at, length_app by done.
Qed.

Lemma receive_end st n out : (0 < n)%nat ->
  receive st n (mk_consumer (length st) out) = (inl Waiting, mk_consumer (length st) out).
Proof. intros. unfold receive. cbn. by rewrite (proj2 (Nat.leb_gt _ _)) by lia. Qed.

(** One record that does not end the session. *)
Lemma receive_trace fuel v pre t rest out :
  carried cfg t ->
  receive_traces cfg (pre ++ pack cfg t ++ rest) (S fuel) v (mk_consumer (length pre) out) =
  receive_traces cfg ((pre ++ pack cfg t) ++ rest) fuel v
    (mk_consumer (length (pre ++ pack cfg t)) ((if v then record_text t else []) ++ out)).
Proof.
  intros [Ht He]. cbn [receive_traces].
  rewrite (K_step _ _ _ _ _ (receive_at pre _ rest _ out (eq_sym (length_pack cfg t)))).
  rewrite unpack_pack, He, <- app_assoc by done. by destruct v.
Qed.

Lemma receive_traces_end v ts d rest : forall fuel pre out,
  Forall (carried cfg) ts -> (length ts < fuel)%nat -> length d = sz -> is_end (unpack cfg d) = true ->
  receive_traces cfg (pre ++ packs ts ++ d ++ rest) fuel v (mk_consumer (length pre) out) =
  (inr (), mk_consumer (length (pre ++ packs ts ++ d)) (texts v ts ++ out)).
Proof.
  induction ts as [|t ts IH]; intros [|fuel] pre out Hok Hf Hd He; cbn in Hf; try lia.
  - cbn [map concat app receive_traces].
    rewrite (K_step _ _ _ _ _ (receive_at pre d rest _ out (eq_sym Hd))), He. by destruct v.
  - apply Forall_cons in Hok as [Ht Hok]. cbn [map concat]. rewrite <- !app_assoc, receive_trace by done.
    rewrite IH by (done || lia). rewrite texts_cons, <- !app_assoc. done.
Qed.

Lemma receive_traces_open v ts : forall fuel pre out,
  Forall (carried cfg) ts -> (length ts < fuel)%nat ->
  receive_traces cfg (pre ++ packs ts) fuel v (mk_consumer (length pre) out) =
  (inl Waiting, mk_consumer (length (pre ++ packs ts)) (texts v ts ++ out)).
Proof.
  induction ts as [|t ts IH]; intros [|fuel] pre out Hok Hf; cbn in Hf; try lia.
  - cbn [map concat receive_traces]. rewrite app_nil_r.
    rewrite (K_halt _ _ _ _ _ (receive_end pre sz out (sizeof_pos cfg))). by destruct v.
  - apply Forall_cons in Hok as [Ht Hok]. cbn [map concat]. rewrite receive_trace by done.
    rewrite IH by (done || lia). rewrite texts_cons, <- !app_assoc. done.
Qed.

(** The two numbers at the head of a session, with records of [n] bytes. *)
Definition head_bytes (n : nat) : bytes := le 4 QEM_SMI_STREAM_VERSION ++ le 4 (Z.of_nat n).

Lemma head_at n pre rest out :
  (n <= 20)%nat ->
  receive_head cfg (pre ++ head_bytes n ++ rest) (mk_consumer (length pre) out) =
  if (n =? sz)%nat then (inr (), mk_consumer (length (pre ++ head_bytes n)) out)
  else (inl (Returned (-1)), mk_consumer (length (pre ++ head_bytes n)) ("Wrong trace size"%string :: out)).
Proof.
  intros Hn. pose proof (sizeof_le cfg). unfold receive_head, head_bytes. rewrite <- app_assoc.
  rewrite (K_step _ _ _ _ _ (receive_at pre (le 4 _) _ 4 out eq_refl)).
  rewrite le_val_le_small by done. rewrite Z.eqb_refl, !app_assoc, <- (app_assoc (pre ++ _) _ rest).
  rewrite (K_step _ _ _ _ _ (receive_at (pre ++ _) (le 4 _) _ 4 out eq_refl)).
  rewrite le_val_le_small by (cbn; lia).
  destruct (Nat.eqb_spec n sz) as [->|Hne]; [by rewrite Z.eqb_refl|].
  by rewrite (proj2 (Z.eqb_neq _ _)) by lia.
Qed.

Lemma open_bytes_head ts : open_bytes cfg ts = head_bytes sz ++ packs ts.
Proof. unfold open_bytes, head_bytes. by rewrite <- app_assoc. Qed.

Lemma session_open v ts pre out :
  Forall (carried cfg) ts ->
  receive_session cfg bs (pre ++ open_bytes cfg ts) v (mk_consumer (length pre) out) =
  (inl Waiting, mk_consumer (length (pre ++ open_bytes cfg ts)) (texts v ts ++ out)).
Proof.
  intros Hok. unfold receive_session. rewrite open_bytes_head.
  pose proof (head_at sz pre (packs ts) out (sizeof_le cfg)) as Hh. rewrite Nat.eqb_refl in Hh.
  rewrite (K_step _ _ _ _ _ Hh). rewrite app_assoc.
  apply K_halt, receive_traces_open; [done|].
  rewrite !length_app, length_concat_pack. pose proof (sizeof_pos cfg). nia.
Qed.

Context (Hbs : (0 < bs)%nat).

Lemma session_closed v ts pre rest out :
  Forall (carried cfg) ts -> (exists k, length pre = (k * bs)%nat) ->
  receive_session cfg bs (pre ++ session_bytes cfg bs ts ++ rest) v (mk_consumer (length pre) out) =
  (inr (), mk_consumer (length (pre ++ session_bytes cfg bs ts)) (texts v ts ++ out)).
Proof.
  intros Hok [k Hk]. unfold receive_session, session_bytes, closed_bytes.
  rewrite open_bytes_head, <- !app_assoc. set (pad := replicate (gap bs _) 0).
  pose proof (head_at sz pre (packs ts ++ replicate sz 0 ++ pad ++ rest) out (sizeof_le cfg)) as Hh.
  rewrite Nat.eqb_refl in Hh. rewrite (K_step _ _ _ _ _ Hh), (app_assoc pre).
  erewrite (K_step _ _ _ _ _ (receive_traces_end v ts (replicate sz 0) (pad ++ rest) _ _ out Hok _ _ _)).
  Unshelve. 2: { rewrite !length_app, length_concat_pack. pose proof (sizeof_pos cfg). nia. }
  2: apply length_replicate. 2: by apply (is_end_zeros cfg bs).
  unfold post_server_flush. cbn [c_pos c_out]. do 2 f_equal. subst pad.
  rewrite !length_app, !length_replicate, Hk.
  rewrite <- !Nat.add_assoc, gap_shift by done. lia.
Qed.

(** The closed sessions are printed, and what was sent of the open one. *)
Lemma loop_prints tss : forall pre tl ts fuel out,
  Forall (Forall (carried cfg)) tss -> (exists k, length pre = (k * bs)%nat) ->
  Forall (carried cfg) ts -> (tl = [] /\ ts = [] \/ tl = open_bytes cfg ts) -> (length tss < fuel)%nat ->
  let st := pre ++ concat (map (session_bytes cfg bs) tss) ++ tl in
  consumer_loop cfg bs st fuel (mk_consumer (length pre) out) =
  (inl Waiting, mk_consumer (length st) (texts true (concat tss ++ ts) ++ out)).
Proof.
  induction tss as [|us tss IH]; intros pre tl ts [|fuel] out Hok Hpre Hts Htl Hf; cbn in Hf; try lia;
    cbn [map concat consumer_loop app].
  - apply K_halt. destruct Htl as [[-> ->]| ->]; [|by apply session_open].
    rewrite app_nil_r. unfold receive_session, receive_head. apply K_halt, K_halt, receive_end. lia.
  - apply Forall_cons in Hok as [Hus Hok]. rewrite <- !app_assoc.
    rewrite (K_step _ _ _ _ _ (session_closed true us pre _ out Hus Hpre)).
    rewrite (app_assoc pre). rewrite (IH _ tl ts fuel) by (done || lia ||
      (destruct Hpre as [k Hk], (session_fills cfg bs Hbs us) as [k' Hk']; exists (k + k')%nat;
       rewrite length_app, Hk, Hk'; lia)).
    by rewrite (app_assoc (texts _ _)), texts_app, <- app_assoc.
Qed.
End printing.

(** The stream of a run of the backend, as the consumers meet it. *)
Section runs.
Context (cfg : config) (bs : nat) (Hbs : (0 < bs)%nat).

(** The records of the sessions, those of the open one included. *)
Definition all_records (sp : spec_state) : list qem_trace_t :=
  concat (sp_closed sp) ++ (if sp_tracing sp =? 0 then [] else sp_open sp).

Lemma run_stream max w os :
  w_faults w = [] -> ops_ok cfg max os spec_init -> Forall (op_carries cfg (carried cfg)) os ->
  exists s, smi_ops cfg os (smi_init w) = Done ((), s) /\
    smi_rel cfg bs False (spec_ops cfg os spec_init) s.
Proof.
  intros Hw Hok Hc.
  destruct (wp_total _ _ _ (smi_ops_refines cfg bs Hbs False max os spec_init _
    (smi_init_rel cfg bs False w ltac:(by unfold may_fail)) Hok Hc)) as ([] & s & Hrun & H).
  eauto.
Qed.

Lemma main_prints sp s :
  smi_rel cfg bs False sp s ->
  consumer_main cfg bs (smi_stream bs s) consumer_start =
  (inl Waiting, mk_consumer (length (smi_stream bs s))
    (texts true (all_records sp) ++ [("Connected" +:+ newline)%string])).
Proof.
  intros H. destruct (mr_ok _ _ _ _ _ H) as [Hok1 Hok2]. unfold consumer_main, all_records.
  set (out := [_]). rewrite (mr_stream _ _ _ _ _ H).
  apply (loop_prints cfg bs Hbs (sp_closed sp) []); try done.
  - by exists 0%nat.
  - by destruct (sp_tracing sp =? 0).
  - destruct (sp_tracing sp =? 0); auto.
  - rewrite length_app. pose proof (concat_sessions_length cfg bs Hbs (sp_closed sp)). lia.
Qed.

(** A stream that is not empty starts with the head of a session. *)
Lemma stream_head sp s :
  smi_rel cfg bs False sp s -> sp_closed sp <> [] \/ sp_tracing sp <> 0 ->
  exists rest, smi_stream bs s = head_bytes (sizeof_qem_trace_t cfg) ++ rest.
Proof.
  intros H Hne. rewrite (mr_stream _ _ _ _ _ H). destruct (sp_closed sp) as [|ts tss].
  - destruct (Z.eqb_spec (sp_tracing sp) 0) as [E|E]; [by destruct Hne|].
    cbn [map concat app]. rewrite open_bytes_head. eauto.
  - cbn [map concat]. unfold session_bytes, closed_bytes. rewrite open_bytes_head, <- !app_assoc. eauto.
Qed.
End runs.

(** ** Properties *)




(** A consumer and a tracer built for records of different sizes (32 and 64 bits, or
    meta-data on one side only): as soon as the tracer has opened a session, the
    consumer prints [Wrong trace size] and returns -1, before it takes any byte for
    a record. *)
Theorem consumer_size_mismatch cfg cfg' bs max w os :
  (0 < bs)%nat -> w_faults w = [] -> ops_ok cfg max os spec_init ->
  Forall (op_carries cfg (carried cfg)) os ->
  sizeof_qem_trace_t cfg <> sizeof_qem_trace_t cfg' ->
  let sp := spec_ops cfg os spec_init in
  sp_closed sp <> [] \/ sp_tracing sp <> 0 ->
  exists s, smi_ops cfg os (smi_init w) = Done ((), s) /\
    consumer_main cfg' bs (smi_stream bs s) consumer_start =
      (inl (Returned (-1)),
       mk_consumer 8 ["Wrong trace size"; ("Connected" +:+ newline)]%string).
Proof.
  intros Hbs Hw Hok Hc Hsz sp Hne. destruct (run_stream cfg bs Hbs max w os Hw Hok Hc) as (s & Hrun & H).
  exists s. split; [done|]. destruct (stream_head cfg bs sp s H Hne) as [rest ->].
  pose proof (head_at cfg' (sizeof_qem_trace_t cfg) [] rest [("Connected" +:+ newline)%string] (sizeof_le cfg)) as Hh.
  rewrite (proj2 (Nat.eqb_neq _ _) Hsz) in Hh. unfold consumer_main.
  rewrite put_bind. cbn [consumer_loop]. unfold receive_session.
  apply K_halt, K_halt. exact Hh.
Qed.

Lemma consumer_size_mismatch_witness :
  exists s, smi_ops dump_cfg ops_small (smi_init world0) = Done ((), s) /\
    (consumer_main (cfg_small true true) 64 (smi_stream 64 s) consumer_start).1 = inl (Returned (-1)).
Proof.
  destruct (consumer_size_mismatch dump_cfg (cfg_small true true) 64 2 world0 ops_small) as (s & Hs & Hm).
  - lia.
  - reflexivity.
  - decide_now.
  - exact carried_small.
  - discriminate.
  - left. discriminate.
  - exists s. split; [exact Hs|]. rewrite Hm. reflexivity.
Defined.

(** The timing consumer receives the first session, whole, and returns 0 at its end,
    with nothing of the records printed; without a closed session it waits. *)
Theorem timing_consumer_one_session cfg bs max w os took :
  (0 < bs)%nat -> w_faults w = [] -> ops_ok cfg max os spec_init ->
  Forall (op_carries cfg (carried cfg)) os ->
  exists s, smi_ops cfg os (smi_init w) = Done ((), s) /\
    match sp_closed (spec_ops cfg os spec_init) with
    | ts :: _ => timing_main cfg bs (smi_stream bs s) took consumer_start =
        (inl (Returned 0), mk_consumer (length (session_bytes cfg bs ts))
           [took; ("Connected" +:+ newline)%string])
    | [] => exists c, timing_main cfg bs (smi_stream bs s) took consumer_start = (inl Waiting, c)
    end.
Proof.
  intros Hbs Hw Hok Hc. destruct (run_stream cfg bs Hbs max w os Hw Hok Hc) as (s & Hrun & H).
  exists s. split; [done|]. set (sp := spec_ops cfg os spec_init) in *.
  destruct (mr_ok _ _ _ _ _ H) as [Hok1 Hok2]. rewrite (mr_stream _ _ _ _ _ H).
  destruct (sp_closed sp) as [|ts tss]; cbn [map concat app].
  - unfold timing_main. rewrite put_bind. cbn [c_pos c_out consumer_start].
    destruct (Z.eqb_spec (sp_tracing sp) 0).
    + eexists. apply K_halt. reflexivity.
    + eexists. apply K_halt. by apply (session_open cfg bs false (sp_open sp) []).
  - apply Forall_cons in Hok1 as [Hts _]. rewrite <- app_assoc.
    pose proof (session_closed cfg bs Hbs false ts [] (concat (map (session_bytes cfg bs) tss) ++
      (if sp_tracing sp =? 0 then [] else open_bytes cfg (sp_open sp)))
      [("Connected" +:+ newline)%string] Hts ltac:(by exists 0%nat)) as Hs.
    unfold timing_main. rewrite put_bind. cbn [c_pos c_out consumer_start app] in *.
    rewrite (K_step _ _ _ _ _ Hs). reflexivity.
Qed.
