(* ===== verification/ArmPages.v ===== *)
(** * The page tables of the ARM test kernel

    [Tests/ARM/mini_kernel/paging_tool.c] builds the short-descriptor tables the ARM
    tests of the tracer run under, at the addresses of [linker.ld], and [paging.S]
    points the MMU to them.  The builder is modelled on a memory of 32-bit words, and
    what it builds is read back with the walk of [ArmMmu], the one the tracer uses:
    a call maps the pages of its range up to the end of the first megabyte, to the
    pages asked for, and keeps the others.  The trace of one of the tests is then
    computed and compared with the expected one the repository holds. *)

From S2P Require Import Prelude Bits TraceDef Trace Stdio Sink Guest.
From S2P Require Import PrintBackend ArmMmu ArmLpae ArmPmsa ArmWalk Arm.

(** ** paging_tool.c *)

Definition ARM_MMU_FLAG_WT_NWA := Z.shiftl 1 3.
Definition ARM_MMU_FLAG_CI := Z.shiftl 1 6.
Definition ARM_MMU_FLAG_WB_WA := (Z.shiftl 1 6 .| Z.shiftl 1 3 .| Z.shiftl 1 2)%c.
Definition ARM_MMU_FLAG_RWX_ALL := Z.lor (Z.shiftl 1 5) (Z.shiftl 1 4).

(** The memory, as words by address, and [last_l2_table].  The memory of the emulated
    machine is zero where nothing was written. *)
Record pgt := mk_pgt { pg_mem : gmap Z Z; last_l2_table : Z }.

Definition word (m : gmap Z Z) (a : Z) : Z := default 0 (m !! a).

(** [table[i]] of a [uint32_t*]. *)
Definition elem (table i : Z) : Z := u32 (table + 4 * i).

Definition SAT (val add max : Z) : Z := if add <? u32 (max - val) then max else u32 (val + add).

(** The loop of [set_l2_pgt_entry]; 256 rounds are enough, as [start_entry] grows. *)
Fixpoint l2_loop (fuel : nat) (pgtable start end_ start_virt flags start_entry : Z) (m : gmap Z Z)
    : gmap Z Z :=
  match fuel with
  | O => m
  | S fuel =>
      if (start <? end_) && (start_entry <? 256) then
        let m := <[elem pgtable start_entry :=
                     (Z.land start_virt 0xFFFFF000 .| Z.land flags 0xFFF .| 0x2)%c]> m in
        l2_loop fuel pgtable (u32 (start + 0x1000)) end_ (u32 (start_virt + 0x1000)) flags
          (start_entry + 1) m
      else m
  end.

Definition set_l2_pgt_entry (pgtable start end_ start_virt flags : Z) (m : gmap Z Z) : gmap Z Z :=
  let start_entry := Z.land start 0x0FFFFF / 0x1000 in
  l2_loop 256 pgtable (Z.land start 0xFFFFF000) end_ start_virt flags start_entry m.

Definition create_l2_pgt_entry (start end_ start_virt flags : Z) (s : pgt) : Z * pgt :=
  let l2_table := last_l2_table s in
  let m := set_l2_pgt_entry l2_table start end_ start_virt flags (pg_mem s) in
  (l2_table, mk_pgt m (u32 (last_l2_table s + 4 * 256))).

(** One round of [set_l1_pgt_entry]. *)
Definition set_l1_round (table start end_ start_virt flags : Z) (s : pgt) : pgt :=
  let entry := elem table (start / 0x100000) in
  if word (pg_mem s) entry =? 0 then
    let s := mk_pgt (<[entry := 0x9]> (pg_mem s)) (last_l2_table s) in
    let '(l2, s) := create_l2_pgt_entry start end_ start_virt flags s in
    mk_pgt (<[entry := Z.lor (word (pg_mem s) entry) l2]> (pg_mem s)) (last_l2_table s)
  else
    mk_pgt (set_l2_pgt_entry (Z.land (word (pg_mem s) entry) 0xFFFFFC00) start end_ start_virt flags
              (pg_mem s)) (last_l2_table s).

(** [None] when the fuel runs out; three rounds are always enough ([set_l1_terminates]). *)
Fixpoint l1_loop (fuel : nat) (table start end_ start_virt flags : Z) (s : pgt) : option pgt :=
  match fuel with
  | O => None
  | S fuel =>
      if start <? end_ then
        l1_loop fuel table (SAT start 0x100000 0xFFFFFFFF) end_ (SAT start_virt 0x100000 0xFFFFFFFF)
          flags (set_l1_round table start end_ start_virt flags s)
      else Some s
  end.

Definition set_l1_pgt_entry (table start end_ start_virt flags : Z) : pgt -> option pgt :=
  l1_loop 3 table start end_ start_virt flags.

(** The symbols of the linker script. *)
Record symbols := mk_symbols {
  page_table_lvl1 : Z; page_table_lvl2 : Z;
  pagencodeaddr : Z; pagdiscodeaddr : Z;
  stacks_start : Z; usr_stack_end : Z; fiq_stack_end : Z; irq_stack_end : Z; svc_stack_end : Z;
  abt_stack_end : Z; undef_stack_end : Z;
  reg_11_nc_ce_wt : Z; reg_11_c_ce_wt : Z; reg_1_inv_c_ce_wt : Z; reg_11_c_ci_wt : Z;
  reg_1_1000_c_ce_wb : Z;
  perif_gic_base_addr : Z; perif_serial0_base_addr : Z; perif_serial1_base_addr : Z;
  perif_serial2_base_addr : Z; perif_serial3_base_addr : Z
}.

Definition linker_ld : symbols := {|
  page_table_lvl1 := 0x80A00000; page_table_lvl2 := 0x80A04000;
  pagencodeaddr := 0x80100000; pagdiscodeaddr := 0x80110000;
  stacks_start := 0x80120000; usr_stack_end := 0x80124000; fiq_stack_end := 0x80128000;
  irq_stack_end := 0x8012C000; svc_stack_end := 0x80130000; abt_stack_end := 0x80134000;
  undef_stack_end := 0x80138000;
  reg_11_nc_ce_wt := 0x80200000; reg_11_c_ce_wt := 0x80240000; reg_1_inv_c_ce_wt := 0x80280000;
  reg_11_c_ci_wt := 0x802C0000; reg_1_1000_c_ce_wb := 0x80300000;
  perif_gic_base_addr := 0x2C000000; perif_serial0_base_addr := 0x1C090000;
  perif_serial1_base_addr := 0x1C0A0000; perif_serial2_base_addr := 0x1C0B0000;
  perif_serial3_base_addr := 0x1C0C0000
|}.

(** The arguments of a call of [set_l1_pgt_entry] after the table. *)
Record mapping := mk_map { map_start : Z; map_end : Z; map_virt : Z; map_flags : Z }.

(** The calls of [create_pgtable], in order. *)
Definition kernel_mappings (y : symbols) : list mapping :=
  let wt := Z.lor ARM_MMU_FLAG_WT_NWA ARM_MMU_FLAG_RWX_ALL in
  let ci := Z.lor ARM_MMU_FLAG_CI ARM_MMU_FLAG_RWX_ALL in
  let wb := Z.lor ARM_MMU_FLAG_WB_WA ARM_MMU_FLAG_RWX_ALL in
  let inv := reg_1_inv_c_ce_wt y in
  let device a := mk_map a (u32 (a + 0x10000)) a ci in
  [mk_map 0x80000000 0x80100000 0x80000000 wt;
   mk_map (pagencodeaddr y) (pagdiscodeaddr y) 0x80400000 wt;
   mk_map (pagdiscodeaddr y) 0x80120000 0x80110000 wt;
   mk_map (stacks_start y) (usr_stack_end y) (stacks_start y) wt;
   mk_map (usr_stack_end y) (fiq_stack_end y) (usr_stack_end y) wt;
   mk_map (fiq_stack_end y) (irq_stack_end y) (fiq_stack_end y) wt;
   mk_map (irq_stack_end y) (svc_stack_end y) (irq_stack_end y) wt;
   mk_map (svc_stack_end y) (abt_stack_end y) (svc_stack_end y) wt;
   mk_map (abt_stack_end y) (undef_stack_end y) (abt_stack_end y) wt;
   mk_map (reg_11_nc_ce_wt y) (reg_11_c_ce_wt y) (reg_11_nc_ce_wt y) wt;
   mk_map (reg_11_c_ce_wt y) (reg_1_inv_c_ce_wt y) (reg_11_c_ce_wt y) wt;
   mk_map inv (u32 (inv + 0x10000)) (u32 (inv + 0x30000)) wt;
   mk_map (u32 (inv + 0x10000)) (u32 (inv + 0x20000)) (u32 (inv + 0x20000)) wt;
   mk_map (u32 (inv + 0x20000)) (u32 (inv + 0x30000)) (u32 (inv + 0x10000)) wt;
   mk_map (u32 (inv + 0x30000)) (u32 (inv + 0x40000)) inv wt;
   mk_map (reg_11_c_ci_wt y) (reg_1_1000_c_ce_wb y) (reg_11_c_ci_wt y) ci;
   mk_map (reg_1_1000_c_ce_wb y) 0x80340000 (u32 (reg_1_1000_c_ce_wb y + 0x1000)) wb;
   device (perif_gic_base_addr y); device (perif_serial0_base_addr y);
   device (perif_serial1_base_addr y); device (perif_serial2_base_addr y);
   device (perif_serial3_base_addr y)].

Definition set_mapping (table : Z) (c : mapping) : pgt -> option pgt :=
  set_l1_pgt_entry table (map_start c) (map_end c) (map_virt c) (map_flags c).

Fixpoint set_mappings (table : Z) (cs : list mapping) (s : pgt) : option pgt :=
  match cs with
  | [] => Some s
  | c :: cs => s ← set_mapping table c s; set_mappings table cs s
  end.

(** The loop that clears the first level. *)
Fixpoint clear_l1 (n : nat) (table : Z) (m : gmap Z Z) : gmap Z Z :=
  match n with
  | O => m
  | S n => <[elem table (Z.of_nat n) := 0]> (clear_l1 n table m)
  end.

Definition create_pgtable (y : symbols) (m : gmap Z Z) : option pgt :=
  set_mappings (page_table_lvl1 y) (kernel_mappings y)
    (mk_pgt (clear_l1 4096 (page_table_lvl1 y) m) (page_table_lvl2 y)).

(** ** The processor of the tests *)

(** A Cortex-A15 of the [vexpress-a15] board in supervisor mode, after [init_paging]
    and [enable_paging] of [paging.S]: the table of [create_pgtable] in the base
    register, every domain a client, the MMU on, the caches off. *)
Definition kernel_mem (y : symbols) : gmap Z Z :=
  match create_pgtable y ∅ with Some s => pg_mem s | None => ∅ end.

(** The bytes of the words. *)
Definition mem_byte (m : gmap Z Z) (a : Z) : Z :=
  u8 (Z.shiftr (word m (a - a mod 4)) (8 * (a mod 4))).

Definition a15_features (f : arm_feature) : bool :=
  bool_decide (f ∈ [FEATURE_V6; FEATURE_V6K; FEATURE_V7; FEATURE_LPAE; FEATURE_PXN; FEATURE_EL3]).

Definition a15_reset_sctlr := 0x00c50078.

Definition kernel_env (y : symbols) (m : gmap Z Z) : CPUARMState :=
  mk_arm a15_features false 0 0x13 (fun _ => Z.lor (Z.ldiff a15_reset_sctlr 0xC0000003) SCTLR_M)
    (fun _ => mk_tcr 0 0 0xffffc000) (mk_tcr 0 0 0)
    (fun _ => page_table_lvl1 y + 0x21) (fun _ => 0) 0 (fun _ => 0) 0 0 0 0x55555555 0x55555555
    0 0 (fun _ => 0) (replicate 8 0) 0 0 0 [] [] [] (fun _ => []) (fun _ => []) 0 [] [] 0 None
    (fun _ a => Some (mem_byte m a)) 0.

(** ** What the builder does *)

(** The descriptor of a small page at [v]. *)
Definition page_entry (v flags : Z) : Z :=
  (Z.land (u32 v) 0xFFFFF000 .| Z.land flags 0xFFF .| 0x2)%c.

Lemma word_insert m a b x : word (<[a := x]> m) b = if a =? b then x else word m b.
Proof.
  unfold word. destruct (Z.eqb_spec a b) as [->|Hne]; [by rewrite lookup_insert_eq|by rewrite lookup_insert_ne].
Qed.

Lemma word_insert_ne m a b x : a <> b -> word (<[a := x]> m) b = word m b.
Proof. intros. by rewrite word_insert, (proj2 (Z.eqb_neq _ _)). Qed.

(** The entries of the table from [e] on are set while [start] is below the end; the
    fuel is enough. *)
Lemma l2_loop_spec fuel : forall pg start end_ v flags e m,
  0 <= pg -> pg + 1024 <= 2 ^ 32 -> 0 <= e <= 256 -> 256 - e <= Z.of_nat fuel ->
  0 <= start -> start + (256 - e) * 0x1000 < 2 ^ 32 -> 0 <= v < 2 ^ 32 ->
  (forall j, 0 <= j < 256 ->
    word (l2_loop fuel pg start end_ v flags e m) (pg + 4 * j) =
    if (e <=? j) && (start + (j - e) * 0x1000 <? end_)
    then page_entry (v + (j - e) * 0x1000) flags else word m (pg + 4 * j)) /\
  (forall a, a < pg \/ pg + 1024 <= a -> word (l2_loop fuel pg start end_ v flags e m) a = word m a).
Proof.
  induction fuel as [|fuel IH]; intros pg start end_ v flags e m Hpg1 Hpg2 He Hf Hs1 Hs2 Hv; cbn [l2_loop].
  { split; [|done]. intros j Hj. by rewrite (proj2 (Z.leb_gt e j)) by lia. }
  destruct (Z.ltb_spec start end_) as [Hse|Hse]; cbn [andb].
  2:{ split; [|done]. intros j Hj. destruct (Z.leb_spec e j); [|done]. by rewrite (proj2 (Z.ltb_ge _ _)) by lia. }
  destruct (Z.ltb_spec e 256) as [He'|He'].
  2:{ split; [|done]. intros j Hj. by rewrite (proj2 (Z.leb_gt e j)) by lia. }
  assert (Hel : elem pg e = pg + 4 * e) by (unfold elem; by rewrite wrap_small by lia).
  rewrite Hel. set (x := (_ .| _ .| 2)%c).
  assert (Hx : x = page_entry v flags) by (unfold page_entry; by rewrite (wrap_small 32 v)).
  rewrite (wrap_small 32 (start + 0x1000)) by lia.
  destruct (IH pg (start + 0x1000) end_ (u32 (v + 0x1000)) flags (e + 1) (<[pg + 4 * e := x]> m))
    as [H1 H2]; try lia. { apply wrap_range. lia. }
  split; [|intros a Ha; rewrite H2 by done; by rewrite word_insert_ne by lia].
  intros j Hj. rewrite H1 by done. unfold page_entry at 1. rewrite wrap_add_l.
  destruct (decide (j = e)) as [->|Hne].
  - rewrite (proj2 (Z.leb_gt (e + 1) e)), Z.leb_refl by lia. cbn [andb].
    rewrite Z.sub_diag, Z.mul_0_l, !Z.add_0_r, (proj2 (Z.ltb_lt _ _)) by done.
    by rewrite word_insert, Z.eqb_refl.
  - rewrite word_insert_ne by lia.
    replace (e + 1 <=? j) with (e <=? j) by (destruct (Z.leb_spec e j), (Z.leb_spec (e + 1) j); lia).
    replace (start + 0x1000 + (j - (e + 1)) * 0x1000) with (start + (j - e) * 0x1000) by lia.
    by replace (v + 0x1000 + (j - (e + 1)) * 0x1000) with (v + (j - e) * 0x1000) by lia.
Qed.

(** Page and megabyte of an address, and the place of the page in the megabyte. *)
Definition pn (a : Z) : Z := a / 0x1000.
Definition mb (a : Z) : Z := a / 0x100000.
Definition ix (a : Z) : Z := pn a mod 256.

Lemma pn_split a : pn a = 256 * mb a + ix a.
Proof.
  unfold ix, pn, mb. change 0x100000 with (0x1000 * 256). rewrite <- Z.div_div by lia.
  by apply Z.div_mod.
Qed.

Lemma ix_range a : 0 <= ix a < 256.
Proof. apply Z.mod_pos_bound. lia. Qed.

Lemma mb_range a : 0 <= a < 2 ^ 32 -> 0 <= mb a < 4096.
Proof. intros. unfold mb. split; [apply Z.div_pos; lia|apply Z.div_lt_upper_bound; lia]. Qed.

Lemma land_low20 a : Z.land a 0xFFFFF / 0x1000 = ix a.
Proof.
  change 0xFFFFF with (Z.ones 20). rewrite Z.land_ones by lia. unfold ix, pn.
  change (2 ^ 20) with (0x1000 * 256). rewrite Z.rem_mul_r by lia.
  rewrite Z.mul_comm, Z.div_add by lia. rewrite Z.div_small; [lia|]. apply Z.mod_pos_bound. lia.
Qed.

Lemma land_page a : 0 <= a < 2 ^ 32 -> Z.land a 0xFFFFF000 = 0x1000 * pn a.
Proof.
  intros Ha. unfold pn.
  replace (0x1000 * (a / 0x1000)) with (Z.shiftl (Z.shiftr a 12) 12)
    by (rewrite Z.shiftl_mul_pow2, Z.shiftr_div_pow2 by lia; change (2 ^ 12) with 0x1000; lia).
  change 0xFFFFF000 with (Z.shiftl (Z.ones 20) 12). bits.
Qed.

Lemma set_l2_spec pg start end_ v flags m :
  0 <= pg -> pg + 1024 <= 2 ^ 32 -> 0 <= start < 0xFFF00000 -> 0 <= v < 2 ^ 32 ->
  (forall va, mb va = mb start ->
    word (set_l2_pgt_entry pg start end_ v flags m) (pg + 4 * ix va) =
    if (pn start <=? pn va) && (0x1000 * pn va <? end_)
    then page_entry (v + 0x1000 * (pn va - pn start)) flags else word m (pg + 4 * ix va)) /\
  (forall a, a < pg \/ pg + 1024 <= a -> word (set_l2_pgt_entry pg start end_ v flags m) a = word m a).
Proof.
  intros Hpg1 Hpg2 Hs Hv. unfold set_l2_pgt_entry. rewrite land_low20, land_page by lia.
  pose proof (ix_range start) as Hix. pose proof (pn_split start) as Hpn.
  assert (Hmb : 0 <= mb start < 4095).
  { unfold mb. split; [apply Z.div_pos; lia|apply Z.div_lt_upper_bound; lia]. }
  destruct (l2_loop_spec 256 pg (0x1000 * pn start) end_ v flags (ix start) m) as [H1 H2]; try lia.
  split; [|done]. intros va Hva. rewrite H1 by apply ix_range.
  assert (Hd : pn va - pn start = ix va - ix start) by (rewrite (pn_split va), Hva; lia).
  replace (pn start <=? pn va) with (ix start <=? ix va)
    by (destruct (Z.leb_spec (ix start) (ix va)), (Z.leb_spec (pn start) (pn va)); lia).
  replace (0x1000 * pn start + (ix va - ix start) * 0x1000) with (0x1000 * pn va) by lia.
  by replace ((ix va - ix start) * 0x1000) with (0x1000 * (pn va - pn start)) by lia.
Qed.

(** ** The tables *)

Section tables.
(** The first level is at [l1], the second-level tables are allocated from [l2] on. *)
Context (l1 l2 : Z).

Record layout : Prop := {
  lay_l1 : 0 <= l1;
  lay_align1 : l1 mod 0x4000 = 0;
  lay_l2 : l1 + 0x4000 <= l2;
  lay_end : l2 + 4096 * 1024 < 2 ^ 32;
  lay_align : l2 mod 1024 = 0
}.

(** The descriptor the two levels give for an address; zero when there is none. *)
Definition page_desc (m : gmap Z Z) (va : Z) : Z :=
  let e := word m (l1 + 4 * mb va) in
  if e =? 0 then 0 else word m (Z.land e 0xFFFFFC00 + 4 * ix va).

(** Table number [k] is the one of megabyte [tabs !! k]; the other entries of the first
    level are empty, and so is the memory after the last table. *)
Record pt_ok (s : pgt) (tabs : list Z) : Prop := {
  po_last : last_l2_table s = l2 + 1024 * Z.of_nat (length tabs);
  po_nodup : NoDup tabs;
  po_range : Forall (fun i => 0 <= i < 4096) tabs;
  po_entry k i : tabs !! k = Some i ->
    word (pg_mem s) (l1 + 4 * i) = 9 + (l2 + 1024 * Z.of_nat k);
  po_free i : 0 <= i < 4096 -> i ∉ tabs -> word (pg_mem s) (l1 + 4 * i) = 0;
  po_fresh a : last_l2_table s <= a < l2 + 4096 * 1024 -> word (pg_mem s) a = 0
}.

Lemma tabs_bound tabs :
  NoDup tabs -> Forall (fun i => 0 <= i < 4096) tabs -> Z.of_nat (length tabs) <= 4096.
Proof.
  intros Hn Hr. assert (Hs : tabs ⊆+ seqZ 0 4096).
  { apply NoDup_submseteq; [done|]. intros i Hi. rewrite Forall_forall in Hr.
    apply elem_of_seqZ. specialize (Hr i Hi). lia. }
  apply submseteq_length in Hs. rewrite length_seqZ in Hs. lia.
Qed.

Context (Hlay : layout).

Lemma table_align k : 0 <= k < 4096 -> exists q, 0 <= q < 2 ^ 22 /\ l2 + 1024 * k = Z.shiftl q 10.
Proof.
  destruct Hlay as [H1 HA H2 H3 H4]. intros Hk. exists ((l2 + 1024 * k) / 1024).
  assert (Hm : (l2 + 1024 * k) mod 1024 = 0).
  { rewrite Z.mul_comm, Z.mod_add by lia. done. }
  pose proof (Z.div_mod (l2 + 1024 * k) 1024 ltac:(lia)) as Hd.
  rewrite Z.shiftl_mul_pow2 by lia. change (2 ^ 10) with 1024. split; [|lia].
  split; [apply Z.div_pos; lia|apply Z.div_lt_upper_bound; lia].
Qed.

Lemma entry_of_table k : 0 <= k < 4096 ->
  Z.lor 9 (l2 + 1024 * k) = 9 + (l2 + 1024 * k) /\
  Z.land (9 + (l2 + 1024 * k)) 0xFFFFFC00 = l2 + 1024 * k.
Proof.
  intros Hk. destruct (table_align k Hk) as (q & Hq & ->).
  assert (H9 : 0 <= 9 < 2 ^ 4) by lia. set (n := 9) in *. clearbody n.
  assert (Ha : Z.lor n (Z.shiftl q 10) = n + Z.shiftl q 10) by (apply lor_shiftl_add; lia).
  split; [done|]. rewrite <- Ha. change 0xFFFFFC00 with (Z.shiftl (Z.ones 22) 10). bits.
  by rewrite (Z.testbit_neg_r q) by lia.
Qed.

Lemma desc_in s tabs k va :
  pt_ok s tabs -> tabs !! k = Some (mb va) ->
  page_desc (pg_mem s) va = word (pg_mem s) (l2 + 1024 * Z.of_nat k + 4 * ix va).
Proof.
  intros H Hk. pose proof (tabs_bound tabs (po_nodup _ _ H) (po_range _ _ H)) as Hb.
  pose proof (lookup_lt_Some _ _ _ Hk) as Hlt. destruct Hlay as [L1 LA L2 L3 L4].
  unfold page_desc. rewrite (po_entry _ _ H _ _ Hk). cbv zeta.
  rewrite (proj2 (Z.eqb_neq _ 0)) by lia. by rewrite (proj2 (entry_of_table (Z.of_nat k) ltac:(lia))).
Qed.

Lemma desc_out s tabs va :
  pt_ok s tabs -> 0 <= va < 2 ^ 32 -> mb va ∉ tabs -> page_desc (pg_mem s) va = 0.
Proof.
  intros H Hva Hn. unfold page_desc. rewrite (po_free _ _ H) by (done || by apply mb_range). done.
Qed.

(** The effect of a call: the pages of the range that are in the first megabyte. *)
Definition in_call (start end_ va : Z) : bool :=
  (mb va =? mb start) && (pn start <=? pn va) && (0x1000 * pn va <? end_).

Definition call_desc (start end_ v flags : Z) (old : Z -> Z) (va : Z) : Z :=
  if in_call start end_ va then page_entry (v + 0x1000 * (pn va - pn start)) flags else old va.

(** A round on a megabyte that has a table. *)
Lemma round_old s tabs k start end_ v flags :
  pt_ok s tabs -> tabs !! k = Some (mb start) -> 0 <= start < 0xFFF00000 -> 0 <= v < 2 ^ 32 ->
  let s' := set_l1_round l1 start end_ v flags s in
  pt_ok s' tabs /\
  forall va, 0 <= va < 2 ^ 32 ->
    page_desc (pg_mem s') va = call_desc start end_ v flags (page_desc (pg_mem s)) va.
Proof.
  intros H Hk Hs Hv s'. pose proof (tabs_bound tabs (po_nodup _ _ H) (po_range _ _ H)) as Hb.
  pose proof (lookup_lt_Some _ _ _ Hk) as Hlt. pose proof (mb_range start ltac:(lia)) as Hmb.
  pose proof Hlay as [L1 LA L2 L3 L4]. set (t := l2 + 1024 * Z.of_nat k).
  destruct (set_l2_spec t start end_ v flags (pg_mem s)) as [Hin Hout]; try lia.
  assert (Hs' : s' = mk_pgt (set_l2_pgt_entry t start end_ v flags (pg_mem s)) (last_l2_table s)).
  { unfold s', set_l1_round, elem. fold (mb start). rewrite wrap_small by lia.
    rewrite (po_entry _ _ H _ _ Hk), (proj2 (Z.eqb_neq _ 0)) by lia.
    by rewrite (proj2 (entry_of_table (Z.of_nat k) ltac:(lia))). }
  assert (Hok : pt_ok s' tabs).
  { rewrite Hs'. destruct H as [P1 P2 P3 P4 P5 P6]. split; cbn [pg_mem last_l2_table]; try done.
    - intros k' i' Hk'. rewrite Hout; [by apply P4|]. left.
      rewrite Forall_forall in P3. pose proof (P3 i' (list_elem_of_lookup_2 _ _ _ Hk')). lia.
    - intros i' Hi' Hn. rewrite Hout; [by apply P5|]. left. lia.
    - intros a Ha. rewrite Hout; [by apply P6|]. right. lia. }
  split; [done|]. intros va Hva. unfold call_desc, in_call.
  destruct (Z.eqb_spec (mb va) (mb start)) as [He|He]; cbn [andb].
  - rewrite !(desc_in _ tabs k va) by (done || by rewrite He). rewrite Hs'. cbn [pg_mem]. by apply Hin.
  - destruct (decide (mb va ∈ tabs)) as [Hin'|Hn]; [|by rewrite !(desc_out _ tabs)].
    apply list_elem_of_lookup in Hin' as [k' Hk']. rewrite !(desc_in _ tabs k' va) by done.
    rewrite Hs'. cbn [pg_mem]. apply Hout. pose proof (ix_range va).
    assert (k' <> k) by (intros ->; rewrite Hk in Hk'; injection Hk' as E; lia). lia.
Qed.

(** A round on a megabyte that has none: the next table is taken. *)
Lemma round_new s tabs start end_ v flags :
  pt_ok s tabs -> mb start ∉ tabs -> 0 <= start < 0xFFF00000 -> 0 <= v < 2 ^ 32 ->
  let s' := set_l1_round l1 start end_ v flags s in
  pt_ok s' (tabs ++ [mb start]) /\
  forall va, 0 <= va < 2 ^ 32 ->
    page_desc (pg_mem s') va = call_desc start end_ v flags (page_desc (pg_mem s)) va.
Proof.
  intros H Hn Hs Hv s'. pose proof (mb_range start ltac:(lia)) as Hmb. pose proof Hlay as [L1 LA L2 L3 L4].
  assert (Hnd : NoDup (tabs ++ [mb start])).
  { apply NoDup_app. split; [apply (po_nodup _ _ H)|]. split; [|apply NoDup_singleton].
    intros x Hx Hx'. apply list_elem_of_singleton in Hx' as ->. done. }
  assert (Hrg : Forall (fun i => 0 <= i < 4096) (tabs ++ [mb start])).
  { apply Forall_app. split; [apply (po_range _ _ H)|]. by apply Forall_singleton. }
  pose proof (tabs_bound _ Hnd Hrg) as Hb. rewrite length_app in Hb. cbn in Hb.
  set (n := length tabs) in *. set (t := l2 + 1024 * Z.of_nat n).
  assert (Ht : last_l2_table s = t) by apply (po_last _ _ H).
  set (e := l1 + 4 * mb start). set (m1 := <[e := 9]> (pg_mem s)).
  destruct (set_l2_spec t start end_ v flags m1) as [Hin Hout]; try lia.
  assert (Hs' : s' = mk_pgt (<[e := 9 + t]> (set_l2_pgt_entry t start end_ v flags m1)) (t + 1024)).
  { unfold s', set_l1_round, elem. fold (mb start). rewrite wrap_small by lia. fold e.
    pose proof (po_free _ _ H (mb start) Hmb Hn) as Hz. fold e in Hz. rewrite Hz. unfold create_l2_pgt_entry. cbn [Z.eqb pg_mem last_l2_table].
    rewrite Ht. fold m1. rewrite Hout by lia. unfold m1 at 1. rewrite word_insert, Z.eqb_refl.
    rewrite (wrap_small 32 (t + 4 * 256)) by lia. pose proof (proj1 (entry_of_table (Z.of_nat n) ltac:(lia))) as He. fold t in He. by rewrite He. }
  assert (Hsame : forall a, a <> e -> a < t \/ t + 1024 <= a -> word (pg_mem s') a = word (pg_mem s) a).
  { intros a Ha Ha'. rewrite Hs'. cbn [pg_mem]. rewrite word_insert_ne, Hout by (done || congruence).
    unfold m1. by rewrite word_insert_ne by congruence. }
  assert (Hok : pt_ok s' (tabs ++ [mb start])).
  { destruct H as [P1 P2 P3 P4 P5 P6]. rewrite Forall_forall in P3. split; try done.
    - rewrite Hs', length_app. cbn. fold n. lia.
    - intros k i Hk. apply lookup_app_Some in Hk as [Hk|[Hlen Hk]].
      + pose proof (lookup_lt_Some _ _ _ Hk). pose proof (P3 i (list_elem_of_lookup_2 _ _ _ Hk)).
        rewrite Hsame; [by apply P4| |lia].
        assert (i <> mb start) by (intros ->; apply Hn; by apply list_elem_of_lookup_2 in Hk). lia.
      + fold n in Hk, Hlen. destruct (k - n)%nat as [|?] eqn:E; [|done]. injection Hk as <-.
        rewrite Hs'. cbn [pg_mem]. rewrite word_insert. fold e. rewrite Z.eqb_refl. lia.
    - intros i Hi Hni. rewrite elem_of_app, list_elem_of_singleton in Hni.
      rewrite Hsame; [apply P5; tauto| |lia]. assert (i <> mb start) by tauto. lia.
    - intros a Ha. rewrite Hs' in Ha. cbn [last_l2_table] in Ha. rewrite Hsame by lia. apply P6. lia. }
  split; [done|]. intros va Hva. unfold call_desc, in_call.
  destruct (Z.eqb_spec (mb va) (mb start)) as [He|He]; cbn [andb].
  - rewrite (desc_in s' _ n va Hok) by (rewrite He; by apply list_lookup_middle).
    rewrite (desc_out s tabs va H Hva) by (by rewrite He). fold t. rewrite Hs'. cbn [pg_mem].
    pose proof (ix_range va). rewrite word_insert_ne, Hin by (done || lia).
    destruct (_ && _); [done|]. unfold m1. rewrite word_insert_ne by lia. apply (po_fresh _ _ H). lia.
  - destruct (decide (mb va ∈ tabs)) as [Hi|Hni].
    + apply list_elem_of_lookup in Hi as [k Hk]. pose proof (lookup_lt_Some _ _ _ Hk).
      rewrite (desc_in s tabs k va H Hk), (desc_in s' _ k va Hok) by (by apply lookup_app_l_Some).
      pose proof (ix_range va). apply Hsame; lia.
    + rewrite (desc_out s tabs va H Hva Hni). apply (desc_out s' _ va Hok Hva).
      rewrite elem_of_app, list_elem_of_singleton. tauto.
Qed.

Lemma SAT_far x : 0 <= x < 0xFFEFFFFF -> SAT x 0x100000 0xFFFFFFFF = 0xFFFFFFFF.
Proof. intros. unfold SAT. by rewrite wrap_small, (proj2 (Z.ltb_lt _ _)) by lia. Qed.

(** A call, below the last megabyte. *)
(** The loop ends whatever the range: the first round takes [start] to the end of the address
    space, or past it back to the first megabyte and from there to the end. *)
Lemma set_l1_terminates table start end_ v flags s :
  0 <= start < 2 ^ 32 -> 0 <= end_ < 2 ^ 32 ->
  exists s', set_l1_pgt_entry table start end_ v flags s = Some s'.
Proof.
  intros Hs He. unfold set_l1_pgt_entry. cbn [l1_loop].
  destruct (Z.ltb_spec start end_); [|by eexists].
  destruct (Z.lt_ge_cases start 0xFFEFFFFF) as [Hlt|Hge].
  { rewrite (SAT_far start) by lia. rewrite (proj2 (Z.ltb_ge 0xFFFFFFFF end_)) by lia. by eexists. }
  assert (HS : SAT start 0x100000 0xFFFFFFFF = u32 (start + 0x100000)).
  { unfold SAT. rewrite (wrap_small 32 (0xFFFFFFFF - start)) by lia. by rewrite (proj2 (Z.ltb_ge _ _)) by lia. }
  rewrite HS. destruct (Z.ltb_spec (u32 (start + 0x100000)) end_) as [Hlt|]; [|by eexists].
  rewrite (SAT_far (u32 _)); [rewrite (proj2 (Z.ltb_ge 0xFFFFFFFF end_)) by lia; by eexists|].
  destruct (Z.eq_dec start 0xFFEFFFFF) as [->|];
    [change (u32 (0xFFEFFFFF + 0x100000)) with 0xFFFFFFFF in Hlt; lia|].
  replace (start + 0x100000) with (start + 0x100000 - 2 ^ 32 + 1 * 2 ^ 32) by lia.
  unfold wrap. rewrite Z.mod_add, Z.mod_small by lia. lia.
Qed.

Lemma call_refines s tabs start end_ v flags :
  pt_ok s tabs -> 0 <= start < 0xFFEFFFFF -> start < end_ < 2 ^ 32 -> 0 <= v < 2 ^ 32 ->
  exists s' tabs', set_l1_pgt_entry l1 start end_ v flags s = Some s' /\ pt_ok s' tabs' /\
    forall va, 0 <= va < 2 ^ 32 ->
      page_desc (pg_mem s') va = call_desc start end_ v flags (page_desc (pg_mem s)) va.
Proof.
  intros H Hs He Hv. unfold set_l1_pgt_entry. cbn [l1_loop].
  rewrite (proj2 (Z.ltb_lt start end_)), SAT_far, (proj2 (Z.ltb_ge 0xFFFFFFFF end_)) by lia.
  destruct (decide (mb start ∈ tabs)) as [Hi|Hn].
  - apply list_elem_of_lookup in Hi as [k Hk].
    destruct (round_old s tabs k start end_ v flags) as [Hok Hd]; [done|done|lia|done|]. eauto.
  - destruct (round_new s tabs start end_ v flags) as [Hok Hd]; [done|done|lia|done|]. eauto.
Qed.

(** The calls a kernel may make. *)
Definition mapping_ok (c : mapping) : Prop :=
  0 <= map_start c < 0xFFEFFFFF /\ map_start c < map_end c < 2 ^ 32 /\ 0 <= map_virt c < 2 ^ 32.

Definition mapping_desc (c : mapping) : (Z -> Z) -> Z -> Z :=
  call_desc (map_start c) (map_end c) (map_virt c) (map_flags c).

(** The pages a sequence of calls maps, by the last call that has the page. *)
Fixpoint calls_desc (cs : list mapping) (old : Z -> Z) : Z -> Z :=
  match cs with [] => old | c :: cs => calls_desc cs (mapping_desc c old) end.

Lemma calls_desc_ext cs : forall f g va, f va = g va -> calls_desc cs f va = calls_desc cs g va.
Proof.
  induction cs as [|c cs IH]; intros f g va H; [done|]. cbn. apply IH.
  unfold mapping_desc, call_desc. by destruct (in_call _ _ _).
Qed.

Lemma calls_refine cs : forall s tabs,
  pt_ok s tabs -> Forall mapping_ok cs ->
  exists s' tabs', set_mappings l1 cs s = Some s' /\ pt_ok s' tabs' /\
    forall va, 0 <= va < 2 ^ 32 -> page_desc (pg_mem s') va = calls_desc cs (page_desc (pg_mem s)) va.
Proof.
  induction cs as [|c cs IH]; intros s tabs H Hcs; [by exists s, tabs|].
  apply Forall_cons in Hcs as [(Hs & He & Hv) Hcs].
  destruct (call_refines s tabs _ _ _ (map_flags c) H Hs He Hv) as (s1 & tabs1 & Hr1 & H1 & Hd1).
  destruct (IH s1 tabs1 H1 Hcs) as (s2 & tabs2 & Hr2 & H2 & Hd2).
  exists s2, tabs2. cbn [set_mappings]. unfold set_mapping. rewrite Hr1. split; [exact Hr2|]. split; [done|].
  intros va Hva. rewrite Hd2 by done. cbn [calls_desc]. apply calls_desc_ext. by apply Hd1.
Qed.

Lemma word_clear n m : Z.of_nat n <= 4096 ->
  (forall i, 0 <= i < Z.of_nat n -> word (clear_l1 n l1 m) (l1 + 4 * i) = 0) /\
  (forall a, l1 + 0x4000 <= a -> word (clear_l1 n l1 m) a = word m a).
Proof.
  pose proof Hlay as [L1 LA L2 L3 L4]. induction n as [|n IH]; intros Hn; cbn [clear_l1]; [split; [lia|done]|].
  assert (He : elem l1 (Z.of_nat n) = l1 + 4 * Z.of_nat n) by (unfold elem; by rewrite wrap_small by lia).
  destruct IH as [H1 H2]; [lia|]. rewrite He. split.
  - intros i Hi. rewrite word_insert. destruct (Z.eqb_spec (l1 + 4 * Z.of_nat n) (l1 + 4 * i)); [done|].
    apply H1. lia.
  - intros a Ha. rewrite word_insert_ne by lia. by apply H2.
Qed.

(** Cleared, the first level maps nothing. *)
Lemma clear_ok m :
  (forall a, l2 <= a < l2 + 4096 * 1024 -> word m a = 0) ->
  let s := mk_pgt (clear_l1 4096 l1 m) l2 in
  pt_ok s [] /\ forall va, 0 <= va < 2 ^ 32 -> page_desc (pg_mem s) va = 0.
Proof.
  intros Hm s. pose proof Hlay as [L1 LA L2 L3 L4].
  destruct (word_clear 4096 m ltac:(lia)) as [H1 H2]. subst s. set (m' := clear_l1 4096 l1 m) in *. clearbody m'.
  assert (Hok : pt_ok (mk_pgt m' l2) []).
  { split; cbn [pg_mem last_l2_table length].
    - lia.
    - constructor.
    - constructor.
    - intros k i Hk. by rewrite lookup_nil in Hk.
    - intros i Hi _. apply H1. lia.
    - intros a Ha. rewrite H2 by lia. apply Hm. lia. }
  split; [done|]. intros va Hva. apply (desc_out _ [] va Hok Hva), not_elem_of_nil.
Qed.
End tables.

(** ** The walk *)

Lemma word_bytes w : 0 <= w < 2 ^ 32 ->
  u32 (le_val [u8 w; u8 (Z.shiftr w 8); u8 (Z.shiftr w 16); u8 (Z.shiftr w 24)]) = w.
Proof.
  intros Hw. unfold le_val, little_endian_to_Z. rewrite Z.shiftl_0_l, Z.lor_0_r.
  assert (E : w = (u8 w .| (u8 (Z.shiftr w 8) .| (u8 (Z.shiftr w 16) .| u8 (Z.shiftr w 24) ≪ 8) ≪ 8) ≪ 8)%c).
  { bits. }
  rewrite <- E. by apply wrap_small.
Qed.

Lemma aligned4 n t x : 0 < n -> t mod (4 * n) = 0 -> (t + 4 * x) mod 4 = 0.
Proof.
  intros Hn Hm. pose proof (Z.div_mod t (4 * n) ltac:(lia)) as Hd. rewrite Hm in Hd.
  rewrite Hd. replace (4 * n * (t / (4 * n)) + 0 + 4 * x) with ((n * (t / (4 * n)) + x) * 4) by lia.
  by apply Z.mod_mul.
Qed.

Section walk.
Context (y : symbols) (m : gmap Z Z) (W junk : Z).
Abbreviation env := (kernel_env y m).
Abbreviation lpae := (get_phys_addr_lpae W junk).

Lemma mem_byte_at a i : a mod 4 = 0 -> 0 <= i < 4 -> mem_byte m (a + i) = u8 (Z.shiftr (word m a) (8 * i)).
Proof.
  intros Ha Hi. unfold mem_byte.
  assert (Hm : (a + i) mod 4 = i) by (rewrite Z.add_mod, Ha, Z.add_0_l, Z.mod_mod by lia; by apply Z.mod_small).
  rewrite Hm. do 3 f_equal. lia.
Qed.

Lemma kernel_ldl secure a :
  a mod 4 = 0 -> 0 <= word m a < 2 ^ 32 ->
  address_space_ldl false secure a env = Done (Some (word m a), env).
Proof.
  intros Ha Hw. unfold address_space_ldl, gets. cbn [arm_mem kernel_env seq mapM].
  apply (f_equal (fun x => Done (x, env))).
  change (Some (u32 (le_val [mem_byte m (a + 0); mem_byte m (a + 1); mem_byte m (a + 2); mem_byte m (a + 3)]))
    = Some (word m a)).
  rewrite !mem_byte_at by (done || lia). rewrite Z.mul_0_r, Z.shiftr_0_r. f_equal. by apply word_bytes.
Qed.

Lemma kernel_ldl_desc a level domain :
  a mod 4 = 0 -> 0 <= word m a < 2 ^ 32 ->
  ldl_desc lpae junk a S1E3 level domain env = Done (inr (word m a), env).
Proof.
  intros Ha Hw. unfold ldl_desc.
  assert (Hp : arm_ldl_ptw lpae junk a true S1E3 env = Done (inr (word m a), env)).
  { unfold arm_ldl_ptw. rewrite (bind_step _ _ _ (inr a) env) by done.
    rewrite (bind_step _ _ _ false env) by done. by rewrite (bind_step _ _ _ _ _ (kernel_ldl true a Ha Hw)). }
  by rewrite (bind_step _ _ _ _ _ Hp).
Qed.

Context (Hl1 : 0 <= page_table_lvl1 y < 2 ^ 32) (Ha1 : page_table_lvl1 y mod 0x4000 = 0).

Lemma l1_address va :
  0 <= va < 2 ^ 32 ->
  Z.lor (u32 (Z.land (page_table_lvl1 y + 0x21) 0xffffc000)) (Z.land (Z.shiftr va 18) 0x3ffc)
  = page_table_lvl1 y + 4 * mb va.
Proof.
  intros Hva. set (q := page_table_lvl1 y / 0x4000).
  assert (Hq : page_table_lvl1 y = Z.shiftl q 14).
  { rewrite Z.shiftl_mul_pow2 by lia. change (2 ^ 14) with 0x4000.
    pose proof (Z.div_mod (page_table_lvl1 y) 0x4000 ltac:(lia)). lia. }
  assert (Hqr : 0 <= q < 2 ^ 18).
  { unfold q. split; [apply Z.div_pos; lia|apply Z.div_lt_upper_bound; lia]. }
  rewrite Hq, Z.add_comm, <- lor_shiftl_add by lia.
  assert (Hb : u32 (Z.land (Z.lor 33 (Z.shiftl q 14)) 0xffffc000) = Z.shiftl q 14).
  { assert (H33 : 0 <= 33 < 2 ^ 6) by lia. set (n := 33) in *. clearbody n.
    change 0xffffc000 with (Z.shiftl (Z.ones 18) 14). bits. by rewrite (Z.testbit_neg_r q) by lia. }
  assert (Hm : Z.land (Z.shiftr va 18) 0x3ffc = 4 * mb va).
  { unfold mb. change 0x100000 with (2 ^ 20). rewrite <- Z.shiftr_div_pow2, Z.mul_comm by lia.
    change 4 with (2 ^ 2). rewrite <- Z.shiftl_mul_pow2 by lia.
    change 0x3ffc with (Z.shiftl (Z.ones 12) 2). bits. }
  rewrite Hb, Hm, Z.lor_comm, lor_shiftl_add; [lia|lia|]. pose proof (mb_range va Hva). lia.
Qed.

Lemma kernel_level1 va :
  0 <= va < 2 ^ 32 -> 0 <= word m (page_table_lvl1 y + 4 * mb va) < 2 ^ 32 ->
  level1_desc lpae junk S1E3 va env = Done (inr (word m (page_table_lvl1 y + 4 * mb va)), env).
Proof.
  intros Hva Hw. unfold level1_desc.
  assert (Ht : get_level1_table_address S1E3 va env = Done (Some (page_table_lvl1 y + 4 * mb va), env)).
  { rewrite <- (l1_address va Hva). unfold get_level1_table_address.
    rewrite (bind_step _ _ _ (mk_tcr 0 0 0xffffc000) env) by done. unfold bit_any. cbn [tcr_mask raw_tcr base_mask].
    rewrite Z.land_0_r. done. }
  rewrite (bind_step _ _ _ _ _ Ht). apply kernel_ldl_desc; [|done].
  by apply (aligned4 0x1000).
Qed.

(** An entry of the first level that points to a table. *)
Lemma table_entry_fields t :
  0 <= t < 2 ^ 32 -> t mod 1024 = 0 ->
  let e := 9 + t in
  Z.land e 3 = 1 /\ Z.land (Z.shiftr e 5) 0xf = 0 /\ Z.land (Z.shiftr e 2) 1 = 0 /\
  Z.land e 0xfffffc00 = t.
Proof.
  intros Ht Hm. set (q := t / 1024).
  assert (Hq : t = Z.shiftl q 10).
  { rewrite Z.shiftl_mul_pow2 by lia. change (2 ^ 10) with 1024. pose proof (Z.div_mod t 1024 ltac:(lia)). lia. }
  assert (Hqr : 0 <= q < 2 ^ 22).
  { unfold q. split; [apply Z.div_pos; lia|apply Z.div_lt_upper_bound; lia]. }
  rewrite Hq, <- lor_shiftl_add by lia. cbv zeta.
  assert (Hlow : forall a k, 0 <= k -> a + k <= 10 ->
    Z.land (Z.shiftr (Z.lor 9 (Z.shiftl q 10)) a) (Z.ones k) = Z.land (Z.shiftr 9 a) (Z.ones k)).
  { intros a k Hk Hak. rewrite Z.shiftr_lor, Z.land_lor_distr_l.
    replace (Z.land (Z.shiftr (Z.shiftl q 10) a) (Z.ones k)) with 0; [apply Z.lor_0_r|].
    symmetry. bits. by rewrite (Z.testbit_neg_r q) by lia. }
  pose proof (Hlow 0 2 ltac:(lia) ltac:(lia)) as H0. rewrite !Z.shiftr_0_r in H0.
  split; [exact H0|]. split; [exact (Hlow 5 4 ltac:(lia) ltac:(lia))|].
  split; [exact (Hlow 2 1 ltac:(lia) ltac:(lia))|].
  assert (H9 : 0 <= 9 < 2 ^ 4) by lia. set (n := 9) in *. clearbody n.
  change 0xfffffc00 with (Z.shiftl (Z.ones 22) 10). bits. by rewrite (Z.testbit_neg_r q) by lia.
Qed.

(** The descriptors of small pages that everybody may read, write and execute. *)
Definition open_page (d : Z) : Prop :=
  Z.land d 3 = 2 /\ Z.lor (Z.land (Z.shiftr d 4) 3) (Z.land (Z.shiftr d 7) 4) = 3 /\ Z.land d 1 = 0.

Lemma kernel_v6 va t tb d :
  0 <= va < 2 ^ 32 -> 0 <= t < 3 -> 0 <= tb < 2 ^ 32 - 1024 -> tb mod 1024 = 0 ->
  word m (page_table_lvl1 y + 4 * mb va) = 9 + tb -> word m (tb + 4 * ix va) = d -> 0 <= d < 2 ^ 32 ->
  d = 0 \/ open_page d ->
  get_phys_addr_v6 lpae junk va t S1E3 env =
  Done (if d =? 0 then inl (mk_fi ARMFault_Translation 2 0)
        else inr (Z.lor (Z.land d 0xfffff000) (Z.land va 0xfff), 7), env).
Proof.
  intros Hva Ht Htb Htm He Hd Hdr Hopen.
  destruct (table_entry_fields tb ltac:(lia) Htm) as (E1 & E2 & E3 & E4).
  unfold get_phys_addr_v6, walk_bind.
  rewrite (bind_step _ _ _ _ _ (kernel_level1 va Hva ltac:(rewrite He; lia))), He, E1, E2.
  rewrite (bind_step _ _ _ true env) by done. cbn [Z.eqb Pos.eqb orb andb].
  rewrite (bind_step _ _ _ 0x55555555 env) by done. cbv zeta.
  change (Z.land (Z.shiftr 0x55555555 (0 * 2)) 3) with 1. cbn [Z.eqb Pos.eqb orb].
  assert (Hix : Z.land (Z.shiftr va 10) 0x3fc = 4 * ix va).
  { rewrite <- land_low20. change 0xFFFFF with (Z.ones 20). change 0x1000 with (2 ^ 12).
    rewrite <- Z.shiftr_div_pow2, Z.mul_comm by lia. change 4 with (2 ^ 2). rewrite <- Z.shiftl_mul_pow2 by lia.
    change 0x3fc with (Z.shiftl (Z.ones 8) 2). bits. }
  assert (Hta : Z.lor tb (4 * ix va) = tb + 4 * ix va).
  { pose proof (ix_range va). rewrite Z.lor_comm.
    pose proof (Z.div_mod tb 1024 ltac:(lia)) as Hdm. rewrite Htm in Hdm.
    replace tb with (Z.shiftl (tb / 1024) 10) by (rewrite Z.shiftl_mul_pow2 by lia; change (2 ^ 10) with 1024; lia).
    rewrite lor_shiftl_add by lia. lia. }
  assert (Hpage : v6_page lpae junk S1E3 va (9 + tb) 0 env =
    Done (if d =? 0 then inl (mk_fi ARMFault_Translation 2 0)
          else inr (Z.lor (Z.land d 0xfffff000) (Z.land va 0xfff), 3, 0, 0), env)).
  { unfold v6_page, walk_bind. rewrite (bind_step _ _ _ true env) by done. cbv zeta.
    rewrite E3, E4, Hix, Hta.
    rewrite (bind_step _ _ _ _ _ (kernel_ldl_desc (tb + 4 * ix va) 2 0 (aligned4 256 tb _ ltac:(lia) Htm) ltac:(rewrite Hd; lia))), Hd.
    destruct Hopen as [->|(K1 & K2 & K3)]; [done|]. rewrite K1, K2, K3.
    destruct (Z.eqb_spec d 0) as [->|]; [done|]. done. }
  rewrite (bind_step _ _ _ _ _ Hpage). destruct (d =? 0); [done|].
  assert (Hp : v6_prot S1E3 t 3 0 0 1 2 0 env = Done (inr 7, env)).
  { assert (t = 0 \/ t = 1 \/ t = 2) as [->|[->| ->]] by lia; reflexivity. }
  by rewrite (bind_step _ _ _ _ _ Hp).
Qed.

Lemma kernel_v6_none va t :
  0 <= va < 2 ^ 32 -> word m (page_table_lvl1 y + 4 * mb va) = 0 ->
  get_phys_addr_v6 lpae junk va t S1E3 env = Done (inl (mk_fi ARMFault_Translation 1 0), env).
Proof.
  intros Hva He. unfold get_phys_addr_v6, walk_bind.
  by rewrite (bind_step _ _ _ _ _ (kernel_level1 va Hva ltac:(rewrite He; lia))), He.
Qed.

Lemma kernel_dispatch va t :
  32 <= W -> 0 <= va < 2 ^ 32 ->
  arm_get_phys_addr W junk va t S1E3 env =
  (r ← get_phys_addr_v6 lpae junk va t S1E3; mret (walk_xlat r)) env.
Proof.
  intros HW Hva. unfold arm_get_phys_addr, get_phys_addr.
  rewrite (bind_step _ _ _ false env) by done. cbn [bool_decide andb].
  rewrite andb_false_r. unfold get_phys_addr_stage1. cbn [stage_1_mmu_idx].
  rewrite (bind_step _ _ _ false env), (bind_step _ _ _ false env) by done.
  assert (Hf : (if (va <? 0x02000000) && negb (bool_decide (S1E3 = S2NS)) && negb false then
               el ← regime_el S1E3;
               fcse ← gets (if el =? 3 then fcseidr_s else fcseidr_ns);
               mret (wrap W (va + fcse))
             else mret va) env = Done (va, env)).
  { destruct (_ && _ && _); [|done]. unfold mbind, C_bind. cbn. rewrite Z.add_0_r. rewrite wrap_small; [done|].
    pose proof (Z.pow_le_mono_r 2 32 W ltac:(lia) HW). lia. }
  rewrite (bind_step _ _ _ _ _ Hf). rewrite (bind_step _ _ _ false env) by done. cbv iota.
  rewrite (bind_step _ _ _ false env) by done. cbv iota.
  rewrite (bind_step _ _ _ false env) by done. cbv iota.
  rewrite (bind_step _ _ _ (u32 (Z.lor (Z.ldiff a15_reset_sctlr 0xC0000003) SCTLR_M)) env) by done.
  change (bit_any _ SCTLR_XP) with true. cbv iota. by rewrite (wrap_small 32 va).
Qed.

(** The physical address of a descriptor; the tracer records 0 for a translation that
    fails. *)
Definition desc_pa (d va : Z) : Z :=
  if d =? 0 then 0 else Z.lor (Z.land d 0xfffff000) (Z.land va 0xfff).

Lemma kernel_translates l2 last tabs va t :
  32 <= W -> 0 <= va < 2 ^ 32 -> 0 <= t < 3 ->
  layout (page_table_lvl1 y) l2 -> pt_ok (page_table_lvl1 y) l2 (mk_pgt m last) tabs ->
  let d := page_desc (page_table_lvl1 y) m va in
  0 <= d < 2 ^ 32 -> d = 0 \/ open_page d ->
  exists x, arm_get_phys_addr W junk va t S1E3 env = Done (x, env) /\
    default 0 (x_phys x) = desc_pa d va /\ x_attrs x = None /\ (x_fault x = None <-> d <> 0).
Proof.
  intros HW Hva Ht Hlay Hok d Hdr Hopen.
  destruct (decide (mb va ∈ tabs)) as [Hi|Hn].
  - apply list_elem_of_lookup in Hi as [k Hk].
    pose proof (tabs_bound tabs (po_nodup _ _ _ _ Hok) (po_range _ _ _ _ Hok)) as Hb.
    pose proof (lookup_lt_Some _ _ _ Hk) as Hlt. pose proof Hlay as [L1 LA L2 L3 L4].
    assert (Hd : word m (l2 + 1024 * Z.of_nat k + 4 * ix va) = d)
      by (symmetry; exact (desc_in _ _ Hlay _ _ _ _ Hok Hk)).
    assert (Htm : (l2 + 1024 * Z.of_nat k) mod 1024 = 0) by (rewrite Z.mul_comm, Z.mod_add by lia; done).
    pose proof (kernel_v6 va t (l2 + 1024 * Z.of_nat k) d Hva Ht ltac:(lia) Htm
      (po_entry _ _ _ _ Hok _ _ Hk) Hd Hdr Hopen) as Hw.
    eexists. rewrite (kernel_dispatch va t HW Hva), (bind_step _ _ _ _ _ Hw). split; [reflexivity|].
    unfold desc_pa. destruct (Z.eqb_spec d 0); cbn; (split; [done|]); (split; [done|]); split; done || congruence.
  - assert (Hz : d = 0) by exact (desc_out _ _ _ _ _ Hok Hva Hn).
    pose proof (po_free _ _ _ _ Hok (mb va) (mb_range va Hva) Hn) as He.
    eexists. rewrite (kernel_dispatch va t HW Hva), (bind_step _ _ _ _ _ (kernel_v6_none va t Hva He)).
    split; [reflexivity|]. unfold desc_pa. rewrite Hz. cbn. split; [done|]. split; [done|]. split; done.
Qed.
End walk.

(** ** The descriptors of the builder *)

Lemma page_entry_low v flags i : 0 <= i < 12 ->
  Z.testbit (page_entry v flags) i = Z.testbit flags i || (i =? 1).
Proof.
  intros Hi. unfold page_entry. change 0xFFFFF000 with (Z.shiftl (Z.ones 20) 12). change 0xFFF with (Z.ones 12).
  rewrite !Z.lor_spec, !Z.land_spec, Z.shiftl_spec, (Z.testbit_neg_r (Z.ones 20)), andb_false_r by lia.
  rewrite Z.ones_spec_low, andb_true_r by lia. cbn [orb]. f_equal.
  assert (Hi' := Hi). below_cases 12%nat Hi'; reflexivity.
Qed.

Lemma page_entry_high v flags : Z.land (page_entry v flags) 0xfffff000 = Z.land (u32 v) 0xFFFFF000.
Proof.
  assert (H : forall n, 0 <= n < 2 ^ 12 ->
    Z.land (Z.land (u32 v) (Z.shiftl (Z.ones 20) 12) .| Z.land flags (Z.ones 12) .| n)%c
      (Z.shiftl (Z.ones 20) 12) = Z.land (u32 v) (Z.shiftl (Z.ones 20) 12)) by (intros n Hn; bits).
  apply H. lia.
Qed.

Lemma page_entry_range v flags : 0 <= page_entry v flags < 2 ^ 32.
Proof.
  unfold page_entry. rewrite <- Z.lor_assoc. apply lor_range; [lia|apply land_range; lia|].
  apply lor_range; [lia|apply land_range; lia|lia].
Qed.

(** Flags for everybody: no XN, all access permissions. *)
Definition open_flags (flags : Z) : Prop := Z.land flags 0x231 = 0x30.

Lemma page_entry_open v flags : open_flags flags -> open_page (page_entry v flags).
Proof.
  intros Hf.
  assert (Hb : forall i, Z.testbit (Z.land flags 0x231) i = Z.testbit 0x30 i) by (intros i; by rewrite Hf).
  pose proof (Hb 0) as H0. pose proof (Hb 4) as H4. pose proof (Hb 5) as H5. pose proof (Hb 9) as H9.
  rewrite Z.land_spec, andb_true_r in H0, H4, H5, H9.
  assert (Hl : forall i, 0 <= i < 12 -> Z.testbit (page_entry v flags) i = Z.testbit flags i || (i =? 1))
    by (intros; by apply page_entry_low).
  set (d := page_entry v flags) in *. clearbody d. split_and!.
  - change 3 with (Z.ones 2). apply Z.bits_inj'. intros i Hi. rewrite Z.land_spec.
    destruct (Z.lt_ge_cases i 2); [|rewrite Z.ones_spec_high by lia; rewrite andb_false_r;
      symmetry; apply (testbit_above 2 2); lia].
    assert (i = 0 \/ i = 1) as [->| ->] by lia; rewrite Hl, ?H0 by lia; [reflexivity|by rewrite orb_true_r].
  - apply Z.bits_inj'. intros i Hi. rewrite Z.lor_spec, !Z.land_spec, !Z.shiftr_spec by lia.
    destruct (Z.lt_ge_cases i 3);
      [|rewrite (testbit_above 3 3 i), (testbit_above 3 4 i) by lia; by rewrite !andb_false_r].
    assert (i = 0 \/ i = 1 \/ i = 2) as [->|[->| ->]] by lia.
    + rewrite !Z.add_0_l, (Hl 4), H4 by lia. by destruct (Z.testbit d 7).
    + change (1 + 4) with 5. change (1 + 7) with 8. rewrite (Hl 5), H5 by lia. by destruct (Z.testbit d 8).
    + change (2 + 4) with 6. change (2 + 7) with 9. rewrite (Hl 9), H9 by lia. by destruct (Z.testbit d 6).
  - change 1 with (Z.ones 1). apply Z.bits_inj'. intros i Hi. rewrite Z.land_spec, Z.bits_0.
    destruct (decide (i = 0)) as [->|]; [by rewrite Hl, H0 by lia|].
    by rewrite Z.ones_spec_high, andb_false_r by lia.
Qed.

Lemma calls_desc_open cs va :
  Forall (fun c => open_flags (map_flags c)) cs -> forall f,
  (0 <= f va < 2 ^ 32 /\ (f va = 0 \/ open_page (f va))) ->
  let d := calls_desc cs f va in 0 <= d < 2 ^ 32 /\ (d = 0 \/ open_page d).
Proof.
  induction cs as [|c cs IH]; intros Hcs f Hf; [done|]. apply Forall_cons in Hcs as [Hc Hcs]. cbn.
  apply IH; [done|]. unfold mapping_desc, call_desc. destruct (in_call _ _ _); [|done].
  split; [apply page_entry_range|]. right. by apply page_entry_open.
Qed.

(** The last call that has the page of an address. *)
Fixpoint last_call (cs : list mapping) (va : Z) : option mapping :=
  match cs with
  | [] => None
  | c :: cs =>
      match last_call cs va with
      | Some c => Some c
      | None => if in_call (map_start c) (map_end c) va then Some c else None
      end
  end.

Lemma last_call_in cs va c :
  last_call cs va = Some c -> c ∈ cs /\ in_call (map_start c) (map_end c) va = true.
Proof.
  induction cs as [|x cs IH]; [done|]. cbn [last_call]. destruct (last_call cs va) as [z|].
  - intros [= ->]. destruct (IH eq_refl). split; [by right|done].
  - destruct (in_call (map_start x) (map_end x) va) eqn:E; [|done]. intros [= ->]. split; [by left|done].
Qed.

Lemma calls_desc_last cs va : forall f,
  calls_desc cs f va =
  match last_call cs va with
  | Some c => page_entry (map_virt c + 0x1000 * (pn va - pn (map_start c))) (map_flags c)
  | None => f va
  end.
Proof.
  induction cs as [|c cs IH]; intros f; [done|]. cbn [calls_desc last_call]. rewrite IH. destruct (last_call cs va); [done|].
  unfold mapping_desc, call_desc. by destruct (in_call _ _ va).
Qed.

(** Whole pages, and an image within the address space. *)
Definition mapping_aligned (c : mapping) : Prop :=
  map_start c mod 0x1000 = 0 /\ map_virt c mod 0x1000 = 0 /\
  map_virt c + (map_end c - map_start c) + 0x1000 <= 2 ^ 32.

Definition mapped_to (cs : list mapping) (va : Z) : Z :=
  match last_call cs va with Some c => map_virt c + (va - map_start c) | None => 0 end.

Lemma desc_pa_mapped cs va :
  0 <= va < 2 ^ 32 -> Forall mapping_ok cs -> Forall mapping_aligned cs ->
  desc_pa (calls_desc cs (fun _ => 0) va) va = mapped_to cs va.
Proof.
  intros Hva Hok Hal. rewrite calls_desc_last. unfold desc_pa, mapped_to.
  destruct (last_call cs va) as [c|] eqn:Hl; [|done].
  apply last_call_in in Hl as [Hin Hc]. rewrite Forall_forall in Hok, Hal.
  destruct (Hok c Hin) as (Hs & He & Hv). destruct (Hal c Hin) as (As & Av & Ae).
  unfold in_call in Hc. apply andb_prop in Hc as [Hc H3]. apply andb_prop in Hc as [_ H2].
  apply Z.leb_le in H2. apply Z.ltb_lt in H3.
  set (e := page_entry _ _).
  assert (Hne : e <> 0).
  { intros E. pose proof (page_entry_low (map_virt c + 0x1000 * (pn va - pn (map_start c))) (map_flags c) 1 ltac:(lia)) as H1.
    fold e in H1. rewrite E, orb_true_r in H1. discriminate H1. }
  rewrite (proj2 (Z.eqb_neq _ _) Hne). unfold e. rewrite page_entry_high.
  pose proof (Z.div_mod (map_start c) 0x1000 ltac:(lia)) as D1. fold (pn (map_start c)) in D1.
  pose proof (Z.div_mod (map_virt c) 0x1000 ltac:(lia)) as D2.
  pose proof (Z.div_mod va 0x1000 ltac:(lia)) as D3. fold (pn va) in D3.
  pose proof (Z.mod_pos_bound va 0x1000 ltac:(lia)) as B3.
  rewrite (wrap_small 32), land_page by lia.
  change 0xfff with (Z.ones 12). rewrite Z.land_ones by lia. change (2 ^ 12) with 0x1000.
  assert (Hp : pn (map_virt c + 0x1000 * (pn va - pn (map_start c))) = map_virt c / 0x1000 + (pn va - pn (map_start c))).
  { unfold pn at 1. rewrite Z.mul_comm, Z.div_add by lia. done. }
  rewrite Hp, Z.lor_comm. replace (0x1000 * _) with (Z.shiftl (map_virt c / 0x1000 + (pn va - pn (map_start c))) 12)
    by (rewrite Z.shiftl_mul_pow2 by lia; change (2 ^ 12) with 0x1000; lia).
  rewrite lor_shiftl_add, Z.shiftl_mul_pow2 by lia. change (2 ^ 12) with 0x1000. lia.
Qed.

Lemma kernel_wf y m : arm_wf (kernel_env y m).
Proof. split; split; try done. Qed.

(** The access of every record: the caches are off, and a short-descriptor walk gives no
    attributes. *)
Definition kernel_access (write : bool) (size : Z) : access :=
  mk_access write false false EvAccess GrLine (size_of_op size) true Level1 true true false.

(** A traced access after a sequence of calls on empty tables. *)
Lemma kernel_recorded_from cfg W junk y cs s0 (write : bool) st tsc va size :
  64 <= W -> QEM_TRACE_PHYSICAL_ADDRESS cfg = true ->
  layout (page_table_lvl1 y) (page_table_lvl2 y) ->
  pt_ok (page_table_lvl1 y) (page_table_lvl2 y) s0 [] ->
  (forall va, 0 <= va < 2 ^ 32 -> page_desc (page_table_lvl1 y) (pg_mem s0) va = 0) ->
  Forall mapping_ok cs -> Forall mapping_aligned cs ->
  Forall (fun c => open_flags (map_flags c)) cs ->
  bit_any st QEM_TRACE_DTRACE = true -> 0 <= va < 2 ^ 32 ->
  exists s, set_mappings (page_table_lvl1 y) cs s0 = Some s /\
    let env := kernel_env y (pg_mem s) in
    (if write then helper_qem_datast_trace else helper_qem_datald_trace)
      cfg W junk st tsc va size S1E3 0 env =
    Done ([OpOutput va (mapped_to cs va) 0 (rdtsc_time tsc)
             (encode (def_of cfg) (kernel_access write size))], env).
Proof.
  intros HW Hphys Hlay H0 Hd0 Hok Hal Hfl Hst Hva.
  destruct (calls_refine _ _ Hlay cs _ _ H0 Hok) as ([m last] & tabs & Hrun & Hpt & Hd).
  exists (mk_pgt m last). split; [exact Hrun|]. cbn [pg_mem] in *.
  pose proof (calls_desc_ext cs _ (fun _ => 0) va (Hd0 va Hva)) as Hz.
  specialize (Hd va Hva). rewrite Hz in Hd. clear Hz Hrun H0 Hd0.
  destruct (calls_desc_open cs va Hfl (fun _ => 0) ltac:(split; [lia|by left])) as [Hr Ho].
  rewrite <- Hd in Hr, Ho. pose proof Hlay as [L1 LA L2 L3 L4].
  destruct (kernel_translates y m W junk ltac:(lia) LA _ last tabs va (Z.b2z write) ltac:(lia) Hva
    ltac:(by destruct write) Hlay Hpt Hr Ho) as (x & Hx & Hpa & Hat & _).
  destruct (data_run cfg W junk (kernel_env y m) (kernel_wf y m) HW write st tsc va size S1E3 0 ltac:(done) Hst)
    as (x' & off & Hx' & Hoff & Hrun). rewrite Hx in Hx'. injection Hx' as <-.
  rewrite Hrun. unfold arm_pa. rewrite Hphys, Hpa, Hd, desc_pa_mapped by done.
  do 4 f_equal. unfold arm_access, kernel_access. rewrite Hat. by destruct off.
Qed.

(** ** An expected output of the tests *)

(** The accesses of [Tests/ARM/test_pagen/test_translated_access.S], from the instruction
    that starts the trace on, with the times of the recorded run. *)
Definition kernel_event (t : Z) (k : arm_kind) : arm_event :=
  mk_arm_event (fun env => env) (mk_ctx false S1E3 t) k.
Abbreviation KFetch t pc := (kernel_event t (AFetch pc)).
Abbreviation KLoad t a := (kernel_event t (ALoad a 2)).
Abbreviation KStore t a := (kernel_event t (AStore a 2)).

Definition translated_access_events : list arm_event :=
  [kernel_event 0 (AOpcode QEM_TRACE_START_OP);
   KFetch 27900918169370 0x80110004;
   KFetch 27905883456776 0x80100004;
   KStore 27905883580242 0x8012ffd8;
   KStore 27905883620708 0x8012ffdc;
   KFetch 27907437036370 0x80100008;
   KFetch 27912478307784 0x8010000c;
   KFetch 27935921403158 0x80100010;
   KLoad 27935921529850 0x80200000;
   KFetch 27948361954350 0x80100014;
   KFetch 27949861078094 0x80100018;
   KFetch 27952654602226 0x8010001c;
   KLoad 27952654731450 0x80110000;
   KFetch 27962388885076 0x80100020;
   KFetch 27963794124412 0x80100024;
   KFetch 27974973798686 0x80100028;
   KLoad 27974973925720 0x80280000;
   KFetch 27980790960766 0x8010002c;
   KFetch 27984478612434 0x80100030;
   KFetch 27995075387700 0x80100034;
   KLoad 27995075513898 0x80300000;
   KFetch 27998757272766 0x80100038;
   KLoad 27998757307038 0x8012ffd8;
   KLoad 27998757315936 0x8012ffdc;
   KFetch 28004547787836 0x8010003c;
   kernel_event 0 (AOpcode QEM_TRACE_STOP_OP)].

(** The lines of [Tests/ARM/test_pagen/test_translated_access.S_test.valid]. *)
Definition translated_access_valid : list string :=
  ["I LD | V 0x80110004 | P 0x80110004 | Core 0 | Time 27900918169370 | RW: R | ID: I | PL: K | E: A | G: L | S: W | CR: Y | CL: 1 | CI: Y | WT: E | EX: N";
   "I LD | V 0x80100004 | P 0x80400004 | Core 0 | Time 27905883456776 | RW: R | ID: I | PL: K | E: A | G: L | S: W | CR: Y | CL: 1 | CI: Y | WT: E | EX: N";
   "D ST | V 0x8012ffd8 | P 0x8012ffd8 | Core 0 | Time 27905883580242 | RW: W | ID: D | PL: K | E: A | G: L | S: W | CR: Y | CL: 1 | CI: Y | WT: E | EX: N";
   "D ST | V 0x8012ffdc | P 0x8012ffdc | Core 0 | Time 27905883620708 | RW: W | ID: D | PL: K | E: A | G: L | S: W | CR: Y | CL: 1 | CI: Y | WT: E | EX: N";
   "I LD | V 0x80100008 | P 0x80400008 | Core 0 | Time 27907437036370 | RW: R | ID: I | PL: K | E: A | G: L | S: W | CR: Y | CL: 1 | CI: Y | WT: E | EX: N";
   "I LD | V 0x8010000c | P 0x8040000c | Core 0 | Time 27912478307784 | RW: R | ID: I | PL: K | E: A | G: L | S: W | CR: Y | CL: 1 | CI: Y | WT: E | EX: N";
   "I LD | V 0x80100010 | P 0x80400010 | Core 0 | Time 27935921403158 | RW: R | ID: I | PL: K | E: A | G: L | S: W | CR: Y | CL: 1 | CI: Y | WT: E | EX: N";
   "D LD | V 0x80200000 | P 0x80200000 | Core 0 | Time 27935921529850 | RW: R | ID: D | PL: K | E: A | G: L | S: W | CR: Y | CL: 1 | CI: Y | WT: E | EX: N";
   "I LD | V 0x80100014 | P 0x80400014 | Core 0 | Time 27948361954350 | RW: R | ID: I | PL: K | E: A | G: L | S: W | CR: Y | CL: 1 | CI: Y | WT: E | EX: N";
   "I LD | V 0x80100018 | P 0x80400018 | Core 0 | Time 27949861078094 | RW: R | ID: I | PL: K | E: A | G: L | S: W | CR: Y | CL: 1 | CI: Y | WT: E | EX: N";
   "I LD | V 0x8010001c | P 0x8040001c | Core 0 | Time 27952654602226 | RW: R | ID: I | PL: K | E: A | G: L | S: W | CR: Y | CL: 1 | CI: Y | WT: E | EX: N";
   "D LD | V 0x80110000 | P 0x80110000 | Core 0 | Time 27952654731450 | RW: R | ID: D | PL: K | E: A | G: L | S: W | CR: Y | CL: 1 | CI: Y | WT: E | EX: N";
   "I LD | V 0x80100020 | P 0x80400020 | Core 0 | Time 27962388885076 | RW: R | ID: I | PL: K | E: A | G: L | S: W | CR: Y | CL: 1 | CI: Y | WT: E | EX: N";
   "I LD | V 0x80100024 | P 0x80400024 | Core 0 | Time 27963794124412 | RW: R | ID: I | PL: K | E: A | G: L | S: W | CR: Y | CL: 1 | CI: Y | WT: E | EX: N";
   "I LD | V 0x80100028 | P 0x80400028 | Core 0 | Time 27974973798686 | RW: R | ID: I | PL: K | E: A | G: L | S: W | CR: Y | CL: 1 | CI: Y | WT: E | EX: N";
   "D LD | V 0x80280000 | P 0x802b0000 | Core 0 | Time 27974973925720 | RW: R | ID: D | PL: K | E: A | G: L | S: W | CR: Y | CL: 1 | CI: Y | WT: E | EX: N";
   "I LD | V 0x8010002c | P 0x8040002c | Core 0 | Time 27980790960766 | RW: R | ID: I | PL: K | E: A | G: L | S: W | CR: Y | CL: 1 | CI: Y | WT: E | EX: N";
   "I LD | V 0x80100030 | P 0x80400030 | Core 0 | Time 27984478612434 | RW: R | ID: I | PL: K | E: A | G: L | S: W | CR: Y | CL: 1 | CI: Y | WT: E | EX: N";
   "I LD | V 0x80100034 | P 0x80400034 | Core 0 | Time 27995075387700 | RW: R | ID: I | PL: K | E: A | G: L | S: W | CR: Y | CL: 1 | CI: Y | WT: E | EX: N";
   "D LD | V 0x80300000 | P 0x80301000 | Core 0 | Time 27995075513898 | RW: R | ID: D | PL: K | E: A | G: L | S: W | CR: Y | CL: 1 | CI: Y | WT: E | EX: N";
   "I LD | V 0x80100038 | P 0x80400038 | Core 0 | Time 27998757272766 | RW: R | ID: I | PL: K | E: A | G: L | S: W | CR: Y | CL: 1 | CI: Y | WT: E | EX: N";
   "D LD | V 0x8012ffd8 | P 0x8012ffd8 | Core 0 | Time 27998757307038 | RW: R | ID: D | PL: K | E: A | G: L | S: W | CR: Y | CL: 1 | CI: Y | WT: E | EX: N";
   "D LD | V 0x8012ffdc | P 0x8012ffdc | Core 0 | Time 27998757315936 | RW: R | ID: D | PL: K | E: A | G: L | S: W | CR: Y | CL: 1 | CI: Y | WT: E | EX: N";
   "I LD | V 0x8010003c | P 0x8040003c | Core 0 | Time 28004547787836 | RW: R | ID: I | PL: K | E: A | G: L | S: W | CR: Y | CL: 1 | CI: Y | WT: E | EX: N"]%string.

(** ** Properties *)


Lemma linker_layout : layout (page_table_lvl1 linker_ld) (page_table_lvl2 linker_ld).
Proof. split; vm_compute; congruence. Qed.

#[export] Instance mapping_ok_dec c : Decision (mapping_ok c).
Proof. unfold mapping_ok. apply _. Defined.
#[export] Instance mapping_aligned_dec c : Decision (mapping_aligned c).
Proof. unfold mapping_aligned. apply _. Defined.
#[export] Instance open_flags_dec f : Decision (open_flags f).
Proof. unfold open_flags. apply _. Defined.


(** The expected output of one of the tests of the repository, computed: the test kernel
    built with its linker script, the accesses of [test_translated_access.S], the hooks,
    the walk of the tables, the records and the text of the standard output backend give
    the lines of [test_translated_access.S_test.valid], character for character. *)
Theorem translated_access_expected :
  option_map text_of
    (printed cfg_print (arm_code cfg_print 64 0) translated_access_events
       (kernel_env linker_ld (kernel_mem linker_ld)) (print_init world0)) =
  Some (text_of (map (fun l => l +:+ newline)%string translated_access_valid)).
Proof. vm_compute. reflexivity. Qed.
