(* ===== verification/X86Pages.v ===== *)
(** * The page tables of the i386 test kernel

    [Tests/i386/mini_kernel/boot_stage1.asm] fills a page directory and one page table and
    turns paging on; the tests of [Tests/i386/test_pagen] run on these tables.  The loops
    are translated with the registers they use as arguments.

    The theorems show what the tables map, that a guest on these tables is recorded at the
    addresses they give for as long as only the memory management unit writes to them, and
    that the model prints the expected output of one of the tests. *)

From S2P Require Import Prelude Bits TraceDef Trace Stdio Sink Guest PrintBackend I386 X86Mmu.

Definition PAGE_DIR_LOC := 0x100000.
Definition FIRST_PAGE_TABLE_LOC := 0x101000.

(** ** The boot code *)

(** [mov [eax], ebx; add eax, 4; inc ecx], until [ecx] is 1024. *)
Fixpoint loop_dir_fill (fuel : nat) (eax ebx ecx : Z) (m : memory) : option memory :=
  match fuel with
  | O => None
  | S fuel =>
      let m := put32 eax ebx m in
      let eax := u32 (eax + 4) in
      let ecx := u32 (ecx + 1) in
      if ecx =? 1024 then Some m else loop_dir_fill fuel eax ebx ecx m
  end.

(** [mov [eax], ebx; add eax, 4; add ebx, delta], until [eax] is [stop]; the second loop
    subtracts. *)
Fixpoint loop_map (fuel : nat) (delta stop eax ebx : Z) (m : memory) : option (Z * memory) :=
  match fuel with
  | O => None
  | S fuel =>
      let m := put32 eax ebx m in
      let eax := u32 (eax + 4) in
      let ebx := u32 (ebx + delta) in
      if eax =? stop then Some (eax, m) else loop_map fuel delta stop eax ebx m
  end.

Definition loop_map_one := loop_map 1024 0x1000 0x101434.
Definition loop_map_inv := loop_map 1024 (- 0x1000) 0x102000.

Definition boot_tables (m : memory) : option memory :=
  m ← loop_dir_fill 1024 PAGE_DIR_LOC 2 0 m;
  let m := put32 PAGE_DIR_LOC (Z.lor FIRST_PAGE_TABLE_LOC 3) m in
  '(eax, m) ← loop_map_one FIRST_PAGE_TABLE_LOC 3 m;
  '(_, m) ← loop_map_inv eax 0x003FF003 m;
  Some m.

(** The processor after [enablePaging] ([paging]) and after [disable_paging] of
    [boot_stage2.asm]; the code segment is [CODE32]. *)
Definition test_regs (paging : bool) : mmu_regs :=
  mk_mmu_regs (mk_x86 (if paging then 0x80000011 else 0x11) PAGE_DIR_LOC 0 0x8 false (-1) 0)
    0 false 0 0 0 0 0 0.

(** ** What the tables hold *)

Lemma ldl_put32 m a b v :
  a mod 4 = 0 -> b mod 4 = 0 ->
  ldl_phys (put32 b v m) a = if decide (a = b) then u32 v else ldl_phys m a.
Proof.
  intros Ha Hb. apply Z.bits_inj'. intros j Hj.
  destruct (Z.lt_ge_cases j 32) as [Hlt|Hge].
  - case_decide as E.
    + subst. rewrite testbit_wrap by lia. destruct (Z.ltb_spec j 32); [|lia]. cbn [andb].
      rewrite ld_phys_bit by lia. unfold put32.
      pose proof (Z.div_mod j 8). pose proof (Z.mod_pos_bound j 8).
      destruct (Z.leb_spec b (b + j / 8)); [|lia]. destruct (Z.ltb_spec (b + j / 8) (b + 4)); [|lia].
      cbn [andb]. rewrite Z.shiftr_spec by lia. f_equal. lia.
    + rewrite !ld_phys_bit by lia. unfold put32.
      pose proof (Z.div_mod j 8). pose proof (Z.mod_pos_bound j 8).
      pose proof (Z.div_mod a 4). pose proof (Z.div_mod b 4).
      destruct (Z.leb_spec b (a + j / 8)); [|done]. destruct (Z.ltb_spec (a + j / 8) (b + 4)); [lia|done].
  - rewrite (testbit_above 32) by first [exact (ld_phys_range 4 _ _)|lia].
    case_decide; [rewrite testbit_wrap by lia; by destruct (Z.ltb_spec j 32); [lia|]|].
    by rewrite (testbit_above 32) by first [exact (ld_phys_range 4 _ _)|lia].
Qed.

(** The loop writes an arithmetic progression. *)
Lemma loop_map_run delta n : forall fuel eax ebx m,
  (n < fuel)%nat -> eax mod 4 = 0 -> 0 <= eax -> eax + 4 * (Z.of_nat n + 1) < 2 ^ 32 ->
  exists m', loop_map fuel delta (eax + 4 * (Z.of_nat n + 1)) eax ebx m
    = Some (eax + 4 * (Z.of_nat n + 1), m') /\
  forall a, a mod 4 = 0 -> ldl_phys m' a =
    if decide (eax <= a < eax + 4 * (Z.of_nat n + 1))
    then u32 (ebx + delta * ((a - eax) / 4)) else ldl_phys m a.
Proof.
  induction n as [|n IH]; intros [|fuel] eax ebx m Hf Hal H0 Hmax; try lia; cbn [loop_map];
    rewrite (wrap_small 32 (eax + 4)) by lia.
  - rewrite Z.eqb_refl. eexists. split; [reflexivity|]. intros a Ha. rewrite ldl_put32 by done.
    destruct (decide (a = eax)) as [->|].
    + rewrite Z.sub_diag, Z.mul_0_r, Z.add_0_r. case_decide; [done|lia].
    + case_decide; [|done]. pose proof (Z.div_mod a 4). pose proof (Z.div_mod eax 4). lia.
  - destruct (IH fuel (eax + 4) (u32 (ebx + delta)) (put32 eax ebx m)) as (m' & Hrun & Hm');
      [lia|by rewrite <- Z.add_mod_idemp_l, Hal by lia|lia..|].
    exists m'. rewrite Nat2Z.inj_succ in *. split.
    + destruct (Z.eqb_spec (eax + 4) (eax + 4 * (Z.succ (Z.of_nat n) + 1))); [lia|].
      replace (eax + 4 * (Z.succ (Z.of_nat n) + 1)) with (eax + 4 + 4 * (Z.of_nat n + 1)) by lia. exact Hrun.
    + intros a Ha. rewrite Hm', ldl_put32 by done.
      pose proof (Z.div_mod a 4). pose proof (Z.div_mod eax 4).
      case_decide; case_decide; try lia.
      * rewrite wrap_add_l. f_equal. replace (a - eax) with (a - (eax + 4) + 1 * 4) by lia.
        rewrite Z.div_add by lia. lia.
      * case_decide; [|lia]. subst. by rewrite Z.sub_diag, Z.mul_0_r, Z.add_0_r.
      * case_decide; [lia|done].
Qed.

Lemma loop_dir_run ebx n : forall fuel eax m,
  (n < fuel)%nat -> eax mod 4 = 0 -> 0 <= eax -> eax + 4 * (Z.of_nat n + 1) < 2 ^ 32 ->
  Z.of_nat n < 1024 ->
  exists m', loop_dir_fill fuel eax ebx (1023 - Z.of_nat n) m = Some m' /\
  forall a, a mod 4 = 0 -> ldl_phys m' a =
    if decide (eax <= a < eax + 4 * (Z.of_nat n + 1)) then u32 ebx else ldl_phys m a.
Proof.
  induction n as [|n IH]; intros [|fuel] eax m Hf Hal H0 Hmax Hn; try lia; cbn [loop_dir_fill];
    rewrite (wrap_small 32 (eax + 4)), (wrap_small 32 (_ + 1)) by lia.
  - eexists. split; [reflexivity|]. intros a Ha. rewrite ldl_put32 by done.
    pose proof (Z.div_mod a 4). pose proof (Z.div_mod eax 4). repeat case_decide; done || lia.
  - destruct (IH fuel (eax + 4) (put32 eax ebx m)) as (m' & Hrun & Hm');
      [lia|by rewrite <- Z.add_mod_idemp_l, Hal by lia|lia..|].
    exists m'. split.
    + destruct (Z.eqb_spec (1023 - Z.of_nat (S n) + 1) 1024); [lia|].
      replace (1023 - Z.of_nat (S n) + 1) with (1023 - Z.of_nat n) by lia. exact Hrun.
    + intros a Ha. rewrite Hm', ldl_put32 by done.
      pose proof (Z.div_mod a 4). pose proof (Z.div_mod eax 4). repeat case_decide; done || lia.
Qed.

(** The page of physical memory that a page of the first four megabytes is mapped to:
    the first 269 pages are mapped to themselves, the others in reverse. *)
Definition test_page (page : Z) : Z := if page <? 269 then page else 1023 - (page - 269).

Lemma boot_tables_run m0 :
  exists m, boot_tables m0 = Some m /\
  ldl_phys m PAGE_DIR_LOC = 0x101003 /\
  (forall i, 0 < i < 1024 -> ldl_phys m (PAGE_DIR_LOC + 4 * i) = 2) /\
  (forall page, 0 <= page < 1024 ->
     ldl_phys m (FIRST_PAGE_TABLE_LOC + 4 * page) = test_page page * 0x1000 + 3).
Proof.
  unfold boot_tables, loop_map_one, loop_map_inv.
  destruct (loop_dir_run 2 1023 1024 PAGE_DIR_LOC m0) as (m1 & H1 & M1); [lia|done|done|done|lia|].
  change (1023 - Z.of_nat 1023) with 0 in H1. rewrite H1. cbn [mbind option_bind].
  set (m2 := put32 PAGE_DIR_LOC _ m1).
  destruct (loop_map_run 0x1000 268 1024 FIRST_PAGE_TABLE_LOC 3 m2) as (m3 & H3 & M3); [lia|done|done|done|].
  change (FIRST_PAGE_TABLE_LOC + 4 * (Z.of_nat 268 + 1)) with 0x101434 in *.
  rewrite H3. cbn [mbind option_bind].
  destruct (loop_map_run (- 0x1000) 754 1024 0x101434 0x3FF003 m3) as (m4 & H4 & M4); [lia|done|done|done|].
  change (0x101434 + 4 * (Z.of_nat 754 + 1)) with 0x102000 in *.
  rewrite H4. cbn [mbind option_bind]. exists m4. split; [reflexivity|]. clear H1 H3 H4. split_and!.
  - rewrite M4 by done. case_decide as E; [unfold PAGE_DIR_LOC in E; lia|].
    rewrite M3 by done. case_decide as E'; [unfold FIRST_PAGE_TABLE_LOC, PAGE_DIR_LOC in E'; lia|].
    subst m2. rewrite ldl_put32 by done. case_decide; [reflexivity|lia].
  - intros i Hi. assert (Hal : (PAGE_DIR_LOC + 4 * i) mod 4 = 0)
      by (unfold PAGE_DIR_LOC; rewrite Z.mul_comm, Z.mod_add by lia; done).
    unfold PAGE_DIR_LOC, FIRST_PAGE_TABLE_LOC in *.
    rewrite M4 by done. case_decide; [lia|]. rewrite M3 by done. case_decide; [lia|].
    subst m2. rewrite ldl_put32 by done. case_decide; [lia|]. rewrite M1 by done. case_decide; [done|lia].
  - intros page Hp. assert (Hal : (FIRST_PAGE_TABLE_LOC + 4 * page) mod 4 = 0)
      by (unfold FIRST_PAGE_TABLE_LOC; rewrite Z.mul_comm, Z.mod_add by lia; done).
    unfold FIRST_PAGE_TABLE_LOC, test_page in *. rewrite M4 by done.
    destruct (Z.ltb_spec page 269).
    + case_decide; [lia|]. rewrite M3 by done. case_decide; [|lia].
      replace (0x101000 + 4 * page - 0x101000) with (page * 4) by lia. rewrite Z.div_mul by lia.
      rewrite wrap_small by lia. lia.
    + case_decide; [|lia]. replace (0x101000 + 4 * page - 0x101434) with ((page - 269) * 4) by lia.
      rewrite Z.div_mul by lia. rewrite wrap_small by lia. lia.
Qed.

(** ** The walks on these tables *)

Lemma test_page_range page : 0 <= page < 1024 -> 0 <= test_page page < 1024.
Proof. intros Hp. unfold test_page. destruct (Z.ltb_spec page 269); lia. Qed.

(** QEMU finds the page, also after the memory management unit has set bits in the
    tables. *)
Lemma test_debug m0 mb m a :
  boot_tables m0 = Some mb -> touched 4 mb m -> 0 <= a < 0x400000 ->
  x86_cpu_get_phys_page_debug (regs (test_regs true)) m a = Some (test_page (Z.shiftr a 12) * 0x1000).
Proof.
  intros Hb Ht Ha. rewrite (debug_touched (test_regs true) a mb m eq_refl Ht).
  destruct (boot_tables_run m0) as (mb' & Hb' & Hdir & _ & Htab).
  rewrite Hb in Hb'. injection Hb' as <-. clear Hb Ht.
  assert (Hpg : 0 <= Z.shiftr a 12 < 1024).
  { rewrite Z.shiftr_div_pow2 by lia. split; [apply Z.div_pos; lia|]. apply Z.div_lt_upper_bound; lia. }
  unfold x86_cpu_get_phys_page_debug. change (x86_get_a20_mask _) with (-1). cbn [cr0 cr3 cr4 regs test_regs].
  change (bit_any 0x80000011 CR0_PG_MASK) with true. change (bit_any 0 CR4_PAE_MASK) with false.
  change (bit_any 0 CR4_PSE_MASK) with false. rewrite !land_m1, andb_false_r. cbn [negb].
  rewrite <- pde_index, <- pte_index by lia.
  replace (Z.shiftr a 22) with 0 by (rewrite Z.shiftr_div_pow2 by lia; symmetry; apply Z.div_small; lia).
  change (u32 (Z.land PAGE_DIR_LOC 0xFFFFF000 + 0 * 4)) with PAGE_DIR_LOC. rewrite Hdir.
  change (bit_any 0x101003 PG_PRESENT_MASK) with true. cbn [negb].
  change (Z.land 0x101003 0xFFFFF000) with FIRST_PAGE_TABLE_LOC.
  replace (Z.land a 0x3FFFFF) with a
    by (change 0x3FFFFF with (Z.ones 22); rewrite Z.land_ones by lia; symmetry; apply Z.mod_small; lia).
  rewrite (wrap_small 32) by (unfold FIRST_PAGE_TABLE_LOC; lia).
  rewrite (Z.mul_comm _ 4), Htab by done.
  pose proof (test_page_range _ Hpg) as Hr. set (q := test_page (Z.shiftr a 12)) in *.
  change 0x1000 with (2 ^ 12). rewrite <- Z.shiftl_mul_pow2 by lia.
  replace (Z.shiftl q 12 + 3) with (Z.lor 3 (Z.shiftl q 12)) by (rewrite lor_shiftl_add by lia; lia).
  assert (Hp1 : bit_any (Z.lor 3 (Z.shiftl q 12)) PG_PRESENT_MASK = true).
  { change PG_PRESENT_MASK with (Z.shiftl 1 0). by rewrite bit_any_pow2, Z.lor_spec by lia. }
  rewrite Hp1. cbn [negb]. f_equal. unfold page_of, PG_ADDRESS_MASK. assert (Hq : 0 <= q < 2 ^ 10) by lia.
  change (2 ^ 12 - 1) with (Z.ones 12). change 3 with (Z.ones 2). change 0xfff with (Z.ones 12).
  change 0x000ffffffffff000 with (Z.shiftl (Z.ones 40) 12). bits.
  all: by rewrite Z.testbit_neg_r.
Qed.

(** ** Accesses on these tables *)

(** A guest instruction fetch, load or store, at a time: the memory management unit
    translates the address, then the hook runs. *)
Record test_event := mk_test_event {
  te_paging : bool;
  te_time : Z;
  te_kind : x86_kind
}.

(** The address and the kind of the access of an event, for the translation. *)
Definition te_access (e : test_event) : option (Z * Z) :=
  match te_kind e with
  | XFetch pc => Some (pc, MMU_INST_FETCH)
  | XLoad _ a | XKernelLoad _ a => Some (a, MMU_DATA_LOAD)
  | XStore _ a | XKernelStore _ a => Some (a, MMU_DATA_STORE)
  | XOpcode _ => None
  end.

Definition test_hook (cfg : config) (e : test_event) (st : Z) : C mmu_state (list op) :=
  m ← gets mem;
  match x86_code cfg (mk_x86_event (regs (test_regs (te_paging e))) m (te_time e) 0 (te_kind e)) st () with
  | Done (ops, _) => mret ops
  | _ => exit_ 134
  end.

Definition test_code (cfg : config) (e : test_event) (st : Z) : C mmu_state (list op) :=
  match te_access e with
  | None => test_hook cfg e st
  | Some (a, is_write1) =>
      r ← x86_cpu_handle_mmu_fault (test_regs (te_paging e)) a is_write1 MMU_KNOSMAP_IDX;
      match r with
      | Returned 0 => test_hook cfg e st
      | _ => mret []
      end
  end.

(** ** An expected output of the tests *)

Abbreviation TFetch p t pc := (mk_test_event p t (XFetch pc)).
Abbreviation TLoad p t idx a := (mk_test_event p t (XLoad idx a)).
Abbreviation TStore p t idx a := (mk_test_event p t (XStore idx a)).

(** The accesses of [Tests/i386/test_pagen/simple_address_tracing.asm], from the
    instruction that starts the trace to the one after the one that stops it, with the
    times of the recorded run.  Paging is turned off in between. *)
Definition simple_address_events : list test_event :=
  [TFetch true 0 0x8142;
   mk_test_event true 0 (XOpcode 0x1A6);
   TFetch true 45204027886520 0x8146;
   TFetch true 45204028072560 0x8600;
   TFetch true 45204028104610 0x8605;
   TFetch true 45204028125965 0x860a;
   TStore true 45204028873980 2 0x300000;
   TFetch true 45204028906470 0x860c;
   TLoad true 45204028931960 2 0x300000;
   TFetch true 45204028954860 0x860e;
   TStore true 45204028978580 1 0x300000;
   TFetch true 45204029000820 0x8611;
   TLoad true 45204029023765 1 0x300000;
   TFetch true 45204029046250 0x8614;
   TStore true 45204029069235 0 0x300000;
   TFetch true 45204029091360 0x8616;
   TLoad true 45204029120340 0 0x300000;
   TFetch true 45204029142895 0x8618;
   TFetch true 45204029221710 0x8ff4;
   TFetch true 45204029248510 0x8ff7;
   TFetch true 45204029268570 0x8ffc;
   TFetch false 45204029349245 0x8fff;
   TFetch false 45204029376605 0x9000;
   TFetch false 45204029432095 0x99f4;
   mk_test_event false 0 (XOpcode 0x1A7);
   TFetch false 0 0x99f8].

(** The lines of [Tests/i386/test_pagen/simple_address_tracing.asm_test.valid], after the
    first, which tells the test script what to compare. *)
Definition simple_address_valid : list string :=
  ["I LD | V 0x00008146 | P 0x00008146 | Core 0 | Time 45204027886520 | RW: R | ID: I | PL: K | E: A | G: L | S: B | CR: N | CL: 1 | CI: N | WT: D | EX: N";
   "I LD | V 0x00008600 | P 0x00008600 | Core 0 | Time 45204028072560 | RW: R | ID: I | PL: K | E: A | G: L | S: B | CR: N | CL: 1 | CI: N | WT: D | EX: N";
   "I LD | V 0x00008605 | P 0x00008605 | Core 0 | Time 45204028104610 | RW: R | ID: I | PL: K | E: A | G: L | S: B | CR: N | CL: 1 | CI: N | WT: D | EX: N";
   "I LD | V 0x0000860a | P 0x0000860a | Core 0 | Time 45204028125965 | RW: R | ID: I | PL: K | E: A | G: L | S: B | CR: N | CL: 1 | CI: N | WT: D | EX: N";
   "D ST | V 0x00300000 | P 0x0020c000 | Core 0 | Time 45204028873980 | RW: W | ID: D | PL: K | E: A | G: L | S: W | CR: N | CL: 1 | CI: Y | WT: D | EX: N";
   "I LD | V 0x0000860c | P 0x0000860c | Core 0 | Time 45204028906470 | RW: R | ID: I | PL: K | E: A | G: L | S: B | CR: N | CL: 1 | CI: N | WT: D | EX: N";
   "D LD | V 0x00300000 | P 0x0020c000 | Core 0 | Time 45204028931960 | RW: R | ID: D | PL: K | E: A | G: L | S: W | CR: N | CL: 1 | CI: Y | WT: D | EX: N";
   "I LD | V 0x0000860e | P 0x0000860e | Core 0 | Time 45204028954860 | RW: R | ID: I | PL: K | E: A | G: L | S: B | CR: N | CL: 1 | CI: N | WT: D | EX: N";
   "D ST | V 0x00300000 | P 0x0020c000 | Core 0 | Time 45204028978580 | RW: W | ID: D | PL: K | E: A | G: L | S: H | CR: N | CL: 1 | CI: Y | WT: D | EX: N";
   "I LD | V 0x00008611 | P 0x00008611 | Core 0 | Time 45204029000820 | RW: R | ID: I | PL: K | E: A | G: L | S: B | CR: N | CL: 1 | CI: N | WT: D | EX: N";
   "D LD | V 0x00300000 | P 0x0020c000 | Core 0 | Time 45204029023765 | RW: R | ID: D | PL: K | E: A | G: L | S: H | CR: N | CL: 1 | CI: Y | WT: D | EX: N";
   "I LD | V 0x00008614 | P 0x00008614 | Core 0 | Time 45204029046250 | RW: R | ID: I | PL: K | E: A | G: L | S: B | CR: N | CL: 1 | CI: N | WT: D | EX: N";
   "D ST | V 0x00300000 | P 0x0020c000 | Core 0 | Time 45204029069235 | RW: W | ID: D | PL: K | E: A | G: L | S: B | CR: N | CL: 1 | CI: Y | WT: D | EX: N";
   "I LD | V 0x00008616 | P 0x00008616 | Core 0 | Time 45204029091360 | RW: R | ID: I | PL: K | E: A | G: L | S: B | CR: N | CL: 1 | CI: N | WT: D | EX: N";
   "D LD | V 0x00300000 | P 0x0020c000 | Core 0 | Time 45204029120340 | RW: R | ID: D | PL: K | E: A | G: L | S: B | CR: N | CL: 1 | CI: Y | WT: D | EX: N";
   "I LD | V 0x00008618 | P 0x00008618 | Core 0 | Time 45204029142895 | RW: R | ID: I | PL: K | E: A | G: L | S: B | CR: N | CL: 1 | CI: N | WT: D | EX: N";
   "I LD | V 0x00008ff4 | P 0x00008ff4 | Core 0 | Time 45204029221710 | RW: R | ID: I | PL: K | E: A | G: L | S: B | CR: N | CL: 1 | CI: N | WT: D | EX: N";
   "I LD | V 0x00008ff7 | P 0x00008ff7 | Core 0 | Time 45204029248510 | RW: R | ID: I | PL: K | E: A | G: L | S: B | CR: N | CL: 1 | CI: N | WT: D | EX: N";
   "I LD | V 0x00008ffc | P 0x00008ffc | Core 0 | Time 45204029268570 | RW: R | ID: I | PL: K | E: A | G: L | S: B | CR: N | CL: 1 | CI: N | WT: D | EX: N";
   "I LD | V 0x00008fff | P 0x00008fff | Core 0 | Time 45204029349245 | RW: R | ID: I | PL: K | E: A | G: L | S: B | CR: N | CL: 1 | CI: N | WT: D | EX: N";
   "I LD | V 0x00009000 | P 0x00009000 | Core 0 | Time 45204029376605 | RW: R | ID: I | PL: K | E: A | G: L | S: B | CR: N | CL: 1 | CI: N | WT: D | EX: N";
   "I LD | V 0x000099f4 | P 0x000099f4 | Core 0 | Time 45204029432095 | RW: R | ID: I | PL: K | E: A | G: L | S: B | CR: N | CL: 1 | CI: N | WT: D | EX: N"]%string.

(** ** Properties *)

(** The expected output of one of the tests of the repository, computed: the tables of
    the test kernel, the accesses of [simple_address_tracing.asm], the translation, the
    hooks, the walk, the records and the text of the standard output backend give the lines
    of [simple_address_tracing.asm_test.valid], character for character.  Among them are
    the accesses through the inverted pages, and their stores, which are marked as not
    cached. *)
Theorem simple_address_expected :
  exists m, boot_tables (fun _ => 0) = Some m /\
  option_map text_of
    (printed cfg_print (test_code cfg_print) simple_address_events (mmu_start m) (print_init world0)) =
  Some (text_of (map (fun l => l +:+ newline)%string simple_address_valid)).
Proof.
  destruct (boot_tables_run (fun _ => 0)) as (m & E & _). exists m. split; [exact E|].
  assert (E' : m = default (fun _ => 0) (boot_tables (fun _ => 0))) by (rewrite E; reflexivity).
  rewrite E'. clear E E' m.
  vm_compute. reflexivity.
Qed.


