(* ===== verification/PpcTlb.v ===== *)
(** * Software management of the BookE 2.06 TLBs

    The instructions of [target/ppc/mmu_helper.c] with which the guest of a PowerPC e500 fills,
    reads, searches and invalidates the TLBs that [PpcMmu] translates with; and the code of
    the PowerPC test kernel that uses them ([Tests/PPC/mini_kernel/tlb.c] and the mappings of
    [kernel.c]).

    Beside the processor the state has the next victim and the calls that flush QEMU's own TLB,
    which caches the translations: an entry that changes must be flushed there. *)

From S2P Require Import Prelude Bits TraceDef Trace Stdio Sink Guest PrintBackend.
From S2P Require Import PpcMmu Ppc PpcHooks.

(** ** State *)

(** [tlb_flush_page], [tlb_flush] and [tlb_flush_by_mmuidx] of QEMU's own TLB. *)
Inductive flush := FlushPage (addr : Z) | FlushAll | FlushIdx (idxmap : Z).

Record tlb_state := mk_tlb_state {
  t_env : CPUPPCState;
  last_way : Z;
  flushes : list flush
}.

Abbreviation T := (C tlb_state).

Definition set_tlbm (env : CPUPPCState) (v : list ppcmas_tlb_t) : CPUPPCState :=
  mk_ppc (gpr env) (msr env) (sr env) (nb_BATs env) (DBAT env) (IBAT env) (nb_tlb env)
    (tlb_per_way env) (nb_ways env) (id_tlbs env) (nb_pids env) (tlb6 env) (tlbe env)
    v (pb0 env) (pb1 env) (pb2 env) (pb3 env) (spr env) (mmu_model env) (ppc_cpu_index env).

Definition set_env (env : CPUPPCState) (s : tlb_state) : tlb_state :=
  mk_tlb_state env (last_way s) (flushes s).
Definition on_env {A} (m : P A) : T A := zoom t_env set_env m.
Definition add_flush (f : flush) : T () :=
  modify (fun s => mk_tlb_state (t_env s) (last_way s) (flushes s ++ [f])).
Definition set_last_way (w : Z) : T () := modify (fun s => mk_tlb_state (t_env s) w (flushes s)).
(** A special purpose register holds a [target_ulong]. *)
Definition set_spr32 (n v : Z) : T () := on_env (write_spr n (u32 v)).
Definition tlb_entry (r : Z) : T ppcmas_tlb_t := on_env (env ← gets id; entry (tlbm env) r).
Definition set_tlb_entry (r : Z) (e : ppcmas_tlb_t) : T () :=
  on_env (modify (fun env => set_tlbm env (<[Z.to_nat r := e]> (tlbm env)))).

Definition SPR_BOOKE_MAS0 := 0x270.
Definition SPR_BOOKE_MAS1 := 0x271.
Definition SPR_BOOKE_MAS2 := 0x272.
Definition SPR_BOOKE_MAS3 := 0x273.
Definition SPR_BOOKE_MAS4 := 0x274.
Definition SPR_BOOKE_MAS5 := 0x275.
Definition SPR_BOOKE_MAS6 := 0x276.
Definition SPR_BOOKE_MAS7 := 0x3B0.
Definition SPR_BOOKE_TLB0PS := 0x158.
Definition SPR_MMUCFG := 0x3F7.
Definition MMUCFG_MAVN := 3.
Definition MMUCFG_MAVN_V1 := 0.
Definition MMUCFG_MAVN_V2 := 1.
Definition MAS0_NV_SHIFT := 0.
Definition MAS0_WQ_MASK := 0x3000.
Definition MAS0_WQ_ALWAYS := 0x0000.
Definition MAS0_WQ_COND := 0x1000.
Definition MAS0_HES := 0x4000.
Definition MAS0_ESEL_SHIFT := 16.
Definition MAS0_ESEL_MASK := 0x0FFF0000.
Definition MAS0_TLBSEL_SHIFT := 28.
Definition MAS0_TLBSEL_MASK := 0x30000000.
Definition MAS0_ATSEL := 0x80000000.
Definition MAS1_IND := 0x2000.
Definition MAS1_IPROT := 0x40000000.
(** [MAS2_ACM | MAS2_VLE | MAS2_W | MAS2_I | MAS2_M | MAS2_G | MAS2_E]. *)
Definition MAS2_ATTRIBUTES := 0x7F.
Definition MAS4_WIMGED_MASK := 0x1f.
Definition MAS5_SGS := 0x80000000.
Definition MAS6_SAS := 1.
Definition MAS6_SIND := 2.
Definition MAS6_SPID := 0x3fff0000.
Definition MAS6_SPID_SHIFT := 16.
Definition MAS8_TGS := 0x80000000.
Definition TLBnCFG_HES := 0x2000.
Definition TLBnCFG_AVAIL := 0x4000.
Definition TLBnCFG_IPROT := 0x8000.
Definition TLBnCFG_MAXSIZE := 0xf0000.
Definition TLBnCFG_MAXSIZE_SHIFT := 16.
Definition TLBnCFG_MINSIZE := 0xf00000.
Definition TLBnCFG_MINSIZE_SHIFT := 20.
Definition BOOKE206_FLUSH_TLB0 := 1.
Definition BOOKE206_FLUSH_TLB1 := 2.
Definition TARGET_PAGE_SIZE := 4096.
Abbreviation msr_gs := (msr_bit 28).

Definition set_mas1 (e : ppcmas_tlb_t) (v : Z) : ppcmas_tlb_t := mk_tlbm (mas8 e) v (mas2 e) (mas7_3 e).
Definition clear_valid (e : ppcmas_tlb_t) : ppcmas_tlb_t := set_mas1 e (Z.ldiff (mas1 e) MAS1_VALID).

(** ** Entries *)

Definition tlbsel (env : CPUPPCState) : Z :=
  Z.shiftr (Z.land (spr env SPR_BOOKE_MAS0) MAS0_TLBSEL_MASK) MAS0_TLBSEL_SHIFT.
Definition tlbncfg (env : CPUPPCState) (tlbn : Z) : Z := u32 (spr env (SPR_BOOKE_TLB0CFG + tlbn)).

(** The entry MAS0 and MAS2 select; [None] is a null pointer. *)
Definition booke206_cur_tlb : T (option Z) :=
  env ← gets t_env;
  let esel := Z.shiftr (Z.land (spr env SPR_BOOKE_MAS0) MAS0_ESEL_MASK) MAS0_ESEL_SHIFT in
  let ea := u32 (Z.land (spr env SPR_BOOKE_MAS2) MAS2_EPN_MASK) in
  let tlb := tlbsel env in
  if bit_any (tlbncfg env tlb) TLBnCFG_HES && bit_any (spr env SPR_BOOKE_MAS0) MAS0_HES then exit_ 134
  else on_env (booke206_get_tlbm env (Z.to_nat tlb) ea esel).

(** The page sizes a TLB supports. *)
Fixpoint size_bits (n : nat) (i : Z) : Z :=
  match n with
  | O => 0
  | S n => Z.lor (Z.shiftl 1 (Z.shiftl i 1)) (size_bits n (i + 1))
  end.

Definition booke206_tlbnps (env : CPUPPCState) (tlbn : Z) : Z :=
  if Z.land (spr env SPR_MMUCFG) MMUCFG_MAVN =? MMUCFG_MAVN_V2
  then u32 (spr env (SPR_BOOKE_TLB0PS + tlbn))
  else
    let min := Z.shiftr (Z.land (tlbncfg env tlbn) TLBnCFG_MINSIZE) TLBnCFG_MINSIZE_SHIFT in
    let max := Z.shiftr (Z.land (tlbncfg env tlbn) TLBnCFG_MAXSIZE) TLBnCFG_MAXSIZE_SHIFT in
    size_bits (Z.to_nat (max - min + 1)) min.

(** The sizes of a TLB of which the register has one bit; [None] if there are several. *)
Fixpoint single_size (n : nat) (i ps tsize : Z) : option Z :=
  match n with
  | O => Some tsize
  | S n =>
      if Z.testbit ps i
      then if tsize =? -1 then single_size n (i + 1) ps i else None
      else single_size n (i + 1) ps tsize
  end.

Definition booke206_fixed_size_tlbn (env : CPUPPCState) (tlbn : Z) (e : ppcmas_tlb_t) : T ppcmas_tlb_t :=
  match single_size 32 0 (spr env (SPR_BOOKE_TLB0PS + tlbn)) (-1) with
  | None => mret e
  | Some tsize =>
      if tsize =? -1 then exit_ 134
      else mret (set_mas1 e (Z.lor (Z.ldiff (mas1 e) MAS1_TSIZE_MASK) (Z.shiftl tsize MAS1_TSIZE_SHIFT)))
  end.

Definition flush_of (e : ppcmas_tlb_t) : flush :=
  if booke206_tlb_to_page_size e =? TARGET_PAGE_SIZE
  then FlushPage (u32 (Z.land (mas2 e) MAS2_EPN_MASK)) else FlushAll.
Definition flush_page (e : ppcmas_tlb_t) : T () := add_flush (flush_of e).

(** ** The instructions *)

(** [TlbInval] is the program exception for an invalid operation. *)
Inductive tlb_result := TlbDone | TlbInval.

(** The entry that is written. *)
Definition new_entry (env : CPUPPCState) (tlbn : Z) (old : ppcmas_tlb_t) : T ppcmas_tlb_t :=
  let cfg := tlbncfg env tlbn in
  let e := mk_tlbm (mas8 old) (spr env SPR_BOOKE_MAS1) (mas2 old)
             (Z.lor (Z.shiftl (spr env SPR_BOOKE_MAS7) 32) (spr env SPR_BOOKE_MAS3)) in
  e ← (if Z.land (spr env SPR_MMUCFG) MMUCFG_MAVN =? MMUCFG_MAVN_V2
       then booke206_fixed_size_tlbn env tlbn e
       else mret (if bit_any cfg TLBnCFG_AVAIL then e
                  else set_mas1 e (Z.lor (Z.ldiff (mas1 e) MAS1_TSIZE_MASK)
                                     (Z.shiftr (Z.land cfg TLBnCFG_MINSIZE) 12))));
  let mask := Z.lor (u32 (Z.lnot (booke206_tlb_to_page_size e - 1))) MAS2_ATTRIBUTES in
  let e := mk_tlbm (mas8 e) (mas1 e) (Z.land (spr env SPR_BOOKE_MAS2) mask) (mas7_3 e) in
  mret (if bit_any cfg TLBnCFG_IPROT then e else set_mas1 e (Z.ldiff (mas1 e) MAS1_IPROT)).

Definition helper_booke206_tlbwe : T tlb_result :=
  env ← gets t_env;
  let mas0 := spr env SPR_BOOKE_MAS0 in
  let wq := Z.land mas0 MAS0_WQ_MASK in
  if negb ((wq =? MAS0_WQ_ALWAYS) || (wq =? MAS0_WQ_COND)) then mret TlbDone
  else if bit_any mas0 MAS0_ATSEL && (msr_gs env =? 0) then mret TlbDone
  else
    let tlbn := tlbsel env in
    idx ← booke206_cur_tlb;
    match idx with
    | None => mret TlbInval
    | Some r =>
        let size_tlb := Z.shiftr (Z.land (spr env SPR_BOOKE_MAS1) MAS1_TSIZE_MASK) MAS1_TSIZE_SHIFT in
        if bit_any (spr env SPR_BOOKE_MAS1) MAS1_VALID && bit_any (tlbncfg env tlbn) TLBnCFG_AVAIL
           && negb (bit_any (booke206_tlbnps env tlbn) (Z.shiftl 1 size_tlb))
        then mret TlbInval
        else if negb (msr_gs env =? 0) then exit_ 134
        else
          old ← tlb_entry r;
          when (bit_any (mas1 old) MAS1_VALID) (flush_page old);;
          e ← new_entry env tlbn old;
          set_tlb_entry r e;;
          flush_page e;;
          mret TlbDone
    end.

(** The TLB and the way of an entry; [cpu_abort] if it is of no TLB. *)
Fixpoint tlbn_of (env : CPUPPCState) (n i : nat) (end_ id : Z) : option nat :=
  match n with
  | O => None
  | S n =>
      let end_ := end_ + booke206_tlb_size env i in
      if id <? end_ then Some i else tlbn_of env n (S i) end_ id
  end.

Definition booke206_tlbm_to_tlbn (r : Z) : T nat :=
  env ← gets t_env;
  match tlbn_of env BOOKE206_MAX_TLBN 0 0 r with Some i => mret i | None => exit_ 134 end.

Definition booke206_tlbm_to_way (r : Z) : T Z :=
  tlbn ← booke206_tlbm_to_tlbn r;
  env ← gets t_env;
  mret (Z.land r (booke206_tlb_ways env tlbn - 1)).

Definition booke206_tlb_to_mas (r : Z) : T () :=
  tlbn ← booke206_tlbm_to_tlbn r;
  way ← booke206_tlbm_to_way r;
  e ← tlb_entry r;
  lw ← gets last_way;
  set_spr32 SPR_BOOKE_MAS0 (Z.shiftl (Z.of_nat tlbn) MAS0_TLBSEL_SHIFT .| Z.shiftl way MAS0_ESEL_SHIFT
                            .| Z.shiftl lw MAS0_NV_SHIFT)%c;;
  set_spr32 SPR_BOOKE_MAS1 (mas1 e);;
  set_spr32 SPR_BOOKE_MAS2 (mas2 e);;
  set_spr32 SPR_BOOKE_MAS3 (mas7_3 e);;
  set_spr32 SPR_BOOKE_MAS7 (Z.shiftr (mas7_3 e) 32).

Definition helper_booke206_tlbre : T () :=
  idx ← booke206_cur_tlb;
  match idx with None => set_spr32 SPR_BOOKE_MAS1 0 | Some r => booke206_tlb_to_mas r end.

(** The loop of the search: the entry found, if any. *)
Fixpoint tlbsx_loop (ways : list (nat * Z)) (address spid sas : Z) : T (option Z) :=
  match ways with
  | [] => mret None
  | (i, j) :: ways =>
      env ← gets t_env;
      idx ← on_env (booke206_get_tlbm env i address j);
      match idx with
      | None => tlbsx_loop ways address spid sas
      | Some r =>
          e ← tlb_entry r;
          match ppcmas_tlb_check e address spid with
          | None => tlbsx_loop ways address spid sas
          | Some _ =>
              if sas =? Z.shiftr (Z.land (mas1 e) MAS1_TS) MAS1_TS_SHIFT then mret (Some r)
              else tlbsx_loop ways address spid sas
          end
      end
  end.

Definition helper_booke206_tlbsx (address : Z) : T () :=
  env ← gets t_env;
  let mas6 := spr env SPR_BOOKE_MAS6 in
  let mas4 := spr env SPR_BOOKE_MAS4 in
  found ← tlbsx_loop (tlb_ways env) address (Z.shiftr (Z.land mas6 MAS6_SPID) MAS6_SPID_SHIFT)
            (Z.land mas6 MAS6_SAS);
  match found with
  | Some r => booke206_tlb_to_mas r
  | None =>
      lw ← gets last_way;
      let next := Z.land (lw + 1) (booke206_tlb_ways env 0 - 1) in
      set_last_way next;;
      set_spr32 SPR_BOOKE_MAS0 (Z.land mas4 MAS0_TLBSEL_MASK .| Z.shiftl lw MAS0_ESEL_SHIFT
                                .| Z.shiftl next MAS0_NV_SHIFT)%c;;
      set_spr32 SPR_BOOKE_MAS1 (Z.land mas4 MAS1_TSIZE_MASK
        .| (if bit_any mas6 MAS6_SAS then MAS1_TS else 0)
        .| Z.shiftl (Z.shiftr mas6 16) MAS1_TID_SHIFT)%c;;
      set_spr32 SPR_BOOKE_MAS2 (Z.land mas4 MAS4_WIMGED_MASK);;
      set_spr32 SPR_BOOKE_MAS3 0;;
      set_spr32 SPR_BOOKE_MAS7 0
  end.

(** Clear the valid bit of the entries of the list of indices that a test selects. *)
Fixpoint invalidate (p : ppcmas_tlb_t -> bool) (rs : list Z) : T () :=
  match rs with
  | [] => mret ()
  | r :: rs =>
      e ← tlb_entry r;
      when (p e) (set_tlb_entry r (clear_valid e));;
      invalidate p rs
  end.

(** The indices of a TLB, whose entries come after those of the TLBs before. *)
Definition tlb_range (env : CPUPPCState) (tlbn : nat) : list Z :=
  let start := foldr (fun i acc => booke206_tlb_size env i + acc) 0 (seq 0 tlbn) in
  map (fun j => start + Z.of_nat j) (seq 0 (Z.to_nat (booke206_tlb_size env tlbn))).

Definition booke206_flush_tlb (flags : Z) (check_iprot : bool) : T () :=
  env ← gets t_env;
  invalidate (fun e => negb check_iprot || negb (bit_any (mas1 e) MAS1_IPROT))
    (i ← seq 0 BOOKE206_MAX_TLBN; if Z.testbit flags (Z.of_nat i) then tlb_range env i else []);;
  add_flush FlushAll.

(** The entries of some ways that an address selects. *)
Fixpoint select (ways : list (nat * Z)) (address : Z) : T (list Z) :=
  match ways with
  | [] => mret []
  | (i, j) :: ways =>
      env ← gets t_env;
      idx ← on_env (booke206_get_tlbm env i address j);
      rs ← select ways address;
      mret (match idx with Some r => r :: rs | None => rs end)
  end.

Definition ways_of (env : CPUPPCState) (tlbn : nat) : list (nat * Z) :=
  map (fun j => (tlbn, Z.of_nat j)) (seq 0 (Z.to_nat (booke206_tlb_ways env tlbn))).

Definition booke206_invalidate_ea_tlb (tlbn : nat) (ea : Z) : T () :=
  env ← gets t_env;
  rs ← select (ways_of env tlbn) ea;
  invalidate (fun e =>
    let mask := u32 (Z.lnot (booke206_tlb_to_page_size e - 1)) in
    (Z.land (mas2 e) MAS2_EPN_MASK =? Z.land ea mask) && negb (bit_any (mas1 e) MAS1_IPROT)) rs.

Definition helper_booke206_tlbivax (address : Z) : T () :=
  if bit_any address 4 then
    if bit_any address 8 then booke206_flush_tlb BOOKE206_FLUSH_TLB1 true
    else booke206_flush_tlb BOOKE206_FLUSH_TLB0 false
  else if bit_any address 8 then
    booke206_invalidate_ea_tlb 1 address;; add_flush FlushAll
  else
    booke206_invalidate_ea_tlb 0 address;; add_flush (FlushPage (u32 (Z.land address MAS2_EPN_MASK))).

Definition helper_booke206_tlbilx0 : T () := booke206_flush_tlb (-1) true.

Definition helper_booke206_tlbilx1 : T () :=
  env ← gets t_env;
  let tid := Z.land (spr env SPR_BOOKE_MAS6) MAS6_SPID in
  invalidate (fun e => negb (bit_any (mas1 e) MAS1_IPROT) && (Z.land (mas1 e) MAS1_TID_MASK =? tid))
    (i ← seq 0 BOOKE206_MAX_TLBN; tlb_range env i);;
  add_flush FlushAll.

Definition helper_booke206_tlbilx3 (address : Z) : T () :=
  env ← gets t_env;
  let mas6 := spr env SPR_BOOKE_MAS6 in
  let pid := Z.shiftr (Z.land mas6 MAS6_SPID) MAS6_SPID_SHIFT in
  let sgs := Z.land (spr env SPR_BOOKE_MAS5) MAS5_SGS in
  let ind := if bit_any mas6 MAS6_SIND then MAS1_IND else 0 in
  rs ← select (tlb_ways env) address;
  invalidate (fun e =>
    bool_decide (ppcmas_tlb_check e address pid <> None) && negb (bit_any (mas1 e) MAS1_IPROT)
    && (Z.land (mas1 e) MAS1_IND =? ind) && (Z.land (mas8 e) MAS8_TGS =? sgs)) rs;;
  add_flush FlushAll.

Definition helper_booke206_tlbflush (type : Z) : T () :=
  booke206_flush_tlb (Z.lor (if bit_any type 2 then BOOKE206_FLUSH_TLB1 else 0)
                        (if bit_any type 4 then BOOKE206_FLUSH_TLB0 else 0)) true.

Definition helper_booke_setpid (pidn pid : Z) : T () :=
  set_spr32 pidn pid;; add_flush FlushAll.

(** The registers of the external process, whose accesses have a mode of their own. *)
Definition EPID_MASK : Z := (EPID_EPID .| EPID_EAS .| EPID_EPR)%c.
Definition helper_booke_set_eplc (val : Z) : T () :=
  set_spr32 SPR_BOOKE_EPLC (Z.land val EPID_MASK);;
  add_flush (FlushIdx (Z.shiftl 1 PPC_TLB_EPID_LOAD)).
Definition helper_booke_set_epsc (val : Z) : T () :=
  set_spr32 SPR_BOOKE_EPSC (Z.land val EPID_MASK);;
  add_flush (FlushIdx (Z.shiftl 1 PPC_TLB_EPID_STORE)).

(** ** The test kernel *)

(** The words of [FSL_BOOKE_MAS0] to [FSL_BOOKE_MAS7]. *)
Definition FSL_BOOKE_MAS0 (tlbsel esel nv : Z) : Z :=
  (Z.land (Z.shiftl tlbsel 28) MAS0_TLBSEL_MASK .| Z.land (Z.shiftl esel 16) MAS0_ESEL_MASK
   .| Z.land nv 0xFFF)%c.
Definition FSL_BOOKE_MAS1 (v iprot tid ts tsize : Z) : Z :=
  (Z.land (Z.shiftl v 31) MAS1_VALID .| Z.land (Z.shiftl iprot 30) MAS1_IPROT
   .| Z.land (Z.shiftl tid 16) 0x3FFF0000 .| Z.land (Z.shiftl ts 12) MAS1_TS
   .| Z.land (Z.shiftl tsize 7) 0xF80)%c.
Definition FSL_BOOKE_MAS2 (epn wimge : Z) : Z := Z.lor (Z.land epn 0xFFFFF000) wimge.
Definition FSL_BOOKE_MAS3 (rpn user perms : Z) : Z := (Z.land rpn 0xFFFFF000 .| user .| perms)%c.
Definition FSL_BOOKE_MAS7 (rpn : Z) : Z := Z.shiftr (u64 rpn) 32.

Definition tlb_set_entry (tlb_id entry inv_protect tid tspace page_size epn attributes rpn perms : Z)
    : T tlb_result :=
  env ← gets t_env;
  if (Z.land (spr env SPR_MMUCFG) MMUCFG_MAVN =? MMUCFG_MAVN_V1) && bit_any page_size 1 then mret TlbDone
  else
    set_spr32 SPR_BOOKE_MAS0 (FSL_BOOKE_MAS0 tlb_id entry 0);;
    set_spr32 SPR_BOOKE_MAS1 (FSL_BOOKE_MAS1 1 inv_protect tid tspace page_size);;
    set_spr32 SPR_BOOKE_MAS2 (FSL_BOOKE_MAS2 epn attributes);;
    set_spr32 SPR_BOOKE_MAS3 (FSL_BOOKE_MAS3 rpn 0 perms);;
    set_spr32 SPR_BOOKE_MAS7 (FSL_BOOKE_MAS7 rpn);;
    helper_booke206_tlbwe.

Definition BOOKE_PAGESZ_4K := 2.
Definition BOOKE_PAGESZ_1M := 10.
Definition CONFIG_SYS_CCSRBAR := 0xe0000000.
Definition CONFIG_SYS_CCSRBAR_PHYS := 0xFE0000000.
Definition MAS2_W := 0x10.
Definition MAS2_I := 0x8.
Definition MAS2_M := 0x4.
Definition MAS2_G := 0x2.

(** A call of [bsp_init]: the TLB, the entry, the page size, the page, its attributes, the
    physical page and the permissions; the entries are protected, of process 0 and of
    address space 0. *)
Record mapping := mk_mapping {
  b_tlb : Z; b_entry : Z; b_size : Z; b_epn : Z; b_attr : Z; b_rpn : Z; b_perms : Z
}.

Definition bsp_mappings : list mapping :=
  let page entry epn attr rpn perms := mk_mapping 0 entry BOOKE_PAGESZ_4K epn attr rpn perms in
  let rw := Z.lor MAS3_SW MAS3_SR in
  let rwx := Z.lor MAS3_SX rw in
  let loop n (f : Z -> mapping) := map (fun i => f (Z.of_nat i)) (seq 0 n) in
  [mk_mapping 1 1 BOOKE_PAGESZ_1M CONFIG_SYS_CCSRBAR (Z.lor MAS2_I MAS2_G) CONFIG_SYS_CCSRBAR_PHYS rw;
   page 0 0x1000 MAS2_G 0x1000 rwx;
   page 1 0x2000 MAS2_G 0x2000 rwx]
  ++ loop 4%nat (fun i => page (2 + i) (0x3000 + i * 0x1000) MAS2_G (0x3000 + i * 0x1000) rwx)
  ++ loop 2%nat (fun i => page (6 + i) (0x7000 + i * 0x1000) MAS2_G (0x7000 + i * 0x1000) rw)
  ++ loop 2%nat (fun i => page (8 + i) (0x9000 + i * 0x1000) (Z.lor MAS2_M MAS2_G) (0x9000 + i * 0x1000) rw)
  ++ loop 4%nat (fun i => page (6 + i) (0xB000 + i * 0x1000) MAS2_G (0xE000 - i * 0x1000) rw)
  ++ [page 10 0xF000 (Z.lor MAS2_I MAS2_G) 0xF000 rw;
      page 11 0x10000 (MAS2_I .| MAS2_G .| MAS2_M)%c 0x11000 (Z.lor rw MAS3_SX);
      page 11 0x11000 (MAS2_W .| MAS2_G .| MAS2_M)%c 0x10000 rw].

Fixpoint set_entries (bs : list mapping) : T tlb_result :=
  match bs with
  | [] => mret TlbDone
  | b :: bs =>
      r ← tlb_set_entry (b_tlb b) (b_entry b) 1 0 0 (b_size b) (b_epn b) (b_attr b) (b_rpn b) (b_perms b);
      match r with TlbDone => set_entries bs | TlbInval => mret TlbInval end
  end.

Definition bsp_init : T tlb_result := set_entries bsp_mappings.

(** The e500 v2 core: four ways of 128 entries of four kilobytes, and sixteen entries of any
    size, of which the machine has set the first to map its memory, in pages of a size that
    depends on what was loaded.  [boot.S] has enabled the two caches. *)
Definition gen_tlbncfg (assoc minsize maxsize flags nentries : Z) : Z :=
  (Z.shiftl assoc 24 .| Z.shiftl minsize 20 .| Z.shiftl maxsize 16 .| flags .| nentries)%c.

Definition e500_spr (n : Z) : Z :=
  if n =? SPR_BOOKE_TLB0CFG then gen_tlbncfg 4 1 1 0 512
  else if n =? SPR_BOOKE_TLB0CFG + 1 then gen_tlbncfg 16 1 12 (Z.lor TLBnCFG_AVAIL TLBnCFG_IPROT) 16
  else if n =? SPR_Exxx_L1CSR0 then 1 else if n =? SPR_Exxx_L1CSR1 then 1 else 0.

Definition mmubooke_create_initial_mapping (ps : Z) : ppcmas_tlb_t :=
  mk_tlbm 0 (Z.lor MAS1_VALID (Z.shiftl ps MAS1_TSIZE_SHIFT)) 0
    (MAS3_UR .| MAS3_UW .| MAS3_UX .| MAS3_SR .| MAS3_SW .| MAS3_SX)%c.

Definition e500_env (first : ppcmas_tlb_t) : CPUPPCState :=
  let free := mk_tlbm 0 0 0 0 in
  mk_ppc (repeat 0 32) 0 [] 0 [] [] 0 0 2 0 3 [] [] (repeat free 512 ++ first :: repeat free 15) 0 0 0 0
    e500_spr POWERPC_MMU_BOOKE206 0.

Definition e500_state (first : ppcmas_tlb_t) : tlb_state := mk_tlb_state (e500_env first) 0 [].

(** The processor on which the tests run. *)
Definition test_env (first : ppcmas_tlb_t) : option CPUPPCState :=
  match bsp_init (e500_state first) with Done (TlbDone, s) => Some (t_env s) | _ => None end.

(** ** Expected outputs of the tests *)

(** What an instruction that makes no access does to the registers, before the next event. *)
Definition Keep (env : CPUPPCState) : CPUPPCState := env.
Definition Addi (d a : nat) (imm : Z) (env : CPUPPCState) : CPUPPCState :=
  let base := if (a =? 0)%nat then 0 else default 0 (gpr env !! a) in
  set_gpr env (<[d := u32 (base + imm)]> (gpr env)).

Definition KInsn (step : CPUPPCState -> CPUPPCState) (t : Z) (i : ppc_insn) : ppc_event :=
  mk_ppc_event step (fun _ => mk_call_env t ctx_junk 0) (fun _ _ => 0) i.

(** [Tests/PPC/tests/simple_address_tracing.S]: stores and loads of three sizes, one page
    after the other. *)
Definition simple_address_events : list ppc_event :=
  [KInsn Keep 0 (PCustom QEM_TRACE_START_OP);
   KInsn Keep 44860323494976 (PFetch 0x3010);
   KInsn (Addi 4 0 0x7000) 44870955554224 (PFetch 0x3014);
   KInsn (Addi 5 0 0x1234) 44874901475657 (PFetch 0x3018);
   KInsn (Addi 4 4 0x1000) 44877411036400 (PFetch 0x301c);
   KInsn Keep 44877411119472 (PStore 0 st32 0x90a40000);
   KInsn Keep 44937830632608 (PFetch 0x3020);
   KInsn (Addi 4 4 0x1000) 44945952224777 (PFetch 0x3024);
   KInsn Keep 44945952287010 (PLoad 0 ld32u 0x80a40000);
   KInsn Keep 45000759659846 (PFetch 0x3028);
   KInsn (Addi 4 4 0x1000) 45005931281936 (PFetch 0x302c);
   KInsn Keep 45005931368508 (PStore 0 st16 0xb0a40000);
   KInsn Keep 45045718269613 (PFetch 0x3030);
   KInsn (Addi 4 4 0x1000) 45047768553806 (PFetch 0x3034);
   KInsn Keep 45047768624083 (PLoad 0 ld16u 0xa0a40000);
   KInsn Keep 45076885947176 (PFetch 0x3038);
   KInsn (Addi 4 4 0x1000) 45102669995792 (PFetch 0x303c);
   KInsn Keep 45102670066148 (PStore 0 st8 0x98a40000);
   KInsn Keep 45116980269124 (PFetch 0x3040);
   KInsn (Addi 4 4 0x1000) 45119451935059 (PFetch 0x3044);
   KInsn Keep 45119452021093 (PLoad 0 ld8u 0x88a40000);
   KInsn Keep 45161250200648 (PFetch 0x3048);
   KInsn (Addi 4 4 0x1000) 45163491756978 (PFetch 0x304c);
   KInsn Keep 45163491818605 (PLoad 0 ld8u 0x88a40000);
   KInsn Keep 45173374981136 (PFetch 0x3050);
   KInsn (Addi 4 4 0x1000) 45181019684111 (PFetch 0x3054);
   KInsn Keep 45181019743512 (PLoad 0 ld8u 0x88a40000);
   KInsn Keep 45196786767174 (PFetch 0x3058);
   KInsn Keep 0 (PCustom QEM_TRACE_STOP_OP)].


(** The lines of [simple_address_tracing.S_test.valid] after the first. *)
Definition simple_address_valid : list string :=
  ["I LD | V 0x00003010 | P 0x00003010 | Core 0 | Time 44860323494976 | RW: R | ID: I | PL: K | E: A | G: L | S: W | CR: N | CL: 1 | CI: N | WT: D | EX: N";
   "I LD | V 0x00003014 | P 0x00003014 | Core 0 | Time 44870955554224 | RW: R | ID: I | PL: K | E: A | G: L | S: W | CR: N | CL: 1 | CI: N | WT: D | EX: N";
   "I LD | V 0x00003018 | P 0x00003018 | Core 0 | Time 44874901475657 | RW: R | ID: I | PL: K | E: A | G: L | S: W | CR: N | CL: 1 | CI: N | WT: D | EX: N";
   "I LD | V 0x0000301c | P 0x0000301c | Core 0 | Time 44877411036400 | RW: R | ID: I | PL: K | E: A | G: L | S: W | CR: N | CL: 1 | CI: N | WT: D | EX: N";
   "D ST | V 0x00008000 | P 0x00008000 | Core 0 | Time 44877411119472 | RW: W | ID: D | PL: K | E: A | G: L | S: W | CR: N | CL: 1 | CI: N | WT: D | EX: N";
   "I LD | V 0x00003020 | P 0x00003020 | Core 0 | Time 44937830632608 | RW: R | ID: I | PL: K | E: A | G: L | S: W | CR: N | CL: 1 | CI: N | WT: D | EX: N";
   "I LD | V 0x00003024 | P 0x00003024 | Core 0 | Time 44945952224777 | RW: R | ID: I | PL: K | E: A | G: L | S: W | CR: N | CL: 1 | CI: N | WT: D | EX: N";
   "D LD | V 0x00009000 | P 0x00009000 | Core 0 | Time 44945952287010 | RW: R | ID: D | PL: K | E: A | G: L | S: W | CR: Y | CL: 1 | CI: N | WT: D | EX: N";
   "I LD | V 0x00003028 | P 0x00003028 | Core 0 | Time 45000759659846 | RW: R | ID: I | PL: K | E: A | G: L | S: W | CR: N | CL: 1 | CI: N | WT: D | EX: N";
   "I LD | V 0x0000302c | P 0x0000302c | Core 0 | Time 45005931281936 | RW: R | ID: I | PL: K | E: A | G: L | S: W | CR: N | CL: 1 | CI: N | WT: D | EX: N";
   "D ST | V 0x0000a000 | P 0x0000a000 | Core 0 | Time 45005931368508 | RW: W | ID: D | PL: K | E: A | G: L | S: H | CR: Y | CL: 1 | CI: N | WT: D | EX: N";
   "I LD | V 0x00003030 | P 0x00003030 | Core 0 | Time 45045718269613 | RW: R | ID: I | PL: K | E: A | G: L | S: W | CR: N | CL: 1 | CI: N | WT: D | EX: N";
   "I LD | V 0x00003034 | P 0x00003034 | Core 0 | Time 45047768553806 | RW: R | ID: I | PL: K | E: A | G: L | S: W | CR: N | CL: 1 | CI: N | WT: D | EX: N";
   "D LD | V 0x0000b000 | P 0x0000e000 | Core 0 | Time 45047768624083 | RW: R | ID: D | PL: K | E: A | G: L | S: H | CR: N | CL: 1 | CI: N | WT: D | EX: N";
   "I LD | V 0x00003038 | P 0x00003038 | Core 0 | Time 45076885947176 | RW: R | ID: I | PL: K | E: A | G: L | S: W | CR: N | CL: 1 | CI: N | WT: D | EX: N";
   "I LD | V 0x0000303c | P 0x0000303c | Core 0 | Time 45102669995792 | RW: R | ID: I | PL: K | E: A | G: L | S: W | CR: N | CL: 1 | CI: N | WT: D | EX: N";
   "D ST | V 0x0000c000 | P 0x0000d000 | Core 0 | Time 45102670066148 | RW: W | ID: D | PL: K | E: A | G: L | S: B | CR: N | CL: 1 | CI: N | WT: D | EX: N";
   "I LD | V 0x00003040 | P 0x00003040 | Core 0 | Time 45116980269124 | RW: R | ID: I | PL: K | E: A | G: L | S: W | CR: N | CL: 1 | CI: N | WT: D | EX: N";
   "I LD | V 0x00003044 | P 0x00003044 | Core 0 | Time 45119451935059 | RW: R | ID: I | PL: K | E: A | G: L | S: W | CR: N | CL: 1 | CI: N | WT: D | EX: N";
   "D LD | V 0x0000d000 | P 0x0000c000 | Core 0 | Time 45119452021093 | RW: R | ID: D | PL: K | E: A | G: L | S: B | CR: N | CL: 1 | CI: N | WT: D | EX: N";
   "I LD | V 0x00003048 | P 0x00003048 | Core 0 | Time 45161250200648 | RW: R | ID: I | PL: K | E: A | G: L | S: W | CR: N | CL: 1 | CI: N | WT: D | EX: N";
   "I LD | V 0x0000304c | P 0x0000304c | Core 0 | Time 45163491756978 | RW: R | ID: I | PL: K | E: A | G: L | S: W | CR: N | CL: 1 | CI: N | WT: D | EX: N";
   "D LD | V 0x0000e000 | P 0x0000b000 | Core 0 | Time 45163491818605 | RW: R | ID: D | PL: K | E: A | G: L | S: B | CR: N | CL: 1 | CI: N | WT: D | EX: N";
   "I LD | V 0x00003050 | P 0x00003050 | Core 0 | Time 45173374981136 | RW: R | ID: I | PL: K | E: A | G: L | S: W | CR: N | CL: 1 | CI: N | WT: D | EX: N";
   "I LD | V 0x00003054 | P 0x00003054 | Core 0 | Time 45181019684111 | RW: R | ID: I | PL: K | E: A | G: L | S: W | CR: N | CL: 1 | CI: N | WT: D | EX: N";
   "D LD | V 0x0000f000 | P 0x0000f000 | Core 0 | Time 45181019743512 | RW: R | ID: D | PL: K | E: A | G: L | S: B | CR: N | CL: 1 | CI: Y | WT: D | EX: N";
   "I LD | V 0x00003058 | P 0x00003058 | Core 0 | Time 45196786767174 | RW: R | ID: I | PL: K | E: A | G: L | S: W | CR: N | CL: 1 | CI: N | WT: D | EX: N"]%string.

(** [Tests/PPC/tests/wt_state_trace.S]: loads from the page that is written through and from
    the one that is not cached; they are mapped to each other's address. *)
Definition wt_state_events : list ppc_event :=
  [KInsn Keep 0 (PCustom QEM_TRACE_START_OP);
   KInsn Keep 42708462547226 (PFetch 0x3010);
   KInsn (Addi 3 0 0x10000) 42710702873738 (PFetch 0x3014);
   KInsn (Addi 3 3 0x1000) 42714905313440 (PFetch 0x3018);
   KInsn Keep 42714905380352 (PLoad 0 ld32u 0x80830000);
   KInsn Keep 42741381484340 (PFetch 0x301c);
   KInsn (Addi 3 0 0x10000) 42742639718146 (PFetch 0x3020);
   KInsn Keep 42742639786380 (PLoad 0 ld32u 0x80830000);
   KInsn Keep 42743386658226 (PFetch 0x3024);
   KInsn Keep 0 (PCustom QEM_TRACE_STOP_OP)].


(** The lines of [wt_state_trace.S_test.valid] after the first. *)
Definition wt_state_valid : list string :=
  ["I LD | V 0x00003010 | P 0x00003010 | Core 0 | Time 42708462547226 | RW: R | ID: I | PL: K | E: A | G: L | S: W | CR: N | CL: 1 | CI: N | WT: D | EX: N";
   "I LD | V 0x00003014 | P 0x00003014 | Core 0 | Time 42710702873738 | RW: R | ID: I | PL: K | E: A | G: L | S: W | CR: N | CL: 1 | CI: N | WT: D | EX: N";
   "I LD | V 0x00003018 | P 0x00003018 | Core 0 | Time 42714905313440 | RW: R | ID: I | PL: K | E: A | G: L | S: W | CR: N | CL: 1 | CI: N | WT: D | EX: N";
   "D LD | V 0x00011000 | P 0x00010000 | Core 0 | Time 42714905380352 | RW: R | ID: D | PL: K | E: A | G: L | S: W | CR: Y | CL: 1 | CI: N | WT: E | EX: N";
   "I LD | V 0x0000301c | P 0x0000301c | Core 0 | Time 42741381484340 | RW: R | ID: I | PL: K | E: A | G: L | S: W | CR: N | CL: 1 | CI: N | WT: D | EX: N";
   "I LD | V 0x00003020 | P 0x00003020 | Core 0 | Time 42742639718146 | RW: R | ID: I | PL: K | E: A | G: L | S: W | CR: N | CL: 1 | CI: N | WT: D | EX: N";
   "D LD | V 0x00010000 | P 0x00011000 | Core 0 | Time 42742639786380 | RW: R | ID: D | PL: K | E: A | G: L | S: W | CR: Y | CL: 1 | CI: Y | WT: D | EX: N";
   "I LD | V 0x00003024 | P 0x00003024 | Core 0 | Time 42743386658226 | RW: R | ID: I | PL: K | E: A | G: L | S: W | CR: N | CL: 1 | CI: N | WT: D | EX: N"]%string.

Definition run_test (first : ppcmas_tlb_t) (es : list ppc_event) : option string :=
  env ← test_env first;
  option_map text_of (printed cfg_print (ppc_code cfg_print) es env (print_init world0)).

(** ** Properties *)

(** The expected outputs of two of the tests of the repository, computed: the entries the
    test kernel writes to the TLBs of an e500, the instructions of
    [simple_address_tracing.S] and of [wt_state_trace.S], the hooks, the translation, the records
    and the text of the standard output backend give the lines of the two [.valid] files, character
    for character, whatever the first entry of the second TLB is. *)
Theorem ppc_tests_expected first :
  run_test first simple_address_events =
    Some (text_of (map (fun l => l +:+ newline)%string simple_address_valid)) /\
  run_test first wt_state_events =
    Some (text_of (map (fun l => l +:+ newline)%string wt_state_valid)).
Proof. split; vm_compute; reflexivity. Qed.
