(* ===== verification/PpcTlbProof.v ===== *)
(** * The cached translations of the PowerPC guest

    QEMU caches the translations of the guest in a TLB of its own, so an instruction that changes
    what an entry of the BookE 2.06 TLBs ([PpcTlb]) answers for an address has to flush the
    address there.  This file shows it for the e500 v2, for every sequence of the instructions
    that manage the TLBs, together with the invariant it needs: the entries of the first TLB are
    of four kilobytes, the size at which [tlbivax] flushes them. *)

From S2P Require Import Prelude Bits PpcMmu Ppc PpcTlb.

#[export] Instance ppcmas_tlb_eq_dec : EqDecision ppcmas_tlb_t.
Proof. solve_decision. Defined.

(** ** Instructions *)

(** The instructions that manage the TLBs, and the writes of the registers they read. *)
Inductive tlb_op :=
  | Mtspr (n v : Z)
  | Tlbwe
  | Tlbre
  | Tlbsx (address : Z)
  | Tlbivax (address : Z)
  | Tlbilx0
  | Tlbilx1
  | Tlbilx3 (address : Z)
  | Tlbflush (type : Z)
  | Setpid (pidn pid : Z)
  | SetEplc (v : Z)
  | SetEpsc (v : Z).

Definition run_op (op : tlb_op) : T () :=
  match op with
  | Mtspr n v => set_spr32 n v
  | Tlbwe => helper_booke206_tlbwe;; mret ()
  | Tlbre => helper_booke206_tlbre
  | Tlbsx address => helper_booke206_tlbsx address
  | Tlbivax address => helper_booke206_tlbivax address
  | Tlbilx0 => helper_booke206_tlbilx0
  | Tlbilx1 => helper_booke206_tlbilx1
  | Tlbilx3 address => helper_booke206_tlbilx3 address
  | Tlbflush type => helper_booke206_tlbflush type
  | Setpid pidn pid => helper_booke_setpid pidn pid
  | SetEplc v => helper_booke_set_eplc v
  | SetEpsc v => helper_booke_set_epsc v
  end.

Fixpoint run_ops (ops : list tlb_op) : T () :=
  match ops with [] => mret () | op :: ops => run_op op;; run_ops ops end.

(** The registers that configure the TLBs, which the guest cannot write, and the bit that selects
    a TLB the core does not have. *)
Definition config_regs : list Z :=
  [SPR_BOOKE_TLB0CFG; SPR_BOOKE_TLB0CFG + 1; SPR_BOOKE_TLB0CFG + 2; SPR_BOOKE_TLB0CFG + 3; SPR_MMUCFG].
Definition selects (n : Z) : bool := (n =? SPR_BOOKE_MAS0) || (n =? SPR_BOOKE_MAS4).

(** The registers that select address spaces, which have instructions of their own. *)
Definition pid_regs : list Z := [SPR_BOOKE_PID; SPR_BOOKE_PID1; SPR_BOOKE_PID2].
Definition space_regs : list Z := pid_regs ++ [SPR_BOOKE_EPLC; SPR_BOOKE_EPSC].

Definition write_ok (n v : Z) : bool :=
  bool_decide (n ∉ config_regs ++ space_regs) && (negb (selects n) || negb (Z.testbit v 29)).

Definition op_ok (op : tlb_op) : bool :=
  match op with
  | Mtspr n v => write_ok n v
  | Setpid n _ => bool_decide (n ∈ pid_regs)
  | _ => true
  end.

(** ** Invariant *)

Definition is_valid (e : ppcmas_tlb_t) : bool := bit_any (mas1 e) MAS1_VALID.

Definition tsize (e : ppcmas_tlb_t) : Z := Z.shiftr (Z.land (mas1 e) MAS1_TSIZE_MASK) MAS1_TSIZE_SHIFT.

Record e500_inv (s : tlb_state) : Prop := {
  inv_config n : n ∈ config_regs -> spr (t_env s) n = e500_spr n;
  inv_selects n : selects n = true -> Z.testbit (spr (t_env s) n) 29 = false;
  inv_length : length (tlbm (t_env s)) = 528%nat;
  inv_gs : msr_gs (t_env s) = 0;
  inv_way : 0 <= last_way s < 4;
  inv_small i e : (i < 512)%nat -> tlbm (t_env s) !! i = Some e -> is_valid e = true ->
    booke206_tlb_to_page_size e = TARGET_PAGE_SIZE;
  inv_min i e : tlbm (t_env s) !! i = Some e -> is_valid e = true -> 2 <= tsize e
}.

(** What an entry answers for an address: its translation and its permissions, which are those
    of the entry, if it matches. *)
Definition answers (e : ppcmas_tlb_t) (address pid : Z) : option ppcmas_tlb_t :=
  if ppcmas_tlb_check e address pid is Some _ then Some e else None.
Definition answer (s : tlb_state) (i : nat) (address pid : Z) : option (option ppcmas_tlb_t) :=
  (fun e => answers e address pid) <$> tlbm (t_env s) !! i.

(** A page that QEMU's own TLB forgets. *)
Definition covers (f : flush) (address : Z) : Prop :=
  match f with
  | FlushAll => True
  | FlushPage a => a = Z.land address TARGET_PAGE_MASK
  | FlushIdx _ => False
  end.

(** An address space that QEMU's own TLB forgets when its register changes. *)
Definition covers_reg (f : flush) (n : Z) : Prop :=
  match f with
  | FlushAll => True
  | FlushPage _ => False
  | FlushIdx m => n = SPR_BOOKE_EPLC /\ m = Z.shiftl 1 PPC_TLB_EPID_LOAD
                  \/ n = SPR_BOOKE_EPSC /\ m = Z.shiftl 1 PPC_TLB_EPID_STORE
  end.

(** The flushes on the way from a state to another cover the answers that change. *)
Definition covered (fs : list flush) (s s' : tlb_state) : Prop :=
  forall i address pid, 0 <= address < 2 ^ 32 -> answer s i address pid <> answer s' i address pid ->
    Exists (fun f => covers f address) fs.

(** The flushes cover the address spaces that change. *)
Definition spaces_covered (fs : list flush) (s s' : tlb_state) : Prop :=
  msr (t_env s') = msr (t_env s) /\ mmu_model (t_env s') = mmu_model (t_env s) /\
  forall n, n ∈ space_regs ->
    spr (t_env s') n = spr (t_env s) n \/ Exists (fun f => covers_reg f n) fs.

Definition safe (s : tlb_state) (fs : list flush) (s' : tlb_state) : Prop :=
  e500_inv s' /\ flushes s' = flushes s ++ fs /\ covered fs s s' /\ spaces_covered fs s s'.

Lemma spaces_refl fs s s' :
  spr (t_env s') = spr (t_env s) -> msr (t_env s') = msr (t_env s) ->
  mmu_model (t_env s') = mmu_model (t_env s) -> spaces_covered fs s s'.
Proof. intros E ? ?. split_and!; [done..|]. intros n _. left. by rewrite E. Qed.

Lemma safe_refl s : e500_inv s -> safe s [] s.
Proof. intros H. split_and!; [done|by rewrite app_nil_r|by intros i a pid _ []|]. by apply spaces_refl. Qed.

Lemma safe_trans s fs s1 gs s2 : safe s fs s1 -> safe s1 gs s2 -> safe s (fs ++ gs) s2.
Proof.
  intros (_ & Hf & Hc & Hm & Hmm & Hr) (Hi & Hg & Hd & Hm' & Hmm' & Hr').
  split_and!; [done|by rewrite Hg, Hf, app_assoc| |split_and!; [congruence..|]].
  - intros i a pid Ha Hne. apply Exists_app.
    destruct (decide (answer s i a pid = answer s1 i a pid)) as [E|]; [right|left; eauto].
    apply (Hd i a pid Ha). congruence.
  - intros n Hn. rewrite Exists_app. destruct (Hr n Hn) as [E|]; [|by auto].
    destruct (Hr' n Hn) as [E'|]; [|by auto]. left. congruence.
Qed.

(** An address that matches an entry is in the page of the entry. *)
Lemma check_page e address pid :
  0 <= address < 2 ^ 32 -> booke206_tlb_to_page_size e = TARGET_PAGE_SIZE ->
  ppcmas_tlb_check e address pid <> None ->
  u32 (Z.land (mas2 e) MAS2_EPN_MASK) = Z.land address TARGET_PAGE_MASK.
Proof.
  intros Ha Hsz Hc. unfold ppcmas_tlb_check in Hc. rewrite Hsz in Hc.
  destruct (bit_any (mas1 e) MAS1_VALID); cbn [negb] in Hc; [|done].
  destruct (_ && _); [done|]. destruct (Z.eqb_spec (Z.land address (u64 (Z.lnot (TARGET_PAGE_SIZE - 1))))
    (Z.land (mas2 e) MAS2_EPN_MASK)) as [<-|]; [|done].
  unfold TARGET_PAGE_SIZE, TARGET_PAGE_MASK. change (4096 - 1) with (Z.ones 12).
  change 0xFFFFF000 with (Z.shiftl (Z.ones 20) 12). bits.
Qed.

Lemma check_covers e address pid :
  0 <= address < 2 ^ 32 -> ppcmas_tlb_check e address pid <> None -> covers (flush_of e) address.
Proof.
  intros Ha Hc. unfold flush_of.
  destruct (Z.eqb_spec (booke206_tlb_to_page_size e) TARGET_PAGE_SIZE) as [Hsz|]; [|exact I].
  by eapply check_page.
Qed.

Lemma check_valid e address pid : ppcmas_tlb_check e address pid <> None -> is_valid e = true.
Proof. unfold ppcmas_tlb_check, is_valid. by destruct (bit_any (mas1 e) MAS1_VALID). Qed.

Lemma clear_not_valid e : is_valid (clear_valid e) = false.
Proof.
  unfold is_valid, clear_valid, set_mas1, bit_any. cbn [mas1].
  by rewrite Z.land_ldiff.
Qed.

Lemma clear_twice e : clear_valid (clear_valid e) = clear_valid e.
Proof. unfold clear_valid, set_mas1. cbn. f_equal. rewrite Z.ldiff_ldiff_l. by rewrite Z.lor_diag. Qed.

Lemma clear_check e address pid : ppcmas_tlb_check (clear_valid e) address pid = None.
Proof.
  destruct (ppcmas_tlb_check (clear_valid e) address pid) eqn:H; [|done].
  assert (is_valid (clear_valid e) = true) as Hv by (by eapply (check_valid _ address pid); rewrite H).
  by rewrite clear_not_valid in Hv.
Qed.

(** ** The parts of the state *)

Lemma inv_flush s f :
  e500_inv s -> e500_inv (mk_tlb_state (t_env s) (last_way s) (flushes s ++ [f])).
Proof. by intros []; constructor. Qed.

Lemma safe_flush s f : e500_inv s -> safe s [f] (mk_tlb_state (t_env s) (last_way s) (flushes s ++ [f])).
Proof. intros H. split_and!; [by apply inv_flush|done|by intros i a pid _ []|].
  by apply spaces_refl. Qed.

(** Writing a register changes no answer. *)
Lemma spr_inv s n v :
  e500_inv s -> n ∉ config_regs -> (selects n = true -> Z.testbit v 29 = false) ->
  e500_inv (set_env (set_spr (t_env s) (fun m => if m =? n then u32 v else spr (t_env s) m)) s).
Proof.
  intros [Hc Hs Hl Hg Hw' Hm Hmin] Hn Hv. constructor; cbn -[Z.testbit]; [| |done..].
  - intros k Hk. destruct (Z.eqb_spec k n) as [->|]; [done|by apply Hc].
  - intros k Hk. destruct (Z.eqb_spec k n) as [->|]; [|by apply Hs]. rewrite testbit_wrap by done.
    by rewrite Hv.
Qed.

Lemma wp_spr n v (Q : () -> tlb_state -> Prop) s :
  e500_inv s -> write_ok n v = true -> (forall s', safe s [] s' -> Q () s') ->
  wp False (set_spr32 n v) Q s.
Proof.
  intros H Hw HQ. unfold set_spr32, on_env, write_spr. apply wp_zoom, wp_modify, HQ.
  unfold write_ok in Hw. apply andb_true_iff in Hw as [Hn Hv]. apply bool_decide_eq_true in Hn.
  apply not_elem_of_app in Hn as [Hn1 Hn2].
  split_and!; [|by cbn; rewrite app_nil_r|by intros i a pid _ []|split_and!; [done..|]].
  - apply spr_inv; [done..|]. intros Hsel. rewrite Hsel in Hv. by apply negb_true_iff in Hv.
  - intros k Hk. left. cbn. destruct (Z.eqb_spec k n) as [->|]; [done|done].
Qed.

Lemma wp_entry r (Q : ppcmas_tlb_t -> tlb_state -> Prop) s :
  e500_inv s -> 0 <= r < 528 ->
  (forall e, tlbm (t_env s) !! Z.to_nat r = Some e -> Q e s) -> wp False (tlb_entry r) Q s.
Proof.
  intros H Hr HQ. unfold tlb_entry, on_env. apply wp_zoom, wp_gets. cbn [id]. unfold entry.
  destruct (lookup_lt_is_Some_2 (tlbm (t_env s)) (Z.to_nat r)) as [e He].
  { rewrite (inv_length s H). lia. }
  eapply wp_access_last; [destruct (Z.ltb_spec r 0); [lia|exact He]|].
  replace (set_env (t_env s) s) with s by (by destruct s). by apply HQ.
Qed.

Definition put (s : tlb_state) (r : Z) (e : ppcmas_tlb_t) : tlb_state :=
  set_env (set_tlbm (t_env s) (<[Z.to_nat r := e]> (tlbm (t_env s)))) s.

Lemma wp_put r e (Q : () -> tlb_state -> Prop) s :
  Q () (put s r e) -> wp False (set_tlb_entry r e) Q s.
Proof. intros HQ. unfold set_tlb_entry, on_env. by apply wp_zoom, wp_modify. Qed.

Lemma put_inv s r e :
  e500_inv s -> 0 <= r < 528 ->
  (r < 512 -> is_valid e = true -> booke206_tlb_to_page_size e = TARGET_PAGE_SIZE) ->
  (is_valid e = true -> 2 <= tsize e) ->
  e500_inv (put s r e).
Proof.
  intros [Hc Hs Hl Hg Hw' Hm Hmin] Hr He Hsz.
  constructor; cbn; [done|done|by rewrite length_insert|done|done| |].
  - intros i x Hi [[<- [-> _]]|[_ Hx]]%list_lookup_insert_Some Hv; [apply He; [lia|done]|by eapply Hm].
  - intros i x [[<- [-> _]]|[_ Hx]]%list_lookup_insert_Some Hv; [by apply Hsz|by eapply Hmin].
Qed.

(** ** Entries of the e500 *)

Definition in_tlb (n : nat) (r : Z) : Prop := match n with O => 0 <= r < 512 | _ => 512 <= r < 528 end.

Lemma in_tlb_range n r : in_tlb n r -> 0 <= r < 528.
Proof. destruct n; cbn; lia. Qed.

Lemma e500_size s n :
  e500_inv s -> (n < 4)%nat -> booke206_tlb_size (t_env s) n = nth n [512; 16; 0; 0] 0.
Proof.
  intros H Hn. unfold booke206_tlb_size. rewrite (inv_config s H).
  - do 4 (destruct n as [|n]; [reflexivity|]). lia.
  - do 4 (destruct n as [|n]; [by decide_now|]). lia.
Qed.

Lemma e500_ways s n :
  e500_inv s -> (n < 4)%nat -> booke206_tlb_ways (t_env s) n = nth n [4; 16; 0; 0] 0.
Proof.
  intros H Hn. unfold booke206_tlb_ways. rewrite (inv_config s H).
  - do 4 (destruct n as [|n]; [reflexivity|]). lia.
  - do 4 (destruct n as [|n]; [by decide_now|]). lia.
Qed.

(** The index of an entry, of [m] bits of the address and [k] of the way. *)
Lemma index_range a way m k :
  0 <= m -> 0 <= k -> m + k < 32 ->
  0 <= i32 (Z.lor (Z.shiftl (Z.land a (2 ^ m - 1)) k) (Z.land way (2 ^ k - 1))) < 2 ^ (m + k).
Proof.
  intros Hm Hk Hs. rewrite !Z.sub_1_r, <- !Z.ones_equiv, !Z.land_ones by done.
  pose proof (Z.mod_pos_bound a (2 ^ m) ltac:(lia)). pose proof (Z.mod_pos_bound way (2 ^ k) ltac:(lia)).
  rewrite Z.lor_comm, lor_shiftl_add, Z.shiftl_mul_pow2 by lia.
  assert (2 ^ (m + k) <= 2 ^ 31) by (apply Z.pow_le_mono_r; lia). rewrite Z.pow_add_r in * by done.
  unfold swrap. rewrite Z.mod_small; nia.
Qed.

Lemma wp_get_tlbm n ea way (Q : option Z -> tlb_state -> Prop) s :
  e500_inv s -> (n < 2)%nat -> (forall r, in_tlb n r -> Q (Some r) s) ->
  wp False (on_env (booke206_get_tlbm (t_env s) n ea way)) Q s.
Proof.
  intros H Hn HQ. unfold on_env, booke206_get_tlbm. apply wp_zoom.
  replace (foldr _ 0 (seq 0 n)) with (nth n [0; 512] 0).
  2:{ destruct n as [|[|n]]; [done| |lia]. cbn. rewrite (e500_size s 0) by (done || lia). done. }
  rewrite (e500_size s n), (e500_ways s n) by (done || lia).
  assert (Hset : set_env (t_env s) s = s) by (by destruct s).
  destruct n as [|[|n]]; [| |lia]; (eapply wp_access; [vm_compute; reflexivity|]); cbn [nth].
  all: unfold MAS2_EPN_SHIFT.
  - change (ctz32 4) with 2. change (4 - 1) with (2 ^ 2 - 1).
    pose proof (index_range (Z.shiftr ea 12) way 7 2 ltac:(done) ltac:(done) ltac:(done)) as Hi.
    destruct (Z.leb_spec 512 (i32 (Z.lor (Z.shiftl (Z.land (Z.shiftr ea 12) (2 ^ 7 - 1)) 2)
      (Z.land way (2 ^ 2 - 1))))); [lia|]. apply wp_ret. rewrite Hset. apply HQ. cbn [in_tlb]. lia.
  - change (ctz32 16) with 4. change (16 - 1) with (2 ^ 4 - 1).
    pose proof (index_range (Z.shiftr ea 12) way 0 4 ltac:(done) ltac:(done) ltac:(done)) as Hi.
    destruct (Z.leb_spec 16 (i32 (Z.lor (Z.shiftl (Z.land (Z.shiftr ea 12) (2 ^ 0 - 1)) 4)
      (Z.land way (2 ^ 4 - 1))))); [lia|]. apply wp_ret. rewrite Hset. apply HQ. cbn [in_tlb]. lia.
Qed.

Lemma tlbsel_range s : e500_inv s -> tlbsel (t_env s) = 0 \/ tlbsel (t_env s) = 1.
Proof.
  intros H. pose proof (inv_selects s H SPR_BOOKE_MAS0 eq_refl) as Hb.
  unfold tlbsel, MAS0_TLBSEL_MASK, MAS0_TLBSEL_SHIFT.
  generalize dependent (spr (t_env s) SPR_BOOKE_MAS0). intros x Hb.
  assert (Z.testbit (Z.shiftr (Z.land x 0x30000000) 28) 1 = false) as Ht.
  { rewrite Z.shiftr_spec, Z.land_spec by done. change (1 + 28) with 29. by rewrite Hb. }
  assert (0 <= Z.shiftr (Z.land x 0x30000000) 28 < 4) as Hr.
  { change 0x30000000 with (Z.shiftl (Z.ones 2) 28). rewrite land_mask, Z.shiftr_shiftl_l, Z.shiftl_0_r by done.
    unfold field. rewrite Z.land_ones by done. by apply Z.mod_pos_bound. }
  revert Ht. generalize dependent (Z.shiftr (Z.land x 0x30000000) 28). intros z Hz Ht.
  assert (z = 0 \/ z = 1 \/ z = 2 \/ z = 3) as [-> | [-> | [-> | ->]]] by lia; try done; auto.
Qed.

Lemma wp_cur_tlb (Q : option Z -> tlb_state -> Prop) s :
  e500_inv s -> (forall r, in_tlb (Z.to_nat (tlbsel (t_env s))) r -> Q (Some r) s) ->
  wp False booke206_cur_tlb Q s.
Proof.
  intros H HQ. unfold booke206_cur_tlb. apply wp_gets. cbv zeta.
  assert (bit_any (tlbncfg (t_env s) (tlbsel (t_env s))) TLBnCFG_HES = false) as ->.
  { unfold tlbncfg. destruct (tlbsel_range s H) as [-> | ->]; by rewrite (inv_config s H) by decide_now. }
  cbn [andb]. apply wp_get_tlbm; [done| |done]. destruct (tlbsel_range s H) as [-> | ->]; lia.
Qed.

Lemma wp_new_entry old (Q : ppcmas_tlb_t -> tlb_state -> Prop) s :
  e500_inv s ->
  (forall e, (tlbsel (t_env s) = 0 -> booke206_tlb_to_page_size e = TARGET_PAGE_SIZE) ->
     (tlbsel (t_env s) = 1 -> mas1 e = spr (t_env s) SPR_BOOKE_MAS1) -> Q e s) ->
  wp False (new_entry (t_env s) (tlbsel (t_env s)) old) Q s.
Proof.
  intros H HQ. unfold new_entry. cbv zeta. rewrite (inv_config s H SPR_MMUCFG) by decide_now.
  change (_ =? MMUCFG_MAVN_V2) with false. cbv iota. apply wp_bind, wp_ret, wp_ret, HQ.
  all: intros ->; unfold tlbncfg; rewrite (inv_config s H) by decide_now.
  - change (bit_any _ TLBnCFG_AVAIL) with false. change (bit_any _ TLBnCFG_IPROT) with false. cbv iota.
    unfold booke206_tlb_to_page_size, set_mas1. cbn [mas1].
    rewrite Z.ldiff_land, <- Z.land_assoc. change (Z.land (Z.lnot MAS1_IPROT) _) with MAS1_TSIZE_MASK.
    by rewrite Z.land_lor_distr_l, Z.land_ldiff.
  - change (bit_any _ TLBnCFG_AVAIL) with true. by change (bit_any _ TLBnCFG_IPROT) with true.
Qed.

(** The sizes that the TLBs of the e500 have are of at least a page. *)
Lemma tsize_range e : 0 <= tsize e < 32.
Proof.
  unfold tsize, MAS1_TSIZE_MASK, MAS1_TSIZE_SHIFT. change (Z.shiftl 31 7) with (Z.shiftl (Z.ones 5) 7).
  rewrite land_mask, Z.shiftr_shiftl_l, Z.shiftl_0_r by done. by apply field_range.
Qed.

Lemma size_tsize e : booke206_tlb_to_page_size e = TARGET_PAGE_SIZE -> tsize e = 2.
Proof.
  unfold booke206_tlb_to_page_size. fold (tsize e). pose proof (tsize_range e) as Ht.
  change 32 with (Z.of_nat 32) in Ht. revert Ht. generalize (tsize e). intros z Hz. below_cases 32%nat Hz; try done.
Qed.

Lemma tlb1_sizes s z :
  e500_inv s -> 0 <= z < 32 -> bit_any (booke206_tlbnps (t_env s) 1) (Z.shiftl 1 z) = true -> 2 <= z.
Proof.
  intros H Hz. unfold booke206_tlbnps, tlbncfg.
  rewrite (inv_config s H SPR_MMUCFG), (inv_config s H (SPR_BOOKE_TLB0CFG + 1)) by decide_now.
  change 32 with (Z.of_nat 32) in Hz. below_cases 32%nat Hz.
  1, 2: by vm_compute.
  all: by intros _.
Qed.

(** ** The instructions *)

Lemma put_covered s r old e fs lw gl :
  tlbm (t_env s) !! Z.to_nat r = Some old ->
  (is_valid old = true -> flush_of old ∈ fs) -> flush_of e ∈ fs ->
  covered fs s (mk_tlb_state (t_env (put s r e)) lw gl).
Proof.
  intros Hold Ho He i a pid Ha Hne. unfold answer, answers, put in Hne. cbn in Hne.
  destruct (decide (i = Z.to_nat r)) as [->|Hi]; [|by rewrite list_lookup_insert_ne in Hne].
  rewrite list_lookup_insert_eq, Hold in Hne by (by eapply lookup_lt_Some). cbn in Hne.
  rewrite Exists_exists. destruct (ppcmas_tlb_check old a pid) eqn:E1.
  - exists (flush_of old). rewrite (check_valid old a pid) in Ho by (by rewrite E1).
    split; [by apply Ho|]. eapply check_covers; [done|by rewrite E1].
  - exists (flush_of e). split; [done|]. apply (check_covers e a pid Ha). intros E2. by rewrite E2 in Hne.
Qed.

Lemma wp_flush f (Q : () -> tlb_state -> Prop) s :
  Q () (mk_tlb_state (t_env s) (last_way s) (flushes s ++ [f])) -> wp False (add_flush f) Q s.
Proof. done. Qed.

(** The check of the size of an entry that is written to the second TLB. *)
Lemma new_size s e :
  e500_inv s -> tlbsel (t_env s) = 1 -> mas1 e = spr (t_env s) SPR_BOOKE_MAS1 -> is_valid e = true ->
  bit_any (spr (t_env s) SPR_BOOKE_MAS1) MAS1_VALID
    && bit_any (tlbncfg (t_env s) (tlbsel (t_env s))) TLBnCFG_AVAIL
    && negb (bit_any (booke206_tlbnps (t_env s) (tlbsel (t_env s)))
         (Z.shiftl 1 (Z.shiftr (Z.land (spr (t_env s) SPR_BOOKE_MAS1) MAS1_TSIZE_MASK) MAS1_TSIZE_SHIFT)))
    = false ->
  2 <= tsize e.
Proof.
  intros H -> Hm Hv Hc. unfold is_valid in Hv. rewrite Hm in Hv. rewrite Hv, <- Hm in Hc.
  fold (tsize e) in Hc. unfold tlbncfg in Hc. rewrite (inv_config s H) in Hc by decide_now.
  change (bit_any (u32 (e500_spr (SPR_BOOKE_TLB0CFG + 1))) TLBnCFG_AVAIL) with true in Hc.
  cbn [andb] in Hc. apply negb_false_iff in Hc. apply (tlb1_sizes s); [done|apply tsize_range|done].
Qed.

Lemma tlbwe_safe s : e500_inv s -> wp False helper_booke206_tlbwe (fun _ s' => exists fs, safe s fs s') s.
Proof.
  intros H. pose proof (safe_refl s H) as Hs. unfold helper_booke206_tlbwe. apply wp_gets. cbv zeta.
  rewrite (inv_gs s H). destruct (negb _); [exact (ex_intro _ [] Hs)|]. destruct (_ && _); [exact (ex_intro _ [] Hs)|].
  apply wp_bind, wp_cur_tlb; [done|]. intros r Hr.
  match goal with |- wp _ (if ?b then _ else _) _ _ => destruct b eqn:Eps end; [exact (ex_intro _ [] Hs)|].
  pose proof (in_tlb_range _ _ Hr) as Hb.
  change (negb (0 =? 0)) with false. cbv iota. apply wp_bind, wp_entry; [done..|]. intros old Hold.
  set (fs := if is_valid old then [flush_of old] else []).
  apply wp_seq with (P := fun _ s1 => s1 = mk_tlb_state (t_env s) (last_way s) (flushes s ++ fs)).
  { unfold fs, is_valid. apply wp_when; intros ->; [done|]. by rewrite app_nil_r; destruct s. }
  intros _ s1 ->. set (s1 := mk_tlb_state _ _ _).
  assert (e500_inv s1) as H1 by (destruct H; by constructor).
  change (t_env s) with (t_env s1) at 1 2. apply wp_bind, wp_new_entry; [done|]. intros e He He1.
  apply wp_bind, wp_put, wp_bind, wp_flush, wp_ret. exists (fs ++ [flush_of e]).
  split_and!; [apply inv_flush, put_inv; [done..| |]|by cbn; rewrite app_assoc| |by apply spaces_refl].
  - intros Hlt _. apply He. change (t_env s1) with (t_env s).
    destruct (tlbsel_range s H) as [E|E]; [done|]. rewrite E in Hr. change (512 <= r < 528) in Hr. lia.
  - intros Hv. destruct (tlbsel_range s H) as [E|E]; [by rewrite (size_tsize e (He E))|].
    apply (new_size s e H E); [by apply He1|done|exact Eps].
  - apply (put_covered s r old e); [exact Hold| |].
    + unfold fs. intros ->. apply elem_of_app. left. by constructor.
    + apply elem_of_app. right. by constructor.
Qed.

Definition same_regs (s s' : tlb_state) : Prop :=
  spr (t_env s') = spr (t_env s) /\ msr (t_env s') = msr (t_env s)
  /\ mmu_model (t_env s') = mmu_model (t_env s).

(** What an invalidation changes: it clears the valid bit of selected entries. *)
Definition cleared (p : ppcmas_tlb_t -> bool) (rs : list Z) (s s' : tlb_state) : Prop :=
  e500_inv s' /\ flushes s' = flushes s /\ same_regs s s' /\
  forall i e, tlbm (t_env s) !! i = Some e ->
    tlbm (t_env s') !! i = Some e \/
    tlbm (t_env s') !! i = Some (clear_valid e) /\ p e = true /\ Z.of_nat i ∈ rs.

Lemma wp_invalidate p rs : forall s,
  e500_inv s -> (forall r, r ∈ rs -> 0 <= r < 528) ->
  wp False (invalidate p rs) (fun _ s' => cleared p rs s s') s.
Proof.
  induction rs as [|r rs IH]; intros s H Hrs; cbn [invalidate].
  { apply wp_ret. split_and!; try done. intros i e He. by left. }
  assert (0 <= r < 528) as Hr by (apply Hrs; by left).
  apply wp_bind, wp_entry; [done..|]. intros e He.
  apply wp_seq with (P := fun _ s1 => cleared p [r] s s1).
  - apply wp_when; intros Hp.
    + apply wp_put. split_and!; try done.
      { apply put_inv; [done..| |]; by rewrite clear_not_valid. }
      intros i x Hx. cbn. destruct (decide (i = Z.to_nat r)) as [->|Hi].
      * right. rewrite list_lookup_insert_eq by (by eapply lookup_lt_Some). simplify_eq.
        split_and!; [done..|]. rewrite Z2Nat.id by lia. by left.
      * left. by rewrite list_lookup_insert_ne.
    + split_and!; try done. intros i x Hx. by left.
  - intros _ s1 (H1 & Hf1 & (Hr1 & Hr1' & Hr1'') & Hc1). eapply wp_mono; [apply IH; [done|intros x Hx; apply Hrs; by right]|].
    intros _ s2 (H2 & Hf2 & (Hr2 & Hr2' & Hr2'') & Hc2).
    split_and!; [done|congruence|split_and!; congruence|]. intros i x Hx.
    destruct (Hc1 i x Hx) as [Hs1|(Hs1 & Hp1 & Hi1)]; destruct (Hc2 i _ Hs1) as [Hs2|(Hs2 & Hp2 & Hi2)].
    + by left.
    + right. split_and!; [done..|by right].
    + right. apply list_elem_of_singleton in Hi1 as ->. split_and!; [done..|by left].
    + right. apply list_elem_of_singleton in Hi1 as ->. rewrite clear_twice in Hs2. split_and!; [done..|by left].
Qed.

(** A flush that covers the entries an invalidation clears makes it safe. *)
Lemma cleared_safe p rs f s s' :
  e500_inv s -> cleared p rs s s' ->
  (forall i e a pid, 0 <= a < 2 ^ 32 -> tlbm (t_env s) !! i = Some e -> p e = true -> Z.of_nat i ∈ rs ->
     ppcmas_tlb_check e a pid <> None -> covers f a) ->
  wp False (add_flush f) (fun _ s2 => exists fs, safe s fs s2) s'.
Proof.
  intros H (H' & Hf & (? & ? & ?) & Hc) Hcov. apply wp_flush. exists [f].
  split_and!; [by apply inv_flush|by cbn; rewrite Hf| |by apply spaces_refl].
  intros i a pid Ha Hne. apply Exists_cons_hd. unfold answer, answers in Hne. cbn in Hne.
  destruct (tlbm (t_env s) !! i) as [e|] eqn:He.
  - destruct (Hc i e He) as [Hs|(Hs & Hp & Hi)]; rewrite Hs in Hne; cbn in Hne; [done|].
    rewrite clear_check in Hne. eapply Hcov; [done..|]. intros E. by rewrite E in Hne.
  - apply lookup_ge_None in He. rewrite (inv_length s H), <- (inv_length s' H') in He.
    apply lookup_ge_None in He. by rewrite He in Hne.
Qed.

Lemma invalidate_all_safe p rs s :
  e500_inv s -> (forall r, r ∈ rs -> 0 <= r < 528) ->
  wp False (invalidate p rs;; add_flush FlushAll) (fun _ s' => exists fs, safe s fs s') s.
Proof.
  intros H Hrs. eapply wp_seq; [by apply wp_invalidate|]. intros [] s' Hc. by eapply cleared_safe.
Qed.

Lemma tlb_range_bound s n r : e500_inv s -> (n < 4)%nat -> r ∈ tlb_range (t_env s) n -> 0 <= r < 528.
Proof.
  intros H Hn. unfold tlb_range. rewrite list_elem_of_fmap. intros (j & -> & Hj%elem_of_seq).
  rewrite (e500_size s n) in Hj by done.
  assert (foldr (fun i acc => booke206_tlb_size (t_env s) i + acc) 0 (seq 0 n) = nth n [0; 512; 528; 528] 0) as ->.
  { do 4 (destruct n as [|n]; [cbn; rewrite ?(e500_size s) by (done || lia); reflexivity|]). lia. }
  do 4 (destruct n as [|n]; [cbn in *; lia|]). lia.
Qed.

Lemma flush_tlb_safe flags iprot s :
  e500_inv s -> wp False (booke206_flush_tlb flags iprot) (fun _ s' => exists fs, safe s fs s') s.
Proof.
  intros H. unfold booke206_flush_tlb. apply wp_gets, invalidate_all_safe; [done|].
  intros r (n & Hr & Hn%elem_of_seq)%list_elem_of_bind. apply (tlb_range_bound s n r H); [unfold BOOKE206_MAX_TLBN in Hn; lia|].
  by destruct (Z.testbit flags (Z.of_nat n)); [|apply not_elem_of_nil in Hr].
Qed.

Lemma wp_select ways a : forall s (Q : list Z -> tlb_state -> Prop),
  e500_inv s -> (forall n j, (n, j) ∈ ways -> (n < 2)%nat) ->
  (forall rs, (forall r, r ∈ rs -> exists n j, (n, j) ∈ ways /\ in_tlb n r) -> Q rs s) ->
  wp False (select ways a) Q s.
Proof.
  induction ways as [|[n j] ways IH]; intros s Q H Hw HQ; cbn [select].
  { apply wp_ret, HQ. by intros r ?%not_elem_of_nil. }
  apply wp_gets, wp_bind, wp_get_tlbm; [done|apply (Hw n j); by left|]. intros r Hr.
  apply wp_bind, IH; [done|intros n' j' Hn; apply (Hw n' j'); by right|]. intros rs Hrs.
  apply wp_ret, HQ. intros x [->|Hx]%elem_of_cons.
  - exists n, j. split; [by left|done].
  - destruct (Hrs x Hx) as (n' & j' & Hn & Hi). exists n', j'. split; [by right|done].
Qed.

Lemma ways_of_tlb s n n' j : (n', j) ∈ ways_of (t_env s) n -> n' = n.
Proof. unfold ways_of. rewrite list_elem_of_fmap. by intros (k & [= -> _] & _). Qed.

Lemma tlb_ways_two s n j : e500_inv s -> (n, j) ∈ tlb_ways (t_env s) -> (n < 2)%nat.
Proof.
  intros H (i & (k & [= -> ->]%list_elem_of_singleton & Hk%elem_of_seq)%list_elem_of_bind & Hi%elem_of_seq)%list_elem_of_bind.
  unfold BOOKE206_MAX_TLBN in Hi. rewrite (e500_ways s) in Hk by (done || lia).
  do 2 (destruct i as [|i]; [lia|]). do 2 (destruct i as [|i]; [cbn in Hk; lia|]). lia.
Qed.

(** The address of [tlbivax] is in the page of the entries of the first TLB it clears. *)
Lemma tlbivax_page e a pid address :
  0 <= a < 2 ^ 32 -> booke206_tlb_to_page_size e = TARGET_PAGE_SIZE ->
  Z.land (mas2 e) MAS2_EPN_MASK = Z.land address (u32 (Z.lnot (booke206_tlb_to_page_size e - 1))) ->
  ppcmas_tlb_check e a pid <> None ->
  covers (FlushPage (u32 (Z.land address MAS2_EPN_MASK))) a.
Proof.
  intros Ha Hsz He Hc. cbn [covers]. rewrite <- (check_page e a pid Ha Hsz Hc), He, Hsz.
  unfold TARGET_PAGE_SIZE, MAS2_EPN_MASK. change (4096 - 1) with (Z.ones 12). bits.
Qed.

Lemma tlbivax_safe address s :
  e500_inv s -> wp False (helper_booke206_tlbivax address) (fun _ s' => exists fs, safe s fs s') s.
Proof.
  intros H. unfold helper_booke206_tlbivax, booke206_invalidate_ea_tlb.
  destruct (bit_any address 4); [by destruct (bit_any address 8); apply flush_tlb_safe|].
  destruct (bit_any address 8); apply wp_bind, wp_gets, wp_bind, wp_select; try done.
  1,3: intros n j ->%ways_of_tlb; lia.
  all: intros rs Hrs.
  all: assert (Hin : forall r, r ∈ rs -> 0 <= r < 528)
    by (intros r (n & j & _ & Hi)%Hrs; by eapply in_tlb_range).
  all: eapply wp_mono; [by apply wp_invalidate|]; intros [] s' Hc; eapply cleared_safe; [done..|].
  - done.
  - intros i e a pid Ha He Hp (n & j & Hn & Hi)%Hrs Hck. apply ways_of_tlb in Hn as ->. cbn in Hi.
    apply andb_true_iff in Hp as [Hp%Z.eqb_eq _]. eapply tlbivax_page; [done| |exact Hp|exact Hck].
    eapply (inv_small s H i); [lia|done|by eapply check_valid].
Qed.

Lemma tlbilx1_safe s :
  e500_inv s -> wp False helper_booke206_tlbilx1 (fun _ s' => exists fs, safe s fs s') s.
Proof.
  intros H. unfold helper_booke206_tlbilx1. apply wp_gets, invalidate_all_safe; [done|].
  intros r (n & Hr & Hn%elem_of_seq)%list_elem_of_bind.
  apply (tlb_range_bound s n r H); [unfold BOOKE206_MAX_TLBN in Hn; lia|done].
Qed.

Lemma tlbilx3_safe address s :
  e500_inv s -> wp False (helper_booke206_tlbilx3 address) (fun _ s' => exists fs, safe s fs s') s.
Proof.
  intros H. unfold helper_booke206_tlbilx3. apply wp_gets. cbv zeta.
  apply wp_bind, wp_select; [done|intros n j; by apply tlb_ways_two|].
  intros rs Hrs. apply invalidate_all_safe; [done|]. intros r (n & j & _ & Hi)%Hrs. by eapply in_tlb_range.
Qed.

(** *** Reads

    The instructions that only write registers change no answer. *)

Definition kept {A} (s : tlb_state) (m : T A) : Prop :=
  forall s1, safe s [] s1 -> wp False m (fun _ s2 => safe s [] s2) s1.

Lemma kept_bind {A B} s (m : T A) (k : A -> T B) :
  kept s m -> (forall a, kept s (k a)) -> kept s (m ≫= k).
Proof. intros Hm Hk s1 H1. eapply wp_seq; [by apply Hm|]. intros a s2. apply Hk. Qed.

Lemma kept_spr s n v : write_ok n v = true -> kept s (set_spr32 n v).
Proof.
  intros Hw s1 H1. apply wp_spr; [apply H1|done|]. intros s2 H2. exact (safe_trans _ _ _ _ _ H1 H2).
Qed.

Ltac kept_writes :=
  repeat (apply kept_bind; [apply kept_spr; reflexivity|intros []]); apply kept_spr; reflexivity.

Lemma mas0_ok a way next :
  Z.testbit a 29 = false -> 0 <= way < 16 -> 0 <= next < 4 ->
  write_ok SPR_BOOKE_MAS0
    (a .| Z.shiftl way MAS0_ESEL_SHIFT .| Z.shiftl next MAS0_NV_SHIFT)%c = true.
Proof.
  intros Ha Hw Hn. unfold write_ok. apply andb_true_iff. split; [by decide_now|].
  apply orb_true_iff. right. apply negb_true_iff. rewrite !Z.lor_spec, Ha, !Z.shiftl_spec by done.
  unfold MAS0_ESEL_SHIFT, MAS0_NV_SHIFT.
  by rewrite (testbit_above 4 way), (testbit_above 2 next) by lia.
Qed.

(** The index of an entry belongs to one of the two TLBs. *)
Lemma tlbn_of_e500 s r :
  e500_inv s -> 0 <= r < 528 -> tlbn_of (t_env s) BOOKE206_MAX_TLBN 0 0 r = Some (if r <? 512 then 0%nat else 1%nat).
Proof.
  intros H Hr. cbn. rewrite !(e500_size s) by (done || lia). cbn [nth].
  change (0 + 512) with 512. change (512 + 16) with 528. destruct (Z.ltb_spec r 512); [done|]. by destruct (Z.ltb_spec r 528); [|lia].
Qed.

Lemma tlb_to_mas_kept r s : 0 <= r < 528 -> kept s (booke206_tlb_to_mas r).
Proof.
  intros Hr s1 H1. pose proof H1 as (Hi & _). unfold booke206_tlb_to_mas, booke206_tlbm_to_way, booke206_tlbm_to_tlbn.
  apply wp_bind, wp_gets. rewrite (tlbn_of_e500 s1 r Hi Hr). apply wp_ret, wp_bind, wp_bind, wp_gets.
  rewrite (tlbn_of_e500 s1 r Hi Hr). apply wp_ret, wp_gets, wp_ret, wp_bind, wp_entry; [done..|].
  intros e _. apply wp_gets. set (way := Z.land r _). set (n := (if r <? 512 then 0%nat else 1%nat)).
  assert (Hway : 0 <= way < 16).
  { unfold way. rewrite (e500_ways s1) by (done || destruct (r <? 512); lia).
    destruct (r <? 512); cbn [nth]; [change (4 - 1) with (Z.ones 2)|change (16 - 1) with (Z.ones 4)];
      rewrite Z.land_ones by done; [pose proof (Z.mod_pos_bound r (2 ^ 2))|pose proof (Z.mod_pos_bound r (2 ^ 4))];
      lia. }
  assert (Hk : kept s (set_spr32 SPR_BOOKE_MAS0
    (Z.shiftl (Z.of_nat n) MAS0_TLBSEL_SHIFT .| Z.shiftl way MAS0_ESEL_SHIFT
     .| Z.shiftl (last_way s1) MAS0_NV_SHIFT)%c)).
  { apply kept_spr, mas0_ok; [by unfold n; destruct (r <? 512)|done|apply Hi]. }
  refine (kept_bind s _ _ Hk _ s1 H1). intros []. kept_writes.
Qed.

Lemma tlbre_kept s : e500_inv s -> kept s helper_booke206_tlbre.
Proof.
  intros H s1 H1. unfold helper_booke206_tlbre. apply wp_bind, wp_cur_tlb; [apply H1|].
  intros r Hr. apply tlb_to_mas_kept; [by eapply in_tlb_range|done].
Qed.

Lemma wp_tlbsx_loop ways a spid sas : forall s (Q : option Z -> tlb_state -> Prop),
  e500_inv s -> (forall n j, (n, j) ∈ ways -> (n < 2)%nat) ->
  (forall o, (forall r, o = Some r -> 0 <= r < 528) -> Q o s) ->
  wp False (tlbsx_loop ways a spid sas) Q s.
Proof.
  induction ways as [|[n j] ways IH]; intros s Q H Hw HQ; cbn [tlbsx_loop].
  { by apply wp_ret, HQ. }
  assert (IH' : wp False (tlbsx_loop ways a spid sas) Q s).
  { apply IH; [done|intros n' j' Hn; apply (Hw n' j'); by right|done]. }
  apply wp_gets, wp_bind, wp_get_tlbm; [done|apply (Hw n j); by left|]. intros r Hr%in_tlb_range.
  apply wp_bind, wp_entry; [done..|]. intros e _. destruct (ppcmas_tlb_check e a spid); [|done].
  destruct (_ =? _); [|done]. apply wp_ret, HQ. by intros r' [= <-].
Qed.

Lemma last_way_kept w s : 0 <= w < 4 -> kept s (set_last_way w).
Proof.
  intros Hw s1 (Hi & Hf & Hc & Hsp). apply wp_modify. refine (conj _ (conj Hf (conj Hc Hsp))).
  destruct Hi. by constructor.
Qed.

Lemma tlbsx_kept a s : e500_inv s -> kept s (helper_booke206_tlbsx a).
Proof.
  intros H s1 H1. pose proof H1 as (Hi & _). unfold helper_booke206_tlbsx. apply wp_gets. cbv zeta.
  apply wp_bind, wp_tlbsx_loop; [done|intros n j; by apply tlb_ways_two|]. intros [r|] Ho.
  { apply tlb_to_mas_kept; [by apply Ho|done]. }
  apply wp_gets. rewrite (e500_ways s1) by (done || lia). cbn [nth].
  assert (Hn : 0 <= Z.land (last_way s1 + 1) (4 - 1) < 4).
  { change (4 - 1) with (Z.ones 2). rewrite Z.land_ones by done. by apply Z.mod_pos_bound. }
  pose proof (inv_way s1 Hi) as Hw.
  refine (kept_bind s _ _ (last_way_kept _ _ Hn) _ s1 H1). intros [].
  apply kept_bind; [apply kept_spr, mas0_ok; [|lia|done]|intros []; kept_writes].
  by rewrite Z.land_spec, (inv_selects s1 Hi).
Qed.

(** Changing an address space, with the flush that covers it. *)
Lemma set_space_safe s n v f :
  e500_inv s -> n ∈ space_regs -> covers_reg f n ->
  wp False (set_spr32 n v;; add_flush f) (fun _ s' => exists fs, safe s fs s') s.
Proof.
  intros H Hn Hf. unfold set_spr32, on_env, write_spr.
  apply wp_bind, wp_zoom, wp_modify, wp_flush. exists [f].
  assert (Hdis : (n ∉ config_regs) /\ selects n = false).
  { repeat (apply elem_of_cons in Hn as [->|Hn]; [by decide_now|]). by apply elem_of_nil in Hn. }
  destruct Hdis as [Hc Hs].
  split_and!; [|done|by intros i a pid _ []|split_and!; [done..|]].
  - apply inv_flush. apply spr_inv; [done..|]. congruence.
  - intros k Hk. cbn. destruct (Z.eqb_spec k n) as [->|]; [right|by left]. by apply Exists_cons_hd.
Qed.

Lemma op_safe op s :
  e500_inv s -> op_ok op = true -> wp False (run_op op) (fun _ s' => exists fs, safe s fs s') s.
Proof.
  intros H Hok. pose proof (safe_refl s H) as Hs.
  assert (Hk : forall m : T (), kept s m -> wp False m (fun _ s' => exists fs, safe s fs s') s).
  { intros m Hm. eapply wp_mono; [by apply Hm|]. intros [] s' H'. by exists []. }
  destruct op; cbn [run_op].
  - by apply Hk, kept_spr.
  - eapply wp_seq; [by apply tlbwe_safe|]. by intros r s' H'.
  - by apply Hk, tlbre_kept.
  - by apply Hk, tlbsx_kept.
  - by apply tlbivax_safe.
  - by apply flush_tlb_safe.
  - by apply tlbilx1_safe.
  - by apply tlbilx3_safe.
  - by apply flush_tlb_safe.
  - apply bool_decide_eq_true in Hok. apply set_space_safe; [done|by apply elem_of_app; left|done].
  - apply set_space_safe; [done|by decide_now|by left].
  - apply set_space_safe; [done|by decide_now|by right].
Qed.

Lemma e500_state_inv first :
  (is_valid first = true -> 2 <= tsize first) -> e500_inv (e500_state first).
Proof.
  intros Hfirst. constructor; [done| |done|done|done| |].
  - intros n. unfold selects. by intros [->%Z.eqb_eq | ->%Z.eqb_eq]%orb_true_iff.
  - intros i e Hi He. unfold e500_state, e500_env in He. cbn [t_env tlbm] in He.
    rewrite lookup_app_l in He by (rewrite repeat_length; lia).
    by apply list_elem_of_lookup_2, list_elem_of_In, repeat_spec in He as ->.
  - intros i e He. unfold e500_state, e500_env in He. cbn [t_env tlbm] in He.
    apply list_elem_of_lookup_2 in He. apply elem_of_app in He as [He|He];
      [|apply elem_of_cons in He as [->|He]; [done|]].
    all: by apply list_elem_of_In, repeat_spec in He as ->.
Qed.

Lemma ops_safe ops s :
  e500_inv s -> forallb op_ok ops = true -> exists s' fs, run_ops ops s = Done ((), s') /\ safe s fs s'.
Proof.
  intros H Hok. cut (wp False (run_ops ops) (fun _ s' => exists fs, safe s fs s') s).
  { intros ([] & s' & Hr & fs & Hs)%wp_total. by exists s', fs. }
  revert s H. induction ops as [|op ops IH]; intros s H; cbn in *.
  { apply wp_ret. exists []. by apply safe_refl. }
  apply andb_true_iff in Hok as [H1 H2]. eapply wp_seq; [by apply op_safe|]. intros [] s1 (fs & Hs).
  eapply wp_mono; [apply IH; [done|apply Hs]|]. intros [] s2 (gs & Hg). exists (fs ++ gs).
  by eapply safe_trans.
Qed.

(** Map a page through the first TLB and search for it. *)
Definition map_page : list tlb_op :=
  [Mtspr SPR_BOOKE_MAS0 (Z.shiftl 1 16); Mtspr SPR_BOOKE_MAS1 MAS1_VALID; Mtspr SPR_BOOKE_MAS2 0x11000;
   Mtspr SPR_BOOKE_MAS3 0x1003F; Tlbwe; Tlbsx 0x11000].

(** ** Properties *)



(** The bit [op_ok] keeps clear selects a TLB of no entry and no way, for which the index of the
    entry shifts a 32-bit word by 32. *)
Theorem missing_tlb_undefined first :
  run_ops [Mtspr SPR_BOOKE_MAS0 (Z.shiftl 2 MAS0_TLBSEL_SHIFT); Tlbre] (e500_state first) = Undefined.
Proof. vm_compute. reflexivity. Qed.
