(* ===== verification/CpuTlb.v ===== *)
(** * QEMU's software TLB

    [accel/tcg/cputlb.c]: the cache of translations that every guest access of the emulated
    processor goes through.  A mode of the MMU has a direct-mapped table, a small fully
    associative table of victims, and a region that covers the large pages entered in it.  The
    target's MMU model enters pages with [tlb_set_page]; the instructions that change a
    translation flush with [tlb_flush] and [tlb_flush_page].

    The physical memory map (which memory section backs a page) is a parameter: [MemoryMap].
    The functions here are those of one processor's own thread.  The spin lock around the
    updates, the cache of translated blocks ([tb_jmp_cache]) and the work queued for other
    processors are not in the state. *)

From S2P Require Import Prelude Bits.

(** ** The target and the machine *)

(** The constants of a target: [TARGET_PAGE_BITS] and [NB_MMU_MODES], with what the build
    asserts of them ([NB_MMU_MODES <= TARGET_PAGE_BITS_MIN]); a bit map of modes is a
    [uint16_t]. *)
Class Target := {
  TARGET_PAGE_BITS : Z;
  NB_MMU_MODES : nat;
  page_bits_ok : 10 <= TARGET_PAGE_BITS < 32;
  modes_ok : Z.of_nat NB_MMU_MODES <= Z.min 16 TARGET_PAGE_BITS
}.

(** A section of the physical memory map: what [tlb_set_page_with_attrs] asks of a
    [MemoryRegionSection] and of its region. *)
Record section := mk_section {
  is_ram : bool;
  is_romd : bool;
  readonly : bool;
  ram_ptr : Z;
  ram_addr : Z;
  sec_number : Z
}.

(** [address_space_translate_for_iotlb] (address, attributes and protection to section, offset
    in its region and protection): the machine's memory map.  It only takes permissions away. *)
Class MemoryMap := {
  translate_for_iotlb : Z -> Z -> Z -> section * Z * Z;
  translate_prot : forall addr attrs prot,
    Z.land (translate_for_iotlb addr attrs prot).2 prot = (translate_for_iotlb addr attrs prot).2
}.

(** A watchpoint of the debugger. *)
Record CPUWatchpoint := mk_wp { wp_vaddr : Z; wp_len : Z; wp_flags : Z }.

Definition PHYS_SECTION_NOTDIRTY := 1.
Definition PHYS_SECTION_ROM := 2.
Definition PHYS_SECTION_WATCH := 3.
Definition BP_MEM_READ := 1.
Definition PAGE_READ := 1.
Definition PAGE_WRITE := 2.
Definition PAGE_EXEC := 4.
Definition PAGE_WRITE_INV := 0x40.

(** ** State *)

(** [CPUTLBEntry]: the page, with flags, as each kind of access compares it, and what to add to
    a guest address to have the host's. *)
Record CPUTLBEntry := mk_te { addr_read : Z; addr_write : Z; addr_code : Z; addend : Z }.

(** [CPUIOTLBEntry]. *)
Record CPUIOTLBEntry := mk_io { io_addr : Z; io_attrs : Z }.

(** [CPUTLBDesc]. *)
Record CPUTLBDesc := mk_desc { large_page_addr : Z; large_page_mask : Z; vindex : Z }.

(** The arrays of [CPU_COMMON_TLB] at one mode. *)
Record tlb_mode := mk_mode {
  tlb_d : CPUTLBDesc;
  tlb_table : list CPUTLBEntry;
  tlb_v_table : list CPUTLBEntry;
  iotlb : list CPUIOTLBEntry;
  iotlb_v : list CPUIOTLBEntry
}.

(** [CPUTLBCommon] and the modes. *)
Record cputlb := mk_cputlb {
  dirty : Z;
  full_flush_count : Z;
  part_flush_count : Z;
  elide_flush_count : Z;
  modes : list tlb_mode
}.

(** What [memset (te, -1, ...)] leaves. *)
Definition empty_te : CPUTLBEntry := mk_te (u32 (-1)) (u32 (-1)) (u32 (-1)) (u64 (-1)).

#[export] Instance te_inhabited : Inhabited CPUTLBEntry := populate empty_te.
#[export] Instance io_inhabited : Inhabited CPUIOTLBEntry := populate (mk_io 0 0).

Definition CPU_VTLB_SIZE : nat := 8.

Definition set_d (d : CPUTLBDesc) (m : tlb_mode) : tlb_mode :=
  mk_mode d (tlb_table m) (tlb_v_table m) (iotlb m) (iotlb_v m).
Definition set_table (t : list CPUTLBEntry) (m : tlb_mode) : tlb_mode :=
  mk_mode (tlb_d m) t (tlb_v_table m) (iotlb m) (iotlb_v m).
Definition set_v_table (t : list CPUTLBEntry) (m : tlb_mode) : tlb_mode :=
  mk_mode (tlb_d m) (tlb_table m) t (iotlb m) (iotlb_v m).
Definition set_iotlb (t : list CPUIOTLBEntry) (m : tlb_mode) : tlb_mode :=
  mk_mode (tlb_d m) (tlb_table m) (tlb_v_table m) t (iotlb_v m).
Definition set_iotlb_v (t : list CPUIOTLBEntry) (m : tlb_mode) : tlb_mode :=
  mk_mode (tlb_d m) (tlb_table m) (tlb_v_table m) (iotlb m) t.
Definition set_dirty (v : Z) (s : cputlb) : cputlb :=
  mk_cputlb v (full_flush_count s) (part_flush_count s) (elide_flush_count s) (modes s).
Definition set_modes (v : list tlb_mode) (s : cputlb) : cputlb :=
  mk_cputlb (dirty s) (full_flush_count s) (part_flush_count s) (elide_flush_count s) v.
Definition set_counts (full part elide : Z) (s : cputlb) : cputlb :=
  mk_cputlb (dirty s) full part elide (modes s).

Section Tlb.
Context {T : Target}.
Open Scope c_scope.

(** ** Addresses and flags *)

Definition TARGET_PAGE_SIZE : Z := Z.shiftl 1 TARGET_PAGE_BITS.
Definition TARGET_PAGE_MASK : Z := Z.lnot (TARGET_PAGE_SIZE - 1).
Definition TLB_INVALID_MASK : Z := Z.shiftl 1 (TARGET_PAGE_BITS - 1).
Definition TLB_NOTDIRTY : Z := Z.shiftl 1 (TARGET_PAGE_BITS - 2).
Definition TLB_MMIO : Z := Z.shiftl 1 (TARGET_PAGE_BITS - 3).
Definition TLB_RECHECK : Z := Z.shiftl 1 (TARGET_PAGE_BITS - 4).

(** The size of the table, for a host whose code generator encodes 31-bit displacements
    ([tcg/i386]) and entries of 32 bytes. *)
Definition CPU_TLB_BITS : Z :=
  let n := Z.of_nat NB_MMU_MODES in
  Z.min 8 (31 - 5 - (if n <=? 1 then 0 else if n <=? 2 then 1 else if n <=? 4 then 2
                     else if n <=? 8 then 3 else 4)).
Definition CPU_TLB_SIZE : Z := Z.shiftl 1 CPU_TLB_BITS.

Definition tlb_index (addr : Z) : Z :=
  Z.shiftr addr TARGET_PAGE_BITS .& (CPU_TLB_SIZE - 1).

Definition tlb_hit_page (tlb_addr addr : Z) : bool :=
  addr =? (tlb_addr .& (TARGET_PAGE_MASK .| TLB_INVALID_MASK)).
Definition tlb_hit (tlb_addr addr : Z) : bool := tlb_hit_page tlb_addr (addr .& TARGET_PAGE_MASK).

Definition tlb_hit_page_anyprot (te : CPUTLBEntry) (page : Z) : bool :=
  tlb_hit_page (addr_read te) page || tlb_hit_page (addr_write te) page
  || tlb_hit_page (addr_code te) page.

(** The entry of the direct-mapped table for an address. *)
Definition slot (addr : Z) : nat := Z.to_nat (tlb_index addr).
Definition tlb_entry (m : tlb_mode) (addr : Z) : CPUTLBEntry := tlb_table m !!! slot addr.

(** ** Flushing *)

Definition tlb_flush_one_mmuidx_locked (m : tlb_mode) : tlb_mode :=
  mk_mode (mk_desc (u32 (-1)) (u32 (-1)) 0)
    (replicate (Z.to_nat CPU_TLB_SIZE) empty_te) (replicate CPU_VTLB_SIZE empty_te)
    (iotlb m) (iotlb_v m).

Definition tlb_flush_entry_locked (te : CPUTLBEntry) (page : Z) : CPUTLBEntry :=
  if tlb_hit_page_anyprot te page then empty_te else te.

Definition tlb_flush_vtlb_page_locked (page : Z) (m : tlb_mode) : tlb_mode :=
  set_v_table ((fun te => tlb_flush_entry_locked te page) <$> tlb_v_table m) m.

Definition tlb_flush_page_locked (page : Z) (m : tlb_mode) : tlb_mode :=
  let lp_addr := large_page_addr (tlb_d m) in
  let lp_mask := large_page_mask (tlb_d m) in
  if page .& lp_mask =? lp_addr then tlb_flush_one_mmuidx_locked m
  else
    let te := tlb_flush_entry_locked (tlb_entry m page) page in
    tlb_flush_vtlb_page_locked page (set_table (<[slot page := te]> (tlb_table m)) m).

Definition on_mode (idx : nat) (f : tlb_mode -> tlb_mode) (s : cputlb) : cputlb :=
  set_modes (alter f idx (modes s)) s.

Definition ALL_MMUIDX_BITS : Z := Z.shiftl 1 (Z.of_nat NB_MMU_MODES) - 1.

(** [ctz32] and [ctpop16] of [qemu/host-utils.h], the number of trailing zeros (32 for 0) and
    of bits that are set. *)
Fixpoint ctz_from (n : nat) (i w : Z) : Z :=
  match n with
  | O => i
  | S k => if Z.testbit w i then i else ctz_from k (i + 1) w
  end.
Definition ctz32 (w : Z) : Z := ctz_from 32 0 w.
Definition ctpop16 (w : Z) : Z :=
  foldr Z.add 0 ((fun i => Z.b2z (Z.testbit w (Z.of_nat i))) <$> seq 0 16).

(** The loop [for (work = to_clean; work != 0; work &= work - 1)]: a turn clears the lowest bit
    of a [uint16_t], so that it ends within 16 turns. *)
Fixpoint flush_modes (fuel : nat) (work : Z) (s : cputlb) : cputlb :=
  match fuel with
  | O => s
  | S k =>
      if work =? 0 then s
      else flush_modes k (work .& (work - 1))
             (on_mode (Z.to_nat (ctz32 work)) tlb_flush_one_mmuidx_locked s)
  end.

Definition tlb_flush_by_mmuidx_async_work (data : Z) (s : cputlb) : cputlb :=
  let asked := u16 data in
  let to_clean := asked .& dirty s in
  let s := set_dirty (dirty s .& u16 (Z.lnot to_clean)) s in
  let s := flush_modes 16 to_clean s in
  if to_clean =? ALL_MMUIDX_BITS then
    set_counts (u64 (full_flush_count s + 1)) (part_flush_count s) (elide_flush_count s) s
  else
    let s := set_counts (full_flush_count s) (u64 (part_flush_count s + ctpop16 to_clean))
               (elide_flush_count s) s in
    if to_clean =? asked then s
    else set_counts (full_flush_count s) (part_flush_count s)
           (u64 (elide_flush_count s + ctpop16 (asked .& u16 (Z.lnot to_clean)))) s.

Definition tlb_flush_by_mmuidx (idxmap : Z) (s : cputlb) : cputlb :=
  tlb_flush_by_mmuidx_async_work (u16 idxmap) s.
Definition tlb_flush (s : cputlb) : cputlb := tlb_flush_by_mmuidx ALL_MMUIDX_BITS s.

(** The page and the bit map of the modes travel in one word. *)
Definition tlb_flush_page_by_mmuidx_async_work (addr_and_mmuidx : Z) (s : cputlb) : cputlb :=
  let addr := addr_and_mmuidx .& TARGET_PAGE_MASK in
  let mmu_idx_bitmap := addr_and_mmuidx .& ALL_MMUIDX_BITS in
  foldl (fun s mmu_idx =>
    if Z.testbit mmu_idx_bitmap (Z.of_nat mmu_idx)
    then on_mode mmu_idx (tlb_flush_page_locked addr) s else s) s (seq 0 NB_MMU_MODES).

Definition tlb_flush_page_by_mmuidx (addr idxmap : Z) (s : cputlb) : cputlb :=
  tlb_flush_page_by_mmuidx_async_work ((addr .& TARGET_PAGE_MASK) .| u16 idxmap) s.
Definition tlb_flush_page (addr : Z) (s : cputlb) : cputlb :=
  tlb_flush_page_by_mmuidx addr ALL_MMUIDX_BITS s.

(** [tlb_init], which marks every mode so that the reset's flush clears it. *)
Definition tlb_init (s : cputlb) : cputlb := set_dirty (u16 ALL_MMUIDX_BITS) s.

(** ** Dirty tracking *)

Definition set_addr_write (v : Z) (te : CPUTLBEntry) : CPUTLBEntry :=
  mk_te (addr_read te) v (addr_code te) (addend te).

Definition tlb_reset_dirty_range_locked (start length : Z) (te : CPUTLBEntry) : CPUTLBEntry :=
  let addr := addr_write te in
  if addr .& (TLB_INVALID_MASK .| TLB_MMIO .| TLB_NOTDIRTY) =? 0 then
    let addr := u64 ((addr .& TARGET_PAGE_MASK) + addend te) in
    if u64 (addr - start) <? length then set_addr_write (addr_write te .| TLB_NOTDIRTY) te else te
  else te.

Definition tlb_reset_dirty (start1 length : Z) (s : cputlb) : cputlb :=
  set_modes ((fun m => set_v_table (tlb_reset_dirty_range_locked start1 length <$> tlb_v_table m)
    (set_table (tlb_reset_dirty_range_locked start1 length <$> tlb_table m) m)) <$> modes s) s.

Definition tlb_set_dirty1_locked (vaddr : Z) (te : CPUTLBEntry) : CPUTLBEntry :=
  if addr_write te =? (vaddr .| TLB_NOTDIRTY) then set_addr_write vaddr te else te.

Definition tlb_set_dirty (vaddr : Z) (s : cputlb) : cputlb :=
  let vaddr := vaddr .& TARGET_PAGE_MASK in
  set_modes ((fun m => set_v_table (tlb_set_dirty1_locked vaddr <$> tlb_v_table m)
    (set_table (alter (tlb_set_dirty1_locked vaddr) (slot vaddr) (tlb_table m)) m)) <$> modes s) s.

(** ** Entering a page *)

(** The loop [while (((lp_addr ^ vaddr) & lp_mask) != 0) lp_mask <<= 1]: the mask is a word of
    32 bits, which 32 shifts clear. *)
Fixpoint extend_mask (fuel : nat) (lp_addr vaddr lp_mask : Z) : Z :=
  match fuel with
  | O => lp_mask
  | S k =>
      if Z.lxor lp_addr vaddr .& lp_mask =? 0 then lp_mask
      else extend_mask k lp_addr vaddr (u32 (Z.shiftl lp_mask 1))
  end.

Definition tlb_add_large_page (vaddr size : Z) (m : tlb_mode) : tlb_mode :=
  let lp_addr := large_page_addr (tlb_d m) in
  let lp_mask := u32 (Z.lnot (size - 1)) in
  let '(lp_addr, lp_mask) :=
    if lp_addr =? u32 (-1) then (vaddr, lp_mask)
    else (lp_addr, extend_mask 32 lp_addr vaddr (lp_mask .& large_page_mask (tlb_d m))) in
  set_d (mk_desc (lp_addr .& lp_mask) lp_mask (vindex (tlb_d m))) m.

Definition cpu_watchpoint_address_matches (wp : CPUWatchpoint) (addr len : Z) : bool :=
  let wpend := u64 (wp_vaddr wp + wp_len wp - 1) in
  let addrend := u64 (addr + len - 1) in
  negb ((wpend <? addr) || (addrend <? wp_vaddr wp)).

(** [memory_region_section_get_iotlb]: the value for the IOTLB and the flags of the address. *)
Definition memory_region_section_get_iotlb (wps : list CPUWatchpoint) (sec : section)
    (vaddr paddr xlat prot address : Z) : Z * Z :=
  let iotlb :=
    if is_ram sec then
      u64 (ram_addr sec + xlat)
        .| (if negb (readonly sec) then PHYS_SECTION_NOTDIRTY else PHYS_SECTION_ROM)
    else u64 (sec_number sec + xlat) in
  if existsb (fun wp => cpu_watchpoint_address_matches wp vaddr TARGET_PAGE_SIZE
       && (bit_any prot PAGE_WRITE || bit_any (wp_flags wp) BP_MEM_READ)) wps
  then (u64 (PHYS_SECTION_WATCH + paddr), address .| TLB_MMIO) else (iotlb, address).

Context {M : MemoryMap}.

(** The entry that [tlb_set_page_with_attrs] computes for a page: from the section that backs
    it, the watchpoints and whether the page of RAM is clean. *)
Definition new_entry (wps : list CPUWatchpoint) (clean : Z -> bool)
    (vaddr_page paddr_page attrs prot size : Z) : CPUTLBEntry * CPUIOTLBEntry :=
  let '(sec, xlat, prot) := translate_for_iotlb paddr_page attrs prot in
  let address := if size <? TARGET_PAGE_SIZE then vaddr_page .| TLB_RECHECK else vaddr_page in
  let '(address, addend) :=
    if negb (is_ram sec) && negb (is_romd sec) then (address .| TLB_MMIO, 0)
    else (address, u64 (ram_ptr sec + xlat)) in
  let code_address := address in
  let '(iotlb, address) :=
    memory_region_section_get_iotlb wps sec vaddr_page paddr_page xlat prot address in
  let addr_write :=
    if bit_any prot PAGE_WRITE then
      let w :=
        if (is_ram sec && readonly sec) || is_romd sec then address .| TLB_MMIO
        else if is_ram sec && clean (u64 (ram_addr sec + xlat)) then address .| TLB_NOTDIRTY
        else address in
      if bit_any prot PAGE_WRITE_INV then w .| TLB_INVALID_MASK else w
    else u32 (-1) in
  (mk_te (if bit_any prot PAGE_READ then address else u32 (-1)) addr_write
     (if bit_any prot PAGE_EXEC then code_address else u32 (-1)) (u64 (addend - vaddr_page)),
   mk_io (u64 (iotlb - vaddr_page)) attrs).

(** The update of the tables: drop the page from the victims, move the entry it replaces there
    if it is for another page, and write the new one. *)
Definition refill (vaddr_page : Z) (tn : CPUTLBEntry) (io : CPUIOTLBEntry) (m : tlb_mode) :
    tlb_mode :=
  let index := slot vaddr_page in
  let te := tlb_entry m vaddr_page in
  let m := tlb_flush_vtlb_page_locked vaddr_page m in
  let m :=
    if negb (tlb_hit_page_anyprot te vaddr_page) then
      let d := tlb_d m in
      let vidx := Z.to_nat (vindex d mod Z.of_nat CPU_VTLB_SIZE) in
      let m := set_d (mk_desc (large_page_addr d) (large_page_mask d) (u64 (vindex d + 1))) m in
      set_iotlb_v (<[vidx := iotlb m !!! index]> (iotlb_v m))
        (set_v_table (<[vidx := te]> (tlb_v_table m)) m)
    else m in
  set_table (<[index := tn]> (tlb_table m)) (set_iotlb (<[index := io]> (iotlb m)) m).

Definition tlb_set_page_with_attrs (wps : list CPUWatchpoint) (clean : Z -> bool)
    (vaddr paddr attrs prot : Z) (mmu_idx : nat) (size : Z) (s : cputlb) : cputlb :=
  let s := if size <=? TARGET_PAGE_SIZE then s
           else on_mode mmu_idx (tlb_add_large_page vaddr size) s in
  let vaddr_page := vaddr .& TARGET_PAGE_MASK in
  let paddr_page := paddr .& TARGET_PAGE_MASK in
  let '(tn, io) := new_entry wps clean vaddr_page paddr_page attrs prot size in
  let s := set_dirty (dirty s .| u16 (Z.shiftl 1 (Z.of_nat mmu_idx))) s in
  on_mode mmu_idx (refill vaddr_page tn io) s.

(** [MEMTXATTRS_UNSPECIFIED], the attributes with only the bit [unspecified] set. *)
Definition MEMTXATTRS_UNSPECIFIED : Z := 1.

Definition tlb_set_page (wps : list CPUWatchpoint) (clean : Z -> bool)
    (vaddr paddr prot : Z) (mmu_idx : nat) (size : Z) (s : cputlb) : cputlb :=
  tlb_set_page_with_attrs wps clean vaddr paddr MEMTXATTRS_UNSPECIFIED prot mmu_idx size s.

(** ** Looking up *)

(** [MMUAccessType], and the field of an entry that an access of the kind compares. *)
Inductive MMUAccessType := MMU_DATA_LOAD | MMU_DATA_STORE | MMU_INST_FETCH.

Definition elt (ty : MMUAccessType) (te : CPUTLBEntry) : Z :=
  match ty with
  | MMU_DATA_LOAD => addr_read te
  | MMU_DATA_STORE => addr_write te
  | MMU_INST_FETCH => addr_code te
  end.

(** [victim_tlb_hit] from entry [vidx] on: the entry it finds changes places with the one at
    [index]. *)
Definition swap_victim (index vidx : nat) (m : tlb_mode) : tlb_mode :=
  mk_mode (tlb_d m)
    (<[index := tlb_v_table m !!! vidx]> (tlb_table m))
    (<[vidx := tlb_table m !!! index]> (tlb_v_table m))
    (<[index := iotlb_v m !!! vidx]> (iotlb m))
    (<[vidx := iotlb m !!! index]> (iotlb_v m)).

Definition victim_tlb_hit (index : nat) (ty : MMUAccessType) (page : Z) (m : tlb_mode) :
    option tlb_mode :=
  match list_find (fun vtlb => elt ty vtlb =? page) (tlb_v_table m) with
  | Some (vidx, _) => Some (swap_victim index vidx m)
  | None => None
  end.

(** The lookup that every access makes before it fills the TLB: a hit in the table, or a victim
    that comes back. *)
Definition tlb_probe (mmu_idx : nat) (ty : MMUAccessType) (addr : Z) (s : cputlb) : bool * cputlb :=
  match modes s !! mmu_idx with
  | Some m =>
      if tlb_hit (elt ty (tlb_entry m addr)) addr then (true, s)
      else match victim_tlb_hit (slot addr) ty (addr .& TARGET_PAGE_MASK) m with
           | Some m' => (true, set_modes (<[mmu_idx := m']> (modes s)) s)
           | None => (false, s)
           end
  | None => (false, s)
  end.

(** The access to RAM without going through the memory core: the host address. *)
Definition tlb_host (mmu_idx : nat) (ty : MMUAccessType) (addr : Z) (s : cputlb) : option Z :=
  m ← modes s !! mmu_idx;
  let te := tlb_entry m addr in
  if tlb_hit (elt ty te) addr && (elt ty te .& Z.lnot TARGET_PAGE_MASK =? 0)
  then Some (u64 (addr + addend te)) else None.
End Tlb.
