(* ===== verification/CpuTlbProof.v ===== *)
(** * The software TLB refines a map of pages

    What [CpuTlb] promises to the MMU models and to the accesses of the guest: whatever the
    sequence of pages entered, flushes and changes of the dirty state, a hit is on a page that
    was entered and not flushed since, with the protection and the physical page it was entered
    with.  The abstract state of a mode is a finite map from virtual pages to mappings; the
    tables, the victims, the region of the large pages and the elided flushes of clean modes
    implement it. *)

From S2P Require Import Prelude Bits CpuTlb.

(** A mapping of a page, as it is entered. *)
Record mapping := mk_mapping { mp_paddr : Z; mp_attrs : Z; mp_prot : Z; mp_size : Z }.

(** The pages of a mode, and of every mode. *)
Abbreviation amap := (gmap Z mapping).
Abbreviation acache := (list amap).

Section Tlb.
Context {T : Target} {M : MemoryMap}.
Open Scope c_scope.

(** ** Pages and flags *)

Definition aligned (va : Z) : Prop := va .& TARGET_PAGE_MASK = va /\ unsigned 32 va.

Lemma page_bits_pos : 10 <= TARGET_PAGE_BITS < 32.
Proof. exact page_bits_ok. Qed.

Lemma page_mask_ones : TARGET_PAGE_MASK = Z.lnot (Z.ones TARGET_PAGE_BITS).
Proof.
  unfold TARGET_PAGE_MASK, TARGET_PAGE_SIZE. rewrite Z.ones_equiv, Z.shiftl_1_l. by f_equal.
Qed.

Lemma testbit_page_mask i : 0 <= i -> Z.testbit TARGET_PAGE_MASK i = (TARGET_PAGE_BITS <=? i).
Proof.
  pose proof page_bits_pos. intros. rewrite page_mask_ones, testbit_lnot, testbit_ones by lia.
  by bit_cases.
Qed.

Lemma testbit_one n i : 0 <= n -> Z.testbit (Z.shiftl 1 n) i = (i =? n).
Proof.
  intros. destruct (Z.eqb_spec i n) as [->|Hn].
  - rewrite Z.shiftl_1_l. by apply Z.pow2_bits_true.
  - rewrite Z.shiftl_1_l. by apply Z.pow2_bits_false.
Qed.

Lemma testbit_flags i :
  Z.testbit TLB_INVALID_MASK i = (i =? TARGET_PAGE_BITS - 1)
  /\ Z.testbit TLB_NOTDIRTY i = (i =? TARGET_PAGE_BITS - 2)
  /\ Z.testbit TLB_MMIO i = (i =? TARGET_PAGE_BITS - 3)
  /\ Z.testbit TLB_RECHECK i = (i =? TARGET_PAGE_BITS - 4).
Proof.
  pose proof page_bits_pos. unfold TLB_INVALID_MASK, TLB_NOTDIRTY, TLB_MMIO, TLB_RECHECK.
  rewrite !testbit_one by lia. done.
Qed.

Lemma page_mask_page a : 0 <= a < 2 ^ 32 -> aligned (a .& TARGET_PAGE_MASK).
Proof.
  pose proof page_bits_pos. intros Ha. split.
  - rewrite <- Z.land_assoc. by rewrite Z.land_diag.
  - rewrite Z.land_comm. by apply land_range.
Qed.

Lemma aligned_low va i : aligned va -> 0 <= i < TARGET_PAGE_BITS -> Z.testbit va i = false.
Proof.
  intros [<- _] Hi. rewrite Z.land_spec, testbit_page_mask by lia.
  by rewrite (proj2 (Z.leb_gt _ _)), andb_false_r by lia.
Qed.

(** A page hits an entry exactly when the entry is valid and is of that page. *)
Lemma tlb_hit_page_spec a va :
  aligned va ->
  tlb_hit_page a va = true <-> a .& TARGET_PAGE_MASK = va /\ Z.testbit a (TARGET_PAGE_BITS - 1) = false.
Proof.
  pose proof page_bits_pos as Hp. intros Hva. unfold tlb_hit_page. rewrite Z.eqb_eq. split.
  - intros E. split.
    + rewrite E. apply Z.bits_inj'. intros i Hi.
      rewrite !Z.land_spec, Z.lor_spec, testbit_page_mask by lia.
      destruct (testbit_flags i) as (-> & _).
      destruct (Z.leb_spec TARGET_PAGE_BITS i), (Z.eqb_spec i (TARGET_PAGE_BITS - 1)); try done; try lia.
      assert (Hl : Z.testbit va i = false) by (apply aligned_low; [done|lia]).
      rewrite E, Z.land_spec, Z.lor_spec in Hl. destruct (testbit_flags i) as (Hf & _).
      rewrite Hf, (proj2 (Z.eqb_eq i _)), orb_true_r in Hl by done. by rewrite andb_false_r.
    + assert (Hl : Z.testbit va (TARGET_PAGE_BITS - 1) = false) by (apply aligned_low; [done|lia]).
      rewrite E, Z.land_spec, Z.lor_spec in Hl.
      destruct (testbit_flags (TARGET_PAGE_BITS - 1)) as (Hf & _).
      by rewrite Hf, Z.eqb_refl, orb_true_r, andb_true_r in Hl.
  - intros [E Hb]. rewrite <- E. apply Z.bits_inj'. intros i Hi.
    rewrite !Z.land_spec, Z.lor_spec. destruct (testbit_flags i) as (-> & _).
    destruct (Z.eqb_spec i (TARGET_PAGE_BITS - 1)) as [->|]; [by rewrite Hb|].
    by rewrite orb_false_r.
Qed.

(** The comparison word of an entry: no access, or the page with flags. *)
Definition flagged (va a : Z) : Prop := exists fl, 0 <= fl < 2 ^ TARGET_PAGE_BITS /\ a = va .| fl.
Definition word_of (va a : Z) : Prop := a = u32 (-1) \/ flagged va a.

Lemma no_access_miss va : aligned va -> tlb_hit_page (u32 (-1)) va = false.
Proof.
  intros Hva. apply not_true_iff_false. rewrite tlb_hit_page_spec by done. intros [_ Hb].
  pose proof page_bits_pos. rewrite testbit_wrap, Z.bits_m1 in Hb by lia. revert Hb. by bit_cases.
Qed.

Lemma page_with_flags va fl :
  aligned va -> 0 <= fl < 2 ^ TARGET_PAGE_BITS -> (va .| fl) .& TARGET_PAGE_MASK = va.
Proof.
  pose proof page_bits_pos. intros Hva Hfl. apply Z.bits_inj'. intros i Hi.
  rewrite Z.land_spec, Z.lor_spec, testbit_page_mask by lia. destruct (Z.leb_spec TARGET_PAGE_BITS i).
  - by rewrite (testbit_above TARGET_PAGE_BITS fl), orb_false_r, andb_true_r by lia.
  - by rewrite (aligned_low va) by (done || lia); rewrite andb_false_r.
Qed.

Lemma word_of_hit va a va' :
  aligned va -> aligned va' -> word_of va a -> tlb_hit_page a va' = true -> va' = va.
Proof.
  intros Hva Hva' [->|(fl & Hfl & ->)] Hh; [by rewrite no_access_miss in Hh|].
  apply tlb_hit_page_spec in Hh as [<- _]; [|done]. by apply page_with_flags.
Qed.
(** ** The entry of a page *)

Lemma flags_range :
  0 <= TLB_INVALID_MASK < 2 ^ TARGET_PAGE_BITS /\ 0 <= TLB_NOTDIRTY < 2 ^ TARGET_PAGE_BITS
  /\ 0 <= TLB_MMIO < 2 ^ TARGET_PAGE_BITS /\ 0 <= TLB_RECHECK < 2 ^ TARGET_PAGE_BITS.
Proof.
  pose proof page_bits_pos.
  assert (H1 : forall n, 0 <= n < TARGET_PAGE_BITS -> 0 <= Z.shiftl 1 n < 2 ^ TARGET_PAGE_BITS).
  { intros n Hn. rewrite Z.shiftl_1_l. split; [lia|]. apply Z.pow_lt_mono_r; lia. }
  repeat split; apply H1; lia.
Qed.

Lemma flagged_page va : flagged va va.
Proof.
  pose proof page_bits_pos. exists 0. rewrite Z.lor_0_r. split; [|done]. split; [done|]. lia.
Qed.

Lemma flagged_or va a f :
  0 <= f < 2 ^ TARGET_PAGE_BITS -> flagged va a -> flagged va (a .| f).
Proof.
  pose proof page_bits_pos. intros Hf (fl & Hfl & ->). exists (fl .| f). rewrite Z.lor_assoc.
  split; [|done]. apply lor_range; lia.
Qed.

Lemma get_iotlb_flagged wps sec va pa xlat prot a :
  flagged va a -> flagged va (memory_region_section_get_iotlb wps sec va pa xlat prot a).2.
Proof.
  intros Ha. unfold memory_region_section_get_iotlb. destruct (existsb _ wps); [|done].
  apply flagged_or; [apply flags_range|done].
Qed.

(** The protection an access of a kind needs. *)
Definition prot_of (ty : MMUAccessType) : Z :=
  match ty with
  | MMU_DATA_LOAD => PAGE_READ
  | MMU_DATA_STORE => PAGE_WRITE
  | MMU_INST_FETCH => PAGE_EXEC
  end.

Lemma new_entry_words wps clean va pa attrs prot size ty :
  let te := (new_entry wps clean va pa attrs prot size).1 in
  elt ty te = u32 (-1) \/ flagged va (elt ty te) /\ bit_any prot (prot_of ty) = true.
Proof.
  pose proof (translate_prot pa attrs prot) as Hp. unfold new_entry.
  destruct (translate_for_iotlb pa attrs prot) as [[sec xlat] prot'] eqn:Et. cbn [snd] in Hp.
  destruct flags_range as (Fi & Fd & Fm & Fr).
  set (a0 := if size <? TARGET_PAGE_SIZE then _ else _).
  assert (H0 : flagged va a0) by (unfold a0; destruct (_ <? _); auto using flagged_or, flagged_page).
  set (p := if negb (is_ram sec) && _ then (a0 .| TLB_MMIO, 0) else _).
  assert (H1 : flagged va p.1) by (unfold p; destruct (_ && _); cbn [fst]; auto using flagged_or).
  destruct p as [a1 ad]. cbn [fst] in H1.
  pose proof (get_iotlb_flagged wps sec va pa xlat prot' a1 H1) as H2.
  destruct (memory_region_section_get_iotlb _ _ _ _ _ _ _) as [io a2]. cbn [snd] in H2.
  destruct ty; cbn [elt prot_of addr_read addr_write addr_code fst].
  - destruct (bit_any prot' PAGE_READ) eqn:E; [right; eauto using bit_any_sub|by left].
  - destruct (bit_any prot' PAGE_WRITE) eqn:E; [right|by left]. split; [|eauto using bit_any_sub].
    repeat case_match; auto using flagged_or.
  - destruct (bit_any prot' PAGE_EXEC) eqn:E; [right; eauto using bit_any_sub|by left].
Qed.
Definition entered (va : Z) (c : mapping) (te : CPUTLBEntry) (io : CPUIOTLBEntry) : Prop :=
  exists wps clean,
    new_entry wps clean va (mp_paddr c) (mp_attrs c) (mp_prot c) (mp_size c) = (te, io).

Lemma anyprot_hit te va :
  tlb_hit_page_anyprot te va = true <-> exists ty, tlb_hit_page (elt ty te) va = true.
Proof.
  unfold tlb_hit_page_anyprot. rewrite !orb_true_iff. split.
  - intros [[H|H]|H]; [by exists MMU_DATA_LOAD|by exists MMU_DATA_STORE|by exists MMU_INST_FETCH].
  - intros [[] H]; tauto.
Qed.

Lemma entered_hit va c te io ty va' :
  aligned va -> aligned va' -> entered va c te io -> tlb_hit_page (elt ty te) va' = true ->
  va' = va /\ bit_any (mp_prot c) (prot_of ty) = true.
Proof.
  intros Hva Hva' (wps & clean & E) Hh.
  pose proof (new_entry_words wps clean va (mp_paddr c) (mp_attrs c) (mp_prot c) (mp_size c) ty) as Hw.
  rewrite E in Hw. cbn [fst] in Hw. destruct Hw as [Hw|[Hw Hp]].
  - rewrite Hw, no_access_miss in Hh; done.
  - split; [|done]. by apply (word_of_hit va (elt ty te)); [..|right|].
Qed.

Lemma empty_miss va : aligned va -> tlb_hit_page_anyprot empty_te va = false.
Proof. intros. unfold tlb_hit_page_anyprot. cbn. by rewrite no_access_miss. Qed.
(** ** Dirty tracking leaves the entry one of its page *)

Lemma testbit_or_flag a f i :
  Z.testbit a i = false -> i <> f -> 0 <= f -> Z.testbit (a .| Z.shiftl 1 f) i = false.
Proof.
  intros Ha Hi Hf. rewrite Z.lor_spec, Ha, testbit_one by done. by apply Z.eqb_neq.
Qed.

(** The address of an entry before the write flags: neither invalid nor clean. *)
Lemma address_bits wps sec va pa xlat prot size i :
  aligned va -> i = TARGET_PAGE_BITS - 1 \/ i = TARGET_PAGE_BITS - 2 ->
  let a := if size <? TARGET_PAGE_SIZE then va .| TLB_RECHECK else va in
  Z.testbit a i = false /\ Z.testbit (a .| TLB_MMIO) i = false
  /\ forall b, Z.testbit b i = false ->
    Z.testbit (memory_region_section_get_iotlb wps sec va pa xlat prot b).2 i = false.
Proof.
  pose proof page_bits_pos. intros Hva Hi a.
  assert (Ha : Z.testbit a i = false).
  { unfold a. destruct (_ <? _); [|apply aligned_low; [done|lia]].
    apply testbit_or_flag; [apply aligned_low; [done|]|..]; lia. }
  split_and!; [done|apply testbit_or_flag; [done|lia..]|].
  intros b Hb. unfold memory_region_section_get_iotlb. destruct (existsb _ _); [|done].
  apply testbit_or_flag; [done|lia..].
Qed.

Lemma lor_flag_bit a f : 0 <= f -> Z.testbit (a .| Z.shiftl 1 f) f = true.
Proof. intros. by rewrite Z.lor_spec, testbit_one, Z.eqb_refl, orb_true_r. Qed.

Lemma get_iotlb_keeps wps sec va pa xlat prot a i :
  Z.testbit a i = true ->
  Z.testbit (memory_region_section_get_iotlb wps sec va pa xlat prot a).2 i = true.
Proof.
  intros Ha. unfold memory_region_section_get_iotlb. destruct (existsb _ _); [|done].
  cbn [snd]. by rewrite Z.lor_spec, Ha.
Qed.

(** Only the clean flag of a page depends on whether its memory is clean. *)
Lemma new_entry_clean wps va pa attrs prot size :
  aligned va ->
  (forall clean, let w := addr_write (new_entry wps clean va pa attrs prot size).1 in
     Z.testbit w (TARGET_PAGE_BITS - 1) || Z.testbit w (TARGET_PAGE_BITS - 3) = true)
  \/ exists x a te io,
    Z.testbit a (TARGET_PAGE_BITS - 1) = false /\ Z.testbit a (TARGET_PAGE_BITS - 2) = false
    /\ forall clean, new_entry wps clean va pa attrs prot size
         = (set_addr_write (if clean x then a .| TLB_NOTDIRTY else a) te, io).
Proof.
  pose proof page_bits_pos as Hpb. intros Hva. unfold new_entry.
  destruct (translate_for_iotlb pa attrs prot) as [[sec xlat] prot'].
  destruct (address_bits wps sec va pa xlat prot' size (TARGET_PAGE_BITS - 1)) as (A1 & B1 & C1); [done|lia|].
  destruct (address_bits wps sec va pa xlat prot' size (TARGET_PAGE_BITS - 2)) as (A2 & B2 & C2); [done|lia|].
  set (a0 := if size <? TARGET_PAGE_SIZE then _ else _) in *.
  set (p := if negb (is_ram sec) && _ then (a0 .| TLB_MMIO, 0) else _).
  assert (P : Z.testbit p.1 (TARGET_PAGE_BITS - 1) = false
    /\ Z.testbit p.1 (TARGET_PAGE_BITS - 2) = false
    /\ (is_ram sec || is_romd sec = false -> Z.testbit p.1 (TARGET_PAGE_BITS - 3) = true)).
  { unfold p. destruct (is_ram sec), (is_romd sec); cbn [fst negb andb orb]; split_and!; try done.
    intros _. apply lor_flag_bit. lia. }
  destruct p as [a1 ad]. cbn [fst] in P. destruct P as (P1 & P2 & P3).
  apply C1 in P1. apply C2 in P2.
  pose proof (fun E => get_iotlb_keeps wps sec va pa xlat prot' a1 _ (P3 E)) as P4. clear P3.
  destruct (memory_region_section_get_iotlb _ _ _ _ _ _ _) as [io a2]. cbn [snd] in *.
  destruct (bit_any prot' PAGE_WRITE); [|left; intros clean; cbn [fst addr_write];
    rewrite testbit_wrap, Z.bits_m1 by lia; by bit_cases].
  destruct (bit_any prot' PAGE_WRITE_INV).
  { left. intros clean. cbn [fst addr_write]. unfold TLB_INVALID_MASK.
    by rewrite lor_flag_bit by lia. }
  destruct (is_ram sec && readonly sec || is_romd sec) eqn:E1.
  { left. intros clean. cbn [fst addr_write]. unfold TLB_MMIO at 2.
    rewrite lor_flag_bit by lia. apply orb_true_r. }
  destruct (is_ram sec) eqn:E2; cbn [andb].
  - right. exists (u64 (ram_addr sec + xlat)), a2.
    exists (mk_te (if bit_any prot' PAGE_READ then a2 else u32 (-1)) 0
      (if bit_any prot' PAGE_EXEC then a1 else u32 (-1)) (u64 (ad - va))). by eexists.
  - left. intros clean. cbn [fst addr_write]. rewrite P4 by done. apply orb_true_r.
Qed.

Lemma entered_reset_dirty va c te io start len :
  aligned va -> entered va c te io ->
  entered va c (tlb_reset_dirty_range_locked start len te) io.
Proof.
  pose proof page_bits_pos. intros Hva (wps & clean & E). unfold tlb_reset_dirty_range_locked.
  destruct (_ =? 0) eqn:E0; [|by exists wps, clean]. destruct (_ <? _); [|by exists wps, clean].
  apply Z.eqb_eq in E0.
  assert (Hb : forall i, Z.testbit (addr_write te)%Z i
    && (Z.testbit TLB_INVALID_MASK i || Z.testbit TLB_MMIO i || Z.testbit TLB_NOTDIRTY i) = false)
    by (intros i; by rewrite <- !Z.lor_spec, <- Z.land_spec, E0, Z.bits_0).
  destruct (new_entry_clean wps va (mp_paddr c) (mp_attrs c) (mp_prot c) (mp_size c) Hva)
    as [Hw|(x & a & te' & io' & _ & _ & Hw)].
  - specialize (Hw clean). rewrite E in Hw. cbn [fst] in Hw. exfalso.
    apply orb_true_iff in Hw as [Hw|Hw].
    + specialize (Hb (TARGET_PAGE_BITS - 1)). rewrite Hw in Hb.
      destruct (testbit_flags (TARGET_PAGE_BITS - 1)) as (Hf & _). by rewrite Hf, Z.eqb_refl in Hb.
    + specialize (Hb (TARGET_PAGE_BITS - 3)). rewrite Hw in Hb.
      destruct (testbit_flags (TARGET_PAGE_BITS - 3)) as (_ & _ & Hf & _).
      by rewrite Hf, Z.eqb_refl, orb_true_r in Hb.
  - exists wps, (fun _ => true). rewrite Hw. rewrite Hw in E. injection E as <- <-.
    unfold set_addr_write. cbn. do 2 f_equal. destruct (clean x); [|done].
    by rewrite <- Z.lor_assoc, Z.lor_diag.
Qed.

Lemma or_flag_inj a b f :
  0 <= f -> Z.testbit a f = false -> Z.testbit b f = false ->
  a .| Z.shiftl 1 f = b .| Z.shiftl 1 f -> a = b.
Proof.
  intros Hf Ha Hb E. apply Z.bits_inj'. intros i Hi.
  apply (f_equal (fun z => Z.testbit z i)) in E. rewrite !Z.lor_spec, testbit_one in E by done.
  destruct (Z.eqb_spec i f) as [Hif|]; [by rewrite Hif, Ha, Hb|by rewrite !orb_false_r in E].
Qed.

Lemma entered_set_dirty va c te io vaddr :
  aligned va -> aligned vaddr -> entered va c te io ->
  entered va c (tlb_set_dirty1_locked vaddr te) io.
Proof.
  pose proof page_bits_pos. intros Hva Hv (wps & clean & E). unfold tlb_set_dirty1_locked.
  destruct (Z.eqb_spec (addr_write te) (vaddr .| TLB_NOTDIRTY)) as [E0|]; [|by exists wps, clean].
  assert (Hl : forall i, 0 <= i < TARGET_PAGE_BITS -> i <> TARGET_PAGE_BITS - 2 ->
    Z.testbit (addr_write te) i = false).
  { intros i Hi Hn. rewrite E0. apply testbit_or_flag; [by apply aligned_low|lia..]. }
  destruct (new_entry_clean wps va (mp_paddr c) (mp_attrs c) (mp_prot c) (mp_size c) Hva)
    as [Hw|(x & a & te' & io' & _ & Ha & Hw)].
  - specialize (Hw clean). rewrite E in Hw. cbn [fst] in Hw. by rewrite !Hl in Hw by lia.
  - exists wps, (fun _ => false). rewrite Hw. rewrite Hw in E. injection E as <- <-.
    unfold set_addr_write in *. cbn [addr_read addr_write addr_code addend] in *. do 2 f_equal.
    destruct (testbit_flags (TARGET_PAGE_BITS - 2)) as (_ & Hf & _). rewrite Z.eqb_refl in Hf.
    destruct (clean x).
    + apply (or_flag_inj _ _ (TARGET_PAGE_BITS - 2)); [lia|done| |done].
      apply aligned_low; [done|lia].
    + rewrite E0, Z.lor_spec, Hf, orb_true_r in Ha. done.
Qed.
(** ** The region of the large pages *)

(** The masks of the region: the bits from [k] on of a word. *)
Definition top (k : Z) : Z := u32 (Z.shiftl (-1) k).

Lemma testbit_top k i : 0 <= k -> 0 <= i -> Z.testbit (top k) i = (k <=? i) && (i <? 32).
Proof.
  intros Hk Hi. unfold top. rewrite testbit_wrap, testbit_shiftl by lia.
  destruct (Z.leb_spec k i); [rewrite Z.bits_m1 by lia|rewrite Z.testbit_neg_r by lia]; by bit_cases.
Qed.

Lemma size_mask k : 0 <= k -> u32 (Z.lnot (2 ^ k - 1)) = top k.
Proof.
  intros Hk. unfold top. f_equal. rewrite Z.shiftl_mul_pow2 by done. unfold Z.lnot. lia.
Qed.

Lemma top_top j k : 0 <= j -> 0 <= k -> top j .& top k = top (Z.max j k).
Proof.
  intros Hj Hk. apply Z.bits_inj'. intros i Hi. rewrite Z.land_spec, !testbit_top by lia.
  by bit_cases.
Qed.

Lemma top_sub j k a : 0 <= j <= k -> (a .& top j) .& top k = a .& top k.
Proof. intros. rewrite <- Z.land_assoc, top_top by lia. by rewrite Z.max_r by lia. Qed.

Lemma top_shift k : 0 <= k -> u32 (Z.shiftl (top k) 1) = top (k + 1).
Proof.
  intros Hk. apply Z.bits_inj'. intros i Hi. rewrite testbit_wrap, testbit_shiftl, (testbit_top (k + 1)) by lia.
  destruct (Z.eqb_spec i 0) as [->|]; [rewrite Z.testbit_neg_r by lia|rewrite testbit_top by lia].
  all: by bit_cases.
Qed.

Lemma top_size j k : 0 <= j <= k -> top k .& (2 ^ j - 1) = 0.
Proof.
  intros H. replace (2 ^ j - 1) with (Z.ones j) by (rewrite Z.ones_equiv; lia).
  apply Z.bits_inj'. intros i Hi. rewrite Z.land_spec, testbit_top, testbit_ones, Z.bits_0 by lia.
  by bit_cases.
Qed.

Lemma page_top k a : TARGET_PAGE_BITS <= k -> (a .& TARGET_PAGE_MASK) .& top k = a .& top k.
Proof.
  pose proof page_bits_pos. intros Hk. apply Z.bits_inj'. intros i Hi.
  rewrite !Z.land_spec, testbit_page_mask, testbit_top by lia.
  bit_cases; by rewrite ?andb_true_r, ?andb_false_r.
Qed.

(** The loop ends, with a mask under which the two addresses agree. *)
Lemma extend_mask_spec fuel a v k :
  0 <= k -> 32 <= k + Z.of_nat fuel ->
  exists k', k <= k' /\ extend_mask fuel a v (top k) = top k' /\ a .& top k' = v .& top k'.
Proof.
  assert (Hx : forall k, Z.lxor a v .& top k = 0 -> a .& top k = v .& top k).
  { intros j Hj. apply Z.bits_inj'. intros i Hi. rewrite !Z.land_spec.
    apply (f_equal (fun z => Z.testbit z i)) in Hj. rewrite Z.land_spec, Z.lxor_spec, Z.bits_0 in Hj.
    destruct (Z.testbit a i), (Z.testbit v i), (Z.testbit (top j) i); done. }
  revert k. induction fuel as [|n IH]; intros k Hk Hf; cbn [extend_mask].
  - exists k. split_and!; [lia|done|]. apply Hx. apply Z.bits_inj'. intros i Hi.
    rewrite Z.land_spec, testbit_top, Z.bits_0 by lia. bit_cases; by rewrite andb_false_r.
  - destruct (Z.eqb_spec (Z.lxor a v .& top k) 0) as [E|E]; [exists k; split_and!; auto; lia|].
    rewrite top_shift by done. destruct (IH (k + 1)) as (k' & Hk' & H); [lia..|].
    exists k'. split; [lia|done].
Qed.

Definition region_ok (d : CPUTLBDesc) : Prop := exists k, 0 <= k /\ large_page_mask d = top k.

(** A page entered as part of a large one lies in the region, and the region is made of whole
    large pages of its size. *)
Definition in_region (d : CPUTLBDesc) (va size : Z) : Prop :=
  TARGET_PAGE_SIZE < size ->
  va .& large_page_mask d = large_page_addr d /\ large_page_mask d .& (size - 1) = 0.

(** A region that keeps every page of another one. *)
Definition region_le (d d' : CPUTLBDesc) : Prop :=
  forall va size, aligned va -> in_region d va size -> in_region d' va size.

Lemma region_le_same d d' :
  large_page_addr d = large_page_addr d' -> large_page_mask d = large_page_mask d' -> region_le d d'.
Proof. intros Ea Em va size _ H Hs. rewrite <- Ea, <- Em. by apply H. Qed.

Definition size_ok (size : Z) : Prop :=
  size <= TARGET_PAGE_SIZE \/ exists j, TARGET_PAGE_BITS < j /\ size = 2 ^ j.

Lemma add_large_page_region vaddr j m :
  TARGET_PAGE_BITS < j -> region_ok (tlb_d m) ->
  let d := tlb_d (tlb_add_large_page vaddr (2 ^ j) m) in
  region_ok d /\ in_region d (vaddr .& TARGET_PAGE_MASK) (2 ^ j)
  /\ region_le (tlb_d m) d.
Proof.
  pose proof page_bits_pos. intros Hj (k & Hk & Em). unfold tlb_add_large_page.
  rewrite size_mask by lia. rewrite Em.
  destruct (Z.eqb_spec (large_page_addr (tlb_d m)) (u32 (-1))) as [Ea|Ea]; cbn [tlb_d set_d].
  - split_and!.
    + exists j. split; [lia|done].
    + intros _. cbn. rewrite page_top by lia. split; [done|]. apply top_size. lia.
    + intros va size Hva Hr Hs. destruct (Hr Hs) as [E _]. exfalso. rewrite Ea in E.
      apply (f_equal (fun z => Z.testbit z 0)) in E. rewrite Z.land_spec, (aligned_low va) in E by (done || lia).
      done.
  - rewrite top_top by lia.
    destruct (extend_mask_spec 32 (large_page_addr (tlb_d m)) vaddr (Z.max j k)) as (k' & Hk' & -> & Ex);
      [lia..|].
    split_and!.
    + exists k'. split; [lia|done].
    + intros _. cbn. rewrite page_top by lia. split; [done|]. apply top_size. lia.
    + intros va size Hva Hr Hs. destruct (Hr Hs) as [E Es]. cbn. rewrite Em in E, Es.
      rewrite <- E, top_sub by lia. split; [done|].
      replace (top k') with (top k' .& top k) by (rewrite top_top by lia; f_equal; lia).
      by rewrite <- Z.land_assoc, Es, Z.land_0_r.
Qed.
(** ** One mode *)

(** An entry that a page hits is one of a mapping of that page. *)
Definition slot_ok (d : CPUTLBDesc) (A : amap) (te : CPUTLBEntry) (io : CPUIOTLBEntry) : Prop :=
  forall va, aligned va -> tlb_hit_page_anyprot te va = true ->
  exists c, A !! va = Some c /\ entered va c te io /\ in_region d va (mp_size c).

Definition slots_ok (d : CPUTLBDesc) (A : amap) (t : list CPUTLBEntry) (ios : list CPUIOTLBEntry) :
    Prop :=
  forall i te io, t !! i = Some te -> ios !! i = Some io -> slot_ok d A te io.

Definition lengths_ok (m : tlb_mode) : Prop :=
  length (tlb_table m) = Z.to_nat CPU_TLB_SIZE /\ length (tlb_v_table m) = CPU_VTLB_SIZE
  /\ length (iotlb m) = Z.to_nat CPU_TLB_SIZE /\ length (iotlb_v m) = CPU_VTLB_SIZE.

Record mode_rel (m : tlb_mode) (A : amap) : Prop := {
  rel_lengths : lengths_ok m;
  rel_region : region_ok (tlb_d m);
  rel_table : slots_ok (tlb_d m) A (tlb_table m) (iotlb m);
  rel_victims : slots_ok (tlb_d m) A (tlb_v_table m) (iotlb_v m);
  rel_index : forall i te va, tlb_table m !! i = Some te -> aligned va ->
    tlb_hit_page_anyprot te va = true -> slot va = i
}.

Lemma slot_lt a : (slot a < Z.to_nat CPU_TLB_SIZE)%nat.
Proof.
  unfold slot, tlb_index, CPU_TLB_SIZE.
  assert (0 <= CPU_TLB_BITS) by (unfold CPU_TLB_BITS; repeat case_match; lia).
  rewrite Z.shiftl_1_l. change (2 ^ CPU_TLB_BITS - 1) with (Z.pred (2 ^ CPU_TLB_BITS)).
  rewrite <- Z.ones_equiv, Z.land_ones by done.
  pose proof (Z.mod_pos_bound (Z.shiftr a TARGET_PAGE_BITS) (2 ^ CPU_TLB_BITS)). lia.
Qed.

Lemma slot_ok_empty d A io : slot_ok d A empty_te io.
Proof. intros va Hva H. by rewrite empty_miss in H. Qed.

(** Flushing a page from an entry: only the pages the entry is not of remain. *)
Lemma flush_entry_hit te page va :
  aligned va -> tlb_hit_page_anyprot (tlb_flush_entry_locked te page) va = true ->
  tlb_flush_entry_locked te page = te /\ tlb_hit_page_anyprot te va = true /\ va <> page.
Proof.
  intros Hva. unfold tlb_flush_entry_locked. destruct (tlb_hit_page_anyprot te page) eqn:E.
  - by rewrite empty_miss.
  - intros H. split_and!; [done..|]. intros ->. congruence.
Qed.

Lemma slot_ok_weaken d d' A A' te io :
  slot_ok d A te io ->
  (forall va c, aligned va -> tlb_hit_page_anyprot te va = true -> A !! va = Some c ->
    in_region d va (mp_size c) -> A' !! va = Some c /\ in_region d' va (mp_size c)) ->
  slot_ok d' A' te io.
Proof.
  intros H Hw va Hva Hh. destruct (H va Hva Hh) as (c & Hc & He & Hr).
  destruct (Hw va c Hva Hh Hc Hr). eauto.
Qed.

Lemma slots_insert d A t ios i te io :
  length t = length ios ->
  (forall j te io, j <> i -> t !! j = Some te -> ios !! j = Some io -> slot_ok d A te io) ->
  slot_ok d A te io -> slots_ok d A (<[i := te]> t) (<[i := io]> ios).
Proof.
  intros Hl Hs Hok j te' io' Ht Hi.
  apply list_lookup_insert_Some in Ht as [(-> & <- & Hlt)|[Hne Ht]].
  - rewrite list_lookup_insert_eq in Hi by lia. by injection Hi as <-.
  - rewrite list_lookup_insert_ne in Hi by done. by apply (Hs j); [intros ->|..].
Qed.

Lemma slots_map d d' A A' t ios f :
  slots_ok d A t ios ->
  (forall te io, te ∈ t -> slot_ok d A te io -> slot_ok d' A' (f te) io) ->
  slots_ok d' A' (f <$> t) ios.
Proof.
  intros Hs Hf i te io Ht Hi. rewrite list_lookup_fmap in Ht.
  destruct (t !! i) as [te0|] eqn:E; [|done]. injection Ht as <-.
  apply Hf; [by apply list_elem_of_lookup_2 in E|by apply (Hs i)].
Qed.

Lemma slots_weaken d d' A A' t ios :
  slots_ok d A t ios -> (forall te io, te ∈ t -> slot_ok d A te io -> slot_ok d' A' te io) ->
  slots_ok d' A' t ios.
Proof. intros Hs Hf. rewrite <- (list_fmap_id t). by apply (slots_map d d' A A' t). Qed.

Lemma slots_replicate d A n ios : slots_ok d A (replicate n empty_te) ios.
Proof. intros i te io [-> _]%lookup_replicate _. apply slot_ok_empty. Qed.

Lemma flush_one_rel m A : lengths_ok m -> mode_rel (tlb_flush_one_mmuidx_locked m) A.
Proof.
  intros (Ht & Hv & Hi & Hiv). constructor; cbn -[replicate].
  - split_and!; cbn -[replicate]; by rewrite ?length_replicate.
  - exists 0. split; [done|]. by vm_compute.
  - apply slots_replicate.
  - apply slots_replicate.
  - intros i te va [-> _]%lookup_replicate Hva H. by rewrite empty_miss in H.
Qed.

(** What a mode with no page at all relates to, every mode relates to. *)
Lemma mode_rel_mono m A A' : A ⊆ A' -> mode_rel m A -> mode_rel m A'.
Proof.
  intros Hsub [Hl Hr Ht Hv Hi]. constructor; [done..| | |done].
  all: eapply slots_weaken; [done|]; intros te io _ Hok.
  all: apply (slot_ok_weaken _ _ _ _ _ _ Hok); eauto using lookup_weaken.
Qed.
(** The pages that a flush of [page] must remove: the page itself, and those entered as parts of
    a large page that contains it. *)
Definition same_page (va page size : Z) : bool :=
  (va =? page) || (TARGET_PAGE_SIZE <? size)
                  && (va .& Z.lnot (size - 1) =? page .& Z.lnot (size - 1)).

Definition drop_page (page : Z) (A : amap) : amap :=
  filter (fun p => same_page p.1 page (mp_size p.2) = false) A.

(** In a region made of whole large pages, two addresses of one large page are both in or both
    out. *)
Lemma same_region mask va page size :
  mask .& (size - 1) = 0 -> va .& Z.lnot (size - 1) = page .& Z.lnot (size - 1) ->
  va .& mask = page .& mask.
Proof.
  intros Hm E.
  assert (Hs : forall a, a .& mask = (a .& Z.lnot (size - 1)) .& mask).
  { intros a. apply Z.bits_inj'. intros i Hi. rewrite !Z.land_spec, Z.lnot_spec by done.
    apply (f_equal (fun z => Z.testbit z i)) in Hm. rewrite Z.land_spec, Z.bits_0 in Hm.
    destruct (Z.testbit a i), (Z.testbit mask i), (Z.testbit (size - 1) i); done. }
  by rewrite Hs, E, <- Hs.
Qed.

Lemma survives d A va page c :
  page .& large_page_mask d <> large_page_addr d -> va <> page ->
  A !! va = Some c -> in_region d va (mp_size c) -> drop_page page A !! va = Some c.
Proof.
  intros Hp Hne Hc Hr. apply map_lookup_filter_Some. split; [done|]. cbn [fst snd].
  unfold same_page. rewrite (proj2 (Z.eqb_neq _ _) Hne). cbn [orb].
  destruct (Z.ltb_spec TARGET_PAGE_SIZE (mp_size c)) as [Hs|]; [|done]. cbn [andb].
  apply Z.eqb_neq. intros E. destruct (Hr Hs) as [Ha Hm]. apply Hp. rewrite <- Ha. symmetry.
  by apply (same_region _ _ _ (mp_size c)).
Qed.

(** The entry of the direct-mapped table for an address, and its IOTLB entry. *)
Lemma entry_lookup m va :
  lengths_ok m -> tlb_table m !! slot va = Some (tlb_entry m va)
  /\ iotlb m !! slot va = Some (iotlb m !!! slot va).
Proof.
  intros (Ht & _ & Hi & _). pose proof (slot_lt va).
  split; apply list_lookup_lookup_total_lt; lia.
Qed.

Lemma flush_page_rel m A page :
  aligned page -> mode_rel m A -> mode_rel (tlb_flush_page_locked page m) (drop_page page A).
Proof.
  intros Hpg Hm. pose proof Hm as [Hl Hr Ht Hv Hi]. unfold tlb_flush_page_locked.
  destruct (Z.eqb_spec (page .& large_page_mask (tlb_d m)) (large_page_addr (tlb_d m))) as [E|E].
  { by apply flush_one_rel. }
  destruct (entry_lookup m page Hl) as [He Hio].
  assert (Hf : forall te io, slot_ok (tlb_d m) A te io ->
    slot_ok (tlb_d m) (drop_page page A) (tlb_flush_entry_locked te page) io).
  { intros te io Hok va Hva Hh. apply flush_entry_hit in Hh as (-> & Hh & Hne); [|done].
    destruct (Hok va Hva Hh) as (c & Hc & Hen & Hrg). exists c. split_and!; [|done..].
    by apply (survives (tlb_d m)). }
  constructor; cbn.
  - destruct Hl as (? & ? & ? & ?). split_and!; cbn; by rewrite ?length_insert, ?length_fmap.
  - done.
  - rewrite <- (list_insert_id _ _ _ Hio). apply slots_insert.
    + destruct Hl as (-> & _ & -> & _). done.
    + intros j te io Hj Hlk Hlio. apply (slot_ok_weaken (tlb_d m) _ A); [by apply (Ht j)|].
      intros va c Hva Hh Hc Hrg. split; [|done]. apply (survives (tlb_d m)); try done.
      intros ->. by apply Hj, eq_sym, (Hi j te).
    + apply Hf. by apply (Ht (slot page)).
  - apply (slots_map (tlb_d m) _ A); [done|]. auto.
  - intros i te va Hlk Hva Hh. apply list_lookup_insert_Some in Hlk as [(<- & <- & _)|[_ Hlk]].
    + apply flush_entry_hit in Hh as (_ & Hh & _); [|done]. by apply (Hi (slot page) _ va He).
    + by apply (Hi i te).
Qed.
(** Entering a page: the entries that are not of that page keep their mapping. *)
Lemma slot_ok_insert d d' A te io va c :
  region_le d d' -> slot_ok d A te io -> tlb_hit_page_anyprot te va = false ->
  slot_ok d' (<[va := c]> A) te io.
Proof.
  intros Hd Hok Hm. apply (slot_ok_weaken d d' A); [done|]. intros va' c' Hva' Hh Hc Hr.
  split; [|by apply Hd]. rewrite lookup_insert_ne; [done|]. intros ->. congruence.
Qed.
Lemma refill_rel m A va c tn io :
  aligned va -> mode_rel m A -> entered va c tn io -> in_region (tlb_d m) va (mp_size c) ->
  mode_rel (refill va tn io m) (<[va := c]> A).
Proof.
  intros Hva [Hl Hr Ht Hv Hi] Hen Hrg. pose proof Hl as (Lt & Lv & Li & Liv).
  destruct (entry_lookup m va Hl) as [He Hio].
  assert (Hnew : forall d, in_region d va (mp_size c) -> slot_ok d (<[va := c]> A) tn io).
  { intros d Hd va' Hva' [ty Hh]%anyprot_hit.
    destruct (entered_hit va c tn io ty va') as [-> _]; [done..|]. exists c.
    by rewrite lookup_insert_eq. }
  assert (Htab : forall d, region_le (tlb_d m) d -> in_region d va (mp_size c) ->
    slots_ok d (<[va := c]> A) (<[slot va := tn]> (tlb_table m)) (<[slot va := io]> (iotlb m))).
  { intros d Hd Hin. apply slots_insert; [lia| |auto]. intros j te' io' Hj Hlk Hlio.
    apply (slot_ok_insert (tlb_d m)); [done|by apply (Ht j)|].
    apply not_true_iff_false. intros Hh. by apply Hj, eq_sym, (Hi j te' va). }
  assert (Hvic : slots_ok (tlb_d m) (<[va := c]> A)
    ((fun te => tlb_flush_entry_locked te va) <$> tlb_v_table m) (iotlb_v m)).
  { apply (slots_map (tlb_d m) _ A); [done|]. intros te' io' _ Hok va' Hva' Hh.
    apply flush_entry_hit in Hh as (-> & Hh & Hne); [|done].
    destruct (Hok va' Hva' Hh) as (c' & Hc & ? & ?). exists c'. by rewrite lookup_insert_ne. }
  assert (Hidx : forall i te va', <[slot va := tn]> (tlb_table m) !! i = Some te -> aligned va' ->
    tlb_hit_page_anyprot te va' = true -> slot va' = i).
  { intros i te va' Hlk Hva' Hh. apply list_lookup_insert_Some in Hlk as [(<- & <- & _)|[_ Hlk]].
    - apply anyprot_hit in Hh as [ty Hh].
      by destruct (entered_hit va c tn io ty va') as [-> _].
    - by apply (Hi i te). }
  unfold refill. destruct (tlb_hit_page_anyprot (tlb_entry m va) va) eqn:Eh; cbn [negb].
  - constructor; cbn; [|done|by apply Htab; [by apply region_le_same|]|done|done].
    split_and!; cbn; by rewrite ?length_insert, ?length_fmap.
  - constructor; cbn -[Z.modulo]; [|done|by apply Htab; [by apply region_le_same|]| |done].
    + split_and!; cbn -[Z.modulo]; by rewrite ?length_insert, ?length_fmap.
    + apply slots_insert; [by rewrite length_fmap, Lv, Liv|intros j te' io' _ Hlk Hlio; by apply (Hvic j)|].
      apply (slot_ok_insert (tlb_d m)); [by apply region_le_same| |done]. by apply (Ht (slot va)).
Qed.

Lemma add_large_rel m A vaddr j :
  TARGET_PAGE_BITS < j -> mode_rel m A -> mode_rel (tlb_add_large_page vaddr (2 ^ j) m) A.
Proof.
  intros Hj [Hl Hr Ht Hv Hi].
  destruct (add_large_page_region vaddr j m Hj Hr) as (Hok & _ & Hle).
  unfold tlb_add_large_page in *. destruct (if large_page_addr _ =? _ then _ else _) as [a k].
  constructor; cbn in *; [done|done| | |done].
  all: eapply slots_weaken; [done|]; intros te io _ Hs.
  all: apply (slot_ok_weaken _ _ _ _ _ _ Hs); auto.
Qed.

(** A victim that comes back is of the page looked up. *)
Lemma victim_rel m A ty page m' :
  aligned page -> mode_rel m A -> victim_tlb_hit (slot page) ty page m = Some m' ->
  mode_rel m' A /\ tlb_hit_page (elt ty (tlb_entry m' page)) page = true.
Proof.
  intros Hpg [Hl Hr Ht Hv Hi]. pose proof Hl as (Lt & Lv & Li & Liv). unfold victim_tlb_hit.
  destruct (list_find _ _) as [[vidx vt]|] eqn:E; [|done]. intros [= <-].
  apply list_find_Some in E as (Evt & Hel & _). apply Is_true_true, Z.eqb_eq in Hel.
  destruct (entry_lookup m page Hl) as [He Hio].
  pose proof (lookup_lt_Some _ _ _ Evt) as Hlt.
  assert (Eio : iotlb_v m !! vidx = Some (iotlb_v m !!! vidx))
    by (apply list_lookup_lookup_total_lt; lia).
  assert (Etot : tlb_v_table m !!! vidx = vt) by (by apply list_lookup_total_correct).
  assert (Hhit : tlb_hit_page (elt ty vt) page = true).
  { apply tlb_hit_page_spec; [done|]. rewrite Hel. split; [apply Hpg|].
    pose proof page_bits_pos. apply aligned_low; [done|lia]. }
  split.
  - unfold swap_victim. rewrite Etot. constructor; cbn.
    + split_and!; cbn; by rewrite length_insert.
    + done.
    + apply slots_insert; [lia|intros j ? ? _; apply (Ht j)|by apply (Hv vidx)].
    + apply slots_insert; [lia|intros j ? ? _; apply (Hv j)|by apply (Ht (slot page))].
    + intros i te va Hlk Hva Hh. apply list_lookup_insert_Some in Hlk as [(<- & <- & _)|[_ Hlk]];
        [|by apply (Hi i te)].
      destruct (Hv vidx vt _ Evt Eio page Hpg) as (c & _ & Hen & _); [apply anyprot_hit; eauto|].
      apply anyprot_hit in Hh as [ty' Hh]. by destruct (entered_hit page c vt _ ty' va Hpg Hva Hen Hh) as [-> _].
  - unfold tlb_entry, swap_victim. cbn. rewrite Etot.
    rewrite list_lookup_total_insert_eq; [done|]. rewrite Lt. apply slot_lt.
Qed.

(** A change of an entry that leaves it one of its page. *)
Definition keeps_page (f : CPUTLBEntry -> CPUTLBEntry) : Prop :=
  (forall te va, aligned va ->
    tlb_hit_page_anyprot (f te) va = true -> tlb_hit_page_anyprot te va = true)
  /\ forall te io va c, aligned va -> entered va c te io -> entered va c (f te) io.

Lemma slot_ok_keeps d A te io f : keeps_page f -> slot_ok d A te io -> slot_ok d A (f te) io.
Proof.
  intros [Hf1 Hf2] Hok va Hva Hh. apply Hf1 in Hh; [|done].
  destruct (Hok va Hva Hh) as (c & Hc & Hen & Hr). eauto 6.
Qed.
Lemma hit_notdirty a va : tlb_hit_page (a .| TLB_NOTDIRTY) va = tlb_hit_page a va.
Proof.
  pose proof page_bits_pos. unfold tlb_hit_page. f_equal. apply Z.bits_inj'. intros i Hi.
  rewrite !Z.land_spec, !Z.lor_spec, testbit_page_mask by done.
  destruct (testbit_flags i) as (-> & -> & _ & _).
  destruct (Z.leb_spec TARGET_PAGE_BITS i), (Z.eqb_spec i (TARGET_PAGE_BITS - 1)),
    (Z.eqb_spec i (TARGET_PAGE_BITS - 2)); try lia; by destruct (Z.testbit a i).
Qed.

Lemma reset_dirty_keeps start len : keeps_page (tlb_reset_dirty_range_locked start len).
Proof.
  split; [|intros; by apply entered_reset_dirty]. intros te va Hva.
  unfold tlb_reset_dirty_range_locked. repeat case_match; try done.
  unfold tlb_hit_page_anyprot, set_addr_write. cbn. by rewrite hit_notdirty.
Qed.

Lemma set_dirty_keeps vaddr : aligned vaddr -> keeps_page (tlb_set_dirty1_locked vaddr).
Proof.
  intros Hv. split; [|intros; by apply entered_set_dirty]. intros te va Hva.
  unfold tlb_set_dirty1_locked.
  destruct (Z.eqb_spec (addr_write te) (vaddr .| TLB_NOTDIRTY)) as [E|]; [|done].
  unfold tlb_hit_page_anyprot, set_addr_write. cbn. by rewrite E, hit_notdirty.
Qed.

(** Some of the entries of the table and all the victims change so. *)
Lemma dirty_rel m A f t :
  keeps_page f -> length t = length (tlb_table m) ->
  (forall i te, t !! i = Some te -> exists te0, tlb_table m !! i = Some te0 /\ (te = te0 \/ te = f te0)) ->
  mode_rel m A -> mode_rel (set_v_table (f <$> tlb_v_table m) (set_table t m)) A.
Proof.
  intros Hf Hlen Ht' [Hl Hr Ht Hv Hi]. pose proof Hl as (Lt & Lv & Li & Liv). constructor; cbn.
  - split_and!; cbn; rewrite ?length_fmap; congruence.
  - done.
  - intros i te io Hlk Hio. destruct (Ht' i te Hlk) as (te0 & H0 & [->| ->]); [by apply (Ht i)|].
    apply slot_ok_keeps; [done|]. by apply (Ht i).
  - apply (slots_map (tlb_d m) _ A); [done|]. intros te io _. by apply slot_ok_keeps.
  - intros i te va Hlk Hva Hh. destruct (Ht' i te Hlk) as (te0 & H0 & [->| ->]); [by apply (Hi i te0)|].
    apply (Hi i te0); [done..|]. by apply Hf.
Qed.

(** ** The state *)

(** The state of the TLB implements a map of pages for each mode; a mode that is not marked
    dirty is empty, which is what lets a flush skip it. *)
Record tlb_rel (s : cputlb) (A : acache) : Prop := {
  rel_modes : length (modes s) = NB_MMU_MODES;
  rel_abs : length A = NB_MMU_MODES;
  rel_dirty : unsigned 16 (dirty s);
  rel_mode : forall i m X, modes s !! i = Some m -> A !! i = Some X -> mode_rel m X;
  rel_clean : forall i m, modes s !! i = Some m -> Z.testbit (dirty s) (Z.of_nat i) = false ->
    mode_rel m ∅
}.

(** A change of one mode. *)
Lemma on_mode_rel s A idx f g :
  tlb_rel s A -> Z.testbit (dirty s) (Z.of_nat idx) = true \/ g ∅ = ∅ ->
  (forall m X, modes s !! idx = Some m -> mode_rel m X -> mode_rel (f m) (g X)) ->
  tlb_rel (on_mode idx f s) (alter g idx A).
Proof.
  intros [Hm Ha Hd Hr Hc] Hdi Hf. constructor; cbn.
  - by rewrite length_alter.
  - by rewrite length_alter.
  - done.
  - intros i m X. destruct (decide (i = idx)) as [->|Hne].
    + rewrite !list_lookup_alter_eq. intros (m0 & E0 & ->)%fmap_Some (X0 & EX & ->)%fmap_Some. eauto.
    + rewrite !list_lookup_alter_ne by done. apply Hr.
  - intros i m. destruct (decide (i = idx)) as [->|Hne].
    + rewrite list_lookup_alter_eq. intros (m0 & E0 & ->)%fmap_Some Hi.
      destruct Hdi as [Hdi|<-]; [congruence|]. eauto.
    + rewrite list_lookup_alter_ne by done. apply Hc.
Qed.
(** The loop over the bits of a map visits each bit that is set. *)
Lemma ctz_from_spec n i w :
  (exists j, i <= j < i + Z.of_nat n /\ Z.testbit w j = true) ->
  let c := ctz_from n i w in
  i <= c < i + Z.of_nat n /\ Z.testbit w c = true /\ forall j, i <= j < c -> Z.testbit w j = false.
Proof.
  revert i. induction n as [|n IH]; intros i (j & Hj & Hb); [lia|]. cbn [ctz_from].
  destruct (Z.testbit w i) eqn:E; [split_and!; [lia..|done|lia]|].
  assert (j <> i) by congruence. destruct (IH (i + 1)) as (Hc & Hbc & Hlow); [exists j; split; [lia|done]|].
  split_and!; [lia..|done|]. intros k Hk. destruct (Z.eq_dec k i) as [->|]; [done|]. apply Hlow. lia.
Qed.

Lemma nonzero_bit w n : 0 <= w < 2 ^ n -> 0 <= n -> w <> 0 ->
  exists j, 0 <= j < n /\ Z.testbit w j = true.
Proof.
  intros Hw Hn Hz. exists (Z.log2 w). rewrite Z.bit_log2 by lia. split; [|done].
  split; [apply Z.log2_nonneg|]. apply Z.log2_lt_pow2; lia.
Qed.

Lemma clear_lowest w c i :
  0 <= c -> 0 <= i -> Z.testbit w c = true -> (forall j, 0 <= j < c -> Z.testbit w j = false) ->
  Z.testbit (w .& (w - 1)) i = Z.testbit w i && negb (i =? c).
Proof.
  intros Hc Hi Hb Hlow.
  assert (Hbits : forall j, Z.testbit (Z.ldiff w (Z.shiftl 1 c)) j = Z.testbit w j && negb (j =? c))
    by (intros j; by rewrite Z.ldiff_spec, testbit_one).
  assert (E : w - 1 = Z.ldiff w (Z.shiftl 1 c) .| Z.ones c).
  { rewrite lor_add.
    - rewrite <- Z.sub_nocarry_ldiff, Z.ones_equiv, Z.shiftl_1_l; [lia|].
      apply Z.bits_inj'. intros j Hj. rewrite Z.ldiff_spec, testbit_one, Z.bits_0 by done.
      destruct (Z.eqb_spec j c) as [->|]; [by rewrite Hb|done].
    - apply Z.bits_inj'. intros j Hj. rewrite Z.land_spec, Hbits, testbit_ones, Z.bits_0 by done.
      destruct (Z.ltb_spec j c); [rewrite Hlow by lia; done|by rewrite !andb_false_r]. }
  rewrite E, Z.land_spec, Z.lor_spec, Hbits, testbit_ones by done.
  destruct (Z.ltb_spec i c); [by rewrite Hlow by lia|].
  rewrite andb_false_r, orb_false_r. by destruct (Z.testbit w i).
Qed.

Definition flush_set (w : Z) (ms : list tlb_mode) : list tlb_mode :=
  imap (fun i m => if Z.testbit w (Z.of_nat i) then tlb_flush_one_mmuidx_locked m else m) ms.

Lemma lookup_flush_set w ms i :
  flush_set w ms !! i
  = (fun m => if Z.testbit w (Z.of_nat i) then tlb_flush_one_mmuidx_locked m else m) <$> ms !! i.
Proof. apply list_lookup_imap. Qed.

Lemma flush_set_none w ms :
  (forall i, 0 <= i -> Z.testbit w i = false) -> flush_set w ms = ms.
Proof.
  intros Hw. apply list_eq. intros i. rewrite lookup_flush_set, Hw by lia. by destruct (ms !! i).
Qed.

Lemma flush_modes_spec fuel w s :
  unsigned 16 w -> (forall i, 0 <= i < 16 - Z.of_nat fuel -> Z.testbit w i = false) ->
  flush_modes fuel w s = set_modes (flush_set w (modes s)) s.
Proof.
  revert w s. induction fuel as [|n IH]; intros w s Hw Hlow; cbn [flush_modes].
  { rewrite flush_set_none; [by destruct s|]. intros i Hi.
    destruct (Z.lt_ge_cases i 16); [apply Hlow; lia|]. by apply (testbit_above 16). }
  destruct (Z.eqb_spec w 0) as [->|E].
  { rewrite flush_set_none; [by destruct s|]. intros. apply Z.bits_0. }
  destruct (ctz_from_spec 32 0 w) as (Hc & Hb & Hl).
  { destruct (nonzero_bit w 16) as (j & Hj & Hbj); [done..|]. exists j. split; [lia|done]. }
  fold (ctz32 w) in Hc, Hb, Hl. set (c := ctz32 w) in *.
  assert (Hcl : forall i, 0 <= i -> Z.testbit (w .& (w - 1)) i = Z.testbit w i && negb (i =? c))
    by (intros; apply clear_lowest; auto; lia).
  rewrite IH.
  - unfold on_mode, set_modes. cbn [dirty full_flush_count part_flush_count elide_flush_count modes].
    f_equal. apply list_eq. intros i.
    rewrite !lookup_flush_set, Hcl by lia. destruct (decide (i = Z.to_nat c)) as [->|Hne].
    + rewrite list_lookup_alter_eq, Z2Nat.id, Hb, Z.eqb_refl by lia. by destruct (modes s !! _).
    + rewrite list_lookup_alter_ne by done. rewrite (proj2 (Z.eqb_neq _ _)) by lia.
      by rewrite andb_true_r.
  - apply range_of_testbit; [done|]. intros i Hi. rewrite Hcl by lia.
    by rewrite (testbit_above 16) by (done || lia).
  - intros i Hi. rewrite Hcl by lia. destruct (Z.eqb_spec i c); [apply andb_false_r|].
    destruct (Z.lt_ge_cases i c); [by rewrite Hl by lia|].
    destruct (Z.lt_ge_cases c (16 - Z.of_nat (S n))); [|lia]. by rewrite Hlow in Hb by lia.
Qed.

(** ** Abstract operations *)

Definition a_flush (idxmap : Z) (A : acache) : acache :=
  imap (fun i X => if Z.testbit idxmap (Z.of_nat i) then ∅ else X) A.
Definition a_flush_page (addr idxmap : Z) (A : acache) : acache :=
  imap (fun i X => if Z.testbit idxmap (Z.of_nat i) then drop_page (addr .& TARGET_PAGE_MASK) X else X) A.
Definition a_set (mmu_idx : nat) (va : Z) (c : mapping) (A : acache) : acache :=
  alter <[va := c]> mmu_idx A.

Lemma tlb_rel_modes s s' A :
  dirty s' = dirty s -> modes s' = modes s -> tlb_rel s A -> tlb_rel s' A.
Proof. intros Ed Em [Hm Ha Hd Hr Hc]. constructor; rewrite ?Ed, ?Em; done. Qed.

Lemma tlb_rel_abs s A A' : tlb_rel s A -> (forall i : nat, A !! i = A' !! i) -> tlb_rel s A'.
Proof. intros H E. apply list_eq in E. by subst. Qed.

Lemma flush_rel s A idxmap :
  tlb_rel s A -> tlb_rel (tlb_flush_by_mmuidx idxmap s) (a_flush (u16 idxmap) A).
Proof.
  intros [Hm Ha Hd Hr Hc]. unfold tlb_flush_by_mmuidx, tlb_flush_by_mmuidx_async_work.
  rewrite wrap_wrap. set (asked := u16 idxmap). set (to_clean := asked .& dirty s).
  assert (Hu : unsigned 16 to_clean) by (apply land_range; [done|apply Hd]).
  rewrite flush_modes_spec by (done || lia). cbn [modes set_modes set_dirty].
  apply (tlb_rel_modes (set_modes (flush_set to_clean (modes s))
    (set_dirty (dirty s .& u16 (Z.lnot to_clean)) s))); [by repeat case_match..|].
  assert (Htc : forall i, Z.testbit to_clean i = Z.testbit asked i && Z.testbit (dirty s) i)
    by (intros; apply Z.land_spec).
  constructor; cbn [modes set_modes set_dirty dirty].
  - unfold flush_set. by rewrite length_imap.
  - unfold a_flush. by rewrite length_imap.
  - apply land_range; [done|]. by apply wrap_range.
  - intros i m' X'. rewrite lookup_flush_set. unfold a_flush. rewrite list_lookup_imap, Htc.
    intros (m & Em & ->)%fmap_Some (X & EX & ->)%fmap_Some.
    destruct (Z.testbit asked (Z.of_nat i)) eqn:Eq; cbn [andb]; [|by apply (Hr i)].
    destruct (Z.testbit (dirty s) (Z.of_nat i)) eqn:Edi; [|by apply (Hc i)].
    apply flush_one_rel. by apply (rel_lengths m X), (Hr i).
  - intros i m'. rewrite lookup_flush_set, Z.land_spec, testbit_wrap, testbit_lnot, Htc by lia.
    intros (m & Em & ->)%fmap_Some. pose proof modes_ok. pose proof (lookup_lt_Some _ _ _ Em) as Hi.
    rewrite (proj2 (Z.ltb_lt _ _)), (proj2 (Z.leb_le 0 _)) by lia. cbn [andb].
    destruct (Z.testbit (dirty s) (Z.of_nat i)) eqn:Edi; rewrite ?andb_false_r; [|intros; by apply (Hc i)].
    destruct (Z.testbit asked (Z.of_nat i)); [intros _|done].
    destruct (lookup_lt_is_Some_2 A i) as [X EX]; [lia|].
    apply flush_one_rel. by apply (rel_lengths m X), (Hr i).
Qed.

Lemma testbit_all_modes i :
  0 <= i -> Z.testbit ALL_MMUIDX_BITS i = (i <? Z.of_nat NB_MMU_MODES).
Proof.
  intros Hi. unfold ALL_MMUIDX_BITS. rewrite Z.shiftl_1_l.
  change (?a - 1) with (Z.pred a). rewrite <- Z.ones_equiv, testbit_ones by lia. by bit_cases.
Qed.

(** The loop over the modes of a page flush. *)
Lemma flush_page_modes_rel s A page bm n :
  aligned page -> tlb_rel s A ->
  tlb_rel (foldl (fun s i => if Z.testbit bm (Z.of_nat i)
             then on_mode i (tlb_flush_page_locked page) s else s) s (seq 0 n))
    (imap (fun i X => if decide (i < n)%nat then
             if Z.testbit bm (Z.of_nat i) then drop_page page X else X else X) A).
Proof.
  intros Hpg Hs. induction n as [|n IH].
  { cbn. replace (imap _ A) with A; [done|]. apply list_eq. intros i. rewrite list_lookup_imap.
    destruct (A !! i); [|done]. cbn. by rewrite decide_False by lia. }
  rewrite seq_S, foldl_app. cbn [foldl]. set (s' := foldl _ _ _) in *. cbn [Nat.add].
  assert (E : forall i (X : amap), i <> n -> (if decide (i < S n)%nat then
    if Z.testbit bm (Z.of_nat i) then drop_page page X else X else X)
    = (if decide (i < n)%nat then if Z.testbit bm (Z.of_nat i) then drop_page page X else X else X))
    by (intros i X Hi; repeat case_decide; done || lia).
  destruct (Z.testbit bm (Z.of_nat n)) eqn:Eb.
  - eapply tlb_rel_abs; [eapply (on_mode_rel _ _ n _ (drop_page page)); [exact IH| |]|].
    + right. done.
    + intros m X _. by apply flush_page_rel.
    + intros i. destruct (decide (i = n)) as [->|Hi].
      * rewrite list_lookup_alter_eq, !list_lookup_imap. destruct (A !! n); [|done]. cbn.
        by rewrite decide_False, decide_True, Eb by lia.
      * rewrite list_lookup_alter_ne, !list_lookup_imap by done. destruct (A !! i); [|done].
        cbn. by rewrite E.
  - eapply tlb_rel_abs; [exact IH|]. intros i. rewrite !list_lookup_imap.
    destruct (A !! i); [|done]. cbn. destruct (decide (i = n)) as [->|Hi]; [|by rewrite E].
    by rewrite decide_False, decide_True, Eb by lia.
Qed.

Lemma flush_page_by_mmuidx_rel s A addr idxmap :
  unsigned 32 addr -> unsigned (Z.of_nat NB_MMU_MODES) idxmap -> tlb_rel s A ->
  tlb_rel (tlb_flush_page_by_mmuidx addr idxmap s) (a_flush_page addr idxmap A).
Proof.
  intros Ha Hx Hs. pose proof page_bits_pos. pose proof modes_ok.
  unfold tlb_flush_page_by_mmuidx, tlb_flush_page_by_mmuidx_async_work.
  assert (Hxp : 0 <= idxmap < 2 ^ TARGET_PAGE_BITS).
  { split; [apply Hx|]. eapply Z.lt_le_trans; [apply Hx|]. apply Z.pow_le_mono_r; lia. }
  rewrite (wrap_small 16).
  2: { split; [apply Hx|]. eapply Z.lt_le_trans; [apply Hx|]. apply Z.pow_le_mono_r; lia. }
  rewrite page_with_flags by (done || by apply page_mask_page).
  eapply tlb_rel_abs; [apply flush_page_modes_rel; [by apply page_mask_page|exact Hs]|].
  intros i. unfold a_flush_page. rewrite !list_lookup_imap.
  destruct (A !! i) eqn:EA; [|done]. cbn. pose proof (lookup_lt_Some _ _ _ EA) as Hi.
  rewrite (rel_abs _ _ Hs) in Hi. rewrite decide_True by lia. do 2 f_equal.
  rewrite Z.land_spec, Z.lor_spec, testbit_all_modes by lia.
  rewrite (aligned_low (addr .& TARGET_PAGE_MASK)) by (lia || by apply page_mask_page).
  by rewrite (proj2 (Z.ltb_lt _ _)), andb_true_r by lia.
Qed.
Lemma more_dirty_rel s A d :
  unsigned 16 d -> (forall i, Z.testbit d i = false -> Z.testbit (dirty s) i = false) ->
  tlb_rel s A -> tlb_rel (set_dirty d s) A.
Proof. intros Hd Hle [Hm Ha Hu Hr Hc]. constructor; cbn; eauto. Qed.

Lemma alter_id_rel s A idx : tlb_rel s (alter (fun X => X) idx A) -> tlb_rel s A.
Proof.
  intros H. eapply tlb_rel_abs; [exact H|]. intros i.
  destruct (decide (i = idx)) as [->|]; [|by rewrite list_lookup_alter_ne].
  rewrite list_lookup_alter_eq. by destruct (A !! idx).
Qed.

(** The state after the first step of [tlb_set_page_with_attrs], the region of large pages. *)
Definition with_large (vaddr : Z) (idx : nat) (size : Z) (s : cputlb) : cputlb :=
  if size <=? TARGET_PAGE_SIZE then s else on_mode idx (tlb_add_large_page vaddr size) s.

Lemma with_large_rel s A vaddr idx size :
  (idx < NB_MMU_MODES)%nat -> size_ok size -> tlb_rel s A ->
  tlb_rel (with_large vaddr idx size s) A
  /\ forall m, modes (with_large vaddr idx size s) !! idx = Some m ->
       in_region (tlb_d m) (vaddr .& TARGET_PAGE_MASK) size.
Proof.
  intros Hidx Hsz Hs. unfold with_large. destruct (Z.leb_spec size TARGET_PAGE_SIZE) as [Hle|Hgt].
  { split; [done|]. intros m _ Hlt. lia. }
  destruct Hsz as [|(j & Hj & ->)]; [lia|]. split.
  - apply (alter_id_rel _ _ idx). apply on_mode_rel; [done|by right|].
    intros m X _. by apply add_large_rel.
  - intros m. cbn. rewrite list_lookup_alter_eq. intros (m0 & E0 & ->)%fmap_Some.
    destruct (lookup_lt_is_Some_2 A idx) as [X EX]; [by rewrite (rel_abs _ _ Hs)|].
    destruct (add_large_page_region vaddr j m0 Hj) as (_ & Hin & _); [|exact Hin].
    by apply (rel_region m0 X), (rel_mode _ _ Hs idx).
Qed.

Lemma set_page_rel s A wps clean vaddr paddr attrs prot idx size :
  unsigned 32 vaddr -> (idx < NB_MMU_MODES)%nat -> size_ok size -> tlb_rel s A ->
  tlb_rel (tlb_set_page_with_attrs wps clean vaddr paddr attrs prot idx size s)
    (a_set idx (vaddr .& TARGET_PAGE_MASK)
      (mk_mapping (paddr .& TARGET_PAGE_MASK) attrs prot size) A).
Proof.
  intros Hv Hidx Hsz Hs. unfold tlb_set_page_with_attrs.
  fold (with_large vaddr idx size s).
  destruct (with_large_rel s A vaddr idx size Hidx Hsz Hs) as [H1 Hin].
  destruct (new_entry _ _ _ _ _ _ _) as [tn io] eqn:En.
  pose proof modes_ok. apply on_mode_rel.
  - apply more_dirty_rel; [| |done].
    + apply lor_range; [done|apply H1|]. by apply wrap_range.
    + intros i. rewrite Z.lor_spec. by intros [? _]%orb_false_iff.
  - left. cbn. rewrite Z.lor_spec, testbit_wrap, testbit_one, Z.eqb_refl by lia.
    by rewrite (proj2 (Z.ltb_lt _ _)), orb_true_r by lia.
  - cbn. intros m X Em Hm. apply refill_rel; [by apply page_mask_page|done| |by apply Hin].
    by exists wps, clean.
Qed.

Lemma slot_page addr : unsigned 32 addr -> slot (addr .& TARGET_PAGE_MASK) = slot addr.
Proof.
  pose proof page_bits_pos. intros Ha. unfold slot, tlb_index. do 2 f_equal.
  apply Z.bits_inj'. intros i Hi. rewrite !Z.shiftr_spec, Z.land_spec, testbit_page_mask by lia.
  rewrite (proj2 (Z.leb_le _ _)) by lia. apply andb_true_r.
Qed.

(** The entry that [tlb_set_page_with_attrs] leaves is that of the page. *)
Lemma refill_entry m va tn io :
  lengths_ok m -> tlb_entry (refill va tn io m) va = tn /\ iotlb (refill va tn io m) !!! slot va = io.
Proof.
  intros (Lt & _ & Li & _). pose proof (slot_lt va). unfold refill, tlb_entry.
  destruct (negb _); cbn; split; apply list_lookup_total_insert_eq; lia.
Qed.

Lemma set_page_entry s A wps clean vaddr paddr attrs prot idx size :
  unsigned 32 vaddr -> (idx < NB_MMU_MODES)%nat -> size_ok size -> tlb_rel s A ->
  exists m, modes (tlb_set_page_with_attrs wps clean vaddr paddr attrs prot idx size s) !! idx = Some m
    /\ entered (vaddr .& TARGET_PAGE_MASK) (mk_mapping (paddr .& TARGET_PAGE_MASK) attrs prot size)
         (tlb_entry m vaddr) (iotlb m !!! slot vaddr).
Proof.
  intros Hv Hidx Hsz Hs. unfold tlb_set_page_with_attrs. fold (with_large vaddr idx size s).
  destruct (with_large_rel s A vaddr idx size Hidx Hsz Hs) as [H1 _].
  destruct (new_entry _ _ _ _ _ _ _) as [tn io] eqn:En.
  destruct (lookup_lt_is_Some_2 (modes (with_large vaddr idx size s)) idx) as [m Em];
    [by rewrite (rel_modes _ _ H1)|].
  destruct (lookup_lt_is_Some_2 A idx) as [X EX]; [by rewrite (rel_abs _ _ H1)|].
  exists (refill (vaddr .& TARGET_PAGE_MASK) tn io m). cbn [modes on_mode set_modes set_dirty].
  rewrite list_lookup_alter_eq, Em.
  split; [done|]. pose proof (rel_lengths _ _ (rel_mode _ _ H1 _ _ _ Em EX)) as Hl.
  destruct (refill_entry m (vaddr .& TARGET_PAGE_MASK) tn io Hl) as [E1 E2].
  unfold tlb_entry in *. rewrite slot_page in E1, E2 by done. rewrite E1, E2. by exists wps, clean.
Qed.

Lemma tlb_reset_dirty_rel s A start len : tlb_rel s A -> tlb_rel (tlb_reset_dirty start len s) A.
Proof.
  intros [Hm Ha Hd Hr Hc].
  assert (Hf : forall m X, mode_rel m X -> mode_rel
    (set_v_table (tlb_reset_dirty_range_locked start len <$> tlb_v_table m)
      (set_table (tlb_reset_dirty_range_locked start len <$> tlb_table m) m)) X).
  { intros m X HmX. apply dirty_rel; [apply reset_dirty_keeps|apply length_fmap| |done].
    intros i te. rewrite list_lookup_fmap. intros (te0 & E & ->)%fmap_Some. eauto. }
  constructor; cbn; [by rewrite length_fmap|done|done| |].
  - intros i m X. rewrite list_lookup_fmap. intros (m0 & E & ->)%fmap_Some EX. apply Hf. eauto.
  - intros i m. rewrite list_lookup_fmap. intros (m0 & E & ->)%fmap_Some Hi. apply Hf. eauto.
Qed.

Lemma tlb_set_dirty_rel s A vaddr :
  unsigned 32 vaddr -> tlb_rel s A -> tlb_rel (tlb_set_dirty vaddr s) A.
Proof.
  intros Hv [Hm Ha Hd Hr Hc]. unfold tlb_set_dirty. set (va := vaddr .& TARGET_PAGE_MASK).
  assert (Hf : forall m X, mode_rel m X -> mode_rel
    (set_v_table (tlb_set_dirty1_locked va <$> tlb_v_table m)
      (set_table (alter (tlb_set_dirty1_locked va) (slot va) (tlb_table m)) m)) X).
  { intros m X HmX. apply dirty_rel; [by apply set_dirty_keeps, page_mask_page|apply length_alter| |done].
    intros i te. destruct (decide (i = slot va)) as [->|].
    - rewrite list_lookup_alter_eq. intros (te0 & E & ->)%fmap_Some. eauto.
    - rewrite list_lookup_alter_ne by done. eauto. }
  constructor; cbn; [by rewrite length_fmap|done|done| |].
  - intros i m X. rewrite list_lookup_fmap. intros (m0 & E & ->)%fmap_Some EX. apply Hf. eauto.
  - intros i m. rewrite list_lookup_fmap. intros (m0 & E & ->)%fmap_Some Hi. apply Hf. eauto.
Qed.

(** After [tlb_init] the first flush empties every mode, whatever the memory held. *)
Lemma init_flush_rel s :
  length (modes s) = NB_MMU_MODES -> Forall lengths_ok (modes s) ->
  tlb_rel (tlb_flush (tlb_init s)) (replicate NB_MMU_MODES ∅).
Proof.
  intros Hl Hms. pose proof modes_ok. unfold tlb_flush, tlb_flush_by_mmuidx,
    tlb_flush_by_mmuidx_async_work, tlb_init. rewrite wrap_wrap. cbn [dirty set_dirty].
  rewrite Z.land_diag. set (w := u16 ALL_MMUIDX_BITS).
  assert (Hw : forall i, 0 <= i < Z.of_nat NB_MMU_MODES -> Z.testbit w i = true).
  { intros i Hi. unfold w. rewrite testbit_wrap, testbit_all_modes by lia. by bit_cases. }
  rewrite flush_modes_spec by (lia || by apply wrap_range). cbn [modes set_modes set_dirty].
  apply (tlb_rel_modes (set_modes (flush_set w (modes s)) (set_dirty (w .& u16 (Z.lnot w)) s)));
    [by repeat case_match..|].
  assert (Hall : forall i m X, flush_set w (modes s) !! i = Some m -> mode_rel m X).
  { intros i m X. rewrite lookup_flush_set. intros (m0 & E & ->)%fmap_Some.
    rewrite Hw by (apply lookup_lt_Some in E; lia). apply flush_one_rel.
    by eapply Forall_lookup_1 in E. }
  constructor; cbn [modes set_modes set_dirty dirty].
  - unfold flush_set. by rewrite length_imap.
  - apply length_replicate.
  - apply land_range; [done|]. by apply wrap_range.
  - eauto.
  - eauto.
Qed.

(** ** Looking up *)

Lemma hit_sound s A idx m X ty addr :
  tlb_rel s A -> unsigned 32 addr -> modes s !! idx = Some m -> A !! idx = Some X ->
  tlb_hit (elt ty (tlb_entry m addr)) addr = true ->
  exists c, X !! (addr .& TARGET_PAGE_MASK) = Some c
    /\ entered (addr .& TARGET_PAGE_MASK) c (tlb_entry m addr) (iotlb m !!! slot addr)
    /\ bit_any (mp_prot c) (prot_of ty) = true.
Proof.
  intros Hs Ha Em EX Hh. pose proof (rel_mode _ _ Hs _ _ _ Em EX) as Hm.
  destruct (entry_lookup m addr (rel_lengths _ _ Hm)) as [He Hio]. unfold tlb_hit in Hh.
  pose proof (page_mask_page addr Ha) as Hpg.
  destruct (rel_table _ _ Hm _ _ _ He Hio _ Hpg) as (c & Hc & Hen & _); [apply anyprot_hit; eauto|].
  exists c. split_and!; [done..|]. by apply (entered_hit _ _ _ _ _ _ Hpg Hpg Hen Hh).
Qed.
(** ** The memory an access goes to *)

(** The section and the offset in it of a mapping; where the host has its page. *)
Definition backing (c : mapping) : section * Z :=
  (translate_for_iotlb (mp_paddr c) (mp_attrs c) (mp_prot c)).1.
Definition host_page (c : mapping) : Z := ram_ptr (backing c).1 + (backing c).2.

Lemma entered_host va c te io ty :
  entered va c te io -> Z.testbit (elt ty te) (TARGET_PAGE_BITS - 3) = false ->
  is_ram (backing c).1 || is_romd (backing c).1 = true /\ addend te = u64 (host_page c - va).
Proof.
  pose proof page_bits_pos as Hpb. intros (wps & clean & E) Hb. unfold host_page, backing.
  unfold new_entry in E. destruct (translate_for_iotlb _ _ _) as [[sec xlat] prot']. cbn [fst snd].
  set (a0 := if mp_size c <? TARGET_PAGE_SIZE then _ else _) in E.
  destruct (is_ram sec || is_romd sec) eqn:Es.
  - replace (negb (is_ram sec) && negb (is_romd sec)) with false in E
      by (by destruct (is_ram sec), (is_romd sec)).
    destruct (memory_region_section_get_iotlb _ _ _ _ _ _ _) as [iot a2]. injection E as <- _.
    split; [done|]. cbn [addend]. unfold wrap. by rewrite Zminus_mod_idemp_l.
  - exfalso. apply orb_false_iff in Es as [Er Ed]. rewrite Er, Ed in E. cbn [negb andb orb] in E.
    assert (Hm : Z.testbit (a0 .| TLB_MMIO) (TARGET_PAGE_BITS - 3) = true)
      by (apply lor_flag_bit; lia).
    pose proof (get_iotlb_keeps wps sec va (mp_paddr c) xlat prot' _ _ Hm) as Hm2.
    destruct (memory_region_section_get_iotlb _ _ _ _ _ _ _) as [iot a2]. cbn [snd] in Hm2.
    assert (Hn : Z.testbit (u32 (-1)) (TARGET_PAGE_BITS - 3) = true)
      by (rewrite testbit_wrap, Z.bits_m1 by lia; by bit_cases).
    injection E as <- _. revert Hb.
    destruct ty; cbn [elt addr_read addr_write addr_code]; repeat case_match; try congruence.
    rewrite Z.lor_spec, Hm2. done.
Qed.

(** ** Sequences of calls *)

Inductive tlb_call :=
| CallSetPage (wps : list CPUWatchpoint) (clean : Z -> bool) (vaddr paddr attrs prot : Z)
    (mmu_idx : nat) (size : Z)
| CallFlush (idxmap : Z)
| CallFlushPage (addr idxmap : Z)
| CallResetDirty (start len : Z)
| CallSetDirty (vaddr : Z)
| CallProbe (mmu_idx : nat) (ty : MMUAccessType) (addr : Z).

Definition run_call (c : tlb_call) (s : cputlb) : cputlb :=
  match c with
  | CallSetPage wps clean vaddr paddr attrs prot idx size =>
      tlb_set_page_with_attrs wps clean vaddr paddr attrs prot idx size s
  | CallFlush idxmap => tlb_flush_by_mmuidx idxmap s
  | CallFlushPage addr idxmap => tlb_flush_page_by_mmuidx addr idxmap s
  | CallResetDirty start len => tlb_reset_dirty start len s
  | CallSetDirty vaddr => tlb_set_dirty vaddr s
  | CallProbe idx ty addr => (tlb_probe idx ty addr s).2
  end.

(** What the caller sees of a call: the map of pages. *)
Definition spec_call (c : tlb_call) (A : acache) : acache :=
  match c with
  | CallSetPage _ _ vaddr paddr attrs prot idx size =>
      a_set idx (vaddr .& TARGET_PAGE_MASK)
        (mk_mapping (paddr .& TARGET_PAGE_MASK) attrs prot size) A
  | CallFlush idxmap => a_flush (u16 idxmap) A
  | CallFlushPage addr idxmap => a_flush_page addr idxmap A
  | _ => A
  end.

Definition call_ok (c : tlb_call) : Prop :=
  match c with
  | CallSetPage _ _ vaddr _ _ _ idx size =>
      unsigned 32 vaddr /\ (idx < NB_MMU_MODES)%nat /\ size_ok size
  | CallFlush _ | CallResetDirty _ _ => True
  | CallFlushPage addr idxmap => unsigned 32 addr /\ unsigned (Z.of_nat NB_MMU_MODES) idxmap
  | CallSetDirty vaddr => unsigned 32 vaddr
  | CallProbe _ _ addr => unsigned 32 addr
  end.

Definition run_calls (cs : list tlb_call) (s : cputlb) : cputlb := foldl (fun s c => run_call c s) s cs.
Definition spec_calls (cs : list tlb_call) (A : acache) : acache :=
  foldl (fun A c => spec_call c A) A cs.

Lemma tlb_probe_rel s A idx ty addr :
  unsigned 32 addr -> tlb_rel s A ->
  tlb_rel (tlb_probe idx ty addr s).2 A
  /\ ((tlb_probe idx ty addr s).1 = true ->
      exists m, modes (tlb_probe idx ty addr s).2 !! idx = Some m
        /\ tlb_hit (elt ty (tlb_entry m addr)) addr = true).
Proof.
  intros Ha Hs. unfold tlb_probe. destruct (modes s !! idx) as [m|] eqn:Em; [|by split].
  destruct (tlb_hit _ addr) eqn:Eh; [by split; [|exists m]|].
  rewrite <- (slot_page addr Ha). pose proof (page_mask_page addr Ha) as Hpg.
  destruct (victim_tlb_hit _ ty _ m) as [m'|] eqn:Ev; [|by split]. cbn [fst snd].
  destruct (lookup_lt_is_Some_2 A idx) as [X EX].
  { rewrite (rel_abs _ _ Hs), <- (rel_modes _ _ Hs). by eapply lookup_lt_Some. }
  pose proof (rel_mode _ _ Hs _ _ _ Em EX) as Hm. split.
  - apply (alter_id_rel _ _ idx).
    assert (E : set_modes (<[idx := m']> (modes s)) s = on_mode idx (fun _ => m') s).
    { unfold on_mode. f_equal. apply list_eq. intros i. destruct (decide (i = idx)) as [->|].
      - rewrite list_lookup_alter_eq, list_lookup_insert_eq, Em; [done|]. by eapply lookup_lt_Some.
      - by rewrite list_lookup_alter_ne, list_lookup_insert_ne by done. }
    rewrite E. apply on_mode_rel; [done|by right|]. intros m0 X0 E0 Hm0.
    assert (m0 = m) as -> by congruence.
    by destruct (victim_rel m X0 ty (addr .& TARGET_PAGE_MASK) m').
  - intros _. exists m'. cbn. rewrite list_lookup_insert_eq by (by eapply lookup_lt_Some).
    split; [done|]. destruct (victim_rel m X ty _ m' Hpg Hm Ev) as [_ Hh]. unfold tlb_hit.
    unfold tlb_entry in Hh |- *. by rewrite slot_page in Hh.
Qed.

Lemma run_call_rel c s A : call_ok c -> tlb_rel s A -> tlb_rel (run_call c s) (spec_call c A).
Proof.
  destruct c; cbn [call_ok run_call spec_call]; intros Hok Hs.
  - destruct Hok as (? & ? & ?). by apply set_page_rel.
  - by apply flush_rel.
  - destruct Hok. by apply flush_page_by_mmuidx_rel.
  - by apply tlb_reset_dirty_rel.
  - by apply tlb_set_dirty_rel.
  - by apply tlb_probe_rel.
Qed.

Lemma run_calls_rel cs s A :
  Forall call_ok cs -> tlb_rel s A -> tlb_rel (run_calls cs s) (spec_calls cs A).
Proof.
  intros Hcs. revert s A. induction Hcs as [|c cs Hc _ IH]; intros s A Hs; [done|].
  cbn. by apply IH, run_call_rel.
Qed.

(** The address of an entry without flags: that of the byte in the page of the mapping. *)
Lemma entered_address va c te io ty addr :
  unsigned 32 addr -> va = addr .& TARGET_PAGE_MASK -> entered va c te io ->
  elt ty te .& Z.lnot TARGET_PAGE_MASK = 0 ->
  is_ram (backing c).1 || is_romd (backing c).1 = true
  /\ u64 (addr + addend te) = u64 (host_page c + addr mod TARGET_PAGE_SIZE).
Proof.
  pose proof page_bits_pos as Hpb. intros Ha -> Hen Ef.
  destruct (entered_host _ _ _ _ ty Hen) as [Hram ->].
  { apply (f_equal (fun z => Z.testbit z (TARGET_PAGE_BITS - 3))) in Ef.
    rewrite Z.land_spec, Z.lnot_spec, testbit_page_mask, Z.bits_0 in Ef by lia.
    rewrite (proj2 (Z.leb_gt _ _)) in Ef by lia. by rewrite andb_true_r in Ef. }
  split; [done|].
  assert (Hsplit : addr = addr .& TARGET_PAGE_MASK + addr mod TARGET_PAGE_SIZE).
  { rewrite page_mask_ones. unfold TARGET_PAGE_SIZE. rewrite Z.shiftl_1_l, <- Z.land_ones by lia.
    rewrite <- Z.ldiff_land, <- (Z.lor_ldiff_and addr (Z.ones TARGET_PAGE_BITS)) at 1.
    apply lor_add. apply Z.bits_inj'. intros i Hi. rewrite !Z.land_spec, Z.ldiff_spec, Z.bits_0.
    by destruct (Z.testbit addr i), (Z.testbit (Z.ones _) i). }
  unfold wrap. rewrite Zplus_mod_idemp_r. f_equal. lia.
Qed.

Lemma host_sound s A idx ty addr h :
  tlb_rel s A -> unsigned 32 addr -> tlb_host idx ty addr s = Some h ->
  exists X c, A !! idx = Some X /\ X !! (addr .& TARGET_PAGE_MASK) = Some c
    /\ bit_any (mp_prot c) (prot_of ty) = true
    /\ is_ram (backing c).1 || is_romd (backing c).1 = true
    /\ h = u64 (host_page c + addr mod TARGET_PAGE_SIZE).
Proof.
  intros Hs Ha. unfold tlb_host. destruct (modes s !! idx) as [m|] eqn:Em; [|done]. cbn [mbind option_bind].
  destruct (tlb_hit _ addr) eqn:Eh; [|done].
  destruct (Z.eqb_spec (elt ty (tlb_entry m addr) .& Z.lnot TARGET_PAGE_MASK) 0) as [Ef|]; [|done].
  intros [= <-]. destruct (lookup_lt_is_Some_2 A idx) as [X EX].
  { rewrite (rel_abs _ _ Hs), <- (rel_modes _ _ Hs). by eapply lookup_lt_Some. }
  destruct (hit_sound s A idx m X ty addr) as (c & Hc & Hen & Hp); [done..|].
  destruct (entered_address _ _ _ _ ty addr Ha eq_refl Hen Ef) as [Hram Hh]. by exists X, c.
Qed.

(** C22: the software TLB refines a map of pages.  From any memory, after [tlb_init] and the flush
    of the reset, and through any sequence of calls (pages entered, also as parts of large pages,
    flushes of modes and of pages, changes of the dirty state, lookups that bring victims back):
    when an access hits without going through the memory core, the page was entered and not
    flushed since, it permits the access, it is backed by memory of the host, and the host
    address is that of the byte in the physical page that was entered. *)
Theorem tlb_refines_map s cs idx ty addr h :
  length (modes s) = NB_MMU_MODES -> Forall lengths_ok (modes s) -> Forall call_ok cs ->
  unsigned 32 addr ->
  tlb_host idx ty addr (run_calls cs (tlb_flush (tlb_init s))) = Some h ->
  exists X c, spec_calls cs (replicate NB_MMU_MODES ∅) !! idx = Some X
    /\ X !! (addr .& TARGET_PAGE_MASK) = Some c
    /\ bit_any (mp_prot c) (prot_of ty) = true
    /\ is_ram (backing c).1 || is_romd (backing c).1 = true
    /\ h = u64 (host_page c + addr mod TARGET_PAGE_SIZE).
Proof.
  intros Hl Hms Hcs Ha Hh. eapply host_sound; [|done..].
  apply run_calls_rel; [done|]. by apply init_flush_rel.
Qed.
End Tlb.

(** ** Instances *)

(** A machine whose physical memory is one block of RAM. *)
Lemma ram_prot (prot : Z) : Z.land prot prot = prot.
Proof. apply Z.land_diag. Qed.

Definition ram_map : MemoryMap := {|
  translate_for_iotlb addr _ prot := (mk_section true false false 0x7F0000000000 0 4, addr, prot);
  translate_prot _ _ prot := ram_prot prot
|}.

(** The tables of a processor as they are allocated. *)
Definition blank_tlb (n : nat) : cputlb :=
  mk_cputlb 0 0 0 0 (replicate n (mk_mode (mk_desc 0 0 0) (replicate 256 (mk_te 0 0 0 0))
    (replicate 8 (mk_te 0 0 0 0)) (replicate 256 (mk_io 0 0)) (replicate 8 (mk_io 0 0)))).

#[local, program] Instance small_target : Target := {| TARGET_PAGE_BITS := 12; NB_MMU_MODES := 3 |}.
Solve Obligations with lia.

(** Two pages of the same slot, the second a part of a large one, and a flush of a third outside it. *)
Definition some_calls : list tlb_call :=
  [CallSetPage [] (fun _ => false) 0x1000 0x5000 0 0x3 1 0x1000;
   CallSetPage [] (fun _ => false) 0x101000 0x701000 0 0x3 1 0x200000;
   CallFlushPage 0x402000 0x2; CallProbe 1 MMU_DATA_LOAD 0x1004].

Lemma some_calls_ok : Forall call_ok some_calls.
Proof.
  assert (H2 : (1 < NB_MMU_MODES)%nat) by (vm_compute; lia).
  repeat (apply Forall_cons; split); try apply Forall_nil; cbn [call_ok]; split_and?; try done.
  - by left.
  - right. by exists 21.
Qed.

Lemma tlb_refines_map_witness :
  exists X c,
    spec_calls some_calls (replicate 3 ∅) !! 1%nat = Some X /\ X !! 0x1000 = Some c
    /\ @tlb_host small_target 1 MMU_DATA_LOAD 0x1004
         (@run_calls small_target ram_map some_calls (tlb_flush (tlb_init (blank_tlb 3))))
       = Some (u64 (@host_page ram_map c + 0x4)).
Proof.
  assert (Hh : @tlb_host small_target 1 MMU_DATA_LOAD 0x1004
    (@run_calls small_target ram_map some_calls (tlb_flush (tlb_init (blank_tlb 3))))
    = Some 0x7F0000005004) by (vm_compute; reflexivity).
  destruct (@tlb_refines_map small_target ram_map (blank_tlb 3) some_calls 1 MMU_DATA_LOAD 0x1004
    0x7F0000005004 eq_refl) as (X & c & HX & Hc & _ & _ & E).
  - repeat constructor.
  - exact some_calls_ok.
  - split; lia.
  - exact Hh.
  - exists X, c. split; [exact HX|]. split; [exact Hc|]. by rewrite Hh, E.
Defined.
