(* ===== verification/Coherence.v ===== *)
(** * Guest accesses through the software TLB

    The interface between the MMU model of a target and QEMU's TLB ([CpuTlb]), and what follows
    from it for every target: as long as the changes of the guest's translations are flushed, an
    access goes to the page that the MMU model gives at that moment, whether it hits the cached
    entry or fills it.

    [Mmu] is what a target promises.  A mode of the TLB is one address space: the page of a
    virtual address in a mode is a function of the guest's state; the index of an access selects
    the mode; the fill asks the MMU model for the page of the current mode. *)

From S2P Require Import Prelude Bits CpuTlb CpuTlbProof.

(** What [tlb_fill] does: enter a page with [tlb_set_page_with_attrs], or raise an exception in
    the guest. *)
Inductive filled (G : Type) :=
| Filled (paddr attrs prot size : Z) (g : G)
| Fault (g : G).
Arguments Filled {G} _ _ _ _ _.
Arguments Fault {G} _.

(** A translation that only gains permissions. *)
Definition page_le (o o' : option (Z * Z)) : Prop :=
  match o with
  | Some (p, q) => exists q', o' = Some (p, q') /\ prot_le q q'
  | None => True
  end.

(** The flushes that forget a page of a mode. *)
Definition drops `{Target} (f : tlb_call) (idx : nat) (va : Z) : Prop :=
  match f with
  | CallFlush m => Z.testbit (u16 m) (Z.of_nat idx) = true
  | CallFlushPage a m =>
      Z.testbit m (Z.of_nat idx) = true /\ Z.land a TARGET_PAGE_MASK = va
  | _ => False
  end.

Definition is_flush (f : tlb_call) : Prop :=
  match f with CallFlush _ | CallFlushPage _ _ => True | _ => False end.

Class Mmu `{Target} (G : Type) := {
  mmu_inv : G -> Prop;
  (** The physical page and the protection of a page in a mode. *)
  mmu_page : G -> nat -> Z -> option (Z * Z);
  mmu_idx : G -> MMUAccessType -> nat;
  mmu_fill : G -> MMUAccessType -> Z -> filled G;
  (** What the guest does other than accesses, and the flushes that come with it. *)
  mmu_step : G -> list tlb_call -> G -> Prop;
  mmu_idx_lt g ty : mmu_inv g -> (mmu_idx g ty < NB_MMU_MODES)%nat;
  mmu_fill_page g ty a paddr attrs prot size g' :
    mmu_inv g -> unsigned 32 a -> mmu_fill g ty a = Filled paddr attrs prot size g' ->
    mmu_inv g' /\ size_ok size /\ mmu_idx g' ty = mmu_idx g ty
    /\ (forall idx va, (idx < NB_MMU_MODES)%nat -> aligned va ->
          page_le (mmu_page g idx va) (mmu_page g' idx va))
    /\ bit_any prot (prot_of ty) = true
    /\ exists q, prot_le prot q
       /\ mmu_page g' (mmu_idx g ty) (Z.land a TARGET_PAGE_MASK)
          = Some (Z.land paddr TARGET_PAGE_MASK, q);
  mmu_fill_fault g ty a g' :
    mmu_inv g -> unsigned 32 a -> mmu_fill g ty a = Fault g' ->
    mmu_inv g' /\ forall idx va, (idx < NB_MMU_MODES)%nat -> aligned va ->
      page_le (mmu_page g idx va) (mmu_page g' idx va);
  mmu_step_flushes g fs g' :
    mmu_inv g -> mmu_step g fs g' ->
    mmu_inv g' /\ Forall is_flush fs /\ Forall call_ok fs
    /\ forall idx va, (idx < NB_MMU_MODES)%nat -> aligned va ->
       page_le (mmu_page g idx va) (mmu_page g' idx va) \/ Exists (fun f => drops f idx va) fs
}.

Section Machine.
Context {T : Target} {M : MemoryMap} {G : Type} {mmu : Mmu G}.
Open Scope c_scope.

(** ** The processor and its TLB *)

Record machine := mk_machine { guest : G; tlb : cputlb }.

(** An access of a kind: it completes, or the guest gets an exception. *)
Inductive access_result := Completed (s : machine) | Raised (s : machine).

(** The watchpoints and the clean pages at the time of the access. *)
Context (wps : list CPUWatchpoint) (clean : Z -> bool).

Definition tlb_access (ty : MMUAccessType) (addr : Z) (s : machine) : access_result :=
  let idx := mmu_idx (guest s) ty in
  let '(hit, t) := tlb_probe idx ty addr (tlb s) in
  if hit then Completed (mk_machine (guest s) t)
  else
    match mmu_fill (guest s) ty addr with
    | Filled paddr attrs prot size g =>
        Completed (mk_machine g (tlb_set_page_with_attrs wps clean (addr .& TARGET_PAGE_MASK)
          (paddr .& TARGET_PAGE_MASK) attrs prot idx size t))
    | Fault g => Raised (mk_machine g t)
    end.

(** The page an access of the mode goes to: that of the entry it finds. *)
Definition goes_to (t : cputlb) (idx : nat) (ty : MMUAccessType) (addr p : Z) : Prop :=
  exists m c, modes t !! idx = Some m
    /\ entered (addr .& TARGET_PAGE_MASK) c (tlb_entry m addr) (iotlb m !!! slot addr)
    /\ mp_paddr c = p /\ bit_any (mp_prot c) (prot_of ty) = true.

(** Where the host has the bytes of that page, for an access that needs no callback. *)
Lemma goes_to_host t idx ty addr p h :
  unsigned 32 addr -> goes_to t idx ty addr p -> tlb_host idx ty addr t = Some h ->
  exists c, mp_paddr c = p /\ is_ram (backing c).1 || is_romd (backing c).1 = true
    /\ h = u64 (host_page c + addr mod TARGET_PAGE_SIZE).
Proof.
  intros Ha (m & c & Em & Hen & Hp & _). unfold tlb_host. rewrite Em. cbn [mbind option_bind].
  destruct (tlb_hit _ addr); [|done].
  destruct (Z.eqb_spec (elt ty (tlb_entry m addr) .& Z.lnot TARGET_PAGE_MASK) 0) as [Ef|]; [|done].
  intros [= <-]. exists c. destruct (entered_address _ c _ _ ty addr Ha eq_refl Hen Ef). auto.
Qed.

(** The cached pages are those of the MMU model. *)
Definition agrees (g : G) (A : acache) : Prop :=
  forall idx X va c, A !! idx = Some X -> X !! va = Some c -> aligned va /\
    exists q, mmu_page g idx va = Some (mp_paddr c, q) /\ prot_le (mp_prot c) q.

Definition coherent (s : machine) : Prop :=
  mmu_inv (guest s) /\ exists A, tlb_rel (tlb s) A /\ agrees (guest s) A.

Lemma agrees_mono g g' A :
  length A = NB_MMU_MODES ->
  (forall idx va, (idx < NB_MMU_MODES)%nat -> aligned va ->
    page_le (mmu_page g idx va) (mmu_page g' idx va)) ->
  agrees g A -> agrees g' A.
Proof.
  intros Hl Hle Ha idx X va c EX Ec. destruct (Ha idx X va c EX Ec) as (Hva & q & Hq & Hp).
  split; [done|]. apply lookup_lt_Some in EX as Hlt. rewrite Hl in Hlt. specialize (Hle idx va Hlt Hva). rewrite Hq in Hle.
  destruct Hle as (q' & -> & Hqq). exists q'. split; [done|]. by eapply prot_le_trans.
Qed.

Lemma page_page a : (a .& TARGET_PAGE_MASK) .& TARGET_PAGE_MASK = a .& TARGET_PAGE_MASK.
Proof. by rewrite <- Z.land_assoc, Z.land_diag. Qed.

Lemma agrees_set g A idx va c q :
  agrees g A -> aligned va -> mmu_page g idx va = Some (mp_paddr c, q) -> prot_le (mp_prot c) q ->
  agrees g (a_set idx va c A).
Proof.
  intros Ha Hva Hq Hp idx' X va' c'. unfold a_set. destruct (decide (idx' = idx)) as [->|Hne].
  - rewrite list_lookup_alter_eq. intros (X0 & EX & ->)%fmap_Some.
    intros [(<- & <-)|(Hne & Hc)]%lookup_insert_Some; [eauto|by apply (Ha idx X0)].
  - rewrite list_lookup_alter_ne by done. apply Ha.
Qed.

(** An access that completes goes to the page of the MMU model, with a permission it grants. *)
Lemma access_coherent s ty addr :
  coherent s -> unsigned 32 addr ->
  match tlb_access ty addr s with
  | Completed s' => coherent s' /\ mmu_idx (guest s') ty = mmu_idx (guest s) ty
      /\ exists p q, mmu_page (guest s') (mmu_idx (guest s) ty) (addr .& TARGET_PAGE_MASK) = Some (p, q)
         /\ bit_any q (prot_of ty) = true /\ goes_to (tlb s') (mmu_idx (guest s) ty) ty addr p
  | Raised s' => coherent s'
  end.
Proof.
  intros (Hinv & A & Hrel & Hag) Ha. unfold tlb_access. pose proof (mmu_idx_lt _ ty Hinv) as Hlt.
  set (idx := mmu_idx (guest s) ty) in *.
  destruct (tlb_probe_rel (tlb s) A idx ty addr Ha Hrel) as [Hrel' Hhit].
  destruct (tlb_probe idx ty addr (tlb s)) as [[] t]; cbn [fst snd] in *.
  - destruct (Hhit eq_refl) as (m & Em & Hh). cbn [guest tlb].
    split; [by split; [|exists A]|]. split; [done|].
    destruct (lookup_lt_is_Some_2 A idx) as [X EX]; [by rewrite (rel_abs _ _ Hrel')|].
    destruct (hit_sound _ _ _ _ _ _ _ Hrel' Ha Em EX Hh) as (c & Hc & Hen & Hp).
    destruct (Hag idx X _ c EX Hc) as (_ & q & Hq & Hle). exists (mp_paddr c), q.
    split_and!; [done|by eapply bit_any_sub|]. by exists m, c.
  - clear Hhit. destruct (mmu_fill (guest s) ty addr) as [paddr attrs prot size g|g] eqn:Ef.
    + destruct (mmu_fill_page _ _ _ _ _ _ _ _ Hinv Ha Ef) as (Hinv' & Hsz & Hi & Hle & Hpt & q & Hq & Hpg).
      cbn [guest tlb]. pose proof (page_mask_page addr Ha) as Hal.
      pose proof (proj2 Hal) as Hu.
      pose proof (set_page_rel t A wps clean _ (paddr .& TARGET_PAGE_MASK) attrs prot idx size Hu Hlt Hsz Hrel') as Hr.
      destruct (set_page_entry t A wps clean _ (paddr .& TARGET_PAGE_MASK) attrs prot idx size Hu Hlt Hsz Hrel')
        as (m & Em & Hen).
      rewrite !page_page in Hr, Hen. split; [split; [done|]|split; [done|]].
      * eexists. split; [exact Hr|]. apply (agrees_set _ _ _ _ _ q); [by eapply agrees_mono; [apply Hrel|..]|done..].
      * exists (paddr .& TARGET_PAGE_MASK), q. split_and!; [done|by eapply bit_any_sub|].
        exists m, (mk_mapping (paddr .& TARGET_PAGE_MASK) attrs prot size). split_and!; [done| |done|done].
        unfold tlb_entry in *. by rewrite slot_page in Hen.
    + destruct (mmu_fill_fault _ _ _ _ Hinv Ha Ef) as [Hinv' Hle]. split; [done|]. exists A.
      split; [done|]. by eapply agrees_mono; [apply Hrel|..].
Qed.

(** ** Flushes *)

Definition run_flushes (fs : list tlb_call) (s : machine) (g : G) : machine :=
  mk_machine g (run_calls fs (tlb s)).

(** What a sequence of flushes leaves was there before, and none of them drops it. *)
Lemma flush_leaves f A idx X va c :
  is_flush f -> spec_call f A !! idx = Some X -> X !! va = Some c ->
  ~ drops f idx va /\ exists X0, A !! idx = Some X0 /\ X0 !! va = Some c.
Proof.
  destruct f; try done; intros _; cbn [spec_call drops]; unfold a_flush, a_flush_page;
    rewrite list_lookup_imap; intros (X0 & EX & ->)%fmap_Some Hc.
  - destruct (Z.testbit _ _); [by rewrite lookup_empty in Hc|]. split; [done|]. eauto.
  - destruct (Z.testbit _ _); [|split; [by intros []|eauto]].
    apply map_lookup_filter_Some in Hc as [Hc Hs]. split; [|eauto]. intros [_ <-].
    cbn in Hs. unfold same_page in Hs. by rewrite Z.eqb_refl in Hs.
Qed.

Lemma flushes_leave fs A idx X va c :
  Forall is_flush fs -> spec_calls fs A !! idx = Some X -> X !! va = Some c ->
  Forall (fun f => ~ drops f idx va) fs /\ exists X0, A !! idx = Some X0 /\ X0 !! va = Some c.
Proof.
  intros Hfs. revert A X. induction Hfs as [|f fs Hf _ IH]; intros A X EX Hc; [eauto|].
  cbn in EX. destruct (IH _ _ EX Hc) as (Hd & X1 & EX1 & Hc1).
  destruct (flush_leaves f A idx X1 va c Hf EX1 Hc1) as [Hd1 H0]. split; [by constructor|done].
Qed.

(** A step of the guest, with its flushes, keeps the cache coherent. *)
Lemma step_coherent s fs g :
  coherent s -> mmu_step (guest s) fs g -> coherent (run_flushes fs s g).
Proof.
  intros (Hinv & A & Hrel & Hag) Hst. destruct (mmu_step_flushes _ _ _ Hinv Hst) as (Hinv' & Hf & Hok & Hch).
  split; [done|]. exists (spec_calls fs A). split; [by apply run_calls_rel|].
  intros idx X va c EX Hc.
  assert (Hlt : (idx < NB_MMU_MODES)%nat).
  { rewrite <- (rel_abs _ _ (run_calls_rel fs _ _ Hok Hrel)). by eapply lookup_lt_Some. }
  destruct (flushes_leave fs A idx X va c Hf EX Hc) as (Hd & X0 & EX0 & Hc0).
  destruct (Hag idx X0 va c EX0 Hc0) as (Hva & q & Hq & Hle). split; [done|].
  destruct (Hch idx va Hlt Hva) as [Hp|Hx].
  - cbn [guest run_flushes]. rewrite Hq in Hp. destruct Hp as (q' & -> & Hqq). exists q'. split; [done|].
    by eapply prot_le_trans.
  - apply Exists_exists in Hx as (f & Hin & Hdf). rewrite Forall_forall in Hd. by destruct (Hd f Hin).
Qed.
End Machine.

Arguments machine _ : clear implicits.
Arguments access_result _ : clear implicits.

Section Runs.
Context {T : Target} {M : MemoryMap} {G : Type} {mmu : Mmu G}.

(** ** Runs

    The guest runs: instructions that change its translations with the flushes they make,
    accesses, and the dirty tracking of the memory core. *)
Inductive mstep : machine G -> machine G -> Prop :=
| step_guest s fs g : mmu_step (guest s) fs g -> mstep s (run_flushes fs s g)
| step_access s wps clean ty addr s' :
    unsigned 32 addr ->
    tlb_access wps clean ty addr s = Completed s' \/ tlb_access wps clean ty addr s = Raised s' -> mstep s s'
| step_reset_dirty s start len :
    mstep s (mk_machine (guest s) (tlb_reset_dirty start len (tlb s)))
| step_set_dirty s vaddr :
    unsigned 32 vaddr -> mstep s (mk_machine (guest s) (tlb_set_dirty vaddr (tlb s))).

Lemma mstep_coherent s s' : mstep s s' -> coherent s -> coherent s'.
Proof.
  intros [s0 fs g Hst|s0 wps clean ty addr s1 Ha Hac|s0 start len|s0 vaddr Hv] Hc.
  - by apply step_coherent.
  - pose proof (access_coherent wps clean s0 ty addr Hc Ha) as H.
    destruct Hac as [E|E]; rewrite E in H; [apply H|done].
  - destruct Hc as (Hi & A & Hr & Hg). split; [done|]. exists A. split; [|done].
    by apply tlb_reset_dirty_rel.
  - destruct Hc as (Hi & A & Hr & Hg). split; [done|]. exists A. split; [|done].
    by apply tlb_set_dirty_rel.
Qed.

Lemma run_coherent s s' : rtc mstep s s' -> coherent s -> coherent s'.
Proof. induction 1; eauto using mstep_coherent. Qed.

(** The reset: [tlb_init], then the flush. *)
Definition reset_machine (g : G) (t : cputlb) : machine G := mk_machine g (tlb_flush (tlb_init t)).

Lemma reset_coherent g t :
  mmu_inv g -> length (modes t) = NB_MMU_MODES -> Forall lengths_ok (modes t) ->
  coherent (reset_machine g t).
Proof.
  intros Hg Hl Hms. split; [done|]. exists (replicate NB_MMU_MODES ∅).
  split; [by apply init_flush_rel|]. intros idx X va c [-> _]%lookup_replicate. by rewrite lookup_empty.
Qed.
End Runs.

(** Two accesses that complete, one after the other. *)
Definition completed {G} (r : access_result G) : option (machine G) :=
  match r with Completed s => Some s | Raised _ => None end.

Lemma completed_test {G} (r : access_result G) (f : machine G -> access_result G) (t : machine G -> bool) :
  match completed r ≫= (fun s => completed (f s)) with Some s => t s | None => false end = true ->
  exists s s', r = Completed s /\ f s = Completed s' /\ t s' = true.
Proof.
  destruct r as [s|]; [|done]. cbn. destruct (f s) as [s'|] eqn:E; [|done]. intros Ht. by exists s, s'.
Qed.
