(* ===== verification/SoftMmu.v ===== *)
(** * Loads of the guest

    The slow path of a load of the guest ([accel/tcg/softmmu_template.h]): look the page up in
    the software TLB, fill it on a miss, and read the bytes from the memory of the host; an access
    that spans two pages is made of two aligned ones.  The fast path in generated code reads the
    same bytes when the lookup hits.

    Devices are the environment of a load: an access to a device stops the load, which goes on
    with the answer.  The theorem says that a load which meets none returns the bytes that the
    MMU model gives for its addresses, in the byte order of the access. *)

From S2P Require Import Prelude Bits CpuTlb CpuTlbProof Coherence.

(** ** Bytes of a word *)

Definition be_val (bs : bytes) : Z := le_val (rev bs).

Lemma le_val_app xs ys :
  bytes_ok xs -> le_val (xs ++ ys) = le_val xs + 2 ^ (8 * Z.of_nat (length xs)) * le_val ys.
Proof.
  unfold le_val. induction 1 as [|x xs Hx _ IH]; cbn [app little_endian_to_Z length]; [lia|].
  rewrite IH, !lor_shiftl_add, !Z.shiftl_mul_pow2 by (lia || exact Hx).
  replace (8 * Z.of_nat (S (length xs))) with (8 * Z.of_nat (length xs) + 8) by lia.
  rewrite Z.pow_add_r by lia. lia.
Qed.

Lemma le_val_bound xs : bytes_ok xs -> 0 <= le_val xs < 2 ^ (8 * Z.of_nat (length xs)).
Proof.
  intros H. rewrite (Z.mul_comm 8). apply little_endian_to_Z_bound; [lia|]. exact H.
Qed.

(** The end of a word before the start of the next one. *)
Lemma le_val_combine k n xs ys :
  (k <= n)%nat -> length xs = n -> length ys = n -> bytes_ok xs -> bytes_ok ys ->
  Z.lor (Z.shiftr (le_val xs) (8 * Z.of_nat k))
    (wrap (8 * Z.of_nat n) (Z.shiftl (le_val ys) (8 * Z.of_nat n - 8 * Z.of_nat k)))
  = le_val (drop k xs ++ take k ys).
Proof.
  intros Hk Hx Hy Hox Hoy.
  assert (Hb : forall zs, bytes_ok zs -> bytes_ok (take k zs) /\ bytes_ok (drop k zs))
    by (intros; by split; [apply Forall_take|apply Forall_drop]).
  destruct (Hb xs Hox) as [Hx1 Hx2]. destruct (Hb ys Hoy) as [Hy1 Hy2].
  assert (Lx1 : length (take k xs) = k) by (rewrite length_take; lia).
  assert (Lx2 : length (drop k xs) = (n - k)%nat) by (rewrite length_drop; lia).
  assert (Ly1 : length (take k ys) = k) by (rewrite length_take; lia).
  pose proof (le_val_bound _ Hx1) as Bx1. pose proof (le_val_bound _ Hx2) as Bx2.
  pose proof (le_val_bound _ Hy1) as By1. rewrite Lx1 in Bx1. rewrite Lx2 in Bx2. rewrite Ly1 in By1.
  rewrite <- (take_drop k xs) at 1. rewrite <- (take_drop k ys) at 1.
  rewrite !le_val_app, Lx1, Lx2, Ly1 by done.
  set (A := le_val (take k xs)) in *. set (B := le_val (drop k xs)) in *. set (C := le_val (take k ys)) in *.
  replace (8 * Z.of_nat n - 8 * Z.of_nat k) with (8 * Z.of_nat (n - k)) by lia.
  assert (Hn : 2 ^ (8 * Z.of_nat n) = 2 ^ (8 * Z.of_nat k) * 2 ^ (8 * Z.of_nat (n - k)))
    by (rewrite <- Z.pow_add_r by lia; f_equal; lia).
  rewrite Z.shiftr_div_pow2, Z.mul_comm, Z.div_add, (Z.div_small A), Z.add_0_l by lia.
  rewrite Z.shiftl_mul_pow2 by lia. unfold wrap.
  replace ((C + 2 ^ (8 * Z.of_nat k) * le_val (drop k ys)) * 2 ^ (8 * Z.of_nat (n - k)))
    with (C * 2 ^ (8 * Z.of_nat (n - k)) + le_val (drop k ys) * 2 ^ (8 * Z.of_nat n)) by (rewrite Hn; lia).
  rewrite Z.mod_add, Z.mod_small by (rewrite ?Hn; nia).
  rewrite <- Z.shiftl_mul_pow2, lor_shiftl_add, Z.shiftl_mul_pow2 by lia. lia.
Qed.

(** ** The helpers *)

(** The result of an access: a value, an exception of the guest, a device that is asked for
    [size] bytes and with whose answer the access goes on; or a call that is too deep for the fuel
    or reads outside of the tables. *)
Inductive ldst (G : Type) :=
| Value (v : Z) (s : machine G)
| Exception (s : machine G)
| Device (mmu_idx : nat) (addr : Z) (size : nat) (s : machine G) (k : Z -> machine G -> ldst G)
| Stuck.
Arguments Value {G} _ _.
Arguments Exception {G} _.
Arguments Device {G} _ _ _ _ _.
Arguments Stuck {G}.

Fixpoint and_then {G} (r : ldst G) (f : Z -> machine G -> ldst G) : ldst G :=
  match r with
  | Value v s => f v s
  | Exception s => Exception s
  | Device idx addr size s k => Device idx addr size s (fun v s => and_then (k v s) f)
  | Stuck => Stuck
  end.

Section SoftMmu.
Context {T : Target} {M : MemoryMap} {G : Type} {mmu : Mmu G}.
(** The byte at an address of the host, and what the target does for an access that is not aligned
    as it has to be. *)
Context (ram : G -> Z -> Z) (cpu_unaligned_access : Z -> machine G -> machine G).
Context (wps : list CPUWatchpoint) (clean : Z -> bool).
Open Scope c_scope.

Definition host_bytes (g : G) (h : Z) (n : nat) : bytes :=
  (fun i => u8 (ram g (u64 (h + Z.of_nat i)))) <$> seq 0 n.

Definition word (be : bool) (bs : bytes) : Z := if be then be_val bs else le_val bs.

(** [ldn_le_p], [ldn_be_p]. *)
Definition ldn_p (be : bool) (n : nat) (h : Z) (g : G) : Z := word be (host_bytes g h n).

Section load.
(** The byte order and the size of the access, its alignment and whether it is a load or a
    fetch. *)
Context (be : bool) (n : nat) (a_bits : Z) (ty : MMUAccessType).

Abbreviation size := (Z.of_nat n).

(** The parts of a load that spans two pages, put together. *)
Definition combine (addr res1 res2 : Z) : Z :=
  let shift := (addr .& (size - 1)) * 8 in
  if be then wrap (8 * size) (Z.shiftl res1 shift) .| Z.shiftr res2 (size * 8 - shift)
  else Z.shiftr res1 shift .| wrap (8 * size) (Z.shiftl res2 (size * 8 - shift)).

Fixpoint helper_ld (fuel : nat) (addr : Z) (s : machine G) : ldst G :=
  match fuel with
  | O => Stuck
  | S fuel =>
      if negb (addr .& (Z.shiftl 1 a_bits - 1) =? 0) then Exception (cpu_unaligned_access addr s)
      else
        let idx := mmu_idx (guest s) ty in
        match tlb_access wps clean ty addr s with
        | Raised s => Exception s
        | Completed s =>
            match modes (tlb s) !! idx with
            | None => Stuck
            | Some m =>
                let entry := tlb_entry m addr in
                let tlb_addr := elt ty entry in
                let do_unaligned_access :=
                  let addr1 := addr .& Z.lnot (size - 1) in
                  let addr2 := u32 (addr1 + size) in
                  and_then (helper_ld fuel addr1 s) (fun res1 s =>
                  and_then (helper_ld fuel addr2 s) (fun res2 s =>
                  Value (combine addr res1 res2) s)) in
                if negb (tlb_addr .& Z.lnot TARGET_PAGE_MASK =? 0) then
                  if negb (addr .& (size - 1) =? 0) then do_unaligned_access
                  else Device idx addr n s Value
                else if (1 <? size) && (TARGET_PAGE_SIZE <=? (addr .& Z.lnot TARGET_PAGE_MASK) + size - 1)
                then do_unaligned_access
                else Value (ldn_p be n (addr + addend entry) (guest s)) s
            end
        end
  end.

(** The depth of the calls is 2: an aligned access makes none. *)
Definition ld_name : Z -> machine G -> ldst G := helper_ld 2.

(** The result with its sign, in a word of the host. *)
Definition lds_name (addr : Z) (s : machine G) : ldst G :=
  and_then (ld_name addr s) (fun v s => Value (u64 (swrap (8 * size) v)) s).

(** ** The bytes of a load *)

(** The byte of an address in a mode: the MMU model gives its page and permits the access, the
    page is memory, and the byte is the one at the offset in the host's copy of the page. *)
Definition byte_at (s : machine G) (idx : nat) (a b : Z) : Prop :=
  exists q c, mmu_page (guest s) idx (a .& TARGET_PAGE_MASK) = Some (mp_paddr c, q)
    /\ bit_any q (prot_of ty) = true
    /\ is_ram (backing c).1 || is_romd (backing c).1 = true
    /\ b = u8 (ram (guest s) (u64 (host_page c + a mod TARGET_PAGE_SIZE))).

(** The load comes to an end, with a coherent TLB, if the devices leave it so. *)
Fixpoint good (r : ldst G) : Prop :=
  match r with
  | Value _ s => coherent s
  | Exception _ => True
  | Device _ _ _ _ k => forall v s, coherent s -> good (k v s)
  | Stuck => False
  end.

Lemma good_then r f : good r -> (forall v s, coherent s -> good (f v s)) -> good (and_then r f).
Proof. induction r as [v s|s|idx a sz s k IH|]; cbn; intros Hr Hf; auto. Qed.

Lemma then_value (r : ldst G) f v s :
  and_then r f = Value v s -> exists v1 s1, r = Value v1 s1 /\ f v1 s1 = Value v s.
Proof. destruct r as [v1 s1| | |]; cbn; try done. intros H. by exists v1, s1. Qed.

(** *** Addresses *)

Context (lg : Z) (Hlg : 0 <= lg <= 3) (Hn : size = 2 ^ lg).

Lemma page_size_pow : TARGET_PAGE_SIZE = 2 ^ TARGET_PAGE_BITS.
Proof. apply Z.shiftl_1_l. Qed.

Lemma page_offset a : a .& Z.lnot TARGET_PAGE_MASK = a mod TARGET_PAGE_SIZE.
Proof.
  pose proof page_bits_pos. unfold TARGET_PAGE_MASK. rewrite Z.lnot_involutive, page_size_pow.
  replace (2 ^ TARGET_PAGE_BITS - 1) with (Z.ones TARGET_PAGE_BITS) by (rewrite Z.ones_equiv; lia).
  apply Z.land_ones. lia.
Qed.

Lemma page_split a : a = a .& TARGET_PAGE_MASK + a mod TARGET_PAGE_SIZE.
Proof.
  pose proof page_bits_pos. rewrite page_mask_ones, <- Z.ldiff_land, Z.ldiff_ones_r, page_size_pow by lia.
  rewrite Z.shiftl_mul_pow2, Z.shiftr_div_pow2 by lia. rewrite (Z.div_mod a (2 ^ TARGET_PAGE_BITS)) at 1; lia.
Qed.

Lemma align_offset a : a .& (size - 1) = a mod size.
Proof.
  rewrite Hn. replace (2 ^ lg - 1) with (Z.ones lg) by (rewrite Z.ones_equiv; lia). apply Z.land_ones; lia.
Qed.

Lemma align_down a : a .& Z.lnot (size - 1) = a - a mod size.
Proof.
  rewrite Hn. replace (2 ^ lg - 1) with (Z.ones lg) by (rewrite Z.ones_equiv; lia).
  rewrite <- Z.ldiff_land, Z.ldiff_ones_r, Z.shiftl_mul_pow2, Z.shiftr_div_pow2 by lia.
  rewrite (Z.div_mod a (2 ^ lg)) at 2; lia.
Qed.

Lemma page_sizes : exists k, TARGET_PAGE_SIZE = k * size /\ 0 < k.
Proof.
  pose proof page_bits_pos. exists (2 ^ (TARGET_PAGE_BITS - lg)). split; [|lia].
  rewrite Hn, page_size_pow, <- Z.pow_add_r by lia. f_equal. lia.
Qed.

(** An aligned access stays in its page. *)
Lemma aligned_in_page a : a mod size = 0 -> a mod TARGET_PAGE_SIZE + size <= TARGET_PAGE_SIZE.
Proof.
  intros Ha. destruct page_sizes as (k & -> & Hk). assert (0 < size) by (rewrite Hn; lia).
  rewrite (Z.mul_comm k), Z.rem_mul_r, Ha by lia. pose proof (Z.mod_pos_bound (a / size) k). nia.
Qed.

Lemma page_below a i :
  unsigned 32 a -> 0 <= i -> a mod TARGET_PAGE_SIZE + i < TARGET_PAGE_SIZE ->
  unsigned 32 (a + i) /\ (a + i) .& TARGET_PAGE_MASK = a .& TARGET_PAGE_MASK
  /\ (a + i) mod TARGET_PAGE_SIZE = a mod TARGET_PAGE_SIZE + i.
Proof.
  pose proof page_bits_pos as Hb. intros Ha Hi Hlt. pose proof page_size_pow as Hp.
  assert (Hm : (a + i) mod TARGET_PAGE_SIZE = a mod TARGET_PAGE_SIZE + i).
  { rewrite <- (Zplus_mod_idemp_l a). apply Z.mod_small. pose proof (Z.mod_pos_bound a TARGET_PAGE_SIZE). lia. }
  pose proof (page_split a). pose proof (page_split (a + i)) as Hs.
  assert (Hd : (a + i) / TARGET_PAGE_SIZE = a / TARGET_PAGE_SIZE).
  { pose proof (Z.div_mod a TARGET_PAGE_SIZE). pose proof (Z.div_mod (a + i) TARGET_PAGE_SIZE). nia. }
  assert (Hmask : forall x, x .& TARGET_PAGE_MASK = x / TARGET_PAGE_SIZE * TARGET_PAGE_SIZE).
  { intros x. pose proof (page_split x). pose proof (Z.div_mod x TARGET_PAGE_SIZE). lia. }
  split_and!; [|by rewrite !Hmask, Hd|done].
  assert (a / TARGET_PAGE_SIZE < 2 ^ 32 / TARGET_PAGE_SIZE).
  { apply Z.div_lt_upper_bound; [lia|]. rewrite Hp. rewrite <- Z.divide_div_mul_exact; [|lia|].
    - rewrite Z.mul_comm, Z.div_mul by lia. apply Ha.
    - exists (2 ^ (32 - TARGET_PAGE_BITS)). rewrite <- Z.pow_add_r by lia. f_equal. lia. }
  assert (2 ^ 32 = 2 ^ 32 / TARGET_PAGE_SIZE * TARGET_PAGE_SIZE).
  { rewrite Hp. rewrite Z.mul_comm. rewrite <- Z.divide_div_mul_exact; [|lia|].
    - by rewrite Z.mul_comm, Z.div_mul by lia.
    - exists (2 ^ (32 - TARGET_PAGE_BITS)). rewrite <- Z.pow_add_r by lia. f_equal. lia. }
  unfold unsigned in *. rewrite Hmask in *. nia.
Qed.

(** *** One page *)

Lemma host_bytes_ok g h : bytes_ok (host_bytes g h n) /\ length (host_bytes g h n) = n.
Proof.
  unfold host_bytes. rewrite length_fmap, length_seq. split; [|done].
  apply Forall_fmap, Forall_true. intros i. apply wrap_range. lia.
Qed.

(** A lookup that completes, and what it finds. *)
Lemma access_entry s addr s' :
  coherent s -> unsigned 32 addr -> tlb_access wps clean ty addr s = Completed s' ->
  coherent s' /\ rtc mstep s s' /\ mmu_idx (guest s') ty = mmu_idx (guest s) ty
  /\ exists m q c, modes (tlb s') !! mmu_idx (guest s) ty = Some m
     /\ entered (addr .& TARGET_PAGE_MASK) c (tlb_entry m addr) (iotlb m !!! slot addr)
     /\ mmu_page (guest s') (mmu_idx (guest s) ty) (addr .& TARGET_PAGE_MASK) = Some (mp_paddr c, q)
     /\ bit_any q (prot_of ty) = true.
Proof.
  intros Hc Ha Hacc. pose proof (access_coherent wps clean s ty addr Hc Ha) as H. rewrite Hacc in H.
  destruct H as (Hc' & Hi & p & q & Hpg & Hq & m & c & Em & Hen & <- & _).
  split_and!; [done| |done|by exists m, q, c].
  apply rtc_once. by apply (step_access s wps clean ty addr); [|left].
Qed.

(** The bytes that are read from one page. *)
Lemma page_bytes s idx addr q c te io i b :
  unsigned 32 addr -> addr mod TARGET_PAGE_SIZE + size <= TARGET_PAGE_SIZE ->
  entered (addr .& TARGET_PAGE_MASK) c te io -> elt ty te .& Z.lnot TARGET_PAGE_MASK = 0 ->
  mmu_page (guest s) idx (addr .& TARGET_PAGE_MASK) = Some (mp_paddr c, q) ->
  bit_any q (prot_of ty) = true ->
  host_bytes (guest s) (addr + addend te) n !! i = Some b -> byte_at s idx (addr + Z.of_nat i) b.
Proof.
  intros Ha Hlt Hen Hf Hpg Hq Hb. unfold host_bytes in Hb.
  apply list_lookup_fmap_Some in Hb as (j & -> & [-> Hj]%lookup_seq). cbn [Nat.add].
  destruct (page_below addr (Z.of_nat i)) as (Hu & Hm & Hoff); [done|lia|lia|].
  destruct (entered_address _ c te io ty (addr + Z.of_nat i) Hu (eq_sym Hm) Hen Hf) as [Hram Hadr].
  exists q, c. rewrite Hm. split_and!; [done..|].
  rewrite <- Hadr. do 3 f_equal. lia.
Qed.

Lemma ld_aligned fuel addr s :
  coherent s -> unsigned 32 addr -> addr mod size = 0 ->
  good (helper_ld (S fuel) addr s)
  /\ forall v s', helper_ld (S fuel) addr s = Value v s' ->
     rtc mstep s s' /\ mmu_idx (guest s') ty = mmu_idx (guest s) ty
     /\ exists bs, length bs = n /\ bytes_ok bs /\ v = word be bs
        /\ forall i b, bs !! i = Some b -> byte_at s' (mmu_idx (guest s) ty) (addr + Z.of_nat i) b.
Proof.
  intros Hc Ha Hal. cbn [helper_ld]. case_match; [by split|].
  destruct (tlb_access wps clean ty addr s) as [s1|s1] eqn:Hacc; [|by split].
  destruct (access_entry s addr s1 Hc Ha Hacc) as (Hc1 & Hr & Hi & m & q & c & Em & Hen & Hpg & Hq).
  rewrite Em, align_offset, Hal, (page_offset addr). cbn [Z.eqb negb].
  pose proof (aligned_in_page addr Hal) as Hlt.
  rewrite (proj2 (Z.leb_gt TARGET_PAGE_SIZE (addr mod TARGET_PAGE_SIZE + size - 1))), andb_false_r by lia.
  destruct (Z.eqb_spec (elt ty (tlb_entry m addr) .& Z.lnot TARGET_PAGE_MASK) 0) as [Hf|]; cbn [negb].
  - split; [done|]. intros v s' [= <- <-]. split; [done|]. split; [done|].
    eexists. destruct (host_bytes_ok (guest s1) (addr + addend (tlb_entry m addr))) as [Hok Hlen].
    split; [exact Hlen|]. split; [exact Hok|]. split; [done|]. intros i b Hb.
    by eapply page_bytes.
  - split; [|done]. intros v s' Hs'. done.
Qed.

(** The bytes of a load: those of the first page as the machine is when they are read, then the
    others. *)
Definition loaded (s s1 s' : machine G) (addr v : Z) : Prop :=
  exists bs k, length bs = n /\ v = word be bs
    /\ forall i b, bs !! i = Some b ->
       byte_at (if (i <? k)%nat then s1 else s') (mmu_idx (guest s) ty) (addr + Z.of_nat i) b.

Lemma word_combine xs ys d addr :
  length xs = n -> length ys = n -> bytes_ok xs -> bytes_ok ys -> addr mod size = Z.of_nat d ->
  combine addr (word be xs) (word be ys) = word be (drop d xs ++ take d ys).
Proof.
  intros Hx Hy Hox Hoy Hd. unfold combine. rewrite align_offset, Hd.
  assert (Hdn : (d <= n)%nat) by (pose proof (Z.mod_pos_bound addr size); lia).
  unfold word. destruct be.
  - unfold be_val. rewrite Z.lor_comm.
    replace (size * 8 - Z.of_nat d * 8) with (8 * Z.of_nat (n - d)) by lia.
    replace (Z.of_nat d * 8) with (8 * size - 8 * Z.of_nat (n - d)) by lia.
    rewrite (le_val_combine (n - d) n (rev ys) (rev xs));
      [|lia|by rewrite length_rev|by rewrite length_rev|by apply Forall_rev..].
    f_equal. rewrite rev_app_distr. f_equal.
    + rewrite skipn_rev, Hy. do 2 f_equal. lia.
    + rewrite firstn_rev, Hx. do 2 f_equal. lia.
  - rewrite (Z.mul_comm (Z.of_nat d)), (Z.mul_comm size). by apply le_val_combine.
Qed.

(** *** Two pages *)

Abbreviation two_loads fuel addr s0 :=
  (and_then (helper_ld fuel (addr .& Z.lnot (size - 1)) s0) (fun res1 s1 =>
   and_then (helper_ld fuel (u32 (addr .& Z.lnot (size - 1) + size)) s1) (fun res2 s2 =>
   Value (combine addr res1 res2) s2))).

(** The two aligned words around an address that is not aligned. *)
Lemma around addr :
  unsigned 32 addr -> addr + size <= 2 ^ 32 -> addr mod size <> 0 ->
  let addr1 := addr - addr mod size in
  addr .& Z.lnot (size - 1) = addr1 /\ u32 (addr1 + size) = addr1 + size
  /\ unsigned 32 addr1 /\ unsigned 32 (addr1 + size)
  /\ addr1 mod size = 0 /\ (addr1 + size) mod size = 0.
Proof.
  intros Ha Hw Hd addr1. assert (Hs : 0 < size) by (rewrite Hn; lia).
  pose proof (Z.mod_pos_bound addr size Hs). pose proof (Z.div_mod addr size).
  assert (E : addr1 = addr / size * size) by lia. assert (0 <= addr / size) by (apply Z.div_pos; [apply Ha|lia]).
  assert (unsigned 32 addr1) by (unfold unsigned in *; nia).
  assert (unsigned 32 (addr1 + size)) by (unfold unsigned in *; nia).
  split_and!; [apply align_down|by apply wrap_small|done|done|by rewrite E, Z.mod_mul by lia|].
  replace (addr1 + size) with ((addr / size + 1) * size) by lia. by rewrite Z.mod_mul by lia.
Qed.

Lemma ld_unaligned fuel addr s0 :
  coherent s0 -> unsigned 32 addr -> addr + size <= 2 ^ 32 -> addr mod size <> 0 ->
  good (two_loads (S fuel) addr s0)
  /\ forall v s', two_loads (S fuel) addr s0 = Value v s' ->
     exists s1, rtc mstep s0 s1 /\ rtc mstep s1 s' /\ loaded s0 s1 s' addr v.
Proof.
  intros Hc Ha Hw Hd. destruct (around addr Ha Hw Hd) as (-> & -> & Ha1 & Ha2 & Hal1 & Hal2).
  set (addr1 := addr - addr mod size) in *.
  destruct (ld_aligned fuel addr1 s0 Hc Ha1 Hal1) as [Hg Hv]. split.
  - apply good_then; [done|]. intros res1 s1 Hc1. apply good_then; [by apply ld_aligned|]. by intros.
  - intros v s' (res1 & s1 & E1 & (res2 & s2 & E2 & [= <- <-])%then_value)%then_value.
    destruct (Hv _ _ E1) as (Hr1 & Hi1 & xs & Lx & Ox & -> & Hx).
    assert (Hc1 : coherent s1) by (by rewrite E1 in Hg).
    destruct (ld_aligned fuel (addr1 + size) s1 Hc1 Ha2 Hal2) as [_ Hv2].
    destruct (Hv2 _ _ E2) as (Hr2 & _ & ys & Ly & Oy & -> & Hy). rewrite Hi1 in Hy.
    exists s1. split_and!; [done..|]. set (d := Z.to_nat (addr mod size)).
    assert (Hs : 0 < size) by (rewrite Hn; lia). pose proof (Z.mod_pos_bound addr size Hs) as Hdb.
    exists (drop d xs ++ take d ys), (n - d)%nat. split_and!.
    + rewrite length_app, length_drop, length_take. lia.
    + apply word_combine; [done..|]. lia.
    + intros i b Hb. destruct (Nat.ltb_spec i (n - d)) as [Hlt|Hge].
      * rewrite lookup_app_l, lookup_drop in Hb by (rewrite length_drop; lia).
        replace (addr + Z.of_nat i) with (addr1 + Z.of_nat (d + i)) by lia. by apply Hx.
      * rewrite lookup_app_r, length_drop, Lx in Hb by (rewrite length_drop; lia).
        apply lookup_take_Some in Hb as [Hb _].
        replace (addr + Z.of_nat i) with (addr1 + size + Z.of_nat (i - (n - d))) by lia. by apply Hy.
Qed.

Lemma ld_run addr s :
  coherent s -> unsigned 32 addr -> addr + size <= 2 ^ 32 ->
  good (ld_name addr s)
  /\ forall v s', ld_name addr s = Value v s' ->
     exists s1, rtc mstep s s1 /\ rtc mstep s1 s' /\ loaded s s1 s' addr v.
Proof.
  unfold ld_name. intros Hc Ha Hw. destruct (Z.eq_dec (addr mod size) 0) as [Hal|Hal].
  { destruct (ld_aligned 1 addr s Hc Ha Hal) as [Hg Hv]. split; [exact Hg|]. intros v s' E.
    destruct (Hv v s' E) as (Hr & _ & bs & Hl & _ & -> & Hb). exists s'. split_and!; [done..|].
    exists bs, 0%nat. split_and!; [done..|]. intros i b Hi. by apply Hb. }
  assert (Hun : forall s0, coherent s0 -> mmu_idx (guest s0) ty = mmu_idx (guest s) ty -> rtc mstep s s0 ->
    good (two_loads 1 addr s0)
    /\ forall v s', two_loads 1 addr s0 = Value v s' ->
       exists s1, rtc mstep s s1 /\ rtc mstep s1 s' /\ loaded s s1 s' addr v).
  { intros s0 Hc0 Hi Hr. destruct (ld_unaligned 0 addr s0 Hc0 Ha Hw Hal) as [Hg Hv]. split; [done|].
    intros v s' E. destruct (Hv v s' E) as (s1 & H1 & H2 & H3). exists s1. split; [by etrans|]. split; [done|].
    unfold loaded in *. by rewrite Hi in H3. }
  revert Hun. generalize 1%nat. intros fuel Hun. cbn [helper_ld]. case_match; [by split|].
  destruct (tlb_access wps clean ty addr s) as [s1|s1] eqn:Hacc; [|by split].
  destruct (access_entry s addr s1 Hc Ha Hacc) as (Hc1 & Hr & Hi & m & q & c & Em & Hen & Hpg & Hq).
  rewrite Em, align_offset, (proj2 (Z.eqb_neq _ _) Hal), (page_offset addr). cbn [negb].
  destruct (Z.eqb_spec (elt ty (tlb_entry m addr) .& Z.lnot TARGET_PAGE_MASK) 0) as [Hf|];
    cbn [negb]; [|by apply Hun].
  destruct ((1 <? size) && _) eqn:Hx; [by apply Hun|].
  split; [done|]. intros v s' [= <- <-]. exists s1. split_and!; [done..|].
  destruct (host_bytes_ok (guest s1) (addr + addend (tlb_entry m addr))) as [_ Hlen].
  eexists _, 0%nat. split; [exact Hlen|]. split; [done|]. intros i b Hb. eapply page_bytes; try done.
  assert (Hs : 1 < size).
  { assert (size <> 1); [|rewrite Hn in *; lia]. intros E. by rewrite E, Z.mod_1_r in Hal. }
  rewrite (proj2 (Z.ltb_lt _ _) Hs) in Hx. apply Z.leb_gt in Hx. lia.
Qed.
End load.

Definition helper_le_ld_name := ld_name false.
Definition helper_be_ld_name := ld_name true.
Definition helper_le_lds_name := lds_name false.
Definition helper_be_lds_name := lds_name true.

(** C23: the loads of the guest read what its MMU says.  From the reset through any run, a load or
    fetch of 1, 2, 4 or 8 bytes comes to an end: two levels of calls are enough.  If it asks no
    device and returns a value, the value is made, in the byte order of the access, of the bytes at
    its addresses: for each of them the MMU model gives the page and permits the access, and
    the byte is the one at that offset of the memory of the host that backs the page.  The bytes of
    a load that spans two pages are read one page after the other. *)
Theorem softmmu_load_bytes (be : bool) n lg a_bits ty addr g0 t0 s :
  0 <= lg <= 3 -> Z.of_nat n = 2 ^ lg ->
  mmu_inv g0 -> length (modes t0) = NB_MMU_MODES -> Forall lengths_ok (modes t0) ->
  rtc mstep (reset_machine g0 t0) s -> unsigned 32 addr -> addr + Z.of_nat n <= 2 ^ 32 ->
  let load := if be then helper_be_ld_name else helper_le_ld_name in
  good (load n a_bits ty addr s)
  /\ forall v s', load n a_bits ty addr s = Value v s' ->
     exists s1, rtc mstep s s1 /\ rtc mstep s1 s' /\ loaded be n ty s s1 s' addr v.
Proof.
  intros Hlg Hn Hg Hl Hls Hrun Ha Hw load.
  pose proof (run_coherent _ _ Hrun (reset_coherent g0 t0 Hg Hl Hls)) as Hc.
  subst load. destruct be; by apply (ld_run _ _ _ _ lg).
Qed.
End SoftMmu.

(** ** A load of two pages

    A guest without translation, whose memory is that of the host from an address on. *)

#[local, program] Instance flat_target : Target := {| TARGET_PAGE_BITS := 12; NB_MMU_MODES := 1 |}.
Solve Obligations with lia.
#[local] Existing Instance ram_map.

#[local, program] Instance flat_mmu : Mmu (Z -> Z) := {|
  mmu_inv _ := True;
  mmu_page _ _ va := Some (va, 0x7);
  mmu_idx _ _ := 0%nat;
  mmu_fill g _ a := Filled a 0 0x7 0x1000 g;
  mmu_step _ _ _ := False
|}.
Next Obligation. intros. cbn. lia. Qed.
Next Obligation.
  intros g ty a paddr attrs prot size g' _ _ [= <- <- <- <- <-]. split_and!; try done.
  - by left.
  - intros idx va _ _. by exists 0x7.
  - by destruct ty.
  - by exists 0x7.
Qed.
Next Obligation. done. Qed.
Next Obligation. done. Qed.

Abbreviation flat_start := (reset_machine (fun h : Z => h mod 251) (blank_tlb 1)).
Abbreviation flat_load := (helper_le_ld_name (fun (g : Z -> Z) h => g h) (fun _ s => s) [] (fun _ => false)
  4 0 MMU_DATA_LOAD 0x1FFE).

Lemma flat_lengths : Forall lengths_ok (modes (blank_tlb 1)).
Proof. apply Forall_replicate. split_and!; reflexivity. Qed.

Lemma flat_value : exists v s', flat_load flat_start = Value v s'.
Proof.
  assert (H : match flat_load flat_start with Value _ _ => true | _ => false end = true) by (vm_compute; reflexivity).
  destruct (flat_load flat_start) as [v s'| | |]; try done. by exists v, s'.
Qed.

Lemma softmmu_load_bytes_witness :
  exists v s1 s', flat_load flat_start = Value v s' /\ rtc mstep s1 s'
    /\ loaded (fun (g : Z -> Z) h => g h) false 4 MMU_DATA_LOAD flat_start s1 s' 0x1FFE v.
Proof.
  assert (Ha : unsigned 32 0x1FFE) by done.
  assert (Hg : mmu_inv (fun h : Z => h mod 251)) by exact I.
  destruct flat_value as (v & s' & Hv).
  destruct (softmmu_load_bytes (fun (g : Z -> Z) h => g h) (fun _ s => s) [] (fun _ => false) false 4 2 0
    MMU_DATA_LOAD 0x1FFE (fun h => h mod 251) (blank_tlb 1) flat_start ltac:(lia) eq_refl Hg eq_refl flat_lengths
    (rtc_refl _ _) Ha ltac:(lia)) as [_ H].
  destruct (H v s' Hv) as (s1 & _ & Hr & Hld). exists v, s1, s'. split; [exact Hv|]. split; [exact Hr|exact Hld].
Defined.
