(* ===== verification/PpcFault.v ===== *)
(** * The PowerPC fill of QEMU's TLB

    [tlb_fill] and [cpu_ppc_handle_mmu_fault] of [target/ppc/mmu_helper.c]: a guest access that
    misses QEMU's own TLB asks the MMU model, and enters the page or raises an exception, with the
    registers that the guest's handler reads.  [hreg_compute_mem_idx] ([helper_regs.h]) selects
    the mode of the TLB.

    The state is that of [PpcTlb]: the processor, the next victim and the flushes. *)

From S2P Require Import Prelude Bits PpcMmu Ppc PpcTlb.

(** ** Registers and exceptions *)

Definition SPR_DSISR := 0x012.
Definition SPR_DAR := 0x013.
Definition SPR_SDR1 := 0x019.
Definition SPR_BOOKE_DEAR := 0x03D.
Definition SPR_BOOKE_ESR := 0x03E.
Definition SPR_DMISS := 0x3D0.
Definition SPR_DCMP := 0x3D1.
Definition SPR_HASH1 := 0x3D2.
Definition SPR_HASH2 := 0x3D3.
Definition SPR_TLBMISS := 0x3D4.
Definition SPR_IMISS := 0x3D4.
Definition SPR_PTEHI := 0x3D5.
Definition SPR_ICMP := 0x3D5.
Definition SPR_40x_DEAR := 0x3D5.

Definition POWERPC_EXCP_DSI := 2.
Definition POWERPC_EXCP_ISI := 3.
Definition POWERPC_EXCP_ALIGN := 5.
Definition POWERPC_EXCP_PROGRAM := 6.
Definition POWERPC_EXCP_DTLB := 13.
Definition POWERPC_EXCP_ITLB := 14.
Definition POWERPC_EXCP_IFTLB := 78.
Definition POWERPC_EXCP_DLTLB := 79.
Definition POWERPC_EXCP_DSTLB := 80.
Definition POWERPC_EXCP_ALIGN_FP := 1.
Definition POWERPC_EXCP_INVAL := 0x20.
Definition POWERPC_EXCP_INVAL_INVAL := 1.

Definition ESR_ST := 0x00800000.
Definition ESR_EPID := 0x40.
Definition MAS4_TIDSELD_PIDZ := 0x00030000.
Definition MAS4_TIDSELD_PID0 := 0x00000000.
Definition MAS4_TIDSELD_PID1 := 0x00010000.
Definition MAS4_TIDSELD_PID2 := 0x00020000.

(** ** The mode of an access *)

(** The models of the BookE family: [env->mmu_model & POWERPC_MMU_BOOKE], 8 for BookE, 9 for
    BookE 2.06 and 10 for the 601. *)
Definition is_booke (m : powerpc_mmu_t) : bool :=
  match m with
  | POWERPC_MMU_BOOKE | POWERPC_MMU_BOOKE206 | POWERPC_MMU_601 => true
  | _ => false
  end.

(** [hreg_compute_mem_idx]: the modes of instructions and of data.  The 32-bit target has no
    hypervisor bit. *)
Definition hreg_compute_mem_idx (env : CPUPPCState) : Z * Z :=
  let flag b v := if negb (b =? 0) then v else 0 in
  let base := if negb (msr_pr env =? 0) then 0 else 1 in
  if is_booke (mmu_model env) then
    (base + flag (msr_ir env) 2 + flag (msr_gs env) 4, base + flag (msr_ds env) 2 + flag (msr_gs env) 4)
  else
    (base + (if negb (msr_ir env =? 0) then 0 else 2), base + (if negb (msr_dr env =? 0) then 0 else 2)).

Definition cpu_mmu_index (env : CPUPPCState) (ifetch : bool) : Z :=
  if ifetch then (hreg_compute_mem_idx env).1 else (hreg_compute_mem_idx env).2.

(** ** The registers of a miss *)

Definition mmubooke206_esr (mmu_idx : Z) (rw : bool) : Z :=
  ((if rw then ESR_ST else 0) .| (if is_epid_mmu mmu_idx then ESR_EPID else 0))%c.

(** [env->spr[n] |= v]. *)
Definition or_spr32 (n v : Z) : T () :=
  env ← gets t_env; set_spr32 n (Z.lor (spr env n) v).

Definition booke206_update_mas_tlb_miss (address rw mmu_idx : Z) : T () :=
  env ← gets t_env;
  let '(epid, as_, pr) := mmubooke206_get_as env mmu_idx in
  let as_ := if rw =? 2 then negb (msr_ir env =? 0) else as_ in
  let mas4 := spr env SPR_BOOKE_MAS4 in
  set_spr32 SPR_BOOKE_MAS0 (Z.land mas4 MAS0_TLBSEL_MASK);;
  set_spr32 SPR_BOOKE_MAS1 (Z.land mas4 MAS1_TSIZE_MASK);;
  set_spr32 SPR_BOOKE_MAS2 (Z.land mas4 MAS4_WIMGED_MASK);;
  set_spr32 SPR_BOOKE_MAS3 0;;
  set_spr32 SPR_BOOKE_MAS6 0;;
  set_spr32 SPR_BOOKE_MAS7 0;;
  when as_ (or_spr32 SPR_BOOKE_MAS1 MAS1_TS;; or_spr32 SPR_BOOKE_MAS6 MAS6_SAS);;
  or_spr32 SPR_BOOKE_MAS1 MAS1_VALID;;
  or_spr32 SPR_BOOKE_MAS2 (Z.land address MAS2_EPN_MASK);;
  missed_tid ←
    (match epid with
     | None =>
         let sel := Z.land mas4 MAS4_TIDSELD_PIDZ in
         or_spr32 SPR_BOOKE_MAS6 (Z.shiftl (spr env SPR_BOOKE_PID) 16);;
         mret (if sel =? MAS4_TIDSELD_PID0 then u32 (spr env SPR_BOOKE_PID)
               else if sel =? MAS4_TIDSELD_PID1 then u32 (spr env SPR_BOOKE_PID1)
               else if sel =? MAS4_TIDSELD_PID2 then u32 (spr env SPR_BOOKE_PID2)
               else 0)
     | Some epid => or_spr32 SPR_BOOKE_MAS6 (u32 (Z.shiftl epid 16));; mret epid
     end);
  or_spr32 SPR_BOOKE_MAS1 (u32 (Z.shiftl missed_tid MAS1_TID_SHIFT));;
  lw ← gets last_way;
  or_spr32 SPR_BOOKE_MAS0 (Z.shiftl lw MAS0_ESEL_SHIFT);;
  let next := Z.land (lw + 1) (booke206_tlb_ways env 0 - 1) in
  set_last_way next;;
  or_spr32 SPR_BOOKE_MAS0 (Z.shiftl next MAS0_NV_SHIFT).

(** ** The handler *)

(** An exception and its error code; [None] is that of the last fault, which a path that sets
    neither leaves in place. *)
Abbreviation excp_t := (option (Z * Z)).

(** The page entered with [tlb_set_page], or the exception raised. *)
Inductive fault_result :=
  | FaultMapped (vaddr paddr prot : Z)
  | FaultRaised (excp : excp_t).

Definition ppc_hash32_hpt_base (env : CPUPPCState) : Z := Z.land (spr env SPR_SDR1) 0xFFFF0000.
Definition get_pteg_offset32 (env : CPUPPCState) (hash : Z) : Z :=
  Z.land (u64 (hash * 64)) (Z.lor (Z.shiftl (Z.land (spr env SPR_SDR1) 0x1FF) 16) 0xFFFF).

(** The label [tlb_miss]. *)
Definition tlb_miss_6xx (ctx : mmu_ctx_t) (excp error_code : Z) : T excp_t :=
  env ← gets t_env;
  set_spr32 SPR_HASH1 (ppc_hash32_hpt_base env + get_pteg_offset32 env (hash0 ctx));;
  set_spr32 SPR_HASH2 (ppc_hash32_hpt_base env + get_pteg_offset32 env (hash1 ctx));;
  mret (Some (excp, Z.lor error_code (Z.shiftl (key ctx) 19))).

(** The label [tlb_miss_74xx]. *)
Definition tlb_miss_74xx (ctx : mmu_ctx_t) (address excp : Z) : T excp_t :=
  env ← gets t_env;
  lw ← gets last_way;
  set_spr32 SPR_TLBMISS
    (Z.lor (Z.land address (u32 (Z.lnot 3))) (Z.land (lw + 1) (Z.of_nat (nb_ways env) - 1)));;
  set_spr32 SPR_PTEHI (Z.lor 0x80000000 (ptem ctx));;
  mret (Some (excp, Z.shiftl (key ctx) 19)).

Definition fault_code (ctx : mmu_ctx_t) (ret address mmu_idx : Z) : T excp_t :=
  env ← gets t_env;
  if ret =? -1 then
    match mmu_model env with
    | POWERPC_MMU_SOFT_6xx =>
        set_spr32 SPR_IMISS address;;
        set_spr32 SPR_ICMP (Z.lor 0x80000000 (ptem ctx));;
        tlb_miss_6xx ctx POWERPC_EXCP_IFTLB (Z.shiftl 1 18)
    | POWERPC_MMU_SOFT_74xx => tlb_miss_74xx ctx address POWERPC_EXCP_IFTLB
    | POWERPC_MMU_SOFT_4xx | POWERPC_MMU_SOFT_4xx_Z =>
        set_spr32 SPR_40x_DEAR address;;
        set_spr32 SPR_40x_ESR 0;;
        mret (Some (POWERPC_EXCP_ITLB, 0))
    | POWERPC_MMU_BOOKE206 =>
        booke206_update_mas_tlb_miss address 2 mmu_idx;;
        set_spr32 SPR_BOOKE_DEAR address;;
        set_spr32 SPR_BOOKE_ESR (mmubooke206_esr mmu_idx false);;
        mret (Some (POWERPC_EXCP_ITLB, 0))
    | POWERPC_MMU_BOOKE =>
        set_spr32 SPR_BOOKE_DEAR address;;
        set_spr32 SPR_BOOKE_ESR (mmubooke206_esr mmu_idx false);;
        mret (Some (POWERPC_EXCP_ITLB, 0))
    | _ => exit_ 134
    end
  else if ret =? -2 then mret (Some (POWERPC_EXCP_ISI, 0x08000000))
  else if ret =? -3 then
    when (match mmu_model env with POWERPC_MMU_BOOKE | POWERPC_MMU_BOOKE206 => true | _ => false end)
      (set_spr32 SPR_BOOKE_ESR 0);;
    mret (Some (POWERPC_EXCP_ISI, 0x10000000))
  else if ret =? -4 then mret (Some (POWERPC_EXCP_ISI, 0x10000000))
  else mret None.

Definition fault_data (ctx : mmu_ctx_t) (ret address rw access_type mmu_idx : Z) : T excp_t :=
  env ← gets t_env;
  if ret =? -1 then
    match mmu_model env with
    | POWERPC_MMU_SOFT_6xx =>
        set_spr32 SPR_DMISS address;;
        set_spr32 SPR_DCMP (Z.lor 0x80000000 (ptem ctx));;
        if rw =? 1 then tlb_miss_6xx ctx POWERPC_EXCP_DSTLB (Z.shiftl 1 16)
        else tlb_miss_6xx ctx POWERPC_EXCP_DLTLB 0
    | POWERPC_MMU_SOFT_74xx =>
        tlb_miss_74xx ctx address (if rw =? 1 then POWERPC_EXCP_DSTLB else POWERPC_EXCP_DLTLB)
    | POWERPC_MMU_SOFT_4xx | POWERPC_MMU_SOFT_4xx_Z =>
        set_spr32 SPR_40x_DEAR address;;
        set_spr32 SPR_40x_ESR (if negb (rw =? 0) then 0x00800000 else 0);;
        mret (Some (POWERPC_EXCP_DTLB, 0))
    | POWERPC_MMU_BOOKE206 =>
        booke206_update_mas_tlb_miss address rw mmu_idx;;
        set_spr32 SPR_BOOKE_DEAR address;;
        set_spr32 SPR_BOOKE_ESR (mmubooke206_esr mmu_idx (negb (rw =? 0)));;
        mret (Some (POWERPC_EXCP_DTLB, 0))
    | POWERPC_MMU_BOOKE =>
        set_spr32 SPR_BOOKE_DEAR address;;
        set_spr32 SPR_BOOKE_ESR (mmubooke206_esr mmu_idx (negb (rw =? 0)));;
        mret (Some (POWERPC_EXCP_DTLB, 0))
    | _ => exit_ 134
    end
  else if ret =? -2 then
    (match mmu_model env with
     | POWERPC_MMU_SOFT_4xx | POWERPC_MMU_SOFT_4xx_Z =>
         set_spr32 SPR_40x_DEAR address;;
         when (negb (rw =? 0)) (or_spr32 SPR_40x_ESR 0x00800000)
     | POWERPC_MMU_BOOKE | POWERPC_MMU_BOOKE206 =>
         set_spr32 SPR_BOOKE_DEAR address;;
         set_spr32 SPR_BOOKE_ESR (mmubooke206_esr mmu_idx (negb (rw =? 0)))
     | _ =>
         set_spr32 SPR_DAR address;;
         set_spr32 SPR_DSISR (if rw =? 1 then 0x0A000000 else 0x08000000)
     end);;
    mret (Some (POWERPC_EXCP_DSI, 0))
  else if ret =? -4 then
    set_spr32 SPR_DAR address;;
    if access_type =? ACCESS_FLOAT then mret (Some (POWERPC_EXCP_ALIGN, POWERPC_EXCP_ALIGN_FP))
    else if access_type =? ACCESS_RES then
      set_spr32 SPR_DSISR (if rw =? 1 then 0x06000000 else 0x04000000);;
      mret (Some (POWERPC_EXCP_DSI, 0))
    else if access_type =? ACCESS_EXT then
      set_spr32 SPR_DSISR (if rw =? 1 then 0x06100000 else 0x04100000);;
      mret (Some (POWERPC_EXCP_DSI, 0))
    else
      mret (Some (POWERPC_EXCP_PROGRAM, Z.lor POWERPC_EXCP_INVAL POWERPC_EXCP_INVAL_INVAL))
  else mret None.

(** [ctx0] is the uninitialised context; [env_access_type] the field [access_type] that the
    translator sets. *)
Definition cpu_ppc_handle_mmu_fault (ctx0 : mmu_ctx_t) (env_access_type address rw mmu_idx : Z) :
    T fault_result :=
  let code := rw =? 2 in
  let access_type := if code then ACCESS_CODE else env_access_type in
  let rw := if code then 0 else rw in
  r ← on_env (get_physical_address_wtlb ctx0 address rw access_type mmu_idx);
  let '(ret, ctx) := r in
  if ret =? 0 then
    mret (FaultMapped (Z.land address TARGET_PAGE_MASK)
            (Z.land (raddr ctx) (Z.lnot (TARGET_PAGE_SIZE - 1))) (prot ctx))
  else if ret <? 0 then
    e ← (if access_type =? ACCESS_CODE then fault_code ctx ret address mmu_idx
         else fault_data ctx ret address rw access_type mmu_idx);
    mret (FaultRaised e)
  else mret (FaultRaised None).
