(* ===== verification/PpcMiss.v ===== *)
(** * What a TLB miss of the e500 leaves in the registers

    The MAS registers after [booke206_update_mas_tlb_miss] ([target/ppc/mmu_helper.c]), from which
    the miss handler of the guest writes the entry of the missing page. *)

From S2P Require Import Prelude Bits PpcMmu Ppc PpcTlb PpcTlbProof PpcFault.

(** A state that differs in one register. *)
Definition only_spr (s : tlb_state) (n v : Z) (s1 : tlb_state) : Prop :=
  (forall m, spr (t_env s1) m = if m =? n then u32 v else spr (t_env s) m) /\ last_way s1 = last_way s.

Lemma only_eq {s n v s1} : only_spr s n v s1 -> spr (t_env s1) n = u32 v.
Proof. intros [H _]. by rewrite H, Z.eqb_refl. Qed.
Lemma only_ne {s n v s1} m : only_spr s n v s1 -> (m =? n) = false -> spr (t_env s1) m = spr (t_env s) m.
Proof. intros [H _] E. by rewrite H, E. Qed.

Lemma wp_set_spr E n v Q s : (forall s1, only_spr s n v s1 -> Q () s1) -> wp E (set_spr32 n v) Q s.
Proof. intros HQ. by apply HQ. Qed.
Lemma wp_or_spr E n v Q s :
  (forall s1, only_spr s n (Z.lor (spr (t_env s) n) v) s1 -> Q () s1) -> wp E (or_spr32 n v) Q s.
Proof. intros HQ. by apply HQ. Qed.

(** Reads of a register after writes. *)
Ltac read_spr :=
  repeat match goal with
  | H : only_spr _ ?n _ ?s1 |- context [spr (t_env ?s1) ?m] =>
      first [ rewrite (only_eq H) | rewrite (only_ne m H eq_refl) ]
  | H : only_spr _ _ _ ?s1 |- context [last_way ?s1] => rewrite (proj2 H)
  | |- _ => progress cbn [t_env last_way]
  end.

(** The registers describe the page that missed: its address and address space, with the
    defaults of MAS4 for the rest, and the entry to write. *)
Record miss_regs (s : tlb_state) (a : Z) (ts : bool) (s' : tlb_state) : Prop := {
  mr_valid : bit_any (spr (t_env s') SPR_BOOKE_MAS1) MAS1_VALID = true;
  mr_ts : bit_any (spr (t_env s') SPR_BOOKE_MAS1) MAS1_TS = ts;
  mr_tsize : Z.land (spr (t_env s') SPR_BOOKE_MAS1) MAS1_TSIZE_MASK
             = Z.land (spr (t_env s) SPR_BOOKE_MAS4) MAS1_TSIZE_MASK;
  mr_epn : Z.land (spr (t_env s') SPR_BOOKE_MAS2) MAS2_EPN_MASK = Z.land a MAS2_EPN_MASK;
  mr_wimge : Z.land (spr (t_env s') SPR_BOOKE_MAS2) MAS4_WIMGED_MASK
             = Z.land (spr (t_env s) SPR_BOOKE_MAS4) MAS4_WIMGED_MASK;
  mr_mas3 : spr (t_env s') SPR_BOOKE_MAS3 = 0;
  mr_sas : bit_any (spr (t_env s') SPR_BOOKE_MAS6) MAS6_SAS = ts;
  mr_mas7 : spr (t_env s') SPR_BOOKE_MAS7 = 0;
  mr_tlbsel : Z.land (spr (t_env s') SPR_BOOKE_MAS0) MAS0_TLBSEL_MASK
              = Z.land (spr (t_env s) SPR_BOOKE_MAS4) MAS0_TLBSEL_MASK;
  mr_esel : Z.shiftr (Z.land (spr (t_env s') SPR_BOOKE_MAS0) MAS0_ESEL_MASK) MAS0_ESEL_SHIFT = last_way s;
  mr_next : last_way s' = (last_way s + 1) mod 4
}.

(** A bit of a register. *)
Ltac flag_bit :=
  match goal with
  | |- bit_any ?x ?k = _ =>
      let n := eval vm_compute in (Z.log2 k) in
      change (bit_any x k) with (bit_any x (Z.shiftl 1 n)); rewrite (bit_any_pow2 x n) by lia
  end;
  autorewrite with bits;
  repeat match goal with
  | |- context [Z.testbit ?c ?n] =>
      let b := eval vm_compute in (Z.testbit c n) in
      lazymatch b with true => idtac | false => idtac end; change (Z.testbit c n) with b
  end;
  rewrite ?andb_false_r, ?orb_true_r; reflexivity.

(** The fields, for words that are put together in this way. *)
Lemma mas_words mas4 a w next tid (ts : bool) :
  0 <= a < 2 ^ 32 -> 0 <= w < 2 ^ 2 ->
  let mas1 := u32 (Z.lor (u32 (Z.lor (if ts then u32 (Z.lor (u32 (Z.land mas4 MAS1_TSIZE_MASK)) MAS1_TS)
                                       else u32 (Z.land mas4 MAS1_TSIZE_MASK)) MAS1_VALID))
                     (u32 (Z.shiftl tid MAS1_TID_SHIFT))) in
  let mas2 := u32 (Z.lor (u32 (Z.land mas4 MAS4_WIMGED_MASK)) (Z.land a MAS2_EPN_MASK)) in
  let mas0 := u32 (Z.lor (u32 (Z.lor (u32 (Z.land mas4 MAS0_TLBSEL_MASK)) (Z.shiftl w MAS0_ESEL_SHIFT)))
                     (Z.shiftl (Z.land next (4 - 1)) MAS0_NV_SHIFT)) in
  bit_any mas1 MAS1_VALID = true /\ bit_any mas1 MAS1_TS = ts
  /\ Z.land mas1 MAS1_TSIZE_MASK = Z.land mas4 MAS1_TSIZE_MASK
  /\ Z.land mas2 MAS2_EPN_MASK = Z.land a MAS2_EPN_MASK
  /\ Z.land mas2 MAS4_WIMGED_MASK = Z.land mas4 MAS4_WIMGED_MASK
  /\ Z.land mas0 MAS0_TLBSEL_MASK = Z.land mas4 MAS0_TLBSEL_MASK
  /\ Z.shiftr (Z.land mas0 MAS0_ESEL_MASK) MAS0_ESEL_SHIFT = w.
Proof.
  intros Ha Hw. cbv zeta. split_and!.
  1, 2: destruct ts; flag_bit.
  all: unfold MAS1_VALID, MAS1_TS, MAS1_TSIZE_MASK, MAS2_EPN_MASK, MAS4_WIMGED_MASK,
    MAS0_TLBSEL_MASK, MAS0_ESEL_MASK, MAS0_TLBSEL_SHIFT, MAS0_ESEL_SHIFT, MAS0_NV_SHIFT, MAS1_TID_SHIFT.
  all: change (4 - 1) with (Z.ones 2); change 31 with (Z.ones 5) || idtac;
    change 0x80000000 with (Z.shiftl (Z.ones 1) 31) || idtac;
    change (Z.shiftl 1 12) with (Z.shiftl (Z.ones 1) 12) || idtac;
    change 0x30000000 with (Z.shiftl (Z.ones 2) 28) || idtac;
    change 0xFFF0000 with (Z.shiftl (Z.ones 12) 16) || idtac.
  1: destruct ts.
  all: bits.
  all: by rewrite (Z.testbit_neg_r tid), orb_false_r by lia.
Qed.

(** The registers after a miss. *)
Lemma update_mas_wp E s a rw idx as_ pr :
  e500_inv s -> mmubooke206_get_as (t_env s) idx = (None, as_, pr) -> 0 <= a < 2 ^ 32 ->
  wp E (booke206_update_mas_tlb_miss a rw idx)
    (fun _ => miss_regs s a (if rw =? 2 then negb (msr_ir (t_env s) =? 0) else as_)) s.
Proof.
  intros H Has Ha. unfold booke206_update_mas_tlb_miss. apply wp_gets. rewrite Has.
  set (ts := if rw =? 2 then _ else _). set (tid := if _ =? MAS4_TIDSELD_PID0 then _ else _).
  rewrite (e500_ways s) by (done || lia). cbn [nth].
  do 6 (apply wp_bind, wp_set_spr; intros ? ?). apply wp_bind.
  destruct (mas_words (spr (t_env s) SPR_BOOKE_MAS4) a (last_way s) (last_way s + 1) tid ts Ha (inv_way s H))
    as (M1 & M2 & M3 & M4 & M5 & M6 & M7).
  clearbody ts tid. apply wp_when; intros Hts; [apply wp_bind, wp_or_spr; intros ? ?; apply wp_or_spr; intros ? ?|].
  all: do 2 (apply wp_bind, wp_or_spr; intros ? ?); apply wp_bind, wp_bind, wp_or_spr; intros ? ?; apply wp_ret.
  all: apply wp_bind, wp_or_spr; intros ? ?; apply wp_gets; apply wp_bind, wp_or_spr; intros ? ?.
  all: apply wp_bind, wp_modify, wp_or_spr; intros ? ?.
  all: subst ts; split; read_spr.
  all: first [ exact M1 | exact M2 | exact M3 | exact M4 | exact M5 | exact M6 | exact M7
    | lazymatch goal with |- u32 0 = 0 => reflexivity end | flag_bit | apply (Z.land_ones _ 2); lia ].
Qed.

(** The syndrome registers do not hold the description of the page. *)
Lemma miss_kept s a ts s1 n v s2 :
  miss_regs s a ts s1 -> only_spr s1 n v s2 -> n = SPR_BOOKE_DEAR \/ n = SPR_BOOKE_ESR -> miss_regs s a ts s2.
Proof. intros [] Ho [-> | ->]; split; read_spr; assumption. Qed.

(** The address and the syndrome of a fault. *)
Definition syndrome (a esr : Z) (s' : tlb_state) : Prop :=
  spr (t_env s') SPR_BOOKE_DEAR = a /\ spr (t_env s') SPR_BOOKE_ESR = esr.

Lemma syndrome_set s a esr s1 s2 :
  0 <= a < 2 ^ 32 -> 0 <= esr < 2 ^ 32 ->
  only_spr s SPR_BOOKE_DEAR a s1 -> only_spr s1 SPR_BOOKE_ESR esr s2 -> syndrome a esr s2.
Proof. intros Ha He H1 H2. split; read_spr; by apply wrap_small. Qed.
