(* ===== verification/PpcRun.v ===== *)
(** * A PowerPC guest and its cached translations

    The e500 of the test machine runs on QEMU's TLB: [PpcFault] fills [CpuTlb] from the TLBs of
    the guest ([PpcMmu]), the instructions of [PpcTlb] change them and flush.  This file gives the
    instance of [Mmu] of the e500, and what it yields for the tracer: after any run, the address
    recorded for a data access is the one the access goes to, although the access may use a
    translation that was cached long before and the tracer searches the TLBs of the guest anew. *)

From S2P Require Import Prelude Bits TraceDef Trace Sink Guest CpuTlb CpuTlbProof Coherence.
From S2P Require Import PpcMmu Ppc PpcTlb PpcTlbProof PpcFault PpcMiss.

(** ** The search *)

(** The indices of the entries that the search of an address visits on an e500. *)
Definition e500_index (n : nat) (ea way : Z) : Z :=
  match n with
  | O => i32 (Z.lor (Z.shiftl (Z.land (Z.shiftr ea 12) (2 ^ 7 - 1)) 2) (Z.land way (4 - 1)))
  | _ => i32 (Z.lor (Z.shiftl (Z.land (Z.shiftr ea 12) (2 ^ 0 - 1)) 4) (Z.land way (16 - 1))) + 512
  end.

Definition e500_way_list : list (nat * Z) :=
  ((fun j => (0%nat, Z.of_nat j)) <$> seq 0 4) ++ ((fun j => (1%nat, Z.of_nat j)) <$> seq 0 16).

Lemma e500_tlb_ways s : e500_inv s -> tlb_ways (t_env s) = e500_way_list.
Proof.
  intros H. unfold tlb_ways, BOOKE206_MAX_TLBN. cbn [seq mbind list_bind].
  rewrite !(e500_ways s) by (done || lia). reflexivity.
Qed.

Lemma way_list_two n j : (n, j) ∈ e500_way_list -> (n < 2)%nat.
Proof.
  intros [(k & [= -> _] & _)%list_elem_of_fmap|(k & [= -> _] & _)%list_elem_of_fmap]%elem_of_app; lia.
Qed.

Lemma get_tlbm_run s n a j :
  e500_inv s -> (n < 2)%nat ->
  booke206_get_tlbm (t_env s) n a j (t_env s) = Done (Some (e500_index n a j), t_env s)
  /\ 0 <= e500_index n a j < 528.
Proof.
  intros H Hn. unfold booke206_get_tlbm.
  replace (foldr _ 0 (seq 0 n)) with (nth n [0; 512] 0).
  2:{ destruct n as [|[|n]]; [done| |lia]. cbn. rewrite (e500_size s 0) by (done || lia). done. }
  rewrite (e500_size s n), (e500_ways s n) by (done || lia).
  destruct n as [|[|n]]; [| |lia]; erewrite access_bind by (vm_compute; reflexivity); cbn [nth e500_index].
  - pose proof (index_range (Z.shiftr a 12) j 7 2 ltac:(done) ltac:(done) ltac:(done)) as Hi.
    change (2 ^ 2 - 1) with (4 - 1) in Hi. unfold MAS2_EPN_SHIFT. change (ctz32 4) with 2.
    destruct (Z.leb_spec 512 (i32 (Z.lor (Z.shiftl (Z.land (Z.shiftr a 12) (2 ^ 7 - 1)) 2)
      (Z.land j (4 - 1))))); [lia|]. rewrite Z.add_0_r. split; [done|lia].
  - pose proof (index_range (Z.shiftr a 12) j 0 4 ltac:(done) ltac:(done) ltac:(done)) as Hi.
    change (2 ^ 4 - 1) with (16 - 1) in Hi. unfold MAS2_EPN_SHIFT. change (ctz32 16) with 4.
    destruct (Z.leb_spec 16 (i32 (Z.lor (Z.shiftl (Z.land (Z.shiftr a 12) (2 ^ 0 - 1)) 4)
      (Z.land j (16 - 1))))); [lia|]. split; [done|lia].
Qed.

Definition ts_of (e : ppcmas_tlb_t) : Z := Z.shiftr (Z.land (mas1 e) MAS1_TS) MAS1_TS_SHIFT.

(** The first entry that matches an address in an address space, with its physical address. *)
Fixpoint find_entry (env : CPUPPCState) (epid : option Z) (ts a : Z) (ways : list (nat * Z)) :
    option (ppcmas_tlb_t * Z) :=
  match ways with
  | [] => None
  | (n, j) :: ways =>
      match tlbm env !! Z.to_nat (e500_index n a j) with
      | Some e =>
          match mmubooke206_match env e a epid with
          | Some ra => if ts =? ts_of e then Some (e, ra) else find_entry env epid ts a ways
          | None => find_entry env epid ts a ways
          end
      | None => find_entry env epid ts a ways
      end
  end.

(** The return value of the check, for an entry that matches. *)
Definition check_code (code : bool) (rw prot : Z) : Z :=
  if code then if bit_any prot PAGE_EXEC then 0 else -3
  else if ((rw =? 0) && bit_any prot PAGE_READ) || (negb (rw =? 0) && bit_any prot PAGE_WRITE)
       then 0 else -2.

(** The address space of a mode: the process, the address space bit and the privilege. *)
Definition space (env : CPUPPCState) (idx : nat) : option Z * Z * bool :=
  if (idx <? 8)%nat then (None, Z.b2z (Z.testbit (Z.of_nat idx) 1), negb (Z.testbit (Z.of_nat idx) 0))
  else let '(epid, as_, pr) := mmubooke206_get_as env (Z.of_nat idx) in (epid, Z.b2z as_, pr).

(** The mode that an access has is that of its address space. *)
Lemma check_tlb_run env e ra p a rw t idx epid as_ pr :
  mmubooke206_get_as env idx = (epid, as_, pr) ->
  (t = ACCESS_CODE -> epid = None) ->
  mmubooke206_check_tlb e ra p a rw t idx env =
    Done (match mmubooke206_match env e a epid with
          | None => (-1, ra, p)
          | Some ra' =>
              if (if t =? ACCESS_CODE then msr_ir env else Z.b2z as_) =? ts_of e
              then (check_code (t =? ACCESS_CODE) rw (mas3_prot e pr), ra', mas3_prot e pr)
              else (-1, ra', p)
          end, env).
Proof.
  intros Has Hcode. unfold mmubooke206_check_tlb. rewrite run_gets. change (id env) with env.
  rewrite Has. fold (ts_of e). destruct (mmubooke206_match env e a epid) as [ra'|]; [|done].
  destruct (Z.eqb_spec t ACCESS_CODE) as [->|].
  - rewrite Hcode by done. destruct (_ =? ts_of e); done.
  - destruct (_ =? ts_of e); done.
Qed.

Lemma booke206_loop_run s ways ra ctx a rw t idx epid as_ pr :
  e500_inv s -> (forall n j, (n, j) ∈ ways -> (n < 2)%nat) ->
  mmubooke206_get_as (t_env s) idx = (epid, as_, pr) -> (t = ACCESS_CODE -> epid = None) ->
  let ts := if t =? ACCESS_CODE then msr_ir (t_env s) else Z.b2z as_ in
  exists ra' ctx',
    booke206_loop ways ra ctx a rw t idx (t_env s) =
      Done (match find_entry (t_env s) epid ts a ways with
            | Some (e, pa) => (check_code (t =? ACCESS_CODE) rw (mas3_prot e pr), pa,
                               set_prot ctx (mas3_prot e pr), Some e)
            | None => (-1, ra', ctx', None)
            end, t_env s).
Proof.
  intros H Hw Has Hcode. cbv zeta. set (ts := if t =? ACCESS_CODE then _ else _). revert ra ctx Hw.
  induction ways as [|[n j] ways IH]; intros ra ctx Hw; cbn [booke206_loop find_entry].
  { by exists ra, ctx. }
  destruct (get_tlbm_run s n a j H) as [Hg Hr]; [apply (Hw n j); by left|].
  destruct (lookup_lt_is_Some_2 (tlbm (t_env s)) (Z.to_nat (e500_index n a j))) as [e He].
  { rewrite (inv_length s H). lia. }
  rewrite run_gets. change (id (t_env s)) with (t_env s). rewrite (bind_step _ _ _ _ _ Hg).
  assert (Hen : entry (tlbm (t_env s)) (e500_index n a j) (t_env s) = Done (e, t_env s)).
  { unfold entry. destruct (Z.ltb_spec (e500_index n a j) 0); [lia|]. by rewrite He. }
  rewrite (bind_step _ _ _ _ _ Hen), He.
  rewrite (bind_step _ _ _ _ _ (check_tlb_run (t_env s) e ra (prot ctx) a rw t idx epid as_ pr Has Hcode)).
  fold ts. assert (Hw' : forall n j, (n, j) ∈ ways -> (n < 2)%nat)
    by (intros n' j' Hn; apply (Hw n' j'); by right).
  assert (Hp : set_prot ctx (prot ctx) = ctx) by (by destruct ctx).
  destruct (mmubooke206_match (t_env s) e a epid) as [pa|].
  2: { cbv beta iota zeta. rewrite Hp. by apply (IH ra). }
  destruct (ts =? ts_of e).
  - assert (Hne : negb (check_code (t =? ACCESS_CODE) rw (mas3_prot e pr) =? -1) = true)
      by (unfold check_code; repeat case_match; done).
    rewrite Hne. by exists ra, ctx.
  - cbv beta iota zeta. rewrite Hp. by apply (IH pa).
Qed.

(** ** Pages *)

(** The mask of QEMU's pages, as [hwaddr] and as [target_ulong]. *)
Abbreviation PG := (-4096).

Lemma page_mask32 a : 0 <= a < 2 ^ 32 -> Z.land a TARGET_PAGE_MASK = Z.land a PG.
Proof.
  intros Ha. unfold TARGET_PAGE_MASK. change 0xFFFFF000 with (Z.shiftl (Z.ones 20) 12).
  change PG with (Z.lnot (Z.ones 12)). bits.
Qed.

(** An entry of at least a page translates the addresses of a page alike. *)
Lemma check_in_page e a pid :
  (is_valid e = true -> 2 <= tsize e) -> 0 <= a < 2 ^ 32 ->
  ppcmas_tlb_check e (Z.land a PG) pid = (fun ra => Z.land ra PG) <$> ppcmas_tlb_check e a pid
  /\ forall ra, ppcmas_tlb_check e a pid = Some ra -> ra = Z.lor (Z.land ra PG) (Z.land a (Z.ones 12)).
Proof.
  intros Hsz Ha. unfold ppcmas_tlb_check. fold (is_valid e).
  destruct (is_valid e); cbn [negb]; [|done]. specialize (Hsz eq_refl).
  unfold booke206_tlb_to_page_size. fold (tsize e). pose proof (tsize_range e) as Ht.
  replace (Z.shiftl 1024 (tsize e) - 1) with (Z.ones (tsize e + 10))
    by (rewrite Z.ones_equiv, Z.shiftl_mul_pow2, Z.pow_add_r by lia; lia).
  change PG with (Z.lnot (Z.ones 12)). set (m := u64 (Z.lnot (Z.ones (tsize e + 10)))).
  assert (Em : Z.land (Z.land a (Z.lnot (Z.ones 12))) m = Z.land a m) by (unfold m; bits).
  rewrite Em. destruct (_ && _); [done|]. destruct (negb _); [done|]. split.
  - cbn [fmap option_fmap option_map]. f_equal. unfold m. bits.
  - intros ra [= <-]. unfold m. bits.
Qed.

Lemma match_in_page env e a epid :
  (is_valid e = true -> 2 <= tsize e) -> 0 <= a < 2 ^ 32 ->
  mmubooke206_match env e (Z.land a PG) epid
    = (fun ra => Z.land ra PG) <$> mmubooke206_match env e a epid
  /\ forall ra, mmubooke206_match env e a epid = Some ra ->
       ra = Z.lor (Z.land ra PG) (Z.land a (Z.ones 12)).
Proof.
  intros Hsz Ha. pose proof (fun pid => proj1 (check_in_page e a pid Hsz Ha)) as H1.
  pose proof (fun pid => proj2 (check_in_page e a pid Hsz Ha)) as H2.
  unfold mmubooke206_match. destruct epid as [epid|]; [split; [apply H1|apply H2]|]. rewrite !H1.
  destruct (ppcmas_tlb_check e a _) eqn:E0; cbn [fmap option_fmap option_map]; [split; [done|]|].
  { intros ra [= <-]. by eapply H2. }
  destruct (negb (spr env SPR_BOOKE_PID1 =? 0)).
  - destruct (ppcmas_tlb_check e a (u32 (spr env SPR_BOOKE_PID1))) eqn:E1;
      cbn [fmap option_fmap option_map]; [split; [done|]; intros ra [= <-]; by eapply H2|].
    destruct (negb _); [split; [done|apply H2]|done].
  - destruct (negb _); [split; [done|apply H2]|done].
Qed.

Lemma index_in_page n a j : 0 <= a -> e500_index n (Z.land a PG) j = e500_index n a j.
Proof.
  intros Ha. unfold e500_index. change PG with (Z.lnot (Z.ones 12)).
  assert (E : Z.shiftr (Z.land a (Z.lnot (Z.ones 12))) 12 = Z.shiftr a 12) by bits.
  by rewrite E.
Qed.

Lemma find_in_page s epid ts a ways :
  e500_inv s -> 0 <= a < 2 ^ 32 ->
  find_entry (t_env s) epid ts (Z.land a PG) ways
    = prod_map id (fun ra => Z.land ra PG) <$> find_entry (t_env s) epid ts a ways
  /\ forall e ra, find_entry (t_env s) epid ts a ways = Some (e, ra) ->
       ra = Z.lor (Z.land ra PG) (Z.land a (Z.ones 12)).
Proof.
  intros H Ha. induction ways as [|[n j] ways IH]; cbn [find_entry]; [done|].
  rewrite index_in_page by lia. destruct (tlbm (t_env s) !! _) as [e|] eqn:Ee; [|done].
  destruct (match_in_page (t_env s) e a epid (inv_min s H _ _ Ee) Ha) as [-> H2].
  destruct (mmubooke206_match (t_env s) e a epid) as [ra|]; cbn [fmap option_fmap option_map]; [|done].
  destruct (ts =? ts_of e); [|done]. split; [done|]. intros e' ra' [= <- <-]. by apply H2.
Qed.

(** ** The page of a mode *)

Definition ppc_page (s : tlb_state) (idx : nat) (va : Z) : option (Z * Z) :=
  let '(epid, ts, pr) := space (t_env s) idx in
  (fun p => (Z.land p.2 PG, mas3_prot p.1 pr)) <$> find_entry (t_env s) epid ts va e500_way_list.

(** Entries that answer alike for every process are alike in the search. *)
Lemma answers_match env env' e e' a epid :
  (forall pid, answers e a pid = answers e' a pid) ->
  (epid = None -> forall n, n ∈ pid_regs -> spr env' n = spr env n) ->
  mmubooke206_match env e a epid = mmubooke206_match env' e' a epid
  /\ (mmubooke206_match env e a epid <> None -> e = e').
Proof.
  intros Ha Hr.
  assert (Hc : forall pid, ppcmas_tlb_check e a pid = ppcmas_tlb_check e' a pid
    /\ (ppcmas_tlb_check e a pid <> None -> e = e')).
  { intros pid. specialize (Ha pid). unfold answers in Ha.
    destruct (ppcmas_tlb_check e a pid) eqn:E1, (ppcmas_tlb_check e' a pid) eqn:E2; try done.
    injection Ha as <-. by rewrite <- E1, <- E2. }
  unfold mmubooke206_match. destruct epid as [epid|]; [apply Hc|].
  rewrite !(Hr eq_refl) by decide_now.
  rewrite <- !(fun pid => proj1 (Hc pid)). split; [done|].
  set (p0 := u32 (spr env SPR_BOOKE_PID)). set (p1 := u32 (spr env SPR_BOOKE_PID1)).
  set (p2 := u32 (spr env SPR_BOOKE_PID2)).
  destruct (ppcmas_tlb_check e a p0) eqn:E0; [intros _; apply (Hc p0); congruence|].
  destruct (negb (spr env SPR_BOOKE_PID1 =? 0)), (ppcmas_tlb_check e a p1) eqn:E1,
    (negb (spr env SPR_BOOKE_PID2 =? 0)), (ppcmas_tlb_check e a p2) eqn:E2; intros Hn; try done.
  all: first [apply (Hc p1); congruence | apply (Hc p2); congruence].
Qed.

Lemma find_answers s s' epid ts a ways :
  e500_inv s -> e500_inv s' -> (forall n j, (n, j) ∈ ways -> (n < 2)%nat) ->
  (forall i pid, answer s i a pid = answer s' i a pid) ->
  (epid = None -> forall n, n ∈ pid_regs -> spr (t_env s') n = spr (t_env s) n) ->
  find_entry (t_env s) epid ts a ways = find_entry (t_env s') epid ts a ways.
Proof.
  intros H H' Hw Ha Hr. induction ways as [|[n j] ways IH]; cbn [find_entry]; [done|].
  rewrite IH by (intros n' j' Hn; apply (Hw n' j'); by right).
  destruct (get_tlbm_run s n a j H) as [_ Hi]; [apply (Hw n j); by left|].
  destruct (lookup_lt_is_Some_2 (tlbm (t_env s)) (Z.to_nat (e500_index n a j))) as [e He];
    [rewrite (inv_length s H); lia|].
  destruct (lookup_lt_is_Some_2 (tlbm (t_env s')) (Z.to_nat (e500_index n a j))) as [e' He'];
    [rewrite (inv_length s' H'); lia|].
  rewrite He, He'. destruct (answers_match (t_env s) (t_env s') e e' a epid) as [Hm Hee]; [|done|].
  { intros pid. specialize (Ha (Z.to_nat (e500_index n a j)) pid). unfold answer in Ha.
    rewrite He, He' in Ha. by injection Ha. }
  rewrite <- Hm. destruct (mmubooke206_match (t_env s) e a epid); [|done].
  by rewrite <- Hee.
Qed.

(** ** The instance *)

#[export] Instance flush_eq_dec : EqDecision flush.
Proof. solve_decision. Defined.

#[local, program] Instance ppc_target : Target := {| TARGET_PAGE_BITS := 12; NB_MMU_MODES := 10 |}.
Next Obligation. lia. Qed.
Next Obligation. lia. Qed.

(** The arguments are of type [target_ulong] and [uint16_t]. *)
Definition to_call (f : flush) : tlb_call :=
  match f with
  | FlushAll => CallFlush ALL_MMUIDX_BITS
  | FlushPage a => CallFlushPage (u32 a) ALL_MMUIDX_BITS
  | FlushIdx m => CallFlush m
  end.

Lemma ppc_aligned va : aligned va -> 0 <= va < 2 ^ 32 /\ Z.land va PG = va.
Proof. intros [Hm Hu]. split; [exact Hu|]. exact Hm. Qed.

Lemma below_ten idx : (idx < 10)%nat -> Z.testbit ALL_MMUIDX_BITS (Z.of_nat idx) = true.
Proof. intros H. rewrite testbit_all_modes by lia. apply Z.ltb_lt. cbn [NB_MMU_MODES ppc_target]. lia. Qed.

(** The address space of a mode depends on its registers only. *)
Lemma same_space s s' idx :
  (idx < 10)%nat ->
  (forall n, n ∈ space_regs -> (forall f, covers_reg f n -> f = FlushAll
     \/ f = FlushIdx (Z.shiftl 1 (Z.of_nat idx))) -> spr (t_env s') n = spr (t_env s) n) ->
  space (t_env s') idx = space (t_env s) idx.
Proof.
  intros Hidx Hr. unfold space. destruct (Nat.ltb_spec idx 8); [done|].
  assert (idx = 8%nat \/ idx = 9%nat) as [-> | ->] by lia; unfold mmubooke206_get_as; cbn -[Z.land u32].
  - rewrite (Hr SPR_BOOKE_EPLC); [done|by decide_now|].
    intros [| |m]; cbn; [done|by left|]. intros [[_ ->]|[? _]]; [auto|done].
  - rewrite (Hr SPR_BOOKE_EPSC); [done|by decide_now|].
    intros [| |m]; cbn; [done|by left|]. intros [[? _]|[_ ->]]; [done|auto].
Qed.

(** A change of the guest that [PpcTlbProof] finds safe changes no page without a flush. *)
Lemma safe_pages s fs s' idx va :
  e500_inv s -> safe s fs s' -> (idx < 10)%nat -> aligned va ->
  ppc_page s' idx va = ppc_page s idx va \/ Exists (fun f => drops (to_call f) idx va) fs.
Proof.
  intros H (H' & _ & Hc & _ & _ & Hr) Hidx Hva. destruct (ppc_aligned va Hva) as [Hv Hp].
  set (hit f := f = FlushAll \/ f = FlushPage va \/ f = FlushIdx (Z.shiftl 1 (Z.of_nat idx))).
  assert (Hdec : forall f, Decision (hit f)) by (unfold hit; apply _).
  destruct (decide (Exists hit fs)) as [Hx|Hx].
  { right. eapply Exists_impl; [exact Hx|]. intros f [-> | [-> | ->]]; cbn [to_call drops].
    - rewrite testbit_wrap, below_ten by (done || lia). destruct (Z.ltb_spec (Z.of_nat idx) 16); [done|lia].
    - split; [by apply below_ten|]. rewrite wrap_small by done. apply Hva.
    - rewrite testbit_wrap, testbit_one, Z.eqb_refl by lia.
      destruct (Z.ltb_spec (Z.of_nat idx) 16); [done|lia]. }
  left.
  assert (Hno : forall f, f ∈ fs -> ~ hit f) by (intros f Hf Hh; apply Hx, Exists_exists; eauto).
  assert (Hreg : forall n, n ∈ space_regs -> (forall f, covers_reg f n -> hit f) ->
    spr (t_env s') n = spr (t_env s) n).
  { intros n Hn Hh. destruct (Hr n Hn) as [|(f & Hf & Hcf)%Exists_exists]; [done|].
    exfalso. apply (Hno f Hf). by apply Hh. }
  unfold ppc_page. rewrite (same_space s s' idx Hidx)
    by (intros n Hn Hh; apply Hreg; [done|]; intros f [->| ->]%Hh; unfold hit; auto).
  destruct (space (t_env s) idx) as [[epid ts] pr] eqn:Es. f_equal. symmetry.
  apply find_answers; [done..|apply way_list_two| |].
  - intros i pid. destruct (decide (answer s i va pid = answer s' i va pid)) as [|Hne]; [done|].
    apply (Hc i va pid Hv) in Hne. apply Exists_exists in Hne as (f & Hf & Hcf).
    destruct (Hno f Hf). unfold hit. destruct f; cbn in Hcf; [right; left|by left|done].
    by rewrite Hcf, page_mask32, Hp.
  - intros -> n Hn. apply Hreg; [by apply elem_of_app; left|]. intros [| |m] Hcf; cbn in Hcf; [done|by left|].
    exfalso. destruct Hcf as [[-> _]|[-> _]]; revert Hn; by decide_now.
Qed.

(** ** The registers of a miss *)

Lemma kept_or_spr s n v : selects n = false -> n ∉ config_regs ++ space_regs -> kept s (or_spr32 n v).
Proof.
  intros Hs Hn s1 H1. unfold or_spr32. apply wp_gets. apply kept_spr; [|done].
  unfold write_ok. rewrite Hs, bool_decide_true by done. done.
Qed.

Lemma kept_or_mas0 s v : Z.testbit v 29 = false -> kept s (or_spr32 SPR_BOOKE_MAS0 v).
Proof.
  intros Hv s1 H1. unfold or_spr32. apply wp_gets. apply kept_spr; [|done].
  unfold write_ok. apply andb_true_iff. split; [by decide_now|].
  rewrite Z.lor_spec, Hv, (inv_selects s1) by (apply H1 || done). done.
Qed.

Lemma kept_ret {A} s (a : A) : kept s (mret a).
Proof. intros s1 H1. by apply wp_ret. Qed.

Lemma kept_when s b (m : T ()) : kept s m -> kept s (when b m).
Proof. intros Hm s1 H1. apply wp_when; [intros _; by apply Hm|done]. Qed.

Ltac kept_step :=
  lazymatch goal with
  | |- kept _ (mret _) => apply kept_ret
  | |- kept _ (set_spr32 _ _) => apply kept_spr; reflexivity
  | |- kept _ (or_spr32 _ _) => apply kept_or_spr; [reflexivity|by decide_now]
  | |- kept _ (when _ _) => apply kept_when
  | |- kept _ (_ ≫= _) => apply kept_bind; [|intros ?]
  end.

Lemma kept_gets {A B} s (f : tlb_state -> A) (k : A -> T B) :
  (forall s1, safe s [] s1 -> kept s (k (f s1))) -> kept s (gets f ≫= k).
Proof. intros Hk s1 H1. apply wp_gets. by apply Hk. Qed.

Lemma mas0_bit w k : 0 <= w < 2 ^ 4 -> 0 <= k <= 16 -> Z.testbit (Z.shiftl w k) 29 = false.
Proof. intros Hw Hk. rewrite Z.shiftl_spec by done. apply (testbit_above 4); lia. Qed.

Lemma update_mas_kept s address rw idx : kept s (booke206_update_mas_tlb_miss address rw idx).
Proof.
  unfold booke206_update_mas_tlb_miss. apply kept_gets. intros s1 H1.
  pose proof (proj1 H1) as Hi. destruct (mmubooke206_get_as (t_env s1) idx) as [[epid as_] pr].
  apply kept_bind; [apply kept_spr|intros []].
  { unfold write_ok. apply andb_true_iff. split; [by decide_now|].
    by rewrite Z.land_spec, (inv_selects s1 Hi). }
  repeat (apply kept_bind; [solve [repeat kept_step]|intros []]).
  apply kept_bind; [destruct epid; repeat kept_step|intros tid].
  apply kept_bind; [apply kept_or_spr; [reflexivity|by decide_now]|intros []].
  apply kept_gets. intros s2 H2. pose proof (inv_way s2 (proj1 H2)) as Hlw.
  rewrite (e500_ways s1) by (done || lia). cbn [nth].
  assert (Hn : 0 <= Z.land (last_way s2 + 1) (4 - 1) < 4).
  { change (4 - 1) with (Z.ones 2). rewrite Z.land_ones by done. by apply Z.mod_pos_bound. }
  apply kept_bind; [apply kept_or_mas0, mas0_bit; unfold MAS0_ESEL_SHIFT; lia|intros []].
  apply kept_bind; [by apply last_way_kept|intros []].
  apply kept_or_mas0, mas0_bit; unfold MAS0_NV_SHIFT; lia.
Qed.

Definition is_booke206 (s : tlb_state) : Prop := mmu_model (t_env s) = POWERPC_MMU_BOOKE206.

Lemma fault_code_kept s ctx ret address idx :
  is_booke206 s -> kept s (fault_code ctx ret address idx).
Proof.
  intros Hm. unfold fault_code. apply kept_gets. intros s1 H1.
  assert (Em : mmu_model (t_env s1) = POWERPC_MMU_BOOKE206)
    by (destruct H1 as (_ & _ & _ & _ & -> & _); exact Hm).
  rewrite Em. repeat case_match; try apply kept_ret.
  - apply kept_bind; [apply update_mas_kept|intros []]. repeat kept_step.
  - repeat kept_step.
Qed.

Lemma fault_data_kept s ctx ret address rw t idx :
  is_booke206 s -> kept s (fault_data ctx ret address rw t idx).
Proof.
  intros Hm. unfold fault_data. apply kept_gets. intros s1 H1.
  assert (Em : mmu_model (t_env s1) = POWERPC_MMU_BOOKE206)
    by (destruct H1 as (_ & _ & _ & _ & -> & _); exact Hm).
  rewrite Em. destruct (ret =? -1); [|destruct (ret =? -2); [|destruct (ret =? -4)]].
  - apply kept_bind; [apply update_mas_kept|intros []]. repeat kept_step.
  - repeat kept_step.
  - repeat kept_step. repeat case_match; repeat kept_step.
  - apply kept_ret.
Qed.

(** ** The fill *)

Definition is_fetch (ty : MMUAccessType) : bool :=
  match ty with MMU_INST_FETCH => true | _ => false end.
Definition rw_of (ty : MMUAccessType) : Z :=
  match ty with MMU_DATA_LOAD => 0 | MMU_DATA_STORE => 1 | MMU_INST_FETCH => 2 end.

Definition ppc_idx (s : tlb_state) (ty : MMUAccessType) : nat :=
  Z.to_nat (cpu_mmu_index (t_env s) (is_fetch ty)).

Lemma msr_bit_cases n env : msr_bit n env = 0 \/ msr_bit n env = 1.
Proof.
  unfold msr_bit. set (x := Z.shiftr (msr env) n). pose proof (Z.land_ones x 1 ltac:(done)) as E.
  change (Z.ones 1) with 1 in E. change (2 ^ 1) with 2 in E.
  pose proof (Z.mod_pos_bound x 2 ltac:(done)). lia.
Qed.

(** The mode of an access is the address space that the search uses. *)
Lemma ppc_idx_space s ty :
  e500_inv s -> is_booke206 s ->
  (ppc_idx s ty < 4)%nat
  /\ space (t_env s) (ppc_idx s ty)
     = (None, if is_fetch ty then msr_ir (t_env s) else msr_ds (t_env s), negb (msr_pr (t_env s) =? 0))
  /\ mmubooke206_get_as (t_env s) (Z.of_nat (ppc_idx s ty))
     = (None, negb (msr_ds (t_env s) =? 0), negb (msr_pr (t_env s) =? 0)).
Proof.
  intros H Hm. unfold ppc_idx, cpu_mmu_index, hreg_compute_mem_idx, space, mmubooke206_get_as.
  rewrite Hm, (inv_gs s H). cbn [is_booke fst snd].
  destruct (msr_bit_cases MSR_PR (t_env s)) as [-> | ->],
    (msr_bit_cases MSR_IR (t_env s)) as [-> | ->], (msr_bit_cases MSR_DR (t_env s)) as [-> | ->],
    (is_fetch ty); vm_compute; split_and!; first [reflexivity | repeat constructor].
Qed.

Section fill.
(** The uninitialised context of the handler, and the kind of the access that the translator
    set: not a fetch. *)
Context (ctx0 : mmu_ctx_t) (at_ : Z) (Hat : at_ <> ACCESS_CODE).

(** The kind of the access and the direction that the translation gets. *)
Abbreviation kind_of ty := (if rw_of ty =? 2 then ACCESS_CODE else at_).
Abbreviation dir_of ty := (if rw_of ty =? 2 then 0 else rw_of ty).

Lemma kind_fetch ty : (kind_of ty =? ACCESS_CODE) = is_fetch ty.
Proof. destruct ty; cbn; [by apply Z.eqb_neq..|done]. Qed.

(** The check passes exactly when the protection grants the access. *)
Lemma check_granted ty q : check_code (is_fetch ty) (dir_of ty) q = 0 <-> bit_any q (prot_of ty) = true.
Proof. unfold check_code. destruct ty; cbn; by destruct (bit_any q _). Qed.

Lemma check_denied ty q :
  bit_any q (prot_of ty) = false -> check_code (is_fetch ty) (dir_of ty) q = if is_fetch ty then -3 else -2.
Proof. unfold check_code. destruct ty; cbn; by destruct (bit_any q _). Qed.

(** The translation finds the page of the mode, or misses. *)
Lemma lookup_run s ty a :
  e500_inv s -> is_booke206 s -> 0 <= a < 2 ^ 32 ->
  exists ret ctx,
    on_env (get_physical_address_wtlb ctx0 a (dir_of ty) (kind_of ty) (Z.of_nat (ppc_idx s ty))) s
      = Done ((ret, ctx), s)
    /\ match ppc_page s (ppc_idx s ty) (Z.land a PG) with
       | Some (p, q) => ret = check_code (is_fetch ty) (dir_of ty) q
           /\ (ret = 0 -> Z.land (raddr ctx) PG = p /\ prot ctx = q)
       | None => ret = -1
       end.
Proof.
  intros H Hm Ha. destruct (ppc_idx_space s ty H Hm) as (_ & Hsp & Has).
  destruct (booke206_loop_run s e500_way_list HWADDR_NONE ctx0 a (dir_of ty) (kind_of ty)
    (Z.of_nat (ppc_idx s ty)) None
    (negb (msr_ds (t_env s) =? 0)) (negb (msr_pr (t_env s) =? 0)) H way_list_two Has (fun _ => eq_refl))
    as (ra0 & ctx1 & Hl).
  rewrite kind_fetch in Hl.
  replace (if is_fetch ty then msr_ir (t_env s) else Z.b2z (negb (msr_ds (t_env s) =? 0)))
    with (if is_fetch ty then msr_ir (t_env s) else msr_ds (t_env s)) in Hl
    by (destruct (msr_bit_cases MSR_DR (t_env s)) as [-> | ->]; by destruct (is_fetch ty)).
  assert (Hset : set_env (t_env s) s = s) by (by destruct s).
  unfold on_env, zoom, get_physical_address_wtlb. rewrite run_gets. change (id (t_env s)) with (t_env s).
  rewrite Hm. unfold mmubooke206_get_physical_address. rewrite run_gets. change (id (t_env s)) with (t_env s).
  rewrite (e500_tlb_ways s H), (bind_step _ _ _ _ _ Hl). clear Hl.
  destruct (find_in_page s None (if is_fetch ty then msr_ir (t_env s) else msr_ds (t_env s)) a
    e500_way_list H Ha) as [Hpg _].
  unfold ppc_page. rewrite Hsp, Hpg.
  destruct (find_entry _ _ _ a _) as [[e pa]|]; cbn [fmap option_fmap option_map prod_map fst snd id mret];
    (eexists _, _; split; [cbn; rewrite Hset; reflexivity|]); [|done].
  split; [done|]. intros E. rewrite E. cbn. by rewrite <- Z.land_assoc.
Qed.

Lemma fault_wp s ty a :
  e500_inv s -> is_booke206 s -> 0 <= a < 2 ^ 32 ->
  wp False (cpu_ppc_handle_mmu_fault ctx0 at_ a (rw_of ty) (Z.of_nat (ppc_idx s ty)))
    (fun r s' => match r with
     | FaultMapped va pa q => s' = s /\ va = Z.land a PG
         /\ ppc_page s (ppc_idx s ty) (Z.land a PG) = Some (pa, q) /\ bit_any q (prot_of ty) = true
     | _ => safe s [] s'
     end) s.
Proof.
  intros H Hm Ha. destruct (lookup_run s ty a H Hm Ha) as (ret & ctx & Hl & Hpg).
  unfold cpu_ppc_handle_mmu_fault. apply wp_bind. unfold wp at 1. rewrite Hl. clear Hl.
  set (t := kind_of ty). set (rw := dir_of ty) in *.
  assert (Hfault : ret <> 0 -> wp False
    (if ret <? 0 then
       e ← (if t =? ACCESS_CODE then fault_code ctx ret a (Z.of_nat (ppc_idx s ty))
            else fault_data ctx ret a rw t (Z.of_nat (ppc_idx s ty)));
       mret (FaultRaised e)
     else mret (FaultRaised None)) (fun r s' => match r with
       | FaultMapped va pa q => s' = s /\ va = Z.land a PG
         /\ ppc_page s (ppc_idx s ty) (Z.land a PG) = Some (pa, q) /\ bit_any q (prot_of ty) = true
       | _ => safe s [] s' end) s).
  { intros _. destruct (ret <? 0); [|apply wp_ret; by apply safe_refl].
    eapply wp_seq; [|intros e s' Hs'; apply wp_ret; exact Hs'].
    destruct (t =? ACCESS_CODE); [apply fault_code_kept|apply fault_data_kept]; auto using safe_refl. }
  destruct (Z.eqb_spec ret 0) as [->|Hne]; [|by apply Hfault]. clear Hfault.
  destruct (ppc_page s _ _) as [[p q]|] eqn:E; [|done]. destruct Hpg as [Hc Hr]. destruct (Hr eq_refl) as [<- <-].
  apply wp_ret. split_and!; [done|by apply page_mask32|done|]. by apply check_granted.
Qed.

(** What a fault leaves, by what the TLBs of the guest hold for the page. *)
Definition fault_spec (s : tlb_state) (ty : MMUAccessType) (a : Z) (r : fault_result) (s' : tlb_state) : Prop :=
  let esr := if rw_of ty =? 1 then ESR_ST else 0 in
  match ppc_page s (ppc_idx s ty) (Z.land a PG) with
  | Some (p, q) =>
      if bit_any q (prot_of ty) then r = FaultMapped (Z.land a PG) p q /\ s' = s
      else if is_fetch ty then
        r = FaultRaised (Some (POWERPC_EXCP_ISI, 0x10000000)) /\ only_spr s SPR_BOOKE_ESR 0 s'
      else r = FaultRaised (Some (POWERPC_EXCP_DSI, 0)) /\ syndrome a esr s'
  | None =>
      r = FaultRaised (Some (if is_fetch ty then POWERPC_EXCP_ITLB else POWERPC_EXCP_DTLB, 0))
      /\ syndrome a esr s'
      /\ miss_regs s a (negb ((if is_fetch ty then msr_ir (t_env s) else msr_ds (t_env s)) =? 0)) s'
  end.

Lemma esr_of s ty (b : bool) : e500_inv s -> is_booke206 s ->
  mmubooke206_esr (Z.of_nat (ppc_idx s ty)) b = if b then ESR_ST else 0.
Proof.
  intros H Hm. destruct (ppc_idx_space s ty H Hm) as [Hlt _]. unfold mmubooke206_esr, is_epid_mmu,
    PPC_TLB_EPID_STORE, PPC_TLB_EPID_LOAD.
  rewrite !(proj2 (Z.eqb_neq _ _)) by lia. by destruct b.
Qed.

(** A miss: the registers of the page, then those of the fault. *)
Lemma miss_wp s ty a rw (b : bool) (e : Z * Z) :
  e500_inv s -> is_booke206 s -> 0 <= a < 2 ^ 32 -> (rw =? 2) = is_fetch ty ->
  wp False
    (booke206_update_mas_tlb_miss a rw (Z.of_nat (ppc_idx s ty));;
     set_spr32 SPR_BOOKE_DEAR a;;
     set_spr32 SPR_BOOKE_ESR (mmubooke206_esr (Z.of_nat (ppc_idx s ty)) b);;
     mret (Some e))
    (fun r s' => r = Some e /\ syndrome a (if b then ESR_ST else 0) s'
       /\ miss_regs s a (negb ((if is_fetch ty then msr_ir (t_env s) else msr_ds (t_env s)) =? 0)) s') s.
Proof.
  intros H Hm Ha Hrw. destruct (ppc_idx_space s ty H Hm) as (_ & _ & Has). rewrite esr_of by done.
  eapply wp_seq; [by eapply update_mas_wp|]. intros [] s1 H1. cbv beta in H1. rewrite Hrw in H1.
  apply wp_bind, wp_set_spr. intros s2 H2. apply wp_bind, wp_set_spr. intros s3 H3. apply wp_ret.
  split_and!; [done|eapply syndrome_set; [done| |exact H2|exact H3]; by destruct b|].
  destruct (is_fetch ty); (eapply miss_kept; [eapply miss_kept; [exact H1|exact H2|by left]|exact H3|by right]).
Qed.

Lemma code_fault_wp ctx s a ret :
  e500_inv s -> is_booke206 s -> 0 <= a < 2 ^ 32 -> ret = -1 \/ ret = -3 ->
  wp False (fault_code ctx ret a (Z.of_nat (ppc_idx s MMU_INST_FETCH)))
    (fun r s' => if ret =? -1 then
         r = Some (POWERPC_EXCP_ITLB, 0) /\ syndrome a 0 s'
         /\ miss_regs s a (negb (msr_ir (t_env s) =? 0)) s'
       else r = Some (POWERPC_EXCP_ISI, 0x10000000) /\ only_spr s SPR_BOOKE_ESR 0 s') s.
Proof.
  intros H Hm Ha [-> | ->]; unfold fault_code; apply wp_gets; rewrite Hm; cbn [Z.eqb Pos.eqb].
  - exact (miss_wp s MMU_INST_FETCH a 2 false _ H Hm Ha eq_refl).
  - apply wp_bind, wp_set_spr. intros s1 H1. by apply wp_ret.
Qed.

Lemma data_fault_wp ctx s ty a ret :
  e500_inv s -> is_booke206 s -> 0 <= a < 2 ^ 32 -> ty <> MMU_INST_FETCH -> ret = -1 \/ ret = -2 ->
  wp False (fault_data ctx ret a (rw_of ty) at_ (Z.of_nat (ppc_idx s ty)))
    (fun r s' => syndrome a (if rw_of ty =? 1 then ESR_ST else 0) s'
       /\ if ret =? -1 then
            r = Some (POWERPC_EXCP_DTLB, 0) /\ miss_regs s a (negb (msr_ds (t_env s) =? 0)) s'
          else r = Some (POWERPC_EXCP_DSI, 0)) s.
Proof.
  intros H Hm Ha Hty Hret. assert (Hrw : negb (rw_of ty =? 0) = (rw_of ty =? 1)) by (by destruct ty).
  destruct Hret as [-> | ->]; unfold fault_data; apply wp_gets; rewrite Hm, Hrw; cbn [Z.eqb Pos.eqb].
  - eapply wp_mono; [apply (miss_wp s ty); [done..|by destruct ty]|].
    intros r s' (-> & Hs & Hr). split; [done|]. split; [done|]. by destruct ty.
  - rewrite esr_of by done. apply wp_bind, wp_bind, wp_set_spr. intros s1 H1. apply wp_set_spr. intros s2 H2.
    apply wp_ret. split; [|done]. eapply syndrome_set; [done| |exact H1|exact H2]. by destruct ty.
Qed.

Lemma fault_exact_wp s ty a :
  e500_inv s -> is_booke206 s -> 0 <= a < 2 ^ 32 ->
  wp False (cpu_ppc_handle_mmu_fault ctx0 at_ a (rw_of ty) (Z.of_nat (ppc_idx s ty))) (fault_spec s ty a) s.
Proof.
  intros H Hm Ha. destruct (lookup_run s ty a H Hm Ha) as (ret & ctx & Hl & Hpg).
  unfold cpu_ppc_handle_mmu_fault. apply wp_bind. unfold wp at 1. rewrite Hl. clear Hl.
  rewrite kind_fetch. unfold fault_spec.
  destruct (ppc_page s _ _) as [[p q]|]; [destruct Hpg as [-> Hr]; destruct (bit_any q (prot_of ty)) eqn:Eq|subst ret].
  - apply check_granted in Eq. rewrite Eq in *. destruct (Hr eq_refl) as [<- <-].
    apply wp_ret. split; [|done]. f_equal. by apply page_mask32.
  - clear Hr. rewrite check_denied by done. clear Eq. destruct ty; cbn.
    3: eapply wp_seq; [apply code_fault_wp; auto|]; intros r s' [-> Hs]; by apply wp_ret.
    1: eapply wp_seq; [apply (data_fault_wp ctx s MMU_DATA_LOAD); auto|].
    2: eapply wp_seq; [apply (data_fault_wp ctx s MMU_DATA_STORE); auto|].
    all: intros r s' [Hs ->]; by apply wp_ret.
  - destruct ty; cbn.
    3: eapply wp_seq; [apply code_fault_wp; auto|]; intros r s' (-> & Hs); by apply wp_ret.
    1: eapply wp_seq; [apply (data_fault_wp ctx s MMU_DATA_LOAD); auto|].
    2: eapply wp_seq; [apply (data_fault_wp ctx s MMU_DATA_STORE); auto|].
    all: intros r s' (Hs & -> & Hr); by apply wp_ret.
Qed.

Definition ppc_fill (s : tlb_state) (ty : MMUAccessType) (a : Z) : filled tlb_state :=
  match cpu_ppc_handle_mmu_fault ctx0 at_ a (rw_of ty) (Z.of_nat (ppc_idx s ty)) s with
  | Done (FaultMapped va pa q, s') => Filled pa MEMTXATTRS_UNSPECIFIED q PpcTlb.TARGET_PAGE_SIZE s'
  | Done (FaultRaised _, s') => Fault s'
  | _ => Fault s
  end.

Definition set_msr (v : Z) (env : CPUPPCState) : CPUPPCState :=
  mk_ppc (gpr env) v (sr env) (nb_BATs env) (DBAT env) (IBAT env) (nb_tlb env)
    (tlb_per_way env) (nb_ways env) (id_tlbs env) (nb_pids env) (tlb6 env) (tlbe env)
    (tlbm env) (pb0 env) (pb1 env) (pb2 env) (pb3 env) (spr env) (mmu_model env) (ppc_cpu_index env).

(** What the guest does: an instruction that manages the TLBs, with its flushes; or a change of
    the machine state register (an exception, a return or a move), which selects other modes
    and flushes nothing.  The core has no guest state. *)
Inductive ppc_step (s : tlb_state) : list tlb_call -> tlb_state -> Prop :=
| ppc_op op s' fs :
    op_ok op = true -> run_op op s = Done ((), s') -> flushes s' = flushes s ++ fs ->
    ppc_step s (to_call <$> fs) s'
| ppc_msr v :
    msr_gs (set_msr v (t_env s)) = 0 -> ppc_step s [] (set_env (set_msr v (t_env s)) s).

Lemma find_set_msr v env epid ts a ways :
  find_entry (set_msr v env) epid ts a ways = find_entry env epid ts a ways.
Proof. induction ways as [|[n j] ways IH]; cbn [find_entry]; [done|]. by rewrite IH. Qed.

Lemma page_set_msr v s idx va : (idx < 10)%nat ->
  ppc_page (set_env (set_msr v (t_env s)) s) idx va = ppc_page s idx va.
Proof.
  intros Hidx. unfold ppc_page. cbn [t_env set_env].
  assert (Hs : space (set_msr v (t_env s)) idx = space (t_env s) idx).
  { unfold space. destruct (Nat.ltb_spec idx 8); [done|].
    assert (idx = 8%nat \/ idx = 9%nat) as [-> | ->] by lia; done. }
  rewrite Hs. destruct (space (t_env s) idx) as [[epid ts] pr]. by rewrite find_set_msr.
Qed.

Lemma set_msr_inv v s : e500_inv s -> msr_gs (set_msr v (t_env s)) = 0 ->
  e500_inv (set_env (set_msr v (t_env s)) s).
Proof. intros [] Hv. by constructor. Qed.

Lemma page_le_refl o : page_le o o.
Proof.
  destruct o as [[p q]|]; [|done]. exists q. split; [done|]. apply Z.land_diag.
Qed.

Lemma ppc_page_aligned s idx va p q : ppc_page s idx va = Some (p, q) -> Z.land p PG = p.
Proof.
  unfold ppc_page. destruct (space (t_env s) idx) as [[epid ts] pr].
  destruct (find_entry _ _ _ _ _) as [[e ra]|]; [|done]. intros [= <- _]. by rewrite <- Z.land_assoc.
Qed.

Definition ppc_inv (s : tlb_state) : Prop := e500_inv s /\ is_booke206 s.

Lemma safe_inv s fs s' : ppc_inv s -> safe s fs s' -> ppc_inv s'.
Proof. intros [_ Hm] (H & _ & _ & _ & Hmm & _). split; [done|]. unfold is_booke206. by rewrite Hmm. Qed.

#[program] Definition ppc_mmu : Mmu tlb_state := {|
  mmu_inv := ppc_inv;
  mmu_page := ppc_page;
  mmu_idx := ppc_idx;
  mmu_fill := ppc_fill;
  mmu_step := ppc_step
|}.
Next Obligation.
  intros s ty [H Hm]. destruct (ppc_idx_space s ty H Hm) as [Hlt _]. cbn. lia.
Qed.
Next Obligation.
  intros s ty a pa attrs q size s' [H Hm] Ha Hf. unfold ppc_fill in Hf.
  pose proof (fault_wp s ty a H Hm Ha) as Hw.
  apply wp_total in Hw as (r & s1 & Hr & Hp). rewrite Hr in Hf.
  destruct r as [va pa' q'|]; [|done]. injection Hf as -> _ -> <- ->. destruct Hp as (-> & _ & Hpg & Hq).
  split_and!; [done|by left|done|intros; apply page_le_refl|done|]. exists q.
  split; [apply Z.land_diag|]. pose proof (ppc_page_aligned _ _ _ _ _ Hpg) as Hal.
  change (ppc_page s (ppc_idx s ty) (Z.land a PG) = Some (Z.land pa PG, q)). by rewrite Hal.
Qed.
Next Obligation.
  intros s ty a s' [H Hm] Ha Hf. unfold ppc_fill in Hf.
  pose proof (fault_wp s ty a H Hm Ha) as Hw.
  apply wp_total in Hw as (r & s1 & Hr & Hp). rewrite Hr in Hf.
  destruct r as [va pa' q'|]; [done|]. injection Hf as ->. split; [by eapply safe_inv|].
  intros idx va Hidx Hva. destruct (safe_pages s [] s' idx va H Hp Hidx Hva) as [->|Hx%Exists_nil]; [|done].
  apply page_le_refl.
Qed.
Next Obligation.
  intros s fs s' [H Hm] [op s1 gs Hok Hr Hf|v Hv].
  - destruct (wp_total _ _ _ (op_safe op s H Hok)) as (u & s2 & Hr' & fs' & Hs).
    rewrite Hr in Hr'. injection Hr' as _ <-. pose proof (proj1 (proj2 Hs)) as Hf'. rewrite Hf in Hf'.
    apply app_inv_head in Hf' as ->. split_and!; [by eapply safe_inv| | |].
    + apply Forall_fmap, Forall_true. by intros [].
    + apply Forall_fmap, Forall_true. intros []; cbn; [|done|done].
      split; [by apply wrap_range|done].
    + intros idx va Hidx Hva. destruct (safe_pages s fs' s1 idx va H Hs Hidx Hva) as [->|Hx].
      * left. apply page_le_refl.
      * right. by apply Exists_fmap.
  - split_and!; [|done..|].
    + split; [by apply set_msr_inv|done].
    + intros idx va Hidx Hva. left. rewrite page_set_msr by done. apply page_le_refl.
Qed.
End fill.

(** ** The tracer *)

(** The search of the tracer: a data access that reads. *)
Lemma read_run ctx s a e ra :
  e500_inv s -> is_booke206 s ->
  find_entry (t_env s) None (msr_ds (t_env s)) a e500_way_list = Some (e, ra) ->
  bit_any (mas3_prot e (negb (msr_pr (t_env s) =? 0))) PAGE_READ = true ->
  exists ctx', get_physical_address ctx a 0 ACCESS_INT (t_env s) = Done ((0, ctx'), t_env s)
    /\ raddr ctx' = ra.
Proof.
  intros H Hm Hf Hr. unfold get_physical_address, get_physical_address_wtlb. rewrite run_gets.
  change (id (t_env s)) with (t_env s). rewrite Hm.
  unfold mmubooke206_get_physical_address. rewrite run_gets, (e500_tlb_ways s H).
  destruct (booke206_loop_run s e500_way_list HWADDR_NONE ctx a 0 ACCESS_INT 0 None
    (negb (msr_ds (t_env s) =? 0)) (negb (msr_pr (t_env s) =? 0)) H way_list_two eq_refl (fun _ => eq_refl))
    as (ra0 & ctx1 & Hl).
  change (ACCESS_INT =? ACCESS_CODE) with false in Hl. cbv iota in Hl.
  replace (Z.b2z (negb (msr_ds (t_env s) =? 0))) with (msr_ds (t_env s)) in Hl
    by (by destruct (msr_bit_cases MSR_DR (t_env s)) as [-> | ->]).
  rewrite Hf in Hl. unfold check_code in Hl. rewrite Hr in Hl. change (0 =? 0) with true in Hl.
  cbn [andb orb] in Hl. rewrite (bind_step _ _ _ _ _ Hl). by eexists.
Qed.

Lemma tracer_run cfg ctx wt rt s a e ra :
  QEM_TRACE_PHYSICAL_ADDRESS cfg = true -> e500_inv s -> is_booke206 s ->
  find_entry (t_env s) None (msr_ds (t_env s)) a e500_way_list = Some (e, ra) ->
  bit_any (mas3_prot e (negb (msr_pr (t_env s) =? 0))) PAGE_READ = true ->
  exists info, qem_ppc_get_info_addr_mem_trace cfg ctx wt a rt (t_env s) = Done ((u32 ra, info), t_env s).
Proof.
  intros Hp H Hm Hf Hr. destruct (read_run ctx s a e ra H Hm Hf Hr) as (ctx' & Hg & <-).
  pose proof (internal_run ctx a 0 ACCESS_INT rt (mk_cinfo wt (-1) (-1)) (t_env s)) as Hi.
  rewrite Hg in Hi. destruct Hi as [info Hi]. exists info. unfold qem_ppc_get_info_addr_mem_trace.
  rewrite (bind_step _ _ _ _ _ Hi), Hp. done.
Qed.

(** The entry behind the page of a data access. *)
Lemma ppc_page_entry s ty a p q :
  e500_inv s -> is_booke206 s -> 0 <= a < 2 ^ 32 -> ty <> MMU_INST_FETCH ->
  ppc_page s (ppc_idx s ty) (Z.land a PG) = Some (p, q) ->
  exists e, find_entry (t_env s) None (msr_ds (t_env s)) a e500_way_list = Some (e, p + a mod 4096)
    /\ q = mas3_prot e (negb (msr_pr (t_env s) =? 0)).
Proof.
  intros H Hm Ha Hty. destruct (ppc_idx_space s ty H Hm) as (_ & Hsp & _). unfold ppc_page. rewrite Hsp.
  replace (is_fetch ty) with false by (by destruct ty). cbv iota.
  destruct (find_in_page s None (msr_ds (t_env s)) a e500_way_list H Ha) as [-> Hra].
  destruct (find_entry _ _ _ a _) as [[e ra]|]; [|done]. cbn [fmap option_fmap option_map prod_map fst snd id].
  intros [<- <-]%(inj Some)%pair_equal_spec. exists e. split; [|done]. rewrite <- Z.land_assoc. change (Z.land PG PG) with PG.
  do 2 f_equal. rewrite (Hra e ra eq_refl) at 1. rewrite lor_add, Z.land_ones by (done || (change PG with (Z.lnot (Z.ones 12)); bits)).
  done.
Qed.

(** ** Properties *)

Section Run.
Context {M : MemoryMap} (ctx0 : mmu_ctx_t) (at_ : Z) (Hat : at_ <> ACCESS_CODE).

#[local] Instance e500_mmu : Mmu tlb_state := ppc_mmu ctx0 at_ Hat.

(** C21: what is recorded for a data access of the PowerPC is where the access went.  The e500 of
    the test machine runs from its reset through any sequence of instructions that manage the
    TLBs, changes of the machine state, accesses of any kind and dirty tracking; then a load, or
    a store to a page that can be read, completes, through the cached translation or a fill.  The
    call of the tracer for its address records the physical address in the page that the access
    went to; and when the access needs no callback, the host address is that of the byte at the
    recorded offset of the memory that backs this page. *)
Theorem ppc_recorded_is_accessed cfg ce st c s0 t0 s s' wps clean ty a :
  QEM_TRACE_GATHER_META cfg = true -> QEM_TRACE_PHYSICAL_ADDRESS cfg = true ->
  ppc_inv s0 -> length (modes t0) = NB_MMU_MODES -> Forall lengths_ok (modes t0) ->
  rtc mstep (reset_machine s0 t0) s ->
  unsigned 32 a -> ty <> MMU_INST_FETCH -> tlb_access wps clean ty a s = Completed s' ->
  (ty = MMU_DATA_STORE -> forall p q,
     ppc_page (guest s') (ppc_idx (guest s') ty) (Z.land a PG) = Some (p, q) -> bit_any q PAGE_READ = true) ->
  bit_any st (call_type c) = true -> call_active c ->
  call_addr c (t_env (guest s')) = Done (Some a, t_env (guest s')) ->
  exists p time flg,
    Ppc.run_call cfg ce st c (t_env (guest s'))
      = Done ([OpOutput a (u32 (p + a mod 4096)) (ppc_cpu_index (t_env (guest s'))) time flg],
              t_env (guest s'))
    /\ goes_to (tlb s') (ppc_idx (guest s') ty) ty a p
    /\ forall h, tlb_host (ppc_idx (guest s') ty) ty a (tlb s') = Some h ->
         exists m, mp_paddr m = p /\ h = u64 (host_page m + a mod 4096).
Proof.
  intros Hmeta Hphys Hinv Hlen Hls Hrun Ha Hty Hac Hst Hact Hcact Hca.
  pose proof (run_coherent _ _ Hrun (reset_coherent s0 t0 Hinv Hlen Hls)) as Hcoh.
  pose proof (access_coherent wps clean s ty a Hcoh Ha) as Hres. rewrite Hac in Hres.
  destruct Hres as (Hcoh' & Hidx & p & q & Hpg & Hq & Hgo). cbn [mmu_idx e500_mmu ppc_mmu] in Hidx, Hpg, Hgo.
  rewrite <- Hidx in Hpg, Hgo. destruct (proj1 Hcoh') as [H Hm].
  change (ppc_page (guest s') (ppc_idx (guest s') ty) (Z.land a PG) = Some (p, q)) in Hpg.
  assert (Hread : bit_any q PAGE_READ = true) by (destruct ty; [exact Hq|by apply (Hst eq_refl p)|done]).
  destruct (ppc_page_entry _ _ _ _ _ H Hm Ha Hty Hpg) as (e & Hf & Hq').
  subst q. destruct (tracer_run cfg (ce_ctx ce) (ce_wt ce) (call_code c) _ a e _ Hphys H Hm Hf Hread)
    as [info Htr].
  exists p. do 2 eexists. split; [exact (call_run cfg ce st c _ a _ info _ Hmeta Hact Hcact Hca Htr)|].
  split; [done|]. intros h Hh. destruct (goes_to_host _ _ _ _ _ _ Ha Hgo Hh) as (m & Hm1 & _ & Hm2).
  by exists m.
Qed.
End Run.

(** C24: the fault handler of the e500 answers by what the guest's TLBs hold, whatever the access and
    the machine state.  It always returns.  A page that the TLBs map with the right of the access
    is entered, with the address and all the rights of its entry, and nothing else changes.  A page
    without the right raises the storage exception of the access: of instructions, with a cleared
    syndrome; or of data, with the address in DEAR and the store bit in ESR.  A page that no entry
    maps raises the TLB error of the access with DEAR and ESR, and the MAS registers describe it
    for the guest's handler: its page number, the address space that was searched, the defaults of
    MAS4, and the next way as the entry to replace, which then advances.  No fault changes what any
    mode translates. *)
Theorem ppc_fault_exact ctx0 at_ s ty a :
  at_ <> ACCESS_CODE -> ppc_inv s -> unsigned 32 a ->
  exists r s',
    cpu_ppc_handle_mmu_fault ctx0 at_ a (rw_of ty) (Z.of_nat (ppc_idx s ty)) s = Done (r, s')
    /\ fault_spec s ty a r s'
    /\ forall idx va, (idx < 10)%nat -> aligned va -> ppc_page s' idx va = ppc_page s idx va.
Proof.
  intros Hat [H Hm] Ha.
  destruct (wp_total _ _ _ (fault_exact_wp ctx0 at_ Hat s ty a H Hm Ha)) as (r & s' & Hr & Hs).
  exists r, s'. split_and!; [done..|]. intros idx va Hidx Hva.
  pose proof (fault_wp ctx0 at_ Hat s ty a H Hm Ha) as Hw. unfold wp in Hw. rewrite Hr in Hw.
  destruct r as [? ? ?|e]; [by destruct Hw as [-> _]|].
  by destruct (safe_pages s [] s' idx va H Hw Hidx Hva) as [->|Hx%Exists_nil].
Qed.

(** ** A run

    The machine of the tests from its reset, with RAM everywhere: the guest changes its process
    identifier, an access fills the TLB, and a second access to the page hits. *)

#[local] Existing Instance ram_map.

Lemma int_not_code : ACCESS_INT <> ACCESS_CODE.
Proof. done. Qed.

#[local] Hint Extern 0 (Mmu tlb_state) =>
  exact (e500_mmu ctx_junk ACCESS_INT int_not_code) : typeclass_instances.

Definition exec (op : tlb_op) (s : tlb_state) : tlb_state :=
  match run_op op s with Done (_, s') => s' | _ => s end.

Definition first_entry : ppcmas_tlb_t := mmubooke_create_initial_mapping 18.
Abbreviation start := (reset_machine (e500_state first_entry) (blank_tlb 10)).
Definition after_pid : machine tlb_state :=
  run_flushes [CallFlush ALL_MMUIDX_BITS] start (exec (Setpid SPR_BOOKE_PID 3) (e500_state first_entry)).
Abbreviation load addr := (tlb_access [] (fun _ => false) MMU_DATA_LOAD addr).

(** Both accesses complete, in the mode of a supervisor. *)
Lemma loads_complete :
  exists s s', load 0x1234 after_pid = Completed s /\ load 0x1238 s = Completed s'
    /\ (ppc_idx (guest s') MMU_DATA_LOAD =? 1)%nat && (ppc_cpu_index (t_env (guest s')) =? 0) = true.
Proof.
  apply (completed_test (load 0x1234 after_pid) (load 0x1238)
    (fun s => (ppc_idx (guest s) MMU_DATA_LOAD =? 1)%nat && (ppc_cpu_index (t_env (guest s)) =? 0))).
  vm_compute. reflexivity.
Qed.

Lemma blank_lengths : Forall lengths_ok (modes (blank_tlb 10)).
Proof. apply Forall_replicate. split_and!; reflexivity. Qed.

Lemma first_ppc_inv : ppc_inv (e500_state first_entry).
Proof. split; [apply e500_state_inv; intros _; by vm_compute|done]. Qed.

Lemma pid_step : mstep start after_pid.
Proof.
  assert (Hr : run_op (Setpid SPR_BOOKE_PID 3) (e500_state first_entry)
    = Done ((), exec (Setpid SPR_BOOKE_PID 3) (e500_state first_entry))) by reflexivity.
  apply (step_guest start). exact (ppc_op _ (Setpid SPR_BOOKE_PID 3) _ [FlushAll] eq_refl Hr eq_refl).
Qed.

Lemma ppc_recorded_is_accessed_witness :
  exists s' p time flg,
    Ppc.run_call (cfg_small true false) ce_junk 1 (CallDirect false false 0x1238 4) (t_env (guest s'))
      = Done ([OpOutput 0x1238 (u32 (p + 0x238)) 0 time flg], t_env (guest s'))
    /\ goes_to (tlb s') 1 MMU_DATA_LOAD 0x1238 p.
Proof.
  assert (H4 : unsigned 32 0x1234) by done. assert (H8 : unsigned 32 0x1238) by done.
  destruct loads_complete as (s & s' & Hs & Hs' & Ht).
  apply andb_true_iff in Ht as [Hi%Nat.eqb_eq Hc%Z.eqb_eq].
  assert (Hrun : rtc mstep start s).
  { eapply rtc_l; [apply pid_step|]. eapply rtc_l; [|apply rtc_refl].
    exact (step_access after_pid [] (fun _ => false) MMU_DATA_LOAD 0x1234 s H4 (or_introl Hs)). }
  clear Hs.
  destruct (ppc_recorded_is_accessed ctx_junk ACCESS_INT int_not_code (cfg_small true false) ce_junk 1
    (CallDirect false false 0x1238 4) (e500_state first_entry) (blank_tlb 10) s s' [] (fun _ => false)
    MMU_DATA_LOAD 0x1238 eq_refl eq_refl first_ppc_inv eq_refl blank_lengths Hrun H8 ltac:(discriminate)
    Hs' ltac:(discriminate) eq_refl I eq_refl) as (p & time & flg & Hr & Hg & _).
  exists s', p, time, flg. rewrite Hi in Hg. rewrite Hc in Hr. exact (conj Hr Hg).
Defined.

(** A store that the first entry does not map. *)
Lemma ppc_fault_exact_witness :
  exists s',
    cpu_ppc_handle_mmu_fault ctx_junk ACCESS_INT 0x20000123 1 1 (e500_state first_entry)
      = Done (FaultRaised (Some (POWERPC_EXCP_DTLB, 0)), s')
    /\ syndrome 0x20000123 ESR_ST s' /\ miss_regs (e500_state first_entry) 0x20000123 false s'.
Proof.
  assert (Ha : unsigned 32 0x20000123) by done.
  destruct (ppc_fault_exact ctx_junk ACCESS_INT (e500_state first_entry) MMU_DATA_STORE _
    int_not_code first_ppc_inv Ha) as (r & s' & Hr & Hs & _).
  unfold fault_spec in Hs.
  replace (ppc_page _ _ _) with (@None (Z * Z)) in Hs by (vm_compute; reflexivity).
  replace (Z.of_nat _) with 1 in Hr by (vm_compute; reflexivity).
  replace (negb (_ =? 0)) with false in Hs by (vm_compute; reflexivity).
  destruct Hs as (-> & Hs & Hm). exact (ex_intro _ s' (conj Hr (conj Hs Hm))).
Defined.
