(* ===== verification/X86Run.v ===== *)
(** * The accesses of an i386 guest

    The processor of the i386 target with its software TLB: the instructions that change how
    addresses are translated ([target/i386/helper.c], [misc_helper.c]) with the flushes they
    make, [tlb_fill] ([mem_helper.c]) over the memory management unit of [X86Mmu], and the index
    of an access ([cpu.h]).  They make an instance of the interface of [Coherence].

    The theorem composes it with the tracer: the record of a load or store has the physical
    address that the access went to. *)

From S2P Require Import Prelude Bits TraceDef Trace Sink Guest CpuTlb CpuTlbProof Coherence.
From S2P Require Import I386 X86Mmu.

(** ** State *)

Record x86_guest := mk_guest {
  x_cr0 : Z;
  x_cr2 : Z;
  x_cr3 : Z;
  x_cr4 : Z;
  x_cs_selector : Z;
  x_hflags : Z;
  x_hflags2 : Z;
  x_eflags : Z;
  x_a20_mask : Z;
  x_cpu_index : Z;
  x_efer : Z;
  x_pkru : Z;
  x_xcr0 : Z;
  x_bndcs_cfgu : Z;
  x_msr_bndcfgs : Z;
  x_nested_pg_mode : Z;
  x_nested_cr3 : Z;
  x_vm_vmcb : Z;
  x_intercept_exceptions : Z;
  x_error_code : Z;
  x_exception_index : Z;
  x_mem : memory
}.

(** What [CPUID] tells of the processor. *)
Record cpu_features := mk_features {
  f_sse : bool; f_smap : bool; f_pku : bool;
  f_syscall : bool; f_lm : bool; f_ffxsr : bool; f_nx : bool; f_svm : bool
}.

Definition HF_CPL_MASK := 0x3.
Definition HF_ADDSEG_SHIFT := 6.
Definition HF_PE_SHIFT := 7.
Definition HF_PE_MASK := 0x80.
Definition HF_MP_SHIFT := 9.
Definition HF_MP_EM_TS_MASK := 0xe00.
Definition HF_LMA_MASK := 0x4000.
Definition HF_SMM_MASK := 0x80000.
Definition HF_SVME_MASK := 0x100000.
Definition HF_GUEST_MASK := 0x200000.
Definition HF_OSFXSR_MASK := 0x400000.
Definition HF_SMAP_MASK := 0x800000.
Definition HF_MPX_EN_MASK := 0x2000000.
Definition HF2_MPX_PR_MASK := 0x20.
Definition CR0_PE_MASK := 0x1.
Definition CR0_ET_MASK := 0x10.
Definition CR4_PGE_MASK := 0x80.
Definition CR4_OSFXSR_MASK := 0x200.
Definition CR4_LA57_MASK := 0x1000.
Definition CR4_OSXSAVE_MASK := 0x40000.
Definition CR4_SMAP_MASK := 0x200000.
Definition AC_MASK := 0x40000.
Definition MSR_EFER_SCE := 0x1.
Definition MSR_EFER_LME := 0x100.
Definition MSR_EFER_LMA := 0x400.
Definition MSR_EFER_SVME := 0x1000.
Definition MSR_EFER_FFXSR := 0x4000.
Definition XSTATE_BNDCSR_MASK := 0x10.
Definition BNDCFG_ENABLE := 0x1.
Definition BNDCFG_BNDPRESERVE := 0x2.
Definition EXCP06_ILLOP := 6.
Definition EXCP0D_GPF := 13.

(** The registers that the memory management unit and the tracer read. *)
Definition env_of (g : x86_guest) : mmu_regs :=
  mk_mmu_regs
    (mk_x86 (x_cr0 g) (x_cr3 g) (x_cr4 g) (x_cs_selector g) (bit_any (x_hflags g) HF_SMM_MASK)
       (x_a20_mask g) (x_cpu_index g))
    (x_efer g) (bit_any (x_hflags g) HF_LMA_MASK) (x_hflags2 g) (x_pkru g) (x_nested_pg_mode g)
    (x_nested_cr3 g) (x_vm_vmcb g) (x_intercept_exceptions g).

(** Updates: the control registers, the flags, the other registers of the translation, and
    what the translation changes. *)
Definition set_crs (cr0 cr2 cr3 cr4 : Z) (g : x86_guest) : x86_guest :=
  mk_guest cr0 cr2 cr3 cr4 (x_cs_selector g) (x_hflags g) (x_hflags2 g) (x_eflags g) (x_a20_mask g)
    (x_cpu_index g) (x_efer g) (x_pkru g) (x_xcr0 g) (x_bndcs_cfgu g) (x_msr_bndcfgs g)
    (x_nested_pg_mode g) (x_nested_cr3 g) (x_vm_vmcb g) (x_intercept_exceptions g)
    (x_error_code g) (x_exception_index g) (x_mem g).

Definition set_flags (cs hflags hflags2 eflags : Z) (g : x86_guest) : x86_guest :=
  mk_guest (x_cr0 g) (x_cr2 g) (x_cr3 g) (x_cr4 g) cs hflags hflags2 eflags (x_a20_mask g)
    (x_cpu_index g) (x_efer g) (x_pkru g) (x_xcr0 g) (x_bndcs_cfgu g) (x_msr_bndcfgs g)
    (x_nested_pg_mode g) (x_nested_cr3 g) (x_vm_vmcb g) (x_intercept_exceptions g)
    (x_error_code g) (x_exception_index g) (x_mem g).

Definition set_efer_pkru (efer pkru : Z) (g : x86_guest) : x86_guest :=
  mk_guest (x_cr0 g) (x_cr2 g) (x_cr3 g) (x_cr4 g) (x_cs_selector g) (x_hflags g) (x_hflags2 g)
    (x_eflags g) (x_a20_mask g) (x_cpu_index g) efer pkru (x_xcr0 g) (x_bndcs_cfgu g)
    (x_msr_bndcfgs g) (x_nested_pg_mode g) (x_nested_cr3 g) (x_vm_vmcb g)
    (x_intercept_exceptions g) (x_error_code g) (x_exception_index g) (x_mem g).

Definition set_memory (cr2 error excp : Z) (m : memory) (g : x86_guest) : x86_guest :=
  mk_guest (x_cr0 g) cr2 (x_cr3 g) (x_cr4 g) (x_cs_selector g) (x_hflags g) (x_hflags2 g)
    (x_eflags g) (x_a20_mask g) (x_cpu_index g) (x_efer g) (x_pkru g) (x_xcr0 g) (x_bndcs_cfgu g)
    (x_msr_bndcfgs g) (x_nested_pg_mode g) (x_nested_cr3 g) (x_vm_vmcb g)
    (x_intercept_exceptions g) error excp m.

Abbreviation set_hflags hf g := (set_flags (x_cs_selector g) hf (x_hflags2 g) (x_eflags g) g).

(** ** Instructions

    They run outside of a virtual machine ([HF_GUEST_MASK] is clear), so that
    [cpu_svm_check_intercept_param] returns at once. *)

Inductive x86_exec :=
| X86Done (g : x86_guest) (flushes : list tlb_call)
| X86Raised (excp : Z).

Section instructions.
Context {T : Target} (feat : cpu_features).

(** The calls of the software TLB. *)
Abbreviation flush_all := (CallFlush ALL_MMUIDX_BITS).
Abbreviation flush_page a := (CallFlushPage a ALL_MMUIDX_BITS).

Definition cpu_x86_update_cr0 (new_cr0 : Z) (g : x86_guest) : x86_guest * list tlb_call :=
  let mask := Z.lor (Z.lor CR0_PG_MASK CR0_WP_MASK) CR0_PE_MASK in
  let fs := if Z.land new_cr0 mask =? Z.land (x_cr0 g) mask then [] else [flush_all] in
  let cr0 := Z.lor new_cr0 CR0_ET_MASK in
  let pe_state := Z.land cr0 CR0_PE_MASK in
  let hflags := Z.lor (Z.land (x_hflags g) (Z.lnot HF_PE_MASK)) (Z.shiftl pe_state HF_PE_SHIFT) in
  let hflags := Z.lor hflags (Z.shiftl (Z.lxor pe_state 1) HF_ADDSEG_SHIFT) in
  let hflags := Z.lor (Z.land hflags (Z.lnot HF_MP_EM_TS_MASK))
    (Z.land (Z.shiftl new_cr0 (HF_MP_SHIFT - 1)) HF_MP_EM_TS_MASK) in
  (set_hflags hflags (set_crs cr0 (x_cr2 g) (x_cr3 g) (x_cr4 g) g), fs).

Definition cpu_x86_update_cr3 (new_cr3 : Z) (g : x86_guest) : x86_guest * list tlb_call :=
  (set_crs (x_cr0 g) (x_cr2 g) new_cr3 (x_cr4 g) g,
   if bit_any (x_cr0 g) CR0_PG_MASK then [flush_all] else []).

Definition cpu_sync_bndcs_hflags (g : x86_guest) : x86_guest :=
  let bndcsr := if Z.land (x_hflags g) HF_CPL_MASK =? 3 then x_bndcs_cfgu g else x_msr_bndcfgs g in
  let hflags :=
    if bit_any (x_cr4 g) CR4_OSXSAVE_MASK && bit_any (x_xcr0 g) XSTATE_BNDCSR_MASK
       && bit_any bndcsr BNDCFG_ENABLE
    then Z.lor (x_hflags g) HF_MPX_EN_MASK else Z.land (x_hflags g) (Z.lnot HF_MPX_EN_MASK) in
  let hflags2 :=
    if bit_any bndcsr BNDCFG_BNDPRESERVE
    then Z.lor (x_hflags2 g) HF2_MPX_PR_MASK else Z.land (x_hflags2 g) (Z.lnot HF2_MPX_PR_MASK) in
  set_flags (x_cs_selector g) hflags hflags2 (x_eflags g) g.

Definition cpu_x86_update_cr4 (new_cr4 : Z) (g : x86_guest) : x86_guest * list tlb_call :=
  let mask := Z.lor CR4_PGE_MASK (Z.lor CR4_PAE_MASK (Z.lor CR4_PSE_MASK
    (Z.lor CR4_SMEP_MASK (Z.lor CR4_SMAP_MASK CR4_LA57_MASK)))) in
  let fs := if bit_any (Z.lxor new_cr4 (x_cr4 g)) mask then [flush_all] else [] in
  let hflags := Z.land (x_hflags g) (Z.lnot (Z.lor HF_OSFXSR_MASK HF_SMAP_MASK)) in
  let new_cr4 := if f_sse feat then new_cr4 else Z.land new_cr4 (Z.lnot CR4_OSFXSR_MASK) in
  let hflags := if bit_any new_cr4 CR4_OSFXSR_MASK then Z.lor hflags HF_OSFXSR_MASK else hflags in
  let new_cr4 := if f_smap feat then new_cr4 else Z.land new_cr4 (Z.lnot CR4_SMAP_MASK) in
  let hflags := if bit_any new_cr4 CR4_SMAP_MASK then Z.lor hflags HF_SMAP_MASK else hflags in
  let new_cr4 := if f_pku feat then new_cr4 else Z.land new_cr4 (Z.lnot CR4_PKE_MASK) in
  (cpu_sync_bndcs_hflags (set_hflags hflags (set_crs (x_cr0 g) (x_cr2 g) (x_cr3 g) new_cr4 g)), fs).

(** [mov crN, reg], for the registers that the translator lets through: 0, 2, 3, 4 and 8.  The
    last one is the task priority, which the interrupt controller keeps. *)
Definition helper_write_crN (reg t0 : Z) (g : x86_guest) : x86_guest * list tlb_call :=
  if reg =? 0 then cpu_x86_update_cr0 t0 g
  else if reg =? 3 then cpu_x86_update_cr3 t0 g
  else if reg =? 4 then cpu_x86_update_cr4 t0 g
  else if reg =? 8 then (g, [])
  else (set_crs (x_cr0 g) t0 (x_cr3 g) (x_cr4 g) g, []).

Definition helper_invlpg (addr : Z) (g : x86_guest) : x86_guest * list tlb_call := (g, [flush_page addr]).

Definition helper_wrpkru (ecx val : Z) (g : x86_guest) : x86_exec :=
  if Z.land (x_cr4 g) CR4_PKE_MASK =? 0 then X86Raised EXCP06_ILLOP
  else if negb (ecx =? 0) || bit_any val 0xFFFFFFFF00000000 then X86Raised EXCP0D_GPF
  else X86Done (set_efer_pkru (x_efer g) val g) [flush_all].

Definition cpu_load_efer (val : Z) (g : x86_guest) : x86_guest :=
  let hflags := Z.land (x_hflags g) (Z.lnot (Z.lor HF_LMA_MASK HF_SVME_MASK)) in
  let hflags := if bit_any val MSR_EFER_LMA then Z.lor hflags HF_LMA_MASK else hflags in
  let hflags := if bit_any val MSR_EFER_SVME then Z.lor hflags HF_SVME_MASK else hflags in
  set_hflags hflags (set_efer_pkru val (x_pkru g) g).

(** [wrmsr], for [MSR_EFER]. *)
Definition helper_wrmsr_efer (val : Z) (g : x86_guest) : x86_guest :=
  let add (b : bool) bit mask := if b then Z.lor mask bit else mask in
  let update_mask :=
    add (f_svm feat) MSR_EFER_SVME (add (f_nx feat) MSR_EFER_NXE (add (f_ffxsr feat) MSR_EFER_FFXSR
      (add (f_lm feat) MSR_EFER_LME (add (f_syscall feat) MSR_EFER_SCE 0)))) in
  cpu_load_efer (Z.lor (Z.land (x_efer g) (Z.lnot update_mask)) (Z.land val update_mask)) g.

Inductive x86_op :=
| WriteCrN (reg t0 : Z)
| Invlpg (addr : Z)
| Wrpkru (ecx val : Z)
| WrmsrEfer (val : Z).

Definition x86_run (o : x86_op) (g : x86_guest) : x86_exec :=
  match o with
  | WriteCrN reg t0 => X86Done (helper_write_crN reg t0 g).1 (helper_write_crN reg t0 g).2
  | Invlpg addr => X86Done (helper_invlpg addr g).1 (helper_invlpg addr g).2
  | Wrpkru ecx val => helper_wrpkru ecx val g
  | WrmsrEfer val => X86Done (helper_wrmsr_efer val g) []
  end.

(** ** Accesses *)

Definition cpu_mmu_index (g : x86_guest) : Z :=
  if Z.land (x_hflags g) HF_CPL_MASK =? 3 then MMU_USER_IDX
  else if negb (bit_any (x_hflags g) HF_SMAP_MASK) || bit_any (x_eflags g) AC_MASK
  then MMU_KNOSMAP_IDX else MMU_KSMAP_IDX.

Definition cpu_get_mem_attrs (g : x86_guest) : Z := Z.b2z (bit_any (x_hflags g) HF_SMM_MASK).

Definition access_num (ty : MMUAccessType) : Z :=
  match ty with CpuTlb.MMU_DATA_LOAD => 0 | CpuTlb.MMU_DATA_STORE => 1 | CpuTlb.MMU_INST_FETCH => 2 end.

(** The translation enters at most one page.  Its assertions do not fail and it does not leave a
    virtual machine outside of nested paging ([X86Mmu.handle_run]). *)
Definition tlb_fill (ty : MMUAccessType) (mmu_idx addr : Z) (g : x86_guest) : filled x86_guest :=
  match x86_cpu_handle_mmu_fault (env_of g) addr (access_num ty) mmu_idx
          (mk_mmu_state (x_mem g) [] (x_cr2 g) (x_error_code g) (x_exception_index g)) with
  | Done (Returned r, s) =>
      let g' := set_memory (cr2 s) (error_code s) (exception_index s) (mem s) g in
      match tlb s with
      | p :: _ => if r =? 0 then Filled (tlb_paddr p) (cpu_get_mem_attrs g) (tlb_prot p) (tlb_size p) g'
                  else Fault g'
      | [] => Fault g'
      end
  | _ => Fault g
  end.
End instructions.

(** ** What the tables grant, for a page *)

Lemma page_of_page pte size a : page_of pte size (Z.land a (Z.lnot 0xfff)) = page_of pte size a.
Proof. unfold page_of. by rewrite <- (Z.land_assoc a), Z.land_diag. Qed.

Lemma page_of_aligned pte k a :
  12 <= k <= 22 -> Z.land (page_of pte (2 ^ k) a) (Z.lnot 0xfff) = page_of pte (2 ^ k) a.
Proof.
  intros Hk. unfold page_of. replace (2 ^ k - 1) with (Z.ones k) by (rewrite Z.ones_equiv; lia).
  unfold PG_ADDRESS_MASK. mask_fields. bits.
Qed.

Lemma rights_page env idx a m :
  x86_rights env idx (Z.land a (Z.lnot 0xfff)) m = x86_rights env idx a m.
Proof.
  assert (Hs : forall n k, 12 <= n -> 0 <= k ->
    Z.land (Z.shiftr (Z.land a (Z.lnot 0xfff)) n) k = Z.land (Z.shiftr a n) k).
  { intros n k Hn Hk. apply Z.bits_inj'. intros i Hi. change 0xfff with (Z.ones 12).
    rewrite !Z.land_spec, !Z.shiftr_spec, Z.land_spec, Z.lnot_spec, Z.ones_spec_high by lia.
    by rewrite andb_true_r. }
  assert (Hw : table_walk env (Z.land a (Z.lnot 0xfff)) m = table_walk env a m).
  { unfold table_walk. rewrite !Hs by lia.
    replace (Z.land (Z.shiftr (Z.land a (Z.lnot 0xfff)) 10) 0xffc) with (Z.land (Z.shiftr a 10) 0xffc); [done|].
    change 0xffc with (Z.shiftl (Z.ones 10) 2). change 0xfff with (Z.ones 12). bits. }
  unfold x86_rights. rewrite Hw. case_match.
  - do 2 f_equal. rewrite page_of_page. unfold page_of. change (4096 - 1) with 0xfff.
    by rewrite (Z.land_comm PG_ADDRESS_MASK), (Z.land_assoc _ (Z.lnot 0xfff)), <- (Z.land_assoc a), Z.land_diag, <- Z.land_assoc.
  - destruct (table_walk env a m) as [l|]; [|done]. cbn [mbind option_bind]. unfold leaf_rights.
    by rewrite page_of_page.
Qed.

Lemma rights_aligned env idx a m page q :
  x86_rights env idx a m = Some (page, q) -> Z.land page (Z.lnot 0xfff) = page.
Proof.
  unfold x86_rights. case_match.
  - intros [= <- _]. by apply (page_of_aligned _ 12).
  - destruct (table_walk env a m) as [l|] eqn:E; [|done]. cbn [mbind option_bind]. unfold leaf_rights.
    destruct (table_walk_ok _ _ _ _ E) as (_ & k & Hk & ->). case_match; [done|].
    intros (q' & _ & [= -> _])%fmap_Some. by apply page_of_aligned.
Qed.

(** The bits of the registers that matter. *)
Lemma rights_env env env' idx a m :
  hflags_lma env = false -> hflags_lma env' = false ->
  bit_any (cr0 (regs env')) CR0_PG_MASK = bit_any (cr0 (regs env)) CR0_PG_MASK ->
  (bit_any (cr0 (regs env)) CR0_PG_MASK = true ->
   bit_any (cr0 (regs env')) CR0_WP_MASK = bit_any (cr0 (regs env)) CR0_WP_MASK
   /\ cr3 (regs env') = cr3 (regs env)
   /\ bit_any (cr4 (regs env')) CR4_PAE_MASK = bit_any (cr4 (regs env)) CR4_PAE_MASK
   /\ bit_any (cr4 (regs env')) CR4_PSE_MASK = bit_any (cr4 (regs env)) CR4_PSE_MASK
   /\ bit_any (cr4 (regs env')) CR4_SMEP_MASK = bit_any (cr4 (regs env)) CR4_SMEP_MASK
   /\ (bit_any (cr4 (regs env)) CR4_PAE_MASK = true ->
       bit_any (efer env') MSR_EFER_NXE = bit_any (efer env) MSR_EFER_NXE)) ->
  x86_rights env' idx a m = x86_rights env idx a m.
Proof.
  intros Hl Hl' Hpg Hon. unfold x86_rights. rewrite Hpg.
  destruct (bit_any (cr0 (regs env)) CR0_PG_MASK); [|done]. cbn [negb].
  destruct (Hon eq_refl) as (Hwp & H3 & Hpae & Hpse & Hsmep & Hnx). clear Hon.
  assert (table_walk env' a m = table_walk env a m) as ->.
  { unfold table_walk. rewrite H3, Hpae, Hpse. by destruct (bit_any (cr4 (regs env)) CR4_PAE_MASK); [rewrite Hnx|]. }
  destruct (table_walk env a m) as [l|]; [|done]. cbn [mbind option_bind].
  unfold leaf_rights, leaf_prot, page_prot, pkru_prot. by rewrite Hwp, Hsmep, Hl, Hl', !andb_false_r.
Qed.

(** ** The instance *)

#[local, program] Instance x86_target : Target := {| TARGET_PAGE_BITS := 12; NB_MMU_MODES := 3 |}.
Solve Obligations with lia.

(** The processor is a 32-bit one outside of a virtual machine, its A20 gate open. *)
Record x86_inv (g : x86_guest) : Prop := {
  xi_npt : bit_any (x_hflags2 g) HF2_NPT_MASK = false;
  xi_a20 : x_a20_mask g = -1;
  xi_intercept : bit_any (x_intercept_exceptions g) (Z.shiftl 1 EXCP0E_PAGE) = false;
  xi_lma : bit_any (x_hflags g) HF_LMA_MASK = false;
  xi_guest : bit_any (x_hflags g) HF_GUEST_MASK = false;
  xi_efer : bit_any (x_efer g) MSR_EFER_LMA = false;
  xi_cpu : 0 <= x_cpu_index g < 2 ^ 32
}.

Lemma x86_a20 g : x86_inv g -> x86_get_a20_mask (regs (env_of g)) = -1.
Proof. intros []. unfold x86_get_a20_mask. cbn. by case_match. Qed.

Definition x86_page (g : x86_guest) (idx : nat) (va : Z) : option (Z * Z) :=
  x86_rights (env_of g) (Z.of_nat idx) va (x_mem g).

(** What the guest does beside accesses.  It runs instructions; a change of [EFER.NXE] comes
    with paging off, or without physical address extension.  It changes its privilege level and
    its flags.  It writes to memory: when it takes a translation away, it invalidates the page. *)
Section guest.
Context (feat : cpu_features).

Definition op_ok (o : x86_op) (g : x86_guest) : Prop :=
  match o with
  | Invlpg addr => unsigned 32 addr
  | WrmsrEfer val =>
      bit_any (x_cr0 g) CR0_PG_MASK && bit_any (x_cr4 g) CR4_PAE_MASK = true ->
      bit_any (x_efer (helper_wrmsr_efer feat val g)) MSR_EFER_NXE = bit_any (x_efer g) MSR_EFER_NXE
  | _ => True
  end.

Inductive x86_step (g : x86_guest) : list tlb_call -> x86_guest -> Prop :=
| x86_instruction o g' fs : op_ok o g -> x86_run feat o g = X86Done g' fs -> x86_step g fs g'
| x86_exception o excp :
    x86_run feat o g = X86Raised excp ->
    x86_step g [] (set_memory (x_cr2 g) 0 excp (x_mem g) g)
| x86_flags cs hf hf2 ef :
    (forall k, k ∈ [HF_LMA_MASK; HF_SMM_MASK; HF_GUEST_MASK] -> bit_any hf k = bit_any (x_hflags g) k) ->
    bit_any hf2 HF2_NPT_MASK = bit_any (x_hflags2 g) HF2_NPT_MASK ->
    x86_step g [] (set_flags cs hf hf2 ef g)
| x86_memory m pages :
    Forall (unsigned 32) pages ->
    (forall idx va, (idx < 3)%nat -> aligned va ->
     page_le (x86_page g idx va) (x86_rights (env_of g) (Z.of_nat idx) va m)
     \/ Exists (fun a => Z.land a TARGET_PAGE_MASK = va) pages) ->
    x86_step g ((fun a => CallFlushPage a ALL_MMUIDX_BITS) <$> pages)
      (set_memory (x_cr2 g) (x_error_code g) (x_exception_index g) m g).

(** *** The instructions keep the invariant *)

(** A flag that an update leaves alone. *)
Lemma keep_set hf k c :
  Z.land c k = 0 -> bit_any (Z.lor hf c) k = bit_any hf k.
Proof. intros H. unfold bit_any. by rewrite Z.land_lor_distr_l, H, Z.lor_0_r. Qed.

Lemma keep_clear hf k c :
  Z.land c k = 0 -> bit_any (Z.land hf (Z.lnot c)) k = bit_any hf k.
Proof.
  intros H. unfold bit_any. do 2 f_equal. rewrite <- Z.land_assoc. f_equal. apply Z.bits_inj'. intros i Hi.
  pose proof (Z.land_spec c k i) as E. rewrite H, Z.bits_0 in E.
  rewrite Z.land_spec, Z.lnot_spec by lia. by destruct (Z.testbit c i), (Z.testbit k i).
Qed.

Lemma keep_mask x k c : Z.land c k = 0 -> Z.land (Z.land x c) k = 0.
Proof. intros H. by rewrite <- Z.land_assoc, H, Z.land_0_r. Qed.

Ltac flag_cases H :=
  repeat (apply elem_of_cons in H as [->|H]); try (by apply elem_of_nil in H).

Create Rewrite HintDb keep.
#[local] Hint Rewrite keep_set keep_clear using (first [done | by apply keep_mask]) : keep.

Lemma update_cr0_flag new_cr0 g k :
  k ∈ [HF_LMA_MASK; HF_SMM_MASK; HF_GUEST_MASK] ->
  bit_any (x_hflags (cpu_x86_update_cr0 new_cr0 g).1) k = bit_any (x_hflags g) k.
Proof.
  intros Hk. cbn -[Z.land Z.lor Z.lnot Z.shiftl].
  set (pe := Z.land (Z.lor new_cr0 CR0_ET_MASK) CR0_PE_MASK).
  assert (pe = 0 \/ pe = 1) as [-> | ->].
  { pose proof (Z.land_ones (Z.lor new_cr0 CR0_ET_MASK) 1). pose proof (Z.mod_pos_bound (Z.lor new_cr0 CR0_ET_MASK) (2 ^ 1)).
    subst pe. change CR0_PE_MASK with (Z.ones 1). lia. }
  all: flag_cases Hk.
  all: by autorewrite with keep.
Qed.

Lemma sync_bndcs_flag g k :
  k ∈ [HF_LMA_MASK; HF_SMM_MASK; HF_GUEST_MASK] ->
  bit_any (x_hflags (cpu_sync_bndcs_hflags g)) k = bit_any (x_hflags g) k.
Proof.
  intros Hk. cbn -[Z.land Z.lor Z.lnot]. flag_cases Hk.
  all: case_match; by autorewrite with keep.
Qed.

Lemma sync_bndcs_npt g :
  bit_any (x_hflags2 (cpu_sync_bndcs_hflags g)) HF2_NPT_MASK = bit_any (x_hflags2 g) HF2_NPT_MASK.
Proof. cbn -[Z.land Z.lor Z.lnot]. repeat case_match; by autorewrite with keep. Qed.

Lemma update_cr4_flag new_cr4 g k :
  k ∈ [HF_LMA_MASK; HF_SMM_MASK; HF_GUEST_MASK] ->
  bit_any (x_hflags (cpu_x86_update_cr4 feat new_cr4 g).1) k = bit_any (x_hflags g) k.
Proof.
  intros Hk. unfold cpu_x86_update_cr4. cbn [fst]. rewrite sync_bndcs_flag by done. cbn [x_hflags set_flags].
  flag_cases Hk.
  all: repeat case_match; by autorewrite with keep.
Qed.

Lemma wrmsr_efer_lma val g :
  bit_any (x_efer g) MSR_EFER_LMA = false -> bit_any (x_efer (helper_wrmsr_efer feat val g)) MSR_EFER_LMA = false.
Proof.
  intros H. unfold helper_wrmsr_efer. cbv zeta. set (mask := if f_svm feat then _ else _).
  assert (Hm : Z.land mask MSR_EFER_LMA = 0) by (subst mask; by repeat case_match).
  cbn [x_efer cpu_load_efer set_flags set_efer_pkru].
  rewrite keep_set by (by apply keep_mask). by rewrite keep_clear.
Qed.

Lemma load_efer_flag val g :
  bit_any val MSR_EFER_LMA = false -> bit_any (x_hflags g) HF_LMA_MASK = false ->
  bit_any (x_hflags g) HF_GUEST_MASK = false ->
  bit_any (x_hflags (cpu_load_efer val g)) HF_LMA_MASK = false
  /\ bit_any (x_hflags (cpu_load_efer val g)) HF_GUEST_MASK = false.
Proof.
  intros Hv Hl Hg. unfold cpu_load_efer. cbn [x_hflags set_flags set_efer_pkru]. rewrite Hv.
  assert (Hc : bit_any (Z.land (x_hflags g) (Z.lnot (Z.lor HF_LMA_MASK HF_SVME_MASK))) HF_LMA_MASK = false).
  { unfold bit_any. by rewrite <- Z.land_assoc, Z.land_0_r. }
  split; case_match; autorewrite with keep; done.
Qed.

Lemma instruction_inv o g g' fs : x86_inv g -> x86_run feat o g = X86Done g' fs -> x86_inv g'.
Proof.
  intros [] Hr. destruct o as [reg t0|addr|ecx val|val]; cbn [x86_run] in Hr.
  - injection Hr as <- _. unfold helper_write_crN.
    repeat (case_match; [|]); cbn [fst]; split; try done.
    + by rewrite update_cr0_flag by decide_now.
    + by rewrite update_cr0_flag by decide_now.
    + unfold cpu_x86_update_cr4. cbn [fst]. by rewrite sync_bndcs_npt.
    + by rewrite update_cr4_flag by decide_now.
    + by rewrite update_cr4_flag by decide_now.
  - injection Hr as <- _. by split.
  - unfold helper_wrpkru in Hr. repeat (case_match; [done|]). injection Hr as <- _. by split.
  - injection Hr as <- _. pose proof (wrmsr_efer_lma val g xi_efer0) as He.
    destruct (load_efer_flag _ g He xi_lma0 xi_guest0) as [Hl Hg]. by split.
Qed.

(** *** They flush what they change *)

Lemma all_modes idx : (idx < 3)%nat -> Z.testbit (u16 ALL_MMUIDX_BITS) (Z.of_nat idx) = true.
Proof. intros H. by destruct idx as [|[|[|]]]; [..|lia]. Qed.

Lemma same_page_le (o : option (Z * Z)) : page_le o o.
Proof. destruct o as [[p q]|]; [|done]. exists q. split; [done|]. apply Z.land_diag. Qed.

Lemma bit_of_eq x y mask k :
  prot_le k mask -> Z.land x mask = Z.land y mask -> bit_any x k = bit_any y k.
Proof.
  intros Hk H. unfold bit_any. rewrite <- Hk, (Z.land_comm k), !Z.land_assoc, H. done.
Qed.

(** The pages of the modes are kept, or all of them are flushed. *)
Definition pages_safe (g : x86_guest) (fs : list tlb_call) (g' : x86_guest) : Prop :=
  fs = [CallFlush ALL_MMUIDX_BITS]
  \/ fs = [] /\ forall idx va, x86_page g' idx va = x86_page g idx va.

Lemma update_cr0_safe new_cr0 g :
  x86_inv g -> pages_safe g (cpu_x86_update_cr0 new_cr0 g).2 (cpu_x86_update_cr0 new_cr0 g).1.
Proof.
  intros Hi. unfold pages_safe, cpu_x86_update_cr0 at 1 2. cbn [snd].
  set (mask := Z.lor (Z.lor CR0_PG_MASK CR0_WP_MASK) CR0_PE_MASK).
  destruct (Z.eqb_spec (Z.land new_cr0 mask) (Z.land (x_cr0 g) mask)) as [E|]; [right; split; [done|]|by left].
  assert (Hb : forall k, k = CR0_PG_MASK \/ k = CR0_WP_MASK ->
    bit_any (Z.lor new_cr0 CR0_ET_MASK) k = bit_any (x_cr0 g) k).
  { intros k Hk. rewrite keep_set by (by destruct Hk as [-> | ->]).
    apply (bit_of_eq _ _ mask); [by destruct Hk as [-> | ->]|done]. }
  intros idx va. apply rights_env; [by apply xi_lma| |by apply Hb; left|].
  - cbn [hflags_lma env_of]. rewrite update_cr0_flag by decide_now. by apply xi_lma.
  - intros _. split_and!; try done. by apply Hb; right.
Qed.

Lemma update_cr3_safe new_cr3 g :
  x86_inv g -> pages_safe g (cpu_x86_update_cr3 new_cr3 g).2 (cpu_x86_update_cr3 new_cr3 g).1.
Proof.
  intros Hi. unfold pages_safe, cpu_x86_update_cr3. cbn [fst snd].
  destruct (bit_any (x_cr0 g) CR0_PG_MASK) eqn:E; [by left|right]. split; [done|]. intros idx va.
  apply rights_env; [exact (xi_lma g Hi)..|done|]. cbn [env_of regs cr0]. by rewrite E.
Qed.

Lemma update_cr4_safe new_cr4 g :
  x86_inv g -> pages_safe g (cpu_x86_update_cr4 feat new_cr4 g).2 (cpu_x86_update_cr4 feat new_cr4 g).1.
Proof.
  intros Hi. unfold pages_safe, cpu_x86_update_cr4 at 1 2. cbn [snd].
  set (mask := Z.lor CR4_PGE_MASK _).
  destruct (bit_any (Z.lxor new_cr4 (x_cr4 g)) mask) eqn:E; [by left|right; split; [done|]].
  assert (Hb : forall k, prot_le k mask -> Z.land CR4_OSFXSR_MASK k = 0 -> Z.land CR4_SMAP_MASK k = 0 ->
    Z.land CR4_PKE_MASK k = 0 ->
    bit_any (x_cr4 (cpu_x86_update_cr4 feat new_cr4 g).1) k = bit_any (x_cr4 g) k).
  { intros k Hk H1 H2 H3. cbn -[Z.land Z.lor Z.lnot].
    etransitivity; [repeat case_match; autorewrite with keep; reflexivity|].
    apply (bit_of_eq _ _ mask _ Hk). apply Z.bits_inj'. intros i Hi'. rewrite !Z.land_spec.
    apply negb_false_iff, Z.eqb_eq in E. pose proof (Z.land_spec (Z.lxor new_cr4 (x_cr4 g)) mask i) as Ei.
    rewrite E, Z.bits_0, Z.lxor_spec in Ei.
    by destruct (Z.testbit new_cr4 i), (Z.testbit (x_cr4 g) i), (Z.testbit mask i). }
  intros idx va. apply rights_env; [by apply xi_lma| |done|].
  - cbn [hflags_lma env_of]. rewrite update_cr4_flag by decide_now. by apply xi_lma.
  - intros _. split_and!; try done; by apply Hb.
Qed.

Lemma instruction_safe o g g' fs :
  x86_inv g -> op_ok o g -> x86_run feat o g = X86Done g' fs ->
  pages_safe g fs g' \/ exists a, o = Invlpg a /\ g' = g /\ fs = [CallFlushPage a ALL_MMUIDX_BITS].
Proof.
  intros Hi Ho Hr. destruct o as [reg t0|addr|ecx val|val]; cbn [x86_run] in Hr.
  - left. injection Hr as <- <-. unfold helper_write_crN.
    repeat (case_match; [by eauto using update_cr0_safe, update_cr3_safe, update_cr4_safe|]).
    case_match; right; by split.
  - right. injection Hr as <- <-. eauto.
  - left. unfold helper_wrpkru in Hr. repeat (case_match; [done|]). injection Hr as <- <-. by left.
  - left. injection Hr as <- <-. right. split; [done|]. intros idx va. apply rights_env; [by apply xi_lma| |done|].
    + cbn [hflags_lma env_of].
      by apply (load_efer_flag _ g (wrmsr_efer_lma val g (xi_efer g Hi)) (xi_lma g Hi) (xi_guest g Hi)).
    + intros Hpg. split_and!; try done. intros Hpae. apply Ho.
      cbn [env_of regs cr0 cr4] in *. by rewrite Hpg, Hpae.
Qed.
End guest.

(** ** The fill *)

(** The accessed and dirty bits, and what a fault reports, are not part of the translations. *)
Lemma fill_same g c2 err ex m :
  touched (entry_size (env_of g)) (x_mem g) m ->
  forall idx va, x86_page (set_memory c2 err ex m g) idx va = x86_page g idx va.
Proof. intros Ht idx va. unfold x86_page. by apply (rights_touched (env_of g)). Qed.

Lemma set_memory_inv g c2 err ex m : x86_inv g -> x86_inv (set_memory c2 err ex m g).
Proof. by intros []. Qed.

Lemma fill_run g ty idx a :
  x86_inv g -> unsigned 32 a ->
  match tlb_fill ty (Z.of_nat idx) a g with
  | Filled paddr attrs prot size g' =>
      exists c2 err ex m, g' = set_memory c2 err ex m g /\ touched (entry_size (env_of g)) (x_mem g) m
      /\ size_ok size /\ bit_any prot (prot_of ty) = true
      /\ exists q, prot_le prot q /\ x86_page g idx (Z.land a (Z.lnot 0xfff)) = Some (Z.land paddr (Z.lnot 0xfff), q)
  | Fault g' =>
      exists c2 err ex m, g' = set_memory c2 err ex m g /\ touched (entry_size (env_of g)) (x_mem g) m
  end.
Proof.
  intros Hi Ha. pose proof Hi as []. unfold tlb_fill.
  destruct (handle_run (env_of g) a (access_num ty) (Z.of_nat idx)) with
    (s := mk_mmu_state (x_mem g) [] (x_cr2 g) (x_error_code g) (x_exception_index g))
    as (r & s' & Hrun & Htr); [done| |done|by destruct ty|].
  { by apply x86_a20. }
  rewrite Hrun. destruct Htr as [e s1 s' Ht Hm (_ & Ht' & _ & _ & Hmem) _ _ _|page prot q k s' Hm Hr Hle Hp Hk Ht _].
  - destruct (Hmem xi_intercept0) as [_ E]. rewrite Ht', Ht. cbn [tlb]. do 4 eexists. split; [done|].
    by rewrite E.
  - rewrite Ht. cbn [Z.eqb tlb_paddr tlb_prot tlb_size]. do 4 eexists. split_and!; [done|done| | |].
    + unfold size_ok. destruct (decide (k = 12)) as [->|]; [by left|right]. exists k. split; [|done].
      cbn [TARGET_PAGE_BITS x86_target]. lia.
    + by destruct ty.
    + cbn [mem] in Hr. exists q. split; [done|]. unfold x86_page. rewrite rights_page, Hr. by rewrite (rights_aligned _ _ _ _ _ _ Hr).
Qed.

Definition x86_idx (g : x86_guest) (_ : MMUAccessType) : nat := Z.to_nat (cpu_mmu_index g).

Lemma x86_idx_num g : Z.of_nat (Z.to_nat (cpu_mmu_index g)) = cpu_mmu_index g /\ cpu_mmu_index g < 3.
Proof. unfold cpu_mmu_index. by repeat case_match. Qed.

Definition x86_fill (g : x86_guest) (ty : MMUAccessType) (a : Z) : filled x86_guest :=
  tlb_fill ty (cpu_mmu_index g) a g.

Lemma step_pages feat g fs g' :
  x86_inv g -> x86_step feat g fs g' ->
  x86_inv g' /\ Forall is_flush fs /\ Forall call_ok fs
  /\ forall idx va, (idx < 3)%nat -> aligned va ->
     page_le (x86_page g idx va) (x86_page g' idx va) \/ Exists (fun f => drops f idx va) fs.
Proof.
  intros Hi Hst. destruct Hst as [o g' fs Ho Hr|o excp Hr|cs hf hf2 ef Hf Hf2|m pages Hp Hm].
  - split; [by eapply instruction_inv|].
    destruct (instruction_safe feat o g g' fs Hi Ho Hr) as [[->|[-> Heq]]|(a & -> & -> & ->)].
    + split_and!; [by repeat constructor..|]. intros idx va Hidx _. right. constructor. by apply all_modes.
    + split_and!; [constructor..|]. intros idx va _ _. left. rewrite Heq. apply same_page_le.
    + split_and!; [by apply Forall_singleton|apply Forall_singleton; by split|].
      intros idx va _ _. left. apply same_page_le.
  - split; [by apply set_memory_inv|]. split_and!; [constructor..|]. intros idx va _ _. left. apply same_page_le.
  - split; [|split_and!; [constructor..|]].
    + destruct Hi. split; try done; cbn; by rewrite ?Hf2, ?Hf by decide_now.
    + intros idx va _ _. left. unfold x86_page. cbn [x_mem set_flags].
      assert (Hl : bit_any hf HF_LMA_MASK = false) by (rewrite Hf by decide_now; by apply xi_lma).
      rewrite (rights_env (env_of g) (env_of (set_flags cs hf hf2 ef g)));
        [apply same_page_le|by apply xi_lma|exact Hl|done|intros _; by split_and!].
  - split; [by apply set_memory_inv|]. split_and!.
    + apply Forall_fmap. by apply Forall_true.
    + apply Forall_fmap. eapply Forall_impl; [exact Hp|]. intros a Ha. split; [done|by vm_compute].
    + intros idx va Hidx Hva. destruct (Hm idx va Hidx Hva) as [Hle|Hex]; [by left|right].
      apply Exists_fmap. eapply Exists_impl; [exact Hex|]. intros a Ea. split; [|done].
      by destruct idx as [|[|[|]]]; [..|lia].
Qed.

#[program] Definition x86_mmu (feat : cpu_features) : Mmu x86_guest := {|
  mmu_inv := x86_inv;
  mmu_page := x86_page;
  mmu_idx := x86_idx;
  mmu_fill := x86_fill;
  mmu_step := x86_step feat
|}.
Next Obligation.
  intros _ g ty _. cbn. unfold x86_idx. destruct (x86_idx_num g). lia.
Qed.
Next Obligation.
  intros _ g ty a paddr attrs prot size g' Hi Ha Hf. pose proof (fill_run g ty (x86_idx g ty) a Hi Ha) as H.
  unfold x86_fill, x86_idx in *. rewrite (proj1 (x86_idx_num g)), Hf in H.
  destruct H as (c2 & err & ex & m & -> & Ht & Hsz & Hp & q & Hle & Hpg).
  split_and!; [by apply set_memory_inv|done|done| |done|].
  - intros idx va _ _. rewrite fill_same by done. apply same_page_le.
  - exists q. split; [done|]. rewrite fill_same by done. exact Hpg.
Qed.
Next Obligation.
  intros _ g ty a g' Hi Ha Hf. pose proof (fill_run g ty (x86_idx g ty) a Hi Ha) as H.
  unfold x86_fill, x86_idx in *. rewrite (proj1 (x86_idx_num g)), Hf in H.
  destruct H as (c2 & err & ex & m & -> & Ht). split; [by apply set_memory_inv|].
  intros idx va _ _. rewrite fill_same by done. apply same_page_le.
Qed.
Next Obligation. intros feat g fs g' Hi Hst. by apply (step_pages feat). Qed.

(** ** Accesses and records *)

Section Run.
Context {M : MemoryMap} (feat : cpu_features).
#[local] Instance x86_mmu_of : Mmu x86_guest := x86_mmu feat.

Abbreviation data_type write := (if write : bool then CpuTlb.MMU_DATA_STORE else CpuTlb.MMU_DATA_LOAD).

End Run.

(** ** A run

    A machine with RAM everywhere: the guest turns paging on, an access fills the TLB, the
    guest invalidates the page, and a second access fills it again. *)

#[local] Existing Instance ram_map.
Definition no_features : cpu_features := mk_features false false false false false false false false.
#[local] Hint Extern 0 (Mmu x86_guest) => exact (x86_mmu no_features) : typeclass_instances.

Definition first_guest : x86_guest :=
  mk_guest 0x11 0 0x1000 0 0x8 0 0 0 (-1) 1 0 0 0 0 0 0 0 0 0 0 0 x86_mem.
Abbreviation start := (reset_machine first_guest (blank_tlb 3)).
Abbreviation paging_cr0 := 0x80000011.
Definition paged : x86_guest := (cpu_x86_update_cr0 paging_cr0 first_guest).1.
Definition after_cr0 : machine x86_guest := run_flushes [CallFlush ALL_MMUIDX_BITS] start paged.
Abbreviation load addr := (tlb_access [] (fun _ => false) CpuTlb.MMU_DATA_LOAD addr).
Abbreviation invalidated s := (run_flushes [CallFlushPage 0x403000 ALL_MMUIDX_BITS] s (guest s)).

Lemma x86_loads_complete :
  exists s s', load 0x403123 after_cr0 = Completed s /\ load 0x403128 (invalidated s) = Completed s'
    /\ (x86_idx (guest s') CpuTlb.MMU_DATA_LOAD =? 2)%nat
       && ((x_cpu_index (guest s') =? 1) && (x_cr4 (guest s') =? 0)) = true.
Proof.
  apply (completed_test (load 0x403123 after_cr0) (fun s => load 0x403128 (invalidated s))
    (fun s => (x86_idx (guest s) CpuTlb.MMU_DATA_LOAD =? 2)%nat
       && ((x_cpu_index (guest s) =? 1) && (x_cr4 (guest s) =? 0)))).
  vm_compute. reflexivity.
Qed.

Lemma x86_blank_lengths : Forall lengths_ok (modes (blank_tlb 3)).
Proof. apply Forall_replicate. split_and!; reflexivity. Qed.

Lemma first_x86_inv : x86_inv first_guest.
Proof. by split. Qed.

Lemma cr0_step : mstep start after_cr0.
Proof.
  apply (step_guest start).
  exact (x86_instruction no_features first_guest (WriteCrN 0 paging_cr0) paged _ I eq_refl).
Qed.

Lemma invlpg_step (s : machine x86_guest) : mstep s (invalidated s).
Proof.
  assert (Ha : unsigned 32 0x403000) by done. apply (step_guest s).
  exact (x86_instruction no_features (guest s) (Invlpg 0x403000) (guest s) _ Ha eq_refl).
Qed.


(** The invalidation is needed.  When the guest rewrites the entry of a page and does not
    invalidate it, the next access goes to the old page through the cached translation, and the
    tracer, which walks the tables, finds the new one. *)
Definition rewritten (g : x86_guest) : x86_guest :=
  set_memory (x_cr2 g) (x_error_code g) (x_exception_index g) (put32 0x200C 0x12345063 (x_mem g)) g.

Lemma x86_stale_record :
  exists s s', load 0x403123 after_cr0 = Completed s
    /\ load 0x403128 (mk_machine (rewritten (guest s)) (Coherence.tlb s)) = Completed s'
    /\ (match tlb_host 2 CpuTlb.MMU_DATA_LOAD 0x403128 (Coherence.tlb s') with
        | Some h => h =? 0x7F0000000000 + 0xABCDE128
        | None => false
        end
        && ((qem_get_phys_addr_mem_tracing (regs (env_of (guest s'))) (x_mem (guest s')) 0 0x403128).1
            =? 0x12345128)) = true.
Proof.
  apply (completed_test (load 0x403123 after_cr0)
    (fun s => load 0x403128 (mk_machine (rewritten (guest s)) (Coherence.tlb s)))
    (fun s' => match tlb_host 2 CpuTlb.MMU_DATA_LOAD 0x403128 (Coherence.tlb s') with
        | Some h => h =? 0x7F0000000000 + 0xABCDE128
        | None => false
        end
        && ((qem_get_phys_addr_mem_tracing (regs (env_of (guest s'))) (x_mem (guest s')) 0 0x403128).1
            =? 0x12345128))).
  vm_compute. reflexivity.
Qed.
