(* ===== verification/Timer.v ===== *)
(** * The timer of the tracer

    A guest measures host time with two custom instructions: one stores the time in
    [qem_time_start], the other prints the time since then.  Each backend has its own
    [qem_trace_start_timer] and [qem_trace_get_timer]; the helpers of i386 and PowerPC
    forward to them (ARM has no such instructions).  [TimedSink] states what the
    timer of a backend promises: its calls do not touch the trace, and no call of the
    tracing API touches the timer. *)

From S2P Require Import FileBackend FileMT FileMTProof SmiTrace PrintBackend.
From S2P Require Import Prelude TraceDef Trace Stdio Sink.

(** ** The instructions *)

Inductive timer_call := TimerStart | TimerGet.

(** The timer opcodes of [disas_insn] of i386, and of [ppc_tr_translate_insn]; the two
    bytes that follow the i386 opcode are skipped. *)
Definition x86_timer_insn (b : Z) : option timer_call :=
  if b =? 0x17A then Some TimerStart
  else if b =? 0x17B then Some TimerGet
  else None.

Definition ppc_timer_insn (opcode : Z) : option timer_call :=
  if opcode =? QEM_TRACE_START_TIMER_OP then Some TimerStart
  else if opcode =? QEM_TRACE_GET_TIMER_OP then Some TimerGet
  else None.

Definition elapsed_line (elapsed : Z) : string :=
  ("[QEMU] Elapsed time = " +:+ fmt_u elapsed +:+ newline)%string.

(** ** The interface *)

Class TimedSink (cfg : config) (S : Type) `{TraceSink cfg S} := {
  tm_start : Z -> C S ();
  tm_get : Z -> C S ();
  (** [qem_time_start], and what was printed, last first. *)
  tm_started : S -> Z;
  tm_out : S -> list string;

  tm_start_spec now s : exists s', tm_start now s = Done ((), s') /\
    tm_started s' = u64 now /\ tm_out s' = tm_out s /\
    forall sp, sink_rel sp s -> sink_rel sp s';
  tm_get_spec now s : exists s', tm_get now s = Done ((), s') /\
    tm_started s' = tm_started s /\
    tm_out s' = elapsed_line (u64 (u64 now - tm_started s)) :: tm_out s /\
    forall sp, sink_rel sp s -> sink_rel sp s';
  tm_frame o s s' : sink_run o s s' -> tm_started s' = tm_started s
}.

Section timed.
Context {cfg : config} {S : Type} `{TimedSink cfg S}.

(** [helper_qem_trace_start_timer] and [helper_qem_trace_get_timer]: the clock reads
    [now]. *)
Definition helper_qem_trace_start_timer (now : Z) : C S () := tm_start now.
Definition helper_qem_trace_get_timer (now : Z) : C S () := tm_get now.

Definition timer_helper (c : timer_call) (now : Z) : C S () :=
  match c with
  | TimerStart => helper_qem_trace_start_timer now
  | TimerGet => helper_qem_trace_get_timer now
  end.

Lemma runs_frame os s s' : sink_runs os s s' -> tm_started s' = tm_started s.
Proof. induction 1 as [|o os s s1 s2 Hr _ IH]; [done|]. rewrite IH. by eapply tm_frame. Qed.

(** A timer instruction of an architecture whose opcodes are [insn]. *)
Definition timer_exec (insn : Z -> option timer_call) (b now : Z) : C S () :=
  match insn b with Some c => timer_helper c now | None => mret () end.

(** A run of API calls between two instructions, at the times [t1] and [t2]. *)
Inductive timed_run (insn : Z -> option timer_call) (b1 b2 t1 t2 : Z) (os : list op) (s s' : S) : Prop :=
  | timed s1 s2 :
      timer_exec insn b1 t1 s = Done ((), s1) -> sink_runs os s1 s2 ->
      timer_exec insn b2 t2 s2 = Done ((), s') -> timed_run insn b1 b2 t1 t2 os s s'.

Lemma timed_run_exact insn b1 b2 t1 t2 os sp s :
  insn b1 = Some TimerStart -> insn b2 = Some TimerGet ->
  sink_rel sp s -> ops_ok cfg (sink_max cfg S) os sp ->
  Forall (op_carries cfg (sink_carries cfg S)) os ->
  (exists s', timed_run insn b1 b2 t1 t2 os s s') /\
  forall s', timed_run insn b1 b2 t1 t2 os s s' ->
    head (tm_out s') = Some (elapsed_line (u64 (u64 t2 - u64 t1))) /\
    sink_rel (spec_ops cfg os sp) s'.
Proof.
  intros Hb1 Hb2 Hrel Hok Hc.
  destruct (tm_start_spec t1 s) as (s1 & Hr1 & Hs1 & _ & Hrel1). specialize (Hrel1 sp Hrel).
  assert (He1 : timer_exec insn b1 t1 s = Done ((), s1)) by (unfold timer_exec; by rewrite Hb1).
  split.
  - destruct (sink_runs_progress os sp s1 Hrel1 Hok Hc) as [s2 Hr2].
    destruct (tm_get_spec t2 s2) as (s' & Hr3 & _). exists s'. econstructor; [done..|].
    unfold timer_exec. by rewrite Hb2.
  - intros s' [s1' s2 Hr1' Hr2 Hr3]. rewrite He1 in Hr1'. injection Hr1' as <-.
    unfold timer_exec in Hr3. rewrite Hb2 in Hr3. cbn in Hr3. unfold helper_qem_trace_get_timer in Hr3.
    destruct (tm_get_spec t2 s2) as (s3 & Hr3' & _ & Ho & Hrel3). rewrite Hr3 in Hr3'.
    injection Hr3' as <-. rewrite Ho, (runs_frame _ _ _ Hr2), Hs1. split; [done|].
    apply Hrel3. by eapply sink_runs_sound.
Qed.
End timed.

(** ** The operations of the backends keep the start of the timer *)

#[export] Hint Unfold FileBackend.file_op FileBackend.qem_trace_enable FileBackend.qem_trace_disable
  FileBackend.qem_trace_output FileBackend.qem_init_tracing FileBackend.qem_close_tracing
  FileBackend.qem_write_header FileBackend.flush_buffer FileBackend.store_record : keeps.
#[export] Hint Unfold SmiTrace.smi_op SmiTrace.qem_trace_enable SmiTrace.qem_trace_disable
  SmiTrace.qem_trace_output SmiTrace.qem_init_tracing SmiTrace.qem_close_tracing SmiTrace.check_smi
  SmiTrace.smi_connect SmiTrace.smi_send SmiTrace.smi_flush : keeps.

Lemma file_keeps_time cfg o : keeps FileBackend.qem_time_start (FileBackend.file_op cfg o).
Proof. keeps. Qed.

Lemma smi_keeps_time cfg o : keeps SmiTrace.qem_time_start (SmiTrace.smi_op cfg o).
Proof. keeps. Qed.

Lemma print_keeps_time cfg o : keeps PrintBackend.qem_time_start (PrintBackend.print_op cfg o).
Proof. destruct o; cbn; unfold PrintBackend.qem_trace_enable, PrintBackend.qem_trace_disable, PrintBackend.qem_trace_output; keeps. Qed.

Lemma mt_call_keeps_time cfg o : keeps FileMT.qem_time_start (FileMT.main_call cfg o).
Proof. keeps. Qed.

Lemma mt_main_keeps_time cfg p : keeps FileMT.qem_time_start (FileMT.main_code cfg p).
Proof. keeps. Qed.

Lemma mt_thread_keeps_time cfg i b p : keeps FileMT.qem_time_start (FileMT.thread_code cfg i b p).
Proof. keeps. Qed.

Lemma mt_step_keeps_time cfg m m' :
  FileMT.mt_step cfg m m' ->
  FileMT.qem_time_start (FileMT.mc_state m') = FileMT.qem_time_start (FileMT.mc_state m).
Proof.
  intros [[i|] Hn]; unfold FileMT.mt_next in Hn.
  - destruct (_ !! i) as [[b p]|]; [|done]. injection Hn as Hn.
    destruct (FileMT.thread_code cfg i b p _) as [[[] s]| |] eqn:E; try done.
    injection Hn as <-. by apply mt_thread_keeps_time in E.
  - destruct (FileMT.main_ready m); [|done]. injection Hn as Hn.
    destruct (FileMT.main_code cfg _ _) as [[p s]| |] eqn:E; try done.
    injection Hn as <-. by apply mt_main_keeps_time in E.
Qed.

(** ** The backends *)

#[export] Program Instance file_timer cfg HN HN32 :
    @TimedSink cfg FileBackend.file_state (FileBackend.file_sink cfg HN HN32) := {
  tm_start := FileBackend.qem_trace_start_timer;
  tm_get := FileBackend.qem_trace_get_timer;
  tm_started := FileBackend.qem_time_start;
  tm_out s := w_out (FileBackend.fs_world s)
}.
Next Obligation.
  intros cfg HN HN32 now s. eexists. split; [reflexivity|]. split; [done|]. split; [done|].
  intros sp H. by destruct H; split.
Qed.
Next Obligation.
  intros cfg HN HN32 now s. eexists. split; [reflexivity|]. split; [done|]. split; [done|].
  intros sp H. by destruct H; split.
Qed.
Next Obligation. intros cfg HN HN32 o s s' H. by apply file_keeps_time in H. Qed.

#[export] Program Instance smi_timer cfg bs Hbs max :
    @TimedSink cfg SmiTrace.smi_state (SmiTrace.smi_sink cfg bs Hbs max) := {
  tm_start := SmiTrace.qem_trace_start_timer;
  tm_get := SmiTrace.qem_trace_get_timer;
  tm_started := SmiTrace.qem_time_start;
  tm_out s := w_out (SmiTrace.smi_world s)
}.
Next Obligation.
  intros cfg bs Hbs max now s. eexists. split; [reflexivity|]. split; [done|]. split; [done|].
  intros sp H. by destruct H; split.
Qed.
Next Obligation.
  intros cfg bs Hbs max now s. eexists. split; [reflexivity|]. split; [done|]. split; [done|].
  intros sp H. by destruct H; split.
Qed.
Next Obligation. intros cfg bs Hbs max o s s' H. by apply smi_keeps_time in H. Qed.

(** The timer calls are made by the emulator thread; flush threads can be running. *)
Definition on_machine (m : C FileMT.mt_state ()) : C FileMT.machine () :=
  zoom FileMT.mc_state (fun s m => FileMT.mk_machine (FileMT.mc_main m) s) m.

#[export] Program Instance mt_timer cfg HN HN32 :
    @TimedSink cfg FileMT.machine (FileMTProof.mt_sink cfg HN HN32) := {
  tm_start now := on_machine (FileMT.qem_trace_start_timer now);
  tm_get now := on_machine (FileMT.qem_trace_get_timer now);
  tm_started m := FileMT.qem_time_start (FileMT.mc_state m);
  tm_out m := w_out (FileMT.mt_world (FileMT.mc_state m))
}.
Next Obligation.
  intros cfg HN HN32 now s. eexists. split; [reflexivity|]. split; [done|]. split; [done|].
  intros sp [H Hi]. split; [|done]. destruct s as [p s]. cbn in *. subst p. by destruct H; split.
Qed.
Next Obligation.
  intros cfg HN HN32 now s. eexists. split; [reflexivity|]. split; [done|]. split; [done|].
  intros sp [H Hi]. split; [|done]. destruct s as [p s]. cbn in *. subst p. by destruct H; split.
Qed.
Next Obligation.
  intros cfg HN HN32 o m m' (_ & p & s & Hc & Hs & _).
  apply mt_call_keeps_time in Hc. rewrite <- Hc. clear Hc.
  change s with (FileMT.mc_state (FileMT.mk_machine p s)). set (m1 := FileMT.mk_machine p s) in *. clearbody m1.
  induction Hs as [|x y z Hxy _ IH]; [done|]. rewrite IH. by apply (mt_step_keeps_time cfg).
Qed.

(** ** Properties *)


(** i386 on the multi-threaded backend. *)
Lemma small_buffer : (0 < QEM_TRACE_BUFFER_SIZE (cfg_small true false))%nat.
Proof. cbn. lia. Qed.
Lemma small_buffer_32 : Z.of_nat (QEM_TRACE_BUFFER_SIZE (cfg_small true false)) < 2 ^ 32.
Proof. reflexivity. Qed.

Abbreviation small_mt_run :=
  (@timed_run (cfg_small true false) FileMT.machine
     (FileMTProof.mt_sink (cfg_small true false) small_buffer small_buffer_32)
     (mt_timer (cfg_small true false) small_buffer small_buffer_32)).

