(* ===== verification/System.v ===== *)
(** * The whole tracer: architectures on backends

    A guest is traced by the helpers of its architecture, which call the tracing API
    of the backend the build selects.  The theorems of this file compose the models:
    the sessions read back from the backend are those of the abstract machine run on
    the events of the guest.  Each takes one architecture and one backend; the other
    combinations follow from the same lemma of [Guest]. *)

From S2P Require Import Prelude Bits TraceDef Trace Stdio TraceFile Sink Guest FileMT.
From S2P Require Import FileMTProof SmiTrace I386 ArmMmu Arm PpcMmu Ppc PpcHooks.

(** ** The types of what is recorded *)

(** Whatever the events and the state of the guest, the sessions of an architecture have
    their types. *)
Definition stays_typed {G Ev} (cfg : config) (code : Ev -> Z -> C G (list op)) : Prop :=
  forall es g g' sp', guest_spec cfg code es g spec_init = Done (g', sp') -> spec_typed cfg sp'.


(** ** i386 and the shared memory *)

(** The time stamp counter of the host runs. *)
Definition x86_ticks (e : I386.x86_event) : Prop := 0 < I386.ev_tsc e < 2 ^ 64.

(** The state of the guest is in the events. *)
Definition x86_smi_run (cfg : config) (bs : nat) (Hbs : (0 < bs)%nat) (max : Z)
    (es : list I386.x86_event) (s s' : smi_state) : Prop :=
  guest_run (H := smi_sink cfg bs Hbs max) cfg (I386.x86_code cfg) es ((), s) ((), s').

Lemma x86_spec_total cfg es : forall sp, exists sp', guest_spec cfg (I386.x86_code cfg) es () sp = Done ((), sp').
Proof.
  induction es as [|e es IH]; intros sp; [by exists sp|]. cbn [guest_spec I386.x86_code mret C_ret]. apply IH.
Qed.

Lemma ticking_carried cfg pa core tsc flg :
  QEM_TRACE_GATHER_META cfg = true -> 0 < tsc < 2 ^ 64 ->
  carried cfg (new_trace cfg pa core (rdtsc_time tsc) flg).
Proof.
  intros Hm Ht. split; [apply new_trace_ok|]. unfold is_end, new_trace. rewrite Hm. cbn [timestamp].
  rewrite rdtsc_time_id by lia. rewrite (wrap_small 64 tsc), (proj2 (Z.eqb_neq tsc 0)) by lia. apply andb_false_r.
Qed.

Lemma x86_events_carry cfg :
  QEM_TRACE_GATHER_META cfg = true -> events_carry cfg (I386.x86_code cfg) x86_ticks (carried cfg).
Proof.
  intros Hm e st g ops g' Ht [= <- _].
  assert (Hl : forall k a, Forall (op_carries cfg (carried cfg)) (I386.gen_op_ld_v cfg e st k a)).
  { intros k a. rewrite I386.load_record. unfold when_traced.
    repeat case_match; repeat constructor; by apply ticking_carried. }
  assert (Hs : forall k a, Forall (op_carries cfg (carried cfg)) (I386.gen_op_st_v cfg e st k a)).
  { intros k a. rewrite I386.store_record. unfold when_traced.
    repeat case_match; repeat constructor; by apply ticking_carried. }
  destruct (I386.ev_kind e) as [pc|idx a0|idx a0|n ptr|n ptr|b]; [|done|done| | |].
  - rewrite I386.fetch_record. unfold when_traced. repeat case_match; repeat constructor; by apply ticking_carried.
  - rewrite (proj1 (I386.kernel_records _ _ _ _ _)). case_match; [done|constructor].
  - rewrite (proj2 (I386.kernel_records _ _ _ _ _)). case_match; [done|constructor].
  - unfold I386.disas_insn. repeat case_match; repeat constructor.
Qed.

(** C17: an i386 guest traced over the shared memory, with meta-data and without faults
    of the C library: whatever its instructions, accesses and page tables, and whenever
    it turns tracing on and off, the run reaches its end and the consumer finds in the
    stream exactly the records of the abstract run, session by session. *)
Theorem x86_shared_memory_exact cfg bs (Hbs : (0 < bs)%nat) es w :
  QEM_TRACE_GATHER_META cfg = true -> Forall x86_ticks es -> w_faults w = [] ->
  exists sp', guest_spec cfg (I386.x86_code cfg) es () spec_init = Done ((), sp') /\
    (exists s', x86_smi_run cfg bs Hbs (Z.of_nat (length es)) es (smi_init w) s') /\
    forall s', x86_smi_run cfg bs Hbs (Z.of_nat (length es)) es (smi_init w) s' ->
      smi_sessions cfg bs s' = sp_closed sp'.
Proof.
  intros Hm Hes Hw. destruct (x86_spec_total cfg es spec_init) as [sp' Hsp]. exists sp'. split; [done|].
  destruct (guest_trace_exact (H := smi_sink cfg bs Hbs (Z.of_nat (length es))) cfg (I386.x86_code cfg)
    x86_ticks es () (smi_init w) () sp') as [Hex Hall].
  - apply I386.x86_well_guarded.
  - by apply x86_events_carry.
  - done.
  - apply smi_init_rel. by unfold may_fail.
  - done.
  - cbn. lia.
  - split; [exact Hex|]. intros s' Hs'. by destruct (Hall _ Hs') as (_ & Hr & _).
Qed.

(** The addresses of the records of an abstract run. *)
Definition closed_addresses {G} (o : outcome (G * spec_state)) : option (list (list Z)) :=
  match o with Done (_, sp) => Some (map (map address) (sp_closed sp)) | _ => None end.

(** Tracing on, a store, an instruction, a load of a descriptor, tracing off. *)
Definition x86_events : list I386.x86_event :=
  map (fun k => I386.mk_x86_event (I386.x86_env false) I386.x86_mem 77 0 k)
    [I386.XOpcode 0x1A6; I386.XStore 2 0x403123; I386.XFetch 0x403100; I386.XKernelLoad 4 0x403200;
     I386.XOpcode 0x1A7].


Lemma x86_shared_memory_exact_witness :
  exists s', x86_smi_run (cfg_small true false) 64 ltac:(lia) 5 x86_events (smi_init world0) s' /\
    map (map address) (smi_sessions (cfg_small true false) 64 s') = [[0xABCDE123; 0xABCDE100; 0xABCDE200]].
Proof.
  destruct (x86_shared_memory_exact (cfg_small true false) 64 ltac:(lia) x86_events world0)
    as (sp' & Hsp & [s' Hex] & Hall).
  - reflexivity.
  - repeat constructor.
  - reflexivity.
  - exists s'. split; [exact Hex|]. rewrite (Hall _ Hex).
    pose proof (f_equal closed_addresses Hsp) as Hc. vm_compute in Hc. injection Hc as Hc. exact (eq_sym Hc).
Defined.

(** ** PowerPC and the multi-threaded file backend *)

Definition ppc_mt_run (cfg : config) HN HN32 (es : list PpcHooks.ppc_event)
    (env : CPUPPCState) (m : machine) (env' : CPUPPCState) (m' : machine) : Prop :=
  guest_run (H := mt_sink cfg HN HN32) cfg (PpcHooks.ppc_code cfg) es (env, m) (env', m').


(** Tracing on, a store of two registers, an instruction, tracing off. *)
Definition ppc_events : list PpcHooks.ppc_event :=
  map (PpcHooks.mk_ppc_event (fun env => env) (fun _ => Ppc.ce_junk) (fun _ _ => 0))
    [PpcHooks.PCustom TraceDef.QEM_TRACE_START_OP; PpcHooks.PStmw 0x1234 30; PpcHooks.PFetch 0x1200;
     PpcHooks.PCustom TraceDef.QEM_TRACE_STOP_OP].

